(* ===== verification/_CoqProject ===== *)
-Q . S2P
Prelude.v
RustStr.v
World.v
Peg.v
PegEngine.v
PegText.v
Digest.v
Payload.v
Actions.v
ManifestGrammar.v
Manifest.v
ManifestInv.v
ManifestText.v
ManifestPrint.v
ManifestRuns.v
LibTests.v
MakefileGrammar.v
Makefile.v
MakefileText.v
MakefileIncludes.v
MakefileVars.v
Component.v
Repology.v
MakefileRuns.v
SpecGrammar.v
SpecFile.v
SpecText.v
MacroGrammar.v
Macros.v
MacroText.v
Pkg6dev.v
Sources.v
Workspace.v
Ports.v
PortsRun.v
Image.v
PkgRuns.v
ToolRuns.v
SpecRuns.v
