(* ===== verification/Prelude.v ===== *)
(** * A verification development for the tools of the Image Packaging System

    The repository ([src/]) is a Rust workspace of tools for the Image Packaging
    System (IPS): a library that reads package manifests ([libips]), a reader of
    the makefiles of oi-userland ([userland]), a reader of spec files
    ([specfile]), a tool that builds ports from spec files ([ports]) and a tool
    for package developers ([pkg6dev]).  Each of them parses a text with a parser
    that [pest_derive] generates from a grammar of the repository, walks the token
    tree into records, and works on those.  This development models all of them as
    executable definitions and proves what they compute, on every branch.

    ** Parts and how they interact

    - [Prelude] (this file): [outcome E A] for Rust functions that return a
      [Result] and may panic ([Ok], [Err], [Panic]), [fuelled] for recursion that
      may not end, loops over both, association lists in which the last
      assignment wins, the tactics and hint databases.
    - [RustStr]: the operations of [str] and [String], on the bytes of a text, and
      the parsing of an [i32] with its overflow checks.
    - [World]: files, paths, the current directory, [anyhow] errors, and the crates
      [semver] and [url] as classes.
    - [Peg]: the documented meaning of a pest grammar as a relation, and the class
      [PestEngine] with its laws [PestLaws], against which every parser of the
      program is proved.  [PegEngine]: an interpreter that meets the laws, with its
      soundness, completeness and termination on well-formed grammars; the
      witnesses run on it.  [PegText]: the steps for building derivations over
      texts that are put together from known pieces.
    - [Digest], [Payload], [Actions], [ManifestGrammar], [Manifest]
      ([libips/src/digest], [payload], [actions]): digests and their text form,
      payloads of files, the actions and their conversions from the generic
      [Action], facets as a type class with laws ([FacetedAction]), the grammar
      and the parser of manifests.  [ManifestInv]: the invariant of manifests;
      [ManifestText] and [ManifestPrint]: manifests as texts, printed and parsed.
      [Image] ([libips/src/image]).
    - [MakefileGrammar], [Makefile], [MakefileText], [MakefileIncludes],
      [MakefileVars], [Component], [Repology] ([userland/src]): the parser walk and
      [merge]; makefiles as texts; the reading of included makefiles; the
      resolution of variables; components; the newest version of a package.
    - [SpecGrammar], [SpecFile], [SpecText], [MacroGrammar], [Macros], [MacroText]
      ([specfile/src]): the two parsers, and spec files and script lines as texts.
    - [Pkg6dev] ([pkg6dev/src/main.rs]), which uses [Manifest], [MakefileIncludes],
      [MakefileVars], [Component] and [Repology]; [Sources], [Workspace], [Ports],
      [PortsRun] ([ports/src]), which use [SpecFile], [Macros], [Actions] and
      [Manifest].
    - [ManifestRuns], [MakefileRuns], [PkgRuns], [ToolRuns], [SpecRuns]: the
      properties at concrete inputs; [SpecRuns] reads the repository's own [ports.spec].
    - [LibTests]: the unit tests of [libips/src/lib.rs], run on the model; each
      gives exactly the manifest the test lists.

    A Rust function keeps its name; a loop body is a definition of its own named
    [.._step] or after what it handles ([walk_action], [merge_variable]), and the
    function is the loop ([foldM], [foldF]) of its body.  A method takes [self] as
    an argument; one that changes [self] returns the new value.  Hash maps are
    [gmap]s; where the code iterates over one, the iteration is a list of its
    entries in an order that is not known: an argument of the loop
    ([Makefile.merge_entries]) or the class [Pkg6dev.HashOrder], and the theorems
    hold for all orders ([Makefile.merge_spec], [Pkg6dev.replace_func_spec]).  In
    [Workspace] and [Ports] the effects on the machine are a log, in a state monad
    with the current directory of the process; the machine may refuse each of them,
    may not know the current directory, and may have an environment that is not
    UTF-8, which the program meets with a panic.

    ** What the theorems show

    - Texts, for all four grammars: what a text means, from its characters to the
      records, for texts written from lines, comments, blanks and quotes
      ([ManifestText.parse_string_written], [MakefileText.parse_makefile_written],
      [SpecText.parse_spec_written], [MacroText.parse_line_written]); and that
      printing and parsing lose nothing ([ManifestPrint.parse_print_manifest],
      [MakefileText.parse_print_makefile], [SpecText.parse_print_spec],
      [Digest.digest_roundtrip]).  Two manifests written one after the other are
      parsed to the appended manifest ([ManifestPrint.parse_string_concat]).
    - Parsing, on every text: [Manifest.parse_string_refines],
      [parse_string_cases] and [parse_string_sections], [Makefile.makefile_cases]
      and [parse_string_last_assignment], [SpecFile.parse_cases],
      [Macros.parse_line_refines] and [plain_line_refused] say what is returned,
      which texts are errors and which panic, against a declarative reading of the
      tokens.
    - The invariant of manifests, kept by every operation
      ([ManifestInv.manifest_invariant]): facets and properties are stored under
      their own names, and payloads have digests that can be printed and parsed.
    - Conversions ([Actions]): each record conversion equals its declarative
      specification (last value of each key, facets by name, the rest in order);
      any sequence of facet calls behaves as a map, with the right answers
      ([facet_calls_as_map]).
    - Makefiles: [merge] on every variable, the precedence of includes
      ([parse_all_precedence]), substitution ([get_substitutes]), and when the two
      recursions end ([parse_all_terminates], [get_terminates]) or do not
      ([parse_all_diverges], [get_diverges]).
    - Components: [new_from_makefile_refines] against a declarative reading of the
      variables, and [new_from_makefile_revision] on revisions that fit an
      [i32] and those that do not.
    - Tools: the two file lists of [pkg6dev] as filters and its report of a component
      ([Pkg6dev.show_component_info_spec]), the commands and the
      environment of a build, the downloads of [get_sources], the files and the
      directory of [package]; of the whole of [run_package_command], two safety
      properties and, on a machine that does what it is asked, that it succeeds and
      by which actions ([PortsRun.run_package_succeeds]).
    - Errors and panics that the code meets and a reader may not expect (a line of
      a script without a macro, [+=], a compressed archive, the sources of a spec
      file, a section that takes in the next one) are theorems too.

    ** Fuel

    Two recursions of the program follow data: [parse_all] (files that include
    files) and [get] (variables that refer to variables).  Their fuel is the depth
    of the nesting; a rank that decreases along the nesting is enough, and the
    result does not depend on what is left ([parse_all_terminates],
    [get_terminates]).  When the calls lead back to themselves no fuel is enough.  The interpreter of [PegEngine] computes its own fuel from
    the length of the text and the certificate [WellFormed] of the grammar, and it
    is proved to be enough ([run_total]).

    ** What is not modelled

    Code outside the repository is a parameter with its documented behaviour as
    hypotheses: the parsers pest generates, the regular expression engine, the hash
    functions, the crates [object], [semver], [url], [reqwest], [which] and
    [shellexpand], the derived JSON readers, the operating system.  The parsing of
    command lines by [clap], the derived [Debug] texts and the programs that only
    print a greeting ([pkg6], [pkg6repo], [pkg6depotd]) are left out, as are the
    unit tests of the crates other than [libips].  The texts of [ManifestText] and
    its fellows are families of texts, not all of them (continued lines of a
    manifest, targets of a makefile, macros with parameters are outside); on the
    others the theorems on every text hold.  The counter of the lines of a section
    of a spec file is an integer without bound, where the code has an [i32]: a
    section of more than 2147483647 lines is outside the model.  The file system does not change while
    a program reads it, except in [Workspace], where it may depend on all that was
    done before. *)

From stdpp Require Export base tactics option list gmap strings fin_maps.

(** ** Outcomes of Rust functions

    A Rust function that returns [Result<A, E>] and may panic returns an
    [outcome E A]: [Ok] and [Err] are the two variants of [Result], [Panic] is
    the unwinding of [panic!], [todo!], a failing [unwrap] or an index out of
    range, with the text that says which of them fired. *)
Inductive outcome (E A : Type) : Type :=
| Ok (a : A)
| Err (e : E)
| Panic (why : string).
Arguments Ok {E A} _.
Arguments Err {E A} _.
Arguments Panic {E A} _.

#[global] Instance outcome_ret {E} : MRet (outcome E) := fun A a => Ok a.
#[global] Instance outcome_bind {E} : MBind (outcome E) := fun A B f x =>
  match x with
  | Ok a => f a
  | Err e => Err e
  | Panic w => Panic w
  end.
#[global] Instance outcome_fmap {E} : FMap (outcome E) := fun A B f x =>
  match x with
  | Ok a => Ok (f a)
  | Err e => Err e
  | Panic w => Panic w
  end.
Arguments outcome_bind {E} A B f !x /.
Arguments outcome_fmap {E} A B f !x /.

#[global] Instance outcome_eq_dec `{EqDecision E, EqDecision A} :
  EqDecision (outcome E A).
Proof. solve_decision. Defined.

(** [map_err] is [Result::map_err], the conversion that [?] applies. *)
Definition map_err {E F A} (f : E → F) (x : outcome E A) : outcome F A :=
  match x with
  | Ok a => Ok a
  | Err e => Err (f e)
  | Panic w => Panic w
  end.

(** [unwrap_result why x] is [Result::unwrap]. *)
Definition unwrap_result {E F A} (why : string) (x : outcome E A) : outcome F A :=
  match x with
  | Ok a => Ok a
  | Err _ => Panic why
  | Panic w => Panic w
  end.

(** [ok_or e o] is [Option::ok_or]. *)
Definition ok_or {E A} (e : E) (o : option A) : outcome E A :=
  match o with
  | Some a => Ok a
  | None => Err e
  end.

(** A [Result] that comes from code outside the repository, which does not panic. *)
Definition of_sum {E A} (x : E + A) : outcome E A :=
  match x with
  | inl e => Err e
  | inr a => Ok a
  end.

Definition is_ok {E A} (x : outcome E A) : bool :=
  match x with Ok _ => true | _ => false end.
Definition is_panic {E A} (x : outcome E A) : bool :=
  match x with Panic _ => true | _ => false end.

(** A [for] loop whose body updates the state [s] and may leave with [?] or a
    panic. *)
Fixpoint foldM {E S A} (f : S → A → outcome E S) (s : S) (l : list A) : outcome E S :=
  match l with
  | [] => Ok s
  | a :: l => s' ← f s a; foldM f s' l
  end.

(** [iter.map(f).collect::<Result<Vec<_>, _>>()] *)
Fixpoint collect {E A B} (f : A → outcome E B) (l : list A) : outcome E (list B) :=
  match l with
  | [] => Ok []
  | a :: l => b ← f a; bs ← collect f l; Ok (b :: bs)
  end.

Create HintDb rust.
Create Rewrite HintDb rust_rw.

Section outcome_facts.
Context {E A B : Type}.
Implicit Types (x : outcome E A) (f : A → outcome E B).

Lemma outcome_bind_Ok x f b :
  x ≫= f = Ok b ↔ ∃ a, x = Ok a ∧ f a = Ok b.
Proof. destruct x; naive_solver. Qed.

Lemma outcome_bind_Err x f e :
  x ≫= f = Err e ↔ x = Err e ∨ ∃ a, x = Ok a ∧ f a = Err e.
Proof. destruct x; naive_solver. Qed.

Lemma outcome_bind_Panic x f w :
  x ≫= f = Panic w ↔ x = Panic w ∨ ∃ a, x = Ok a ∧ f a = Panic w.
Proof. destruct x; naive_solver. Qed.

Lemma is_panic_bind x f :
  is_panic (x ≫= f) = match x with Ok a => is_panic (f a) | Err _ => false | Panic _ => true end.
Proof. by destruct x. Qed.

Lemma is_panic_false x : is_panic x = false ↔ ∀ w, x ≠ Panic w.
Proof. destruct x; naive_solver. Qed.
End outcome_facts.

Section foldM_facts.
Context {E S A : Type}.
Implicit Types (f : S → A → outcome E S).

Lemma foldM_app f s l k :
  foldM f s (l ++ k) = foldM f s l ≫= λ s', foldM f s' k.
Proof. revert s; induction l as [|a l IH]; intros s; [done|]. simpl. destruct (f s a); simpl; auto. Qed.

Lemma foldM_snoc f s l a : foldM f s (l ++ [a]) = foldM f s l ≫= λ s', f s' a.
Proof. rewrite foldM_app. destruct (foldM f s l); simpl; [|done..]. by destruct (f _ a). Qed.

(** A body that never fails makes the loop a left fold. *)
Lemma foldM_pure f (g : S → A → S) s l :
  (∀ s a, f s a = Ok (g s a)) → foldM f s l = Ok (foldl g s l).
Proof. intros Hf; revert s; induction l as [|a l IH]; intros s; simpl; [done|]. rewrite Hf. apply IH. Qed.

(** Loop invariant rule. *)
Lemma foldM_invariant f (I : S → Prop) s l s' :
  I s → (∀ s a s', a ∈ l → I s → f s a = Ok s' → I s') → foldM f s l = Ok s' → I s'.
Proof.
  revert s; induction l as [|a l IH]; simpl; intros s Hs Hstep H; [by simplify_eq|].
  apply outcome_bind_Ok in H as (s1 & H1 & H2).
  eapply IH; [|intros; eapply Hstep; [by right|..]; done|done].
  eapply Hstep; [by left|done|done].
Qed.

(** A body that never panics makes a loop that never panics. *)
Lemma foldM_no_panic f s l :
  (∀ s a, a ∈ l → is_panic (f s a) = false) → is_panic (foldM f s l) = false.
Proof.
  revert s; induction l as [|a l IH]; intros s Hf; [done|]. simpl.
  pose proof (Hf s a ltac:(by left)) as Ha. destruct (f s a); simpl in *; try done.
  apply IH. intros; apply Hf; by right.
Qed.

(** A body that either panics, for a reason found in the element alone, or
    updates the state: the loop panics at the first such element. *)
Lemma foldM_guarded f (bad : A → option string) (g : S → A → S) s l :
  (∀ s a, a ∈ l → f s a = match bad a with Some w => Panic w | None => Ok (g s a) end) →
  foldM f s l = match head (omap bad l) with Some w => Panic w | None => Ok (foldl g s l) end.
Proof.
  revert s; induction l as [|a l IH]; intros s Hf; [done|]. simpl. rewrite Hf by (by left).
  destruct (bad a); simpl; [done|]. apply IH. intros; apply Hf; by right.
Qed.
End foldM_facts.

(** A loop that adds what each element gives to an accumulator. *)
Lemma foldM_collect {E A B S} (f : S → A → outcome E S) (h : A → outcome E B) (add : S → B → S) s l :
  (∀ s a, a ∈ l → f s a = (b ← h a; Ok (add s b))) →
  foldM f s l = (bs ← collect h l; Ok (foldl add s bs)).
Proof.
  revert s; induction l as [|a l IH]; intros s Hf; [done|]. cbn [foldM collect].
  rewrite Hf by (by left). destruct (h a) as [b|e|w]; [|done..]. cbn [mbind outcome_bind].
  rewrite IH by (intros; apply Hf; by right). by destruct (collect h l).
Qed.

Lemma collect_pure {E A B} (h : A → outcome E B) (g : A → B) l :
  (∀ a, a ∈ l → h a = Ok (g a)) → collect h l = Ok (g <$> l).
Proof.
  induction l as [|a l IH]; intros Hh; [done|]. cbn [collect]. rewrite Hh by (by left).
  cbn [mbind outcome_bind]. by rewrite IH by (intros; apply Hh; by right).
Qed.

Lemma collect_map_err {E F A B} (g : E → F) (h : A → outcome E B) l :
  collect (λ a, map_err g (h a)) l = map_err g (collect h l).
Proof.
  induction l as [|a l IH]; [done|]. cbn [collect]. rewrite IH.
  destruct (h a); [|done..]. cbn. by destruct (collect h l).
Qed.

Lemma collect_Ok {E A B} (h : A → outcome E B) l bs :
  collect h l = Ok bs ↔ Forall2 (λ a b, h a = Ok b) l bs.
Proof.
  revert bs; induction l as [|a l IH]; intros bs; cbn [collect].
  - split; [intros [= <-]; constructor|]. by intros ->%Forall2_nil_inv_l.
  - rewrite outcome_bind_Ok. split.
    + intros (b & Hb & H). apply outcome_bind_Ok in H as (bs' & Hbs & [= <-]).
      constructor; [done|]. by apply IH.
    + intros (b & bs' & Hb & Hbs & ->)%Forall2_cons_inv_l. exists b. split; [done|].
      apply IH in Hbs as ->. done.
Qed.

(** ** Recursion that may not end

    A function whose recursion is not structural takes fuel and returns a
    [fuelled] outcome, [None] when the fuel does not suffice. *)
Definition fuelled (E A : Type) : Type := option (outcome E A).

Definition fbind {E A B} (x : fuelled E A) (f : A → fuelled E B) : fuelled E B :=
  match x with
  | None => None
  | Some (Ok a) => f a
  | Some (Err e) => Some (Err e)
  | Some (Panic w) => Some (Panic w)
  end.
Notation "x ←! y ; z" := (fbind y (λ x, z))
  (at level 20, y at level 100, z at level 200, only parsing).

(** A [for] loop whose body may not end. *)
Fixpoint foldF {E S A} (f : S → A → fuelled E S) (s : S) (l : list A) : fuelled E S :=
  match l with
  | [] => Some (Ok s)
  | a :: l => s' ←! f s a; foldF f s' l
  end.

Section fuelled_facts.
Context {E : Type}.

Lemma fbind_Some {A B} (x : fuelled E A) (f : A → fuelled E B) y :
  fbind x f = Some y ↔
    (∃ a, x = Some (Ok a) ∧ f a = Some y) ∨ (∃ e, x = Some (Err e) ∧ y = Err e)
    ∨ (∃ w, x = Some (Panic w) ∧ y = Panic w).
Proof. destruct x as [[]|]; simpl; naive_solver. Qed.

Lemma fbind_Ok {A B} (x : fuelled E A) (f : A → fuelled E B) b :
  fbind x f = Some (Ok b) ↔ ∃ a, x = Some (Ok a) ∧ f a = Some (Ok b).
Proof. rewrite fbind_Some. naive_solver. Qed.

(** More fuel for the parts gives the same outcome of the whole. *)
Lemma fbind_mono {A B} (x x' : fuelled E A) (f f' : A → fuelled E B) y :
  (∀ r, x = Some r → x' = Some r) → (∀ a r, f a = Some r → f' a = Some r) →
  fbind x f = Some y → fbind x' f' = Some y.
Proof. intros Hx Hf. rewrite !fbind_Some. naive_solver. Qed.

Lemma foldF_mono {S A} (f f' : S → A → fuelled E S) s l y :
  (∀ s a r, f s a = Some r → f' s a = Some r) → foldF f s l = Some y → foldF f' s l = Some y.
Proof.
  intros Hf. revert s y; induction l as [|a l IH]; intros s y; [done|]. simpl.
  apply fbind_mono; [apply Hf|]. intros s' r. apply IH.
Qed.

Lemma foldF_app {S A} (f : S → A → fuelled E S) s l l' :
  foldF f s (l ++ l') = fbind (foldF f s l) (λ s', foldF f s' l').
Proof.
  revert s; induction l as [|a l IH]; intros s; simpl; [done|].
  destruct (f s a) as [[s'|e|w]|]; simpl; auto.
Qed.

(** A loop ends when its body does. *)
Lemma foldF_total {S A} (f : S → A → fuelled E S) s l :
  (∀ s a, a ∈ l → ∃ r, f s a = Some r) → ∃ r, foldF f s l = Some r.
Proof.
  revert s; induction l as [|a l IH]; intros s Hf; simpl; [by eexists|].
  destruct (Hf s a ltac:(by left)) as [[s'|e|w] ->]; simpl; [|by eexists..].
  apply IH. intros; apply Hf; by right.
Qed.
End fuelled_facts.

(** ** Last-assignment-wins association lists

    The readings of a list of key/value pairs that the conversions of the
    program perform: the value assigned last to a key, and all the values
    assigned to it, in order. *)
Section assoc.
Context {V : Type}.
Implicit Types (kvs : list (string * V)).

Definition values_of (k : string) kvs : list V :=
  snd <$> filter (λ kv, kv.1 = k) kvs.

Definition last_of (k : string) kvs : option V := last (values_of k kvs).

Lemma values_of_cons k k' v kvs :
  values_of k ((k', v) :: kvs) =
    if decide (k' = k) then v :: values_of k kvs else values_of k kvs.
Proof. unfold values_of. rewrite filter_cons. simpl. by case_decide. Qed.

Lemma values_of_app k kvs kvs' :
  values_of k (kvs ++ kvs') = values_of k kvs ++ values_of k kvs'.
Proof. unfold values_of. by rewrite filter_app, fmap_app. Qed.

Lemma values_of_snoc k k' v kvs :
  values_of k (kvs ++ [(k', v)]) =
    if String.eqb k' k then values_of k kvs ++ [v] else values_of k kvs.
Proof.
  rewrite values_of_app, values_of_cons. destruct (String.eqb_spec k' k); case_decide; try done.
  by rewrite app_nil_r.
Qed.

Lemma last_of_snoc k k' v kvs :
  last_of k (kvs ++ [(k', v)]) = if String.eqb k' k then Some v else last_of k kvs.
Proof.
  unfold last_of. rewrite values_of_snoc. destruct (String.eqb k' k); [apply last_snoc|done].
Qed.

(** Inserting the pairs one after the other keeps, for each key, the last. *)
Lemma foldl_insert_lookup (m : gmap string V) kvs k :
  foldl (λ m kv, <[kv.1 := kv.2]> m) m kvs !! k =
    match last_of k kvs with Some v => Some v | None => m !! k end.
Proof.
  induction kvs as [|[k' v] kvs IH] using rev_ind; [done|].
  rewrite foldl_snoc, last_of_snoc. simpl.
  destruct (String.eqb_spec k' k); simplify_map_eq; done.
Qed.

(** Inserting the entries of a map one after the other gives the map. *)
Lemma foldl_insert_map_to_list (m : gmap string V) :
  foldl (λ m kv, <[kv.1 := kv.2]> m) ∅ (map_to_list m) = m.
Proof.
  assert (Hrev : ∀ (l : list (string * V)) (m0 : gmap string V),
    foldl (λ m kv, <[kv.1 := kv.2]> m) m0 l = foldr (λ kv, <[kv.1 := kv.2]>) m0 (reverse l)).
  { induction l as [|kv l IH]; intros m0; [done|]. by rewrite reverse_cons, foldr_app, <-IH. }
  rewrite Hrev. etrans; [|apply list_to_map_to_list].
  change (foldr _ ∅ (reverse (map_to_list m))) with (list_to_map (M := gmap string V) (reverse (map_to_list m))).
  apply list_to_map_proper; [|apply reverse_Permutation].
  rewrite fmap_reverse, reverse_Permutation. apply NoDup_fst_map_to_list.
Qed.
End assoc.

#[export] Hint Rewrite @values_of_app @last_of_snoc : rust_rw.

(** A loop that only changes a part of its state. *)
Lemma foldl_through {A B C} (F : A → B) (f : A → C → A) (g : B → C → B) l a :
  Forall (λ c, ∀ a, g (F a) c = F (f a c)) l → foldl g (F a) l = F (foldl f a l).
Proof. intros Hl. revert a. induction Hl as [|c l Hc _ IH]; intros a; [done|]. simpl. by rewrite Hc. Qed.

Lemma foldM_through {E A B C} (F : A → B) (f : A → C → A) (g : B → C → outcome E B) l a :
  Forall (λ c, ∀ a, g (F a) c = Ok (F (f a c))) l → foldM g (F a) l = Ok (F (foldl f a l)).
Proof. intros Hl. revert a. induction Hl as [|c l Hc _ IH]; intros a; [done|]. simpl. rewrite Hc. apply IH. Qed.

(** A loop that pushes the elements that pass a test is a filter. *)
Lemma foldl_filter {A} (f : list A → A → list A) (P : A → Prop) `{∀ a, Decision (P a)} l :
  (∀ acc a, f acc a = if decide (P a) then acc ++ [a] else acc) → foldl f [] l = filter P l.
Proof.
  intros Hf. enough (∀ acc, foldl f acc l = acc ++ filter P l) as Hgo by apply Hgo.
  induction l as [|a l IH]; intros acc; simpl; [by rewrite app_nil_r|].
  rewrite Hf, filter_cons, IH. case_decide; [|done]. by rewrite <-(assoc_L (++)).
Qed.

(** ** Tactics *)

(** Splits a hypothesis about the outcome of a sequence of binds. *)
Ltac inv_outcome :=
  repeat match goal with
  | H : _ ≫= _ = Ok _ |- _ => apply outcome_bind_Ok in H as (? & ? & ?)
  | H : Ok _ = Ok _ |- _ => injection H as H; try subst
  | H : Ok _ = Err _ |- _ => discriminate H
  | H : Ok _ = Panic _ |- _ => discriminate H
  | H : Err _ = Ok _ |- _ => discriminate H
  | H : Panic _ = Ok _ |- _ => discriminate H
  | H : mret _ = Ok _ |- _ => unfold mret, outcome_ret in H
  end.

(** Case analysis on the string comparisons of a [match] on literals. *)
Ltac case_str :=
  repeat match goal with
  | |- context [String.eqb ?a ?b] => destruct (String.eqb_spec a b); try subst; try done
  | H : context [String.eqb ?a ?b] |- _ => destruct (String.eqb_spec a b); try subst; try done
  end.

(** Takes the conjunctions and the existential hypotheses apart. *)
Ltac destruct_hyps :=
  repeat match goal with
  | H : _ ∧ _ |- _ => destruct H
  | H : ∃ _, _ |- _ => destruct H
  end.
