(* ===== verification/RustStr.v ===== *)
(** * RustStr: the operations of [str] and [String] the program uses

    A Rust string is its UTF-8 bytes, a [string] of Stdlib.  The operations the
    program calls with an ASCII argument ([contains], [find], [split],
    [split_once], [replace], [starts_with]) act on bytes exactly as they do on
    characters, because the bytes of an ASCII character never occur inside the
    encoding of another one.  [trim] knows the encodings of all the Unicode white
    space; [to_lowercase] is the ASCII part of the Rust function (the only use
    compares the result with ASCII words, and no other character has a lower
    case made of their letters). *)

From S2P Require Import Prelude.
From Stdlib Require Export Ascii.

(** ** Characters with no printable literal *)
Definition DQUOTE : ascii := "034"%char.
Definition BACKSLASH : ascii := "092"%char.
Definition LF : ascii := "010"%char.
Definition CR : ascii := "013"%char.
Definition TAB : ascii := "009"%char.
Definition chr (a : ascii) : string := String a EmptyString.

(** ** Operations *)

Definition is_empty (s : string) : bool :=
  match s with EmptyString => true | _ => false end.

(** [s.contains(c)] *)
Fixpoint contains_char (c : ascii) (s : string) : bool :=
  match s with
  | EmptyString => false
  | String a s => Ascii.eqb a c || contains_char c s
  end.

(** [s.find(c)]: the index of the first [c]. *)
Fixpoint find_char (c : ascii) (s : string) : option nat :=
  match s with
  | EmptyString => None
  | String a s => if Ascii.eqb a c then Some 0 else S <$> find_char c s
  end.

(** [s.split_off(n)]: what follows the first [n] bytes. *)
Fixpoint split_off (n : nat) (s : string) : string :=
  match n, s with
  | O, _ => s
  | S n, String _ s => split_off n s
  | S _, EmptyString => EmptyString
  end.

(** The first [n] bytes. *)
Fixpoint take_bytes (n : nat) (s : string) : string :=
  match n, s with
  | S n, String a s => String a (take_bytes n s)
  | _, _ => EmptyString
  end.

(** [s.split(c).collect::<Vec<_>>()] *)
Fixpoint split_char (c : ascii) (s : string) : list string :=
  match s with
  | EmptyString => [EmptyString]
  | String a s =>
      if Ascii.eqb a c then EmptyString :: split_char c s
      else match split_char c s with
           | p :: ps => String a p :: ps
           | [] => [chr a]
           end
  end.

(** [s.split_once(c)] *)
Fixpoint split_once (c : ascii) (s : string) : option (string * string) :=
  match s with
  | EmptyString => None
  | String a s =>
      if Ascii.eqb a c then Some (EmptyString, s)
      else (λ p, (String a p.1, p.2)) <$> split_once c s
  end.

(** [s.replace([c1, c2, ..], "")] *)
Fixpoint remove_chars (cs : list ascii) (s : string) : string :=
  match s with
  | EmptyString => EmptyString
  | String a s =>
      if existsb (Ascii.eqb a) cs then remove_chars cs s
      else String a (remove_chars cs s)
  end.

(** [s.starts_with(p)] *)
Definition starts_with (p s : string) : bool := String.prefix p s.

(** [s.replacen(pat, to, n)], and [s.replace(pat, to)] when [limit] is [None],
    for a [pat] that is not empty: the matches are found from the left and do
    not overlap.  [skip] is what is left of a match already replaced. *)
Fixpoint replace_go (pat to : string) (limit : option nat) (skip : nat) (s : string) : string :=
  match s with
  | EmptyString => EmptyString
  | String a s' =>
      match skip with
      | S k => replace_go pat to limit k s'
      | O =>
          if starts_with pat s && bool_decide (limit ≠ Some 0)
          then to +:+ replace_go pat to (pred <$> limit) (pred (String.length pat)) s'
          else String a (replace_go pat to limit 0 s')
      end
  end.
Definition replace_str (pat to s : string) : string := replace_go pat to None 0 s.
Definition replacen_str (pat to : string) (n : nat) (s : string) : string :=
  replace_go pat to (Some n) 0 s.

(** [v.join(sep)] *)
Fixpoint join (sep : string) (l : list string) : string :=
  match l with
  | [] => EmptyString
  | [s] => s
  | s :: l => s +:+ sep +:+ join sep l
  end.

(** [s.lines()]: the pieces between line feeds, each without the carriage return
    before its line feed; the last piece only if there is something in it. *)
Fixpoint strip_cr (s : string) : string :=
  match s with
  | EmptyString => EmptyString
  | String a EmptyString => if Ascii.eqb a CR then EmptyString else s
  | String a s => String a (strip_cr s)
  end.
Fixpoint lines_of (pieces : list string) : list string :=
  match pieces with
  | [] => []
  | [p] => if is_empty p then [] else [p]
  | p :: ps => strip_cr p :: lines_of ps
  end.
Definition lines (s : string) : list string := lines_of (split_char LF s).

(** Texts that no literal can write: lines, and a text in double quotes. *)
Definition text (ls : list string) : string := join (chr LF) ls.
Definition quoted (s : string) : string := String DQUOTE (s +:+ chr DQUOTE).

Definition ascii_lower (a : ascii) : ascii :=
  let n := nat_of_ascii a in
  if (65 <=? n) && (n <=? 90) then ascii_of_nat (n + 32) else a.

(** [s.to_lowercase()], on the ASCII characters. *)
Fixpoint to_lowercase (s : string) : string :=
  match s with
  | EmptyString => EmptyString
  | String a s => String (ascii_lower a) (to_lowercase s)
  end.

(** The UTF-8 encodings of the characters with the property [White_Space]. *)
Definition bytes_str (l : list nat) : string :=
  foldr (λ n s, String (ascii_of_nat n) s) EmptyString l.
Definition white_space : list string :=
  bytes_str <$> ((λ n, [n]) <$> [9; 10; 11; 12; 13; 32])
    ++ [[194; 133]; [194; 160]; [225; 154; 128]]
    ++ ((λ n, [226; 128; n]) <$> [128; 129; 130; 131; 132; 133; 134; 135; 136; 137; 138])
    ++ [[226; 128; 168]; [226; 128; 169]; [226; 128; 175]; [226; 129; 159]; [227; 128; 128]].

(** The length of the white space [s] starts with, 0 when it starts with none. *)
Definition leading_space (s : string) : nat :=
  match filter (λ w, starts_with w s) white_space with
  | w :: _ => String.length w
  | [] => 0
  end.

(** [s.trim_start()]; the counter consumes the rest of a multi-byte space. *)
Fixpoint trim_start_go (skip : nat) (s : string) : string :=
  match s with
  | EmptyString => EmptyString
  | String _ s' =>
      match skip with
      | S k => trim_start_go k s'
      | O => match leading_space s with
             | O => s
             | S k => trim_start_go k s'
             end
      end
  end.
Definition trim_start (s : string) : string := trim_start_go 0 s.

(** [s.trim_end()]: the longest suffix made of white space is dropped. *)
Fixpoint trim_end (s : string) : string :=
  match s with
  | EmptyString => EmptyString
  | String a s' => if is_empty (trim_start s) then EmptyString else String a (trim_end s')
  end.

Definition trim (s : string) : string := trim_end (trim_start s).

(** ** Facts *)

Lemma str_app_cons a s t : String a s +:+ t = String a (s +:+ t).
Proof. done. Qed.

Lemma str_app_nil_l s : EmptyString +:+ s = s.
Proof. done. Qed.

Lemma str_app_nil_r s : s +:+ EmptyString = s.
Proof. induction s as [|a s IH]; [done|]. by rewrite str_app_cons, IH. Qed.

Lemma str_app_assoc s t u : s +:+ (t +:+ u) = (s +:+ t) +:+ u.
Proof. induction s as [|a s IH]; [done|]. by rewrite !str_app_cons, IH. Qed.

Lemma str_app_length s t : String.length (s +:+ t) = String.length s + String.length t.
Proof. induction s as [|a s IH]; [done|]. rewrite str_app_cons. simpl. by rewrite IH. Qed.

Lemma str_app_inj s t u : s +:+ t = s +:+ u → t = u.
Proof. induction s as [|a s IH]; [done|]. rewrite !str_app_cons. intros [=]; auto. Qed.

#[export] Hint Rewrite str_app_cons str_app_nil_l str_app_nil_r str_app_length : rust_rw.

(** A byte is compared by [Ascii.eqb]; this is its case analysis. *)
Ltac case_ascii :=
  repeat match goal with
  | |- context [Ascii.eqb ?a ?a] => rewrite (Ascii.eqb_refl a)
  | H : context [Ascii.eqb ?a ?a] |- _ => rewrite (Ascii.eqb_refl a) in H
  | |- context [Ascii.eqb ?a ?b] => destruct (Ascii.eqb_spec a b); try subst
  | H : context [Ascii.eqb ?a ?b] |- _ => destruct (Ascii.eqb_spec a b); try subst
  end; simpl in *; try done.

Lemma contains_char_app c s t :
  contains_char c (s +:+ t) = contains_char c s || contains_char c t.
Proof.
  induction s as [|a s IH]; [done|]. rewrite str_app_cons. simpl. by rewrite IH, orb_assoc.
Qed.
#[export] Hint Rewrite contains_char_app : rust_rw.

Lemma find_char_None c s : find_char c s = None ↔ contains_char c s = false.
Proof.
  induction s as [|a s IH]; simpl; [done|]. case_ascii.
  by rewrite fmap_None.
Qed.

(** [find] gives the split at the first occurrence. *)
Lemma find_char_Some c s i :
  find_char c s = Some i ↔
    s = take_bytes i s +:+ String c (split_off (S i) s) ∧
    contains_char c (take_bytes i s) = false ∧ i < String.length s.
Proof.
  revert i; induction s as [|a s IH]; intros i; simpl; [split; [done|intros (_&_&?); lia]|].
  case_ascii.
  - destruct i as [|i]; simpl.
    + split; [intros _|done]. split_and!; [done|done|lia].
    + case_ascii. split; [done|]. by intros (?&?&?).
  - destruct i as [|i]; simpl.
    + split; [by intros (?&?&?)%fmap_Some|]. intros ([= ->] &?&?). done.
    + case_ascii. rewrite str_app_cons. rewrite fmap_Some. split.
      * intros (j & Hj & [= <-]). apply IH in Hj as (Hs & ? & ?).
        split_and!; [by rewrite <-Hs|done|lia].
      * intros ([= Hs] & ? & ?). exists i. split; [|done]. apply IH. split_and!; [done|done|lia].
Qed.

Lemma find_char_app c s t :
  contains_char c s = false → find_char c (s +:+ String c t) = Some (String.length s).
Proof.
  induction s as [|a s IH]; intros H; rewrite ?str_app_cons; simpl in *; case_ascii.
  by rewrite IH.
Qed.

Lemma split_off_app s t : split_off (String.length s) (s +:+ t) = t.
Proof. induction s as [|a s IH]; [by destruct t|]. done. Qed.

Lemma take_bytes_app s t : take_bytes (String.length s) (s +:+ t) = s.
Proof. induction s as [|a s IH]; [by destruct t|]. rewrite str_app_cons; simpl. by rewrite IH. Qed.

Lemma split_off_S_app s a t : split_off (S (String.length s)) (s +:+ String a t) = t.
Proof. induction s as [|b s IH]; [by destruct t|]. done. Qed.

Lemma take_split_off n s : take_bytes n s +:+ split_off n s = s.
Proof.
  revert s; induction n as [|n IH]; intros [|a s]; simpl; try done. by rewrite str_app_cons, IH.
Qed.

Lemma split_char_ne c s : split_char c s ≠ [].
Proof. destruct s as [|a s]; simpl; [done|]. case_ascii. by destruct (split_char c s). Qed.

(** A text without the separator is its only piece. *)
Lemma split_char_none c s : contains_char c s = false → split_char c s = [s].
Proof.
  induction s as [|a s IH]; simpl; [done|]. case_ascii. intros H. by rewrite (IH H).
Qed.

(** The first separator ends the first piece. *)
Lemma split_char_app c s t :
  contains_char c s = false → split_char c (s +:+ String c t) = s :: split_char c t.
Proof.
  induction s as [|a s IH]; intros H; rewrite ?str_app_cons; simpl in *; case_ascii.
  by rewrite (IH H).
Qed.

(** Joining the pieces with the separator gives the text back. *)
Lemma join_split_char c s : join (chr c) (split_char c s) = s.
Proof.
  induction s as [|a s IH]; simpl; [done|]. pose proof (split_char_ne c s).
  case_ascii; destruct (split_char c s) as [|p [|q ps]]; simpl in *; try done.
  - by rewrite <-IH.
  - by rewrite <-IH.
  - by rewrite IH.
  - by rewrite <-IH, str_app_cons.
Qed.

(** What follows a separator is split on its own. *)
Lemma split_char_app_sep c s t : split_char c (s +:+ String c t) = split_char c s ++ split_char c t.
Proof.
  induction s as [|a s IH]; [rewrite str_app_nil_l; cbn [split_char]; by rewrite Ascii.eqb_refl|]. rewrite str_app_cons. cbn [split_char].
  rewrite IH. pose proof (split_char_ne c s). destruct (Ascii.eqb a c); [done|].
  by destruct (split_char c s).
Qed.

(** No piece holds the separator. *)
Lemma split_char_pieces c s : Forall (λ p, contains_char c p = false) (split_char c s).
Proof.
  induction s as [|a s IH]; simpl; [by repeat constructor|].
  case_ascii; [by constructor|]. destruct IH as [|p ps Hp Hps]; constructor; simpl; case_ascii.
Qed.

Lemma remove_chars_app cs s t : remove_chars cs (s +:+ t) = remove_chars cs s +:+ remove_chars cs t.
Proof.
  induction s as [|a s IH]; [done|]. rewrite str_app_cons. simpl.
  destruct (existsb _ cs); [done|]. by rewrite IH, str_app_cons.
Qed.

(** The removed characters are gone. *)
Lemma remove_chars_clean c cs s :
  existsb (Ascii.eqb c) cs = true → contains_char c (remove_chars cs s) = false.
Proof.
  intros Hc. induction s as [|a s IH]; simpl; [done|].
  destruct (existsb (Ascii.eqb a) cs) eqn:Ha; [done|]. simpl. case_ascii. congruence.
Qed.

(** A text without them is unchanged. *)
Lemma remove_chars_id cs s :
  Forall (λ c, contains_char c s = false) cs → remove_chars cs s = s.
Proof.
  induction s as [|a s IH]; simpl; intros Hcs; [done|].
  destruct (existsb (Ascii.eqb a) cs) eqn:Ha.
  - apply existsb_exists in Ha as (c & Hin & Hac). apply list_elem_of_In in Hin.
    rewrite Forall_forall in Hcs. specialize (Hcs c Hin). by rewrite Hac in Hcs.
  - f_equal. apply IH. eapply Forall_impl; [done|]. simpl. intros c Hc.
    by apply orb_false_iff in Hc as [_ ?].
Qed.

Lemma contains_remove_chars c cs s :
  contains_char c s = false → contains_char c (remove_chars cs s) = false.
Proof.
  induction s as [|a s IH]; simpl; [done|]. case_ascii. intros H.
  destruct (existsb _ cs); simpl; [auto|]. case_ascii. auto.
Qed.

#[export] Hint Resolve split_char_ne split_char_none contains_remove_chars : rust.

(** ** UTF-8 *)

Definition byte_in (lo hi : nat) (a : ascii) : bool :=
  (lo <=? nat_of_ascii a) && (nat_of_ascii a <=? hi).

(** The well-formed byte sequences of RFC 3629; [str::from_utf8] and
    [Path::to_str] accept these and nothing else. *)
Fixpoint utf8_valid (s : string) : bool :=
  match s with
  | EmptyString => true
  | String a s1 =>
      let cont := byte_in 128 191 in
      if byte_in 0 127 a then utf8_valid s1
      else match s1 with
      | EmptyString => false
      | String b s2 =>
          if byte_in 194 223 a then cont b && utf8_valid s2
          else match s2 with
          | EmptyString => false
          | String c s3 =>
              if byte_in 224 224 a then byte_in 160 191 b && cont c && utf8_valid s3
              else if byte_in 237 237 a then byte_in 128 159 b && cont c && utf8_valid s3
              else if byte_in 225 239 a then cont b && cont c && utf8_valid s3
              else match s3 with
              | EmptyString => false
              | String d s4 =>
                  if byte_in 240 240 a then byte_in 144 191 b && cont c && cont d && utf8_valid s4
                  else if byte_in 241 243 a then cont b && cont c && cont d && utf8_valid s4
                  else if byte_in 244 244 a then byte_in 128 143 b && cont c && cont d && utf8_valid s4
                  else false
              end
          end
      end
  end.

(** Valid texts after each other are valid. *)
Lemma utf8_valid_app s t : utf8_valid s = true → utf8_valid (s +:+ t) = utf8_valid t.
Proof.
  remember (String.length s) as n eqn:Hn. revert s Hn.
  induction (lt_wf n) as [n _ IH]. intros s -> Hs.
  assert (Hgo : ∀ u, String.length u < String.length s → utf8_valid u = true → utf8_valid (u +:+ t) = utf8_valid t).
  { intros u Hu. by apply (IH (String.length u)). }
  clear IH.
  destruct s as [|a s1]; [done|]. rewrite str_app_cons. cbn [utf8_valid] in *.
  destruct (byte_in 0 127 a); [apply Hgo; [simpl; lia|done]|].
  destruct s1 as [|b s2]; [done|]. rewrite str_app_cons.
  destruct (byte_in 194 223 a).
  { apply andb_true_iff in Hs as [-> Hs]. apply Hgo; [simpl; lia|done]. }
  destruct s2 as [|c s3]; [done|]. rewrite str_app_cons.
  do 3 match goal with |- context [if byte_in ?x ?y a then _ else _] =>
    destruct (byte_in x y a); [rewrite !andb_true_iff in Hs; destruct Hs as [[-> ->] Hs]; apply Hgo; [simpl; lia|done]|] end.
  destruct s3 as [|d s4]; [done|]. rewrite str_app_cons.
  do 3 match goal with |- context [if byte_in ?x ?y a then _ else _] =>
    destruct (byte_in x y a); [rewrite !andb_true_iff in Hs; destruct Hs as [[[-> ->] ->] Hs]; apply Hgo; [simpl; lia|done]|] end.
  done.
Qed.

Lemma str_app_inj_r s t u : s +:+ u = t +:+ u → s = t.
Proof.
  intros H. assert (Hl : String.length s = String.length t).
  { apply (f_equal String.length) in H. rewrite !str_app_length in H. lia. }
  revert t H Hl; induction s as [|a s IH]; intros [|b t] H Hl; try done.
  rewrite !str_app_cons in H. injection H as -> H. f_equal. apply IH; [done|]. by injection Hl.
Qed.

Lemma starts_with_app p s : starts_with p (p +:+ s) = true.
Proof.
  induction p as [|a p IH]; [by destruct s|]. rewrite str_app_cons. simpl.
  destruct (ascii_dec a a); [done|congruence].
Qed.

Lemma starts_with_inv p s : starts_with p s = true → ∃ t, s = p +:+ t.
Proof.
  revert s; induction p as [|a p IH]; intros s H; [by exists s|].
  destruct s as [|b s]; simpl in H; [done|]. destruct (ascii_dec a b); [|done]. subst.
  apply IH in H as [t ->]. by exists t.
Qed.

(** ** Replacement *)

Lemma replace_go_skip pat to limit s t :
  replace_go pat to limit (String.length s) (s +:+ t) = replace_go pat to limit 0 t.
Proof. induction s as [|a s IH]; [done|]. rewrite str_app_cons. apply IH. Qed.

(** No match is left to replace. *)
Lemma replace_go_0 pat to s : replace_go pat to (Some 0) 0 s = s.
Proof. induction s as [|a s IH]; [done|]. cbn [replace_go]. by rewrite andb_false_r, IH. Qed.

(** A text without the first character of the pattern has no match. *)
Lemma replace_go_none a p to limit s t :
  contains_char a s = false →
  replace_go (String a p) to limit 0 (s +:+ t) = s +:+ replace_go (String a p) to limit 0 t.
Proof.
  induction s as [|b s IH]; intros Hs; [done|]. rewrite !str_app_cons. cbn [replace_go].
  simpl in Hs. apply orb_false_iff in Hs as [Hb Hs]. apply Ascii.eqb_neq in Hb.
  assert (starts_with (String a p) (String b (s +:+ t)) = false) as ->.
  { unfold starts_with. simpl. destruct (ascii_dec a b); congruence. }
  cbn [andb]. by rewrite IH.
Qed.

Lemma replace_go_match a p to limit t :
  limit ≠ Some 0 →
  replace_go (String a p) to limit 0 (String a p +:+ t) =
    to +:+ replace_go (String a p) to (pred <$> limit) 0 t.
Proof.
  intros Hl. rewrite str_app_cons. cbn [replace_go]. rewrite <-str_app_cons, starts_with_app.
  rewrite bool_decide_true by done. cbn [andb String.length pred]. by rewrite replace_go_skip.
Qed.

(** [replacen] with 1 replaces the first occurrence. *)
Lemma replacen_first a p to pre post :
  contains_char a pre = false →
  replacen_str (String a p) to 1 (pre +:+ String a p +:+ post) = pre +:+ to +:+ post.
Proof.
  intros Hpre. unfold replacen_str. rewrite replace_go_none, replace_go_match by done.
  simpl. by rewrite replace_go_0.
Qed.

(** ** Integers *)

Local Open Scope Z_scope.

Definition i32_min : Z := -2147483648.
Definition i32_max : Z := 2147483647.
Definition in_i32 (z : Z) : bool := (i32_min <=? z) && (z <=? i32_max).

(** A checked operation on [i32]: its result, when it fits. *)
Definition checked_i32 (z : Z) : option Z := if in_i32 z then Some z else None.

Definition digit_value (a : ascii) : option Z :=
  let n := Z.of_nat (nat_of_ascii a) in
  if (48 <=? n) && (n <=? 57) then Some (n - 48) else None.

(** One more digit: [checked_mul(10)], then [checked_add] or, for a negative
    number, [checked_sub]. *)
Definition push_digit (sign : Z) (acc : Z) (a : ascii) : option Z :=
  d ← digit_value a; acc ← checked_i32 (acc * 10); checked_i32 (acc + sign * d).

Fixpoint push_digits (sign : Z) (acc : Z) (s : string) : option Z :=
  match s with
  | EmptyString => Some acc
  | String a s => acc ← push_digit sign acc a; push_digits sign acc s
  end.

(** [s.parse::<i32>().ok()] *)
Definition parse_i32 (s : string) : option Z :=
  match s with
  | EmptyString => None
  | String "-" (String _ _ as s) => push_digits (-1) 0 s
  | String "+" (String _ _ as s) => push_digits 1 0 s
  | _ => push_digits 1 0 s
  end.

Lemma checked_i32_Some z y : checked_i32 z = Some y ↔ y = z ∧ in_i32 z = true.
Proof. unfold checked_i32. destruct (in_i32 z); naive_solver. Qed.

Lemma push_digits_bound sign acc s z :
  in_i32 acc = true → push_digits sign acc s = Some z → in_i32 z = true.
Proof.
  revert acc; induction s as [|a s IH]; intros acc Hacc; simpl; [by intros [= <-]|].
  intros (acc' & Ha & Hs)%bind_Some. eapply IH, Hs. unfold push_digit in Ha.
  apply bind_Some in Ha as (d & _ & Ha). apply bind_Some in Ha as (x & _ & Ha).
  by apply checked_i32_Some in Ha as [-> ?].
Qed.

(** What [parse] returns fits. *)
Lemma parse_i32_bound s z : parse_i32 s = Some z → in_i32 z = true.
Proof.
  unfold parse_i32. intros Hz.
  enough (∃ sign s', push_digits sign 0 s' = Some z) as (sg & s' & Hs').
  { by eapply push_digits_bound, Hs'. }
  destruct s as [|a s]; [done|].
  destruct a as [[] [] [] [] [] [] [] []], s; eauto.
Qed.

(** The number that a text of digits denotes. *)
Fixpoint digits_value (acc : Z) (s : string) : option Z :=
  match s with
  | EmptyString => Some acc
  | String a s => d ← digit_value a; digits_value (acc * 10 + d) s
  end.

Lemma digit_value_range a d : digit_value a = Some d → 0 <= d <= 9.
Proof. unfold digit_value. case_match eqn:H; intros [= <-]. lia. Qed.

Lemma digits_value_grows acc s z : 0 <= acc → digits_value acc s = Some z → acc <= z.
Proof.
  revert acc; induction s as [|a s IH]; intros acc Hacc; simpl; [intros [= <-]; lia|].
  intros (d & Hd%digit_value_range & Hs)%bind_Some. apply IH in Hs; lia.
Qed.

(** The digits are added up as long as the number fits; the sign is 1 or -1. *)
Lemma push_digits_value sign acc s :
  (sign = 1 ∨ sign = -1) → 0 <= acc → in_i32 (sign * acc) = true →
  push_digits sign (sign * acc) s = (z ← digits_value acc s; checked_i32 (sign * z)).
Proof.
  intros Hsign. revert acc. induction s as [|a s IH]; intros acc Hacc Hin; simpl.
  { unfold checked_i32. by rewrite Hin. }
  unfold push_digit. destruct (digit_value a) as [d|] eqn:Hd; simpl; [|done].
  apply digit_value_range in Hd. unfold checked_i32.
  destruct (in_i32 (sign * acc * 10)) eqn:H10; simpl;
    [destruct (in_i32 (sign * acc * 10 + sign * d)) eqn:Hfit; simpl|].
  - replace (sign * acc * 10 + sign * d) with (sign * (acc * 10 + d)) in * by lia.
    apply IH; [lia|done].
  - symmetry. destruct (digits_value _ s) as [z|] eqn:Hz; simpl; [|done].
    apply digits_value_grows in Hz; [|lia]. unfold in_i32, i32_min, i32_max in *.
    destruct Hsign; subst; case_match; [lia|done|lia|done].
  - symmetry. destruct (digits_value _ s) as [z|] eqn:Hz; simpl; [|done].
    apply digits_value_grows in Hz; [|lia]. unfold in_i32, i32_min, i32_max in *.
    destruct Hsign; subst; case_match; [lia|done|lia|done].
Qed.

(** A number as [parse] reads it, of any size: digits, with a sign before them or
    none. *)
Definition signed_number (s : string) (z : Z) : Prop :=
  ∃ ds n, ds ≠ "" ∧ digits_value 0 ds = Some n ∧
    ((s = ds ∧ z = n) ∨ (s = "+" +:+ ds ∧ z = n) ∨ (s = "-" +:+ ds ∧ z = - n)).

(** The same by cases on the text. *)
Definition number_of (s : string) : option Z :=
  match s with
  | EmptyString => None
  | String "-" (String _ _ as s) => Z.opp <$> digits_value 0 s
  | String "+" (String _ _ as s) => digits_value 0 s
  | _ => digits_value 0 s
  end.

Lemma number_of_spec s z : number_of s = Some z ↔ signed_number s z.
Proof.
  split.
  - assert (∀ n, s ≠ "" → digits_value 0 s = Some n → signed_number s n) as Hplain.
    { intros n Hs Hn. exists s, n. eauto. }
    unfold number_of. destruct s as [|a s]; [done|].
    destruct a as [[] [] [] [] [] [] [] []], s as [|b s]; intros Hz; try (by apply Hplain).
    + exists (String b s), z. eauto 10.
    + apply fmap_Some in Hz as (n & Hn & ->). exists (String b s), n. eauto 10.
  - intros (ds & n & Hds & Hn & [[-> ->]|[[-> ->]|[-> ->]]]); destruct ds as [|b ds]; try done.
    + unfold number_of. destruct b as [[] [] [] [] [] [] [] []], ds; done.
    + change (Z.opp <$> digits_value 0 (String b ds) = Some (- n)). by rewrite Hn.
Qed.

(** [parse] reads the number, when it fits: the overflow checks at each digit
    refuse exactly the numbers that do not. *)
Lemma parse_i32_number s : parse_i32 s = number_of s ≫= checked_i32.
Proof.
  assert (∀ s, push_digits 1 0 s = digits_value 0 s ≫= checked_i32) as Hplus.
  { intros s'. pose proof (push_digits_value 1 0 s' ltac:(auto) ltac:(lia) eq_refl) as H.
    rewrite Z.mul_0_r in H. rewrite H. destruct (digits_value 0 s'); [|done].
    cbn [mbind option_bind]. by rewrite Z.mul_1_l. }
  assert (∀ s, push_digits (-1) 0 s = (Z.opp <$> digits_value 0 s) ≫= checked_i32) as Hminus.
  { intros s'. pose proof (push_digits_value (-1) 0 s' ltac:(auto) ltac:(lia) eq_refl) as H.
    rewrite Z.mul_0_r in H. rewrite H. destruct (digits_value 0 s') as [n|]; [|done].
    cbn [mbind option_bind fmap option_fmap option_map]. by f_equal. }
  unfold parse_i32, number_of. destruct s as [|a s]; [done|].
  destruct a as [[] [] [] [] [] [] [] []], s; auto.
Qed.

Lemma parse_i32_spec s :
  match parse_i32 s with
  | Some z => signed_number s z ∧ in_i32 z = true
  | None => ∀ z, signed_number s z → in_i32 z = false
  end.
Proof.
  rewrite parse_i32_number. destruct (number_of s) as [z|] eqn:Hz; simpl.
  - unfold checked_i32. destruct (in_i32 z) eqn:Hin; [by rewrite <-number_of_spec|].
    intros z' Hz'%number_of_spec. congruence.
  - intros z' Hz'%number_of_spec. congruence.
Qed.
