(* ===== verification/World.v ===== *)
(** * World: the operating system as the program sees it

    Files, directories and the current directory of the process.  The file system
    is a parameter that does not change while the program reads it; the current
    directory is state of the process, so the operations that depend on it take
    it as an argument and [chdir] returns the new one.  Errors of the library
    [anyhow] carry the chain of contexts the program adds. *)

From S2P Require Import Prelude RustStr.

(** [std::io::Error]; the program only passes it on. *)
Inductive IOError := IoError (kind : string).
#[export] Instance IOError_eq_dec : EqDecision IOError.
Proof. solve_decision. Defined.

Class FileSystem := {
  (** [std::fs::read(path)] in the current directory [cwd] *)
  fs_read (cwd path : string) : IOError + string;
  (** [std::env::set_current_dir(path)]: the new current directory *)
  fs_chdir (cwd path : string) : IOError + string;
  (** [std::fs::canonicalize(path)] *)
  fs_canonicalize (cwd path : string) : IOError + string;
  (** [Path::exists] *)
  fs_exists (cwd path : string) : bool;
  (** [std::fs::read_dir(path)]: the paths of the entries *)
  fs_read_dir (cwd path : string) : IOError + list (IOError + string);
  (** opening a file, created or truncated, and writing the text *)
  fs_write (cwd path content : string) : IOError + unit;
}.

(** [std::fs::read_to_string] *)
Definition read_to_string `{FileSystem} (cwd path : string) : outcome IOError string :=
  content ← of_sum (fs_read cwd path);
  if utf8_valid content then Ok content else Err (IoError "InvalidData").

(** [anyhow::Error], as far as the program builds it. *)
Inductive anyhow :=
| AnyIo (e : IOError)
| AnyPest (message : string)
| AnyIncludeNotFound (include : string) (e : IOError)
| AnySemver (message : string)
| AnyUrl (message : string)
| AnyHttp (message : string)
| AnyDoesNotExist (macro_name : string)
| AnyMsg (message : string)
| AnyContext (context : string) (e : anyhow).
#[export] Instance anyhow_eq_dec : EqDecision anyhow.
Proof. solve_decision. Defined.

(** [.context(msg)] *)
Definition with_context {A} (msg : string) (x : outcome anyhow A) : outcome anyhow A :=
  map_err (AnyContext msg) x.

(** ** Paths

    A Unix path is its bytes.  [Path::parent], [Path::file_name] and
    [Path::extension] work on its components: the pieces between slashes, without
    the empty ones and without the dots that do not come first. *)

Definition is_absolute (p : string) : bool := starts_with "/" p.

Definition components (p : string) : list string :=
  let pieces := split_char "/" p in
  let keep := filter (λ c, c ≠ "" ∧ c ≠ ".") in
  match pieces with
  | "." :: rest => "." :: keep rest
  | _ => keep pieces
  end.

(** The path of some components; two paths with the same ones are equal for
    [Path]. *)
Definition of_components (absolute : bool) (cs : list string) : string :=
  (if absolute then "/" else "") +:+ join "/" cs.

Definition path_parent (p : string) : option string :=
  match rev (components p) with
  | [] => None
  | _ :: cs => Some (of_components (is_absolute p) (rev cs))
  end.

Definition file_name (p : string) : option string :=
  match rev (components p) with
  | c :: _ => if String.eqb c ".." || String.eqb c "." then None else Some c
  | [] => None
  end.

(** What follows the last dot, when something precedes it. *)
Definition path_extension (p : string) : option string :=
  name ← file_name p;
  match rev (split_char "." name) with
  | [] | [_] => None
  | ext :: before => if is_empty (join "." (rev before)) then None else Some ext
  end.

(** [base.join(p)]: an absolute [p] replaces the base. *)
Fixpoint needs_separator (base : string) : bool :=
  match base with
  | EmptyString => false
  | String a EmptyString => negb (Ascii.eqb a "/")
  | String _ base => needs_separator base
  end.
Definition path_join (base p : string) : string :=
  if is_absolute p then p
  else base +:+ (if needs_separator base then "/" else "") +:+ p.

Lemma needs_separator_false base :
  needs_separator base = false → base = "" ∨ ∃ pre, base = pre +:+ "/".
Proof.
  induction base as [|a base IH]; [by left|]. intros Hn. right. destruct base as [|b base].
  - simpl in Hn. apply negb_false_iff, Ascii.eqb_eq in Hn as ->. by exists "".
  - destruct IH as [|[pre Hpre]]; [done..|]. exists (String a pre). by rewrite Hpre, str_app_cons.
Qed.

(** A relative path joined to a directory follows a slash. *)
Lemma path_join_slash base p :
  base ≠ "" → is_absolute p = false → ∃ pre, path_join base p = pre +:+ String "/" p.
Proof.
  intros Hb Hp. unfold path_join. rewrite Hp. destruct (needs_separator base) eqn:Hs.
  - by exists base.
  - apply needs_separator_false in Hs as [|[pre ->]]; [done|]. exists pre.
    by rewrite str_app_nil_l, <-str_app_assoc.
Qed.

(** The file name of a path is what follows its last slash. *)
Lemma file_name_slash pre name :
  contains_char "/" name = false → name ≠ "" → name ≠ "." → name ≠ ".." →
  file_name (pre +:+ String "/" name) = Some name.
Proof.
  intros Hs Hne Hdot Hdots. unfold file_name, components.
  rewrite split_char_app_sep, (split_char_none _ name) by done.
  assert (Hk : ∀ l, filter (λ c, c ≠ "" ∧ c ≠ ".") (l ++ [name]) =
    filter (λ c, c ≠ "" ∧ c ≠ ".") l ++ [name]).
  { intros l. rewrite filter_app, filter_cons, filter_nil. by rewrite decide_True. }
  assert (∃ l, (match split_char "/" pre ++ [name] with
    | "." :: rest => "." :: filter (λ c, c ≠ "" ∧ c ≠ ".") rest
    | _ => filter (λ c, c ≠ "" ∧ c ≠ ".") (split_char "/" pre ++ [name])
    end) = l ++ [name]) as [l ->].
  { pose proof (split_char_ne "/" pre). destruct (split_char "/" pre) as [|p ps]; [done|].
    destruct (decide (p = ".")) as [->|Hp].
    - cbn [app]. rewrite Hk. eexists ("." :: _). done.
    - exists (filter (λ c, c ≠ "" ∧ c ≠ ".") (p :: ps)). rewrite <-Hk. cbn [app].
      repeat (case_match; try done). }
  rewrite rev_unit. apply String.eqb_neq in Hdots, Hdot. by rewrite Hdots, Hdot.
Qed.

(** The extension is what follows the last dot of the file name. *)
Lemma path_extension_slash pre stem ext :
  contains_char "/" stem = false → contains_char "/" ext = false → contains_char "." ext = false →
  stem ≠ "" → stem +:+ "." +:+ ext ≠ ".." →
  path_extension (pre +:+ String "/" (stem +:+ "." +:+ ext)) = Some ext.
Proof.
  intros Hst He Hd Hne Hdots. unfold path_extension. rewrite file_name_slash; [..|done].
  - simpl. change ("." +:+ ext) with (String "." ext). rewrite split_char_app_sep.
    rewrite (split_char_none _ ext), rev_unit by done. pose proof (split_char_ne "." stem).
    rewrite rev_involutive.
    assert (join "." (split_char "." stem) = stem) as -> by apply (join_split_char ".").
    destruct (rev (split_char "." stem)) eqn:Hr; [|by destruct stem].
    apply (f_equal (rev (A := string))) in Hr. rewrite rev_involutive in Hr. done.
  - rewrite !contains_char_app, Hst, He. done.
  - by destruct stem.
  - destruct stem as [|a stem]; [done|]. rewrite str_app_cons. intros [= _ Hs]. by destruct stem.
Qed.

(** ** Versions and URLs

    The crates [semver] and [url], as far as the program calls them. *)
Class Semver := {
  Version : Type;
  (** [Version::parse] *)
  Version_parse : string → string + Version;
  (** [Version::new] *)
  Version_new : nat → nat → nat → Version;
  (** [Version::to_string] *)
  Version_to_string : Version → string;
  (** [Version]'s [Ord] *)
  Version_cmp : Version → Version → comparison;
}.

Definition Version_le `{Semver} (a b : Version) : Prop := Version_cmp a b ≠ Gt.
#[export] Instance Version_le_dec `{Semver} : RelDecision Version_le.
Proof. intros a b. unfold Version_le. solve_decision. Defined.

(** The contract of [Ord]. *)
Class SemverLaws `{Semver} := {
  Version_le_trans : Transitive Version_le;
  Version_le_total : Total Version_le;
}.
#[export] Existing Instances Version_le_trans Version_le_total.

Class UrlCrate := {
  Url : Type;
  (** [Url::parse] *)
  Url_parse : string → string + Url;
  (** [Url::path] *)
  Url_path : Url → string;
  (** [Url::as_str], the text of the URL *)
  Url_as_str : Url → string;
}.
