(* ===== verification/Peg.v ===== *)
(** * Peg: what the program relies on of the pest parser generator

    The grammars ([*.pest]) belong to the program; the parser that [pest_derive]
    generates from them does not.  This file fixes the documented meaning of a
    pest grammar as a big-step relation [peg] (ordered choice, greedy
    repetition, implicit white space and comments between the parts of a rule
    that is not atomic, tokens of the rules that are neither silent nor inside
    an atomic rule), and the interface [PestEngine] with its laws [PestLaws]:
    the generated parser returns what the relation says.  The components that
    parse are written against the interface; [PegEngine] shows that it can be
    implemented. *)

From S2P Require Import Prelude RustStr.

(** ** Grammars *)

(** The character classes the grammars use. *)
Inductive char_class := ASCII_ALPHANUMERIC | ASCII_ALPHA_LOWER | ASCII_DIGIT | UPPERCASE.

(** Terminals: a literal, a range of ASCII characters, [ANY], a built-in class,
    [NEWLINE], [SOI] and the end of input. *)
Inductive prim :=
| Lit (s : string)
| Range (lo hi : ascii)
| Any
| Class_ (c : char_class)
| Newline
| Soi
| End_.

(** Expressions over the rule names [R] ([e1 ~ e2], [e1 | e2], [e*], [e?], [!e]). *)
Inductive pexp (R : Type) : Type :=
| Prim (p : prim)
| Ref (r : R)
| Seq (e1 e2 : pexp R)
| Alt (e1 e2 : pexp R)
| Star (e : pexp R)
| Opt (e : pexp R)
| Not (e : pexp R).
Arguments Prim {R} _.
Arguments Ref {R} _.
Arguments Seq {R} _ _.
Arguments Alt {R} _ _.
Arguments Star {R} _.
Arguments Opt {R} _.
Arguments Not {R} _.

(** [e+] is [e ~ e*]. *)
Definition Plus {R} (e : pexp R) : pexp R := Seq e (Star e).

(** [name = { .. }], [name = _{ .. }] and [name = @{ .. }]. *)
Inductive rule_type := Normal | Silent | Atomic.

(** A grammar; [g_ws] and [g_comment] are its [WHITESPACE] and [COMMENT] rules. *)
Record grammar (R : Type) := Grammar {
  g_rule : R → rule_type * pexp R;
  g_ws : option R;
  g_comment : option R;
}.
Arguments Grammar {R} _ _ _.
Arguments g_rule {R} _ _.
Arguments g_ws {R} _.
Arguments g_comment {R} _.

(** A token tree: the rule, the text it matched, the tokens inside it. *)
Inductive token (R : Type) : Type := Tok (r : R) (span : string) (inner : list (token R)).
Arguments Tok {R} _ _ _.
Definition as_rule {R} (p : token R) : R := let '(Tok r _ _) := p in r.
Definition as_str {R} (p : token R) : string := let '(Tok _ s _) := p in s.
Definition into_inner {R} (p : token R) : list (token R) := let '(Tok _ _ ps) := p in ps.

Declare Scope peg_scope.
Delimit Scope peg_scope with peg.
Infix "~~" := Seq (at level 39, right associativity) : peg_scope.
Infix "//" := Alt (at level 41, right associativity) : peg_scope.

(** ** Characters *)

Definition ascii_between (lo hi a : ascii) : bool :=
  (nat_of_ascii lo <=? nat_of_ascii a) && (nat_of_ascii a <=? nat_of_ascii hi).
Definition is_digit := ascii_between "0" "9".
Definition is_lower := ascii_between "a" "z".
Definition is_upper := ascii_between "A" "Z".

(** The length of the UTF-8 encoding that starts with [a]. *)
Definition utf8_len (a : ascii) : nat :=
  let n := nat_of_ascii a in
  if n <? 192 then 1 else if n <? 224 then 2 else if n <? 240 then 3 else 4.

(** The first character of a text, and what follows it. *)
Definition next_char (s : string) : option (string * string) :=
  match s with
  | EmptyString => None
  | String a _ => Some (take_bytes (utf8_len a) s, split_off (utf8_len a) s)
  end.

Definition one_ascii (f : ascii → bool) (c : string) : bool :=
  match c with
  | String a EmptyString => f a
  | _ => false
  end.

Section peg.
(** pest's table of the upper case letters, asked about one character. *)
Context (uppercase : string → bool).

Definition class_ok (k : char_class) (c : string) : bool :=
  match k with
  | ASCII_ALPHANUMERIC => one_ascii (λ a, is_digit a || is_lower a || is_upper a) c
  | ASCII_ALPHA_LOWER => one_ascii is_lower c
  | ASCII_DIGIT => one_ascii is_digit c
  | UPPERCASE => uppercase c
  end.

(** A terminal on the text [s] that is left of the input [full]. *)
Definition match_prim (full : string) (p : prim) (s : string) : option string :=
  match p with
  | Lit t => if starts_with t s then Some (split_off (String.length t) s) else None
  | Range lo hi =>
      '(c, s') ← next_char s; if one_ascii (ascii_between lo hi) c then Some s' else None
  | Any => snd <$> next_char s
  | Class_ k => '(c, s') ← next_char s; if class_ok k c then Some s' else None
  | Newline =>
      match s with
      | String a s' =>
          if Ascii.eqb a LF then Some s'
          else if Ascii.eqb a CR then
            match s' with
            | String b s'' => if Ascii.eqb b LF then Some s'' else Some s'
            | EmptyString => Some s'
            end
          else None
      | EmptyString => None
      end
  | Soi => if String.eqb s full then Some s else None
  | End_ => if is_empty s then Some s else None
  end.

Context {R : Type} `{EqDecision R} (g : grammar R).

(** What may stand between two parts of a sequence or a repetition. *)
Definition skip_exp : pexp R :=
  match g_ws g, g_comment g with
  | Some w, Some c => Seq (Star (Ref w)) (Star (Seq (Ref c) (Star (Ref w))))
  | Some w, None => Star (Ref w)
  | None, Some c => Star (Ref c)
  | None, None => Prim (Lit EmptyString)
  end.

Definition body (r : R) : pexp R := (g_rule g r).2.
Definition type_of (r : R) : rule_type := (g_rule g r).1.

Definition is_special (r : R) : bool :=
  bool_decide (g_ws g = Some r) || bool_decide (g_comment g = Some r).

(** Whether the body of [r] is matched without implicit white space and without
    tokens, when the rule is used in a context that is ([a]) or is not. *)
Definition body_atomic (a : bool) (r : R) : bool :=
  a || is_special r || match type_of r with Atomic => true | _ => false end.

(** The tokens of a use of [r] that matched [span] with the tokens [ps] inside. *)
Definition emit (a : bool) (r : R) (span : string) (ps : list (token R)) : list (token R) :=
  if a then []
  else match type_of r with
       | Silent => ps
       | Normal | Atomic => [Tok r span ps]
       end.

(** What is matched: an expression, the rest of a repetition, what is skipped. *)
Inductive goal := GMatch (e : pexp R) | GTail (e : pexp R) | GSkip.

Abbreviation presult := (option (list (token R) * string)).

(** [peg full a k s res]: on the text [s] left of the input [full], in a context
    that is atomic or not ([a]), [k] gives [res]: the tokens and the text left,
    or a failure. *)
Inductive peg (full : string) : bool → goal → string → presult → Prop :=
| peg_prim_ok a p s s' :
    match_prim full p s = Some s' → peg full a (GMatch (Prim p)) s (Some ([], s'))
| peg_prim_fail a p s :
    match_prim full p s = None → peg full a (GMatch (Prim p)) s None
| peg_ref_ok a r s span ps s' :
    peg full (body_atomic a r) (GMatch (body r)) s (Some (ps, s')) →
    s = span +:+ s' →
    peg full a (GMatch (Ref r)) s (Some (emit a r span ps, s'))
| peg_ref_fail a r s :
    peg full (body_atomic a r) (GMatch (body r)) s None →
    peg full a (GMatch (Ref r)) s None
| peg_seq_fail1 a e1 e2 s :
    peg full a (GMatch e1) s None → peg full a (GMatch (Seq e1 e2)) s None
| peg_seq_fail_skip a e1 e2 s ps1 s1 :
    peg full a (GMatch e1) s (Some (ps1, s1)) → peg full a GSkip s1 None →
    peg full a (GMatch (Seq e1 e2)) s None
| peg_seq_fail2 a e1 e2 s ps1 s1 ps s2 :
    peg full a (GMatch e1) s (Some (ps1, s1)) → peg full a GSkip s1 (Some (ps, s2)) →
    peg full a (GMatch e2) s2 None → peg full a (GMatch (Seq e1 e2)) s None
| peg_seq_ok a e1 e2 s ps1 s1 ps s2 ps2 s3 :
    peg full a (GMatch e1) s (Some (ps1, s1)) → peg full a GSkip s1 (Some (ps, s2)) →
    peg full a (GMatch e2) s2 (Some (ps2, s3)) →
    peg full a (GMatch (Seq e1 e2)) s (Some (ps1 ++ ps2, s3))
| peg_alt_l a e1 e2 s x :
    peg full a (GMatch e1) s (Some x) → peg full a (GMatch (Alt e1 e2)) s (Some x)
| peg_alt_r a e1 e2 s res :
    peg full a (GMatch e1) s None → peg full a (GMatch e2) s res →
    peg full a (GMatch (Alt e1 e2)) s res
| peg_star_stop a e s :
    peg full a (GMatch e) s None → peg full a (GMatch (Star e)) s (Some ([], s))
| peg_star_go a e s ps1 s1 ps2 s2 :
    peg full a (GMatch e) s (Some (ps1, s1)) → peg full a (GTail e) s1 (Some (ps2, s2)) →
    peg full a (GMatch (Star e)) s (Some (ps1 ++ ps2, s2))
| peg_tail_stop_skip a e s :
    peg full a GSkip s None → peg full a (GTail e) s (Some ([], s))
| peg_tail_stop a e s ps s1 :
    peg full a GSkip s (Some (ps, s1)) → peg full a (GMatch e) s1 None →
    peg full a (GTail e) s (Some ([], s))
| peg_tail_go a e s ps s1 ps1 s2 ps2 s3 :
    peg full a GSkip s (Some (ps, s1)) → peg full a (GMatch e) s1 (Some (ps1, s2)) →
    peg full a (GTail e) s2 (Some (ps2, s3)) →
    peg full a (GTail e) s (Some (ps1 ++ ps2, s3))
| peg_opt_ok a e s x :
    peg full a (GMatch e) s (Some x) → peg full a (GMatch (Opt e)) s (Some x)
| peg_opt_none a e s :
    peg full a (GMatch e) s None → peg full a (GMatch (Opt e)) s (Some ([], s))
| peg_not_ok a e s :
    peg full a (GMatch e) s None → peg full a (GMatch (Not e)) s (Some ([], s))
| peg_not_fail a e s x :
    peg full a (GMatch e) s (Some x) → peg full a (GMatch (Not e)) s None
| peg_skip_atomic s :
    peg full true GSkip s (Some ([], s))
| peg_skip_ok s ps s' :
    peg full true (GMatch skip_exp) s (Some (ps, s')) → peg full false GSkip s (Some ([], s'))
| peg_skip_fail s :
    peg full true (GMatch skip_exp) s None → peg full false GSkip s None.
End peg.
Arguments GMatch {R} _.
Arguments GTail {R} _.
Arguments GSkip {R}.

(** ** What a match says about its tokens *)

Section tokens.
Context (uppercase : string → bool).
Context {R : Type} `{EqDecision R} (g : grammar R).
Local Abbreviation peg := (peg uppercase g).

Lemma match_prim_suffix full p s s' :
  match_prim uppercase full p s = Some s' → ∃ n, s' = split_off n s.
Proof.
  destruct p as [t|lo hi| |k| | |]; simpl.
  - case_match; intros [= <-]; eauto.
  - destruct s as [|b s]; simpl; [done|]. case_match; intros [= <-]. by exists (utf8_len b).
  - destruct s as [|b s]; simpl; [done|]. intros [= <-]. by exists (utf8_len b).
  - destruct s as [|b s]; simpl; [done|]. case_match; intros [= <-]. by exists (utf8_len b).
  - destruct s as [|b s]; simpl; [done|]. destruct (Ascii.eqb b LF).
    { intros [= <-]. by exists 1. }
    destruct (Ascii.eqb b CR); [|done]. destruct s as [|c s].
    { intros [= <-]. by exists 1. }
    destruct (Ascii.eqb c LF); intros [= <-]; [by exists 2|by exists 1].
  - case_match; intros [= <-]. by exists 0.
  - case_match; intros [= <-]. by exists 0.
Qed.

(** A match consumes a prefix of the text. *)
Lemma peg_suffix full a k s ps s' :
  peg full a k s (Some (ps, s')) → ∃ span, s = span +:+ s'.
Proof.
  remember (Some (ps, s')) as res eqn:Hres. intros H. revert ps s' Hres.
  induction H; intros ps' s'' [=]; subst;
    repeat match goal with
    | IH : ∀ ps s', Some _ = Some (ps, s') → _ |- _ => destruct (IH _ _ eq_refl) as [? ->]; clear IH
    end; rewrite ?str_app_assoc; first [by eexists|by exists EmptyString|idtac].
  apply match_prim_suffix in H as [n ->]. eexists. symmetry. apply take_split_off.
Qed.

(** A repetition never fails. *)
Lemma peg_tail_ok full a e s : ¬ peg full a (GTail e) s None.
Proof.
  remember (GTail e) as k eqn:Hk. remember None as res eqn:Hres. intros H. revert Hres.
  induction H; naive_solver.
Qed.

(** Nothing inside an atomic rule is a token, nor what is skipped. *)
Lemma peg_atomic_tokens full k s ps s' : peg full true k s (Some (ps, s')) → ps = [].
Proof.
  remember true as a eqn:Ha. remember (Some (ps, s')) as res eqn:Hres. intros H.
  revert ps s' Hres. induction H; intros ps' s'' [=]; subst; try done;
    repeat match goal with
    | IH : true = true → ∀ ps s', Some _ = Some (ps, s') → _ |- _ =>
        specialize (IH eq_refl _ _ eq_refl)
    end; subst; eauto; by simplify_eq.
Qed.

(** [yields e rs]: [rs] may be the rules of the tokens of a match of [e]. *)
Inductive yields : pexp R → list R → Prop :=
| yields_prim p : yields (Prim p) []
| yields_emit r : type_of g r ≠ Silent → yields (Ref r) [r]
| yields_silent r rs :
    type_of g r = Silent → is_special g r = false → yields (body g r) rs → yields (Ref r) rs
| yields_special r : type_of g r = Silent → is_special g r = true → yields (Ref r) []
| yields_seq e1 e2 rs1 rs2 : yields e1 rs1 → yields e2 rs2 → yields (Seq e1 e2) (rs1 ++ rs2)
| yields_alt_l e1 e2 rs : yields e1 rs → yields (Alt e1 e2) rs
| yields_alt_r e1 e2 rs : yields e2 rs → yields (Alt e1 e2) rs
| yields_star_nil e : yields (Star e) []
| yields_star_cons e rs1 rs2 : yields e rs1 → yields (Star e) rs2 → yields (Star e) (rs1 ++ rs2)
| yields_opt_nil e : yields (Opt e) []
| yields_opt e rs : yields e rs → yields (Opt e) rs
| yields_not e : yields (Not e) [].

Definition yields_goal (k : goal) (rs : list R) : Prop :=
  match k with
  | GMatch e => yields e rs
  | GTail e => yields (Star e) rs
  | GSkip => rs = []
  end.

(** The tokens of a match follow the expression. *)
Lemma peg_yields full k s ps s' :
  peg full false k s (Some (ps, s')) → yields_goal k (as_rule <$> ps).
Proof.
  remember false as a eqn:Ha. remember (Some (ps, s')) as res eqn:Hres. intros H.
  revert ps s' Hres. induction H; intros ps' s'' [=]; subst; simpl in *;
    repeat match goal with
    | IH : false = false → ∀ ps s', Some _ = Some (ps, s') → _ |- _ =>
        specialize (IH eq_refl _ _ eq_refl)
    end; rewrite ?fmap_app; eauto using yields.
  unfold emit, body_atomic in *. destruct (type_of g r) eqn:Ht; simpl in *.
  - by apply yields_emit; rewrite Ht.
  - destruct (is_special g r) eqn:Hs; simpl in *.
    + apply peg_atomic_tokens in H as ->. by apply yields_special.
    + apply yields_silent; auto. by eapply IHpeg.
  - by apply yields_emit; rewrite Ht.
Qed.

(** A genuine token: its text is matched by the rule's body, in the context the
    rule sets up, with the tokens inside it, which are genuine. *)
Inductive genuine (full : string) : token R → Prop :=
| genuine_intro r span ps s' :
    peg full (body_atomic g false r) (GMatch (body g r)) (span +:+ s') (Some (ps, s')) →
    Forall (genuine full) ps →
    genuine full (Tok r span ps).

Lemma peg_genuine full a k s ps s' :
  peg full a k s (Some (ps, s')) → Forall (genuine full) ps.
Proof.
  remember (Some (ps, s')) as res eqn:Hres. intros H. revert ps s' Hres.
  induction H; intros ps' s'' [=]; subst;
    repeat match goal with
    | IH : ∀ ps s', Some _ = Some (ps, s') → _ |- _ => specialize (IH _ _ eq_refl)
    end; rewrite ?Forall_app; auto.
  unfold emit. destruct a; [by constructor|].
  destruct (type_of g r); [constructor; [|by constructor]|done|constructor; [|by constructor]];
    by econstructor.
Qed.

(** The children of a genuine token of a rule that is not atomic. *)
Lemma genuine_inner full r span ps :
  genuine full (Tok r span ps) → body_atomic g false r = false →
  yields (body g r) (as_rule <$> ps).
Proof. intros Hg Hr. inversion Hg; subst. rewrite Hr in *. by eapply (peg_yields _ (GMatch _)). Qed.

Lemma genuine_atomic full r span ps :
  genuine full (Tok r span ps) → body_atomic g false r = true → ps = [].
Proof. intros Hg Hr. inversion Hg; subst. rewrite Hr in *. by eapply peg_atomic_tokens. Qed.

(** Inversion of matches and of token shapes, one expression at a time. *)
Lemma peg_lit_inv full a t s ps s' :
  peg full a (GMatch (Prim (Lit t))) s (Some (ps, s')) → s = t +:+ s'.
Proof.
  inversion 1; subst; simpl in *. case_match eqn:Ht; [|done]. simplify_eq.
  apply starts_with_inv in Ht as [u ->]. by rewrite split_off_app.
Qed.

Lemma peg_alt_inv full a e1 e2 s x :
  peg full a (GMatch (Alt e1 e2)) s (Some x) →
  peg full a (GMatch e1) s (Some x) ∨ peg full a (GMatch e1) s None ∧ peg full a (GMatch e2) s (Some x).
Proof. inversion 1; subst; auto. Qed.

Lemma peg_ref_inv full a r s ps s' :
  peg full a (GMatch (Ref r)) s (Some (ps, s')) →
  ∃ ps', peg full (body_atomic g a r) (GMatch (body g r)) s (Some (ps', s')).
Proof. inversion 1; subst; eauto. Qed.

Lemma peg_seq_inv full a e1 e2 s ps s' :
  peg full a (GMatch (Seq e1 e2)) s (Some (ps, s')) →
  ∃ ps1 s1 ps2 s2 ps3, peg full a (GMatch e1) s (Some (ps1, s1)) ∧
    peg full a GSkip s1 (Some (ps2, s2)) ∧
    peg full a (GMatch e2) s2 (Some (ps3, s')) ∧ ps = ps1 ++ ps3.
Proof. inversion 1; subst. eexists _, _, _, _, _. eauto. Qed.

(** An option either matches or finds that there is nothing to match. *)
Lemma peg_opt_inv full a e s ps s' :
  peg full a (GMatch (Opt e)) s (Some (ps, s')) →
  peg full a (GMatch e) s (Some (ps, s')) ∨ ps = [] ∧ s' = s ∧ peg full a (GMatch e) s None.
Proof. inversion 1; subst; auto. Qed.

Lemma peg_ref_fail_inv full a r s :
  peg full a (GMatch (Ref r)) s None → peg full (body_atomic g a r) (GMatch (body g r)) s None.
Proof. by inversion 1. Qed.

Lemma peg_star_ok full a e s : ¬ peg full a (GMatch (Star e)) s None.
Proof. inversion 1. Qed.

Lemma peg_alt_fail_inv full a e1 e2 s :
  peg full a (GMatch (Alt e1 e2)) s None →
  peg full a (GMatch e1) s None ∧ peg full a (GMatch e2) s None.
Proof. inversion 1; subst; auto. Qed.

Lemma peg_skip_inv full s ps s' :
  peg full false GSkip s (Some (ps, s')) → ∃ ps', peg full true (GMatch (skip_exp g)) s (Some (ps', s')).
Proof. inversion 1; subst; eauto. Qed.

Lemma peg_skip_fail_inv full s :
  peg full false GSkip s None → peg full true (GMatch (skip_exp g)) s None.
Proof. by inversion 1. Qed.

(** A repetition stops at once, or matches its body and goes on. *)
Lemma peg_star_inv full a e s ps s' :
  peg full a (GMatch (Star e)) s (Some (ps, s')) →
  (peg full a (GMatch e) s None ∧ ps = [] ∧ s' = s) ∨
  ∃ ps1 s1 ps2, peg full a (GMatch e) s (Some (ps1, s1)) ∧
    peg full a (GTail e) s1 (Some (ps2, s')) ∧ ps = ps1 ++ ps2.
Proof. inversion 1; subst; eauto 10. Qed.

(** Where a repetition stops, what is skipped is followed by no match. *)
Lemma peg_tail_end full a e s ps s' :
  peg full a (GTail e) s (Some (ps, s')) →
  peg full a GSkip s' None ∨
  ∃ ps1 s1, peg full a GSkip s' (Some (ps1, s1)) ∧ peg full a (GMatch e) s1 None.
Proof.
  remember (GTail e) as k eqn:Hk. remember (Some (ps, s')) as res eqn:Hres. intros H.
  revert ps s' Hres. induction H; intros ps' s'' [=]; try discriminate Hk;
    injection Hk as ->; subst; eauto.
Qed.

(** The token of a rule that is not silent. *)
Lemma peg_ref_token full r s ps s' :
  peg full false (GMatch (Ref r)) s (Some (ps, s')) → type_of g r ≠ Silent →
  ∃ span inner, ps = [Tok r span inner] ∧ s = span +:+ s'.
Proof. inversion 1; subst; intros Ht. unfold emit. destruct (type_of g r); naive_solver. Qed.

(** What is skipped inside an atomic rule is nothing. *)
Lemma peg_skip_atomic_inv full s ps s' : peg full true GSkip s (Some (ps, s')) → s' = s.
Proof. by inversion 1. Qed.

Lemma yields_prim_inv p rs : yields (Prim p) rs → rs = [].
Proof. by inversion 1. Qed.

Lemma yields_seq_inv e1 e2 rs :
  yields (Seq e1 e2) rs → ∃ rs1 rs2, rs = rs1 ++ rs2 ∧ yields e1 rs1 ∧ yields e2 rs2.
Proof. inversion 1; subst; eauto. Qed.

Lemma yields_alt_inv e1 e2 rs : yields (Alt e1 e2) rs → yields e1 rs ∨ yields e2 rs.
Proof. inversion 1; subst; eauto. Qed.

Lemma yields_opt_inv e rs : yields (Opt e) rs → rs = [] ∨ yields e rs.
Proof. inversion 1; subst; eauto. Qed.

Lemma yields_emit_inv r rs : yields (Ref r) rs → type_of g r ≠ Silent → rs = [r].
Proof. inversion 1; subst; naive_solver. Qed.

Lemma yields_silent_inv r rs :
  yields (Ref r) rs → type_of g r = Silent → is_special g r = false → yields (body g r) rs.
Proof. inversion 1; subst; intros; by try congruence. Qed.

(** The tokens of a repetition are a concatenation of the tokens of its body. *)
Lemma yields_star_inv e rs :
  yields (Star e) rs → ∃ rss, rs = concat rss ∧ Forall (yields e) rss.
Proof.
  remember (Star e) as se eqn:He. intros H. revert e He.
  induction H as [| | | | | | | |e' rs1 rs2 H1 IH1 H2 IH2| | | ]; intros e0 [=]; subst.
  - by exists [].
  - destruct (IH2 _ eq_refl) as (rss & -> & HF). exists (rs1 :: rss). split; [done|]. by constructor.
Qed.

Lemma yields_star_Forall (P : R → Prop) e rs :
  yields (Star e) rs → (∀ rs, yields e rs → Forall P rs) → Forall P rs.
Proof.
  intros (rss & -> & H)%yields_star_inv HP. apply Forall_concat.
  eapply Forall_impl; [exact H|]. done.
Qed.

Lemma genuine_inner_genuine full r span ps :
  genuine full (Tok r span ps) → Forall (genuine full) ps.
Proof. by inversion 1. Qed.
End tokens.

(** ** Well-formed grammars

    pest refuses a grammar with left recursion or with a repetition whose body
    may match nothing.  [WellFormed g] is a certificate that [g] has neither: a
    set of rules containing those that may match nothing, and a rank that goes
    down along the rules met before anything is consumed. *)
Section well_formed.
Context {R : Type} (g : grammar R) (nul : R → bool) (rank : R → nat).

Fixpoint nullable (e : pexp R) : bool :=
  match e with
  | Prim (Lit t) => is_empty t
  | Prim (Range _ _ | Any | Class_ _ | Newline) => false
  | Prim (Soi | End_) => true
  | Ref r => nul r
  | Seq e1 e2 => nullable e1 && nullable e2
  | Alt e1 e2 => nullable e1 || nullable e2
  | Star _ | Opt _ | Not _ => true
  end.

(** No repetition of something that may match nothing. *)
Fixpoint stars_ok (e : pexp R) : bool :=
  match e with
  | Prim _ | Ref _ => true
  | Seq e1 e2 | Alt e1 e2 => stars_ok e1 && stars_ok e2
  | Star e => negb (nullable e) && stars_ok e
  | Opt e | Not e => stars_ok e
  end.

Definition skip_level (l : nat) : bool :=
  match g_ws g with Some w => rank w <? l | None => true end &&
  match g_comment g with Some c => rank c <? l | None => true end.

(** The rules met before anything is consumed have a rank below [l]. *)
Fixpoint level_ok (l : nat) (e : pexp R) : bool :=
  match e with
  | Prim _ => true
  | Ref r => rank r <? l
  | Seq e1 e2 => level_ok l e1 && (negb (nullable e1) || skip_level l && level_ok l e2)
  | Alt e1 e2 => level_ok l e1 && level_ok l e2
  | Star e | Opt e | Not e => level_ok l e
  end.

Definition skip_nonempty : bool :=
  match g_ws g with Some w => negb (nul w) | None => true end &&
  match g_comment g with Some c => negb (nul c) | None => true end.

(** The measure of an expression; [c] pays for what is skipped inside it. *)
Fixpoint esize (c : nat) (e : pexp R) : nat :=
  match e with
  | Prim _ | Ref _ => 1
  | Seq e1 e2 => S (esize c e1 + esize c e2 + c)
  | Alt e1 e2 => S (esize c e1 + esize c e2)
  | Star e => S (esize c e + c)
  | Opt e | Not e => S (esize c e)
  end.

(** What [WellFormed] asks of one rule. *)
Definition rule_ok (ranks size : nat) (r : R) : bool :=
  (rank r <? ranks) && (esize 16 (body g r) <=? size) && stars_ok (body g r)
    && level_ok (rank r) (body g r) && implb (nullable (body g r)) (nul r).
End well_formed.

Class WellFormed {R} (g : grammar R) := {
  wf_nul : R → bool;
  wf_rank : R → nat;
  wf_ranks : nat;
  wf_size : nat;
  wf_rules : ∀ r, rule_ok g wf_nul wf_rank wf_ranks wf_size r = true;
  wf_skip : skip_nonempty g wf_nul = true;
}.

(** ** The interface of the generated parsers *)

(** [pest_parse g r s] is [Parser::parse(r, s)] of the parser generated from
    [g]: the message of the error, or the tokens. *)
Class PestEngine := {
  pest_uppercase : string → bool;
  pest_parse : ∀ {R : Set} `{EqDecision R} (g : grammar R) `{WellFormed R g},
    R → string → string + list (token R);
}.

Class PestLaws `{PestEngine} := {
  (** The table of upper case letters, on ASCII. *)
  pest_uppercase_ascii : ∀ a : ascii,
    nat_of_ascii a < 128 → pest_uppercase (chr a) = is_upper a;
  (** Success is a match of the start rule, with its tokens. *)
  pest_parse_ok : ∀ {R : Set} `{EqDecision R} (g : grammar R) `{WellFormed R g} r s ps,
    pest_parse g r s = inr ps →
    ∃ rest, peg pest_uppercase g s false (GMatch (Ref r)) s (Some (ps, rest));
  (** An error is a failure to match. *)
  pest_parse_err : ∀ {R : Set} `{EqDecision R} (g : grammar R) `{WellFormed R g} r s e,
    pest_parse g r s = inl e →
    peg pest_uppercase g s false (GMatch (Ref r)) s None;
}.

Section laws.
Context `{PE : PestEngine, !PestLaws} {R : Set} `{EqDecision R} (g : grammar R) `{!WellFormed g}.

Lemma pest_parse_genuine r s ps :
  pest_parse g r s = inr ps → Forall (genuine pest_uppercase g s) ps.
Proof. intros [rest Hp]%pest_parse_ok. by eapply peg_genuine. Qed.

Lemma pest_parse_yields r s ps :
  pest_parse g r s = inr ps → yields g (Ref r) (as_rule <$> ps).
Proof. intros [rest Hp]%pest_parse_ok. by eapply (peg_yields _ _ _ (GMatch _)). Qed.
End laws.

(** Takes a hypothesis about the token shape of a concrete expression apart. *)
Ltac inv_yields :=
  repeat match goal with
  | H : yields _ (Plus _) _ |- _ => unfold Plus in H
  | H : yields _ (Prim _) _ |- _ => apply yields_prim_inv in H; subst
  | H : yields _ (Seq _ _) _ |- _ => apply yields_seq_inv in H as (? & ? & ? & ? & ?); subst
  | H : yields _ (Alt _ _) _ |- _ => apply yields_alt_inv in H as [?|?]
  | H : yields _ (Opt _) _ |- _ => apply yields_opt_inv in H as [?|?]; subst
  | H : yields _ (Ref _) _ |- _ => apply yields_emit_inv in H; [|done]; subst
  end; simpl in *.
