(* ===== verification/PegEngine.v ===== *)
(** * PegEngine: an implementation of the pest interface

    A recursive-descent interpreter of grammars.  It is sound and complete for
    [peg], hence [peg] is deterministic; on a well-formed grammar it is total,
    with a bound on its fuel that is computed from the certificate and the
    length of the input.  It is the concrete parser at which the properties of
    the program are instantiated, and the reason why the laws of [PestLaws] can
    hold. *)

From S2P Require Import Prelude RustStr Peg.

Section interp.
Context (uppercase : string → bool).
Context {R : Type} `{EqDecision R} (g : grammar R) (full : string).
Local Abbreviation peg := (peg uppercase g full).

Abbreviation presult := (option (list (token R) * string)).

Definition prepend (ps : list (token R)) (x : presult) : presult :=
  match x with Some (ps', s) => Some (ps ++ ps', s) | None => None end.
Definition no_tokens (x : presult) : presult :=
  match x with Some (_, s) => Some ([], s) | None => None end.
Definition of_prim (x : option string) : presult :=
  match x with Some s => Some ([], s) | None => None end.

(** [run n a k s]: [None] when the fuel [n] is too small for the recursion,
    otherwise what the goal gives. *)
Fixpoint run (n : nat) (a : bool) (k : goal) (s : string)
    : option presult :=
  match n with
  | O => None
  | S n =>
    match k with
    | GMatch (Prim p) =>
        Some (of_prim (match_prim uppercase full p s))
    | GMatch (Ref r) =>
        x ← run n (body_atomic g a r) (GMatch (body g r)) s;
        Some (match x with
              | Some (ps, s') =>
                  Some (if a then []
                        else emit g false r
                               (take_bytes (String.length s - String.length s') s) ps, s')
              | None => None
              end)
    | GMatch (Seq e1 e2) =>
        x1 ← run n a (GMatch e1) s;
        match x1 with
        | None => Some None
        | Some (ps1, s1) =>
            y ← run n a GSkip s1;
            match y with
            | None => Some None
            | Some (_, s2) =>
                x2 ← run n a (GMatch e2) s2;
                Some (prepend ps1 x2)
            end
        end
    | GMatch (Alt e1 e2) =>
        x1 ← run n a (GMatch e1) s;
        match x1 with Some x => Some (Some x) | None => run n a (GMatch e2) s end
    | GMatch (Star e) =>
        x1 ← run n a (GMatch e) s;
        match x1 with
        | None => Some (Some ([], s))
        | Some (ps1, s1) =>
            x2 ← run n a (GTail e) s1;
            Some (prepend ps1 x2)
        end
    | GMatch (Opt e) =>
        x1 ← run n a (GMatch e) s;
        Some (match x1 with Some x => Some x | None => Some ([], s) end)
    | GMatch (Not e) =>
        x1 ← run n a (GMatch e) s;
        Some (match x1 with Some _ => None | None => Some ([], s) end)
    | GTail e =>
        y ← run n a GSkip s;
        match y with
        | None => Some (Some ([], s))
        | Some (_, s1) =>
            x1 ← run n a (GMatch e) s1;
            match x1 with
            | None => Some (Some ([], s))
            | Some (ps1, s2) =>
                x2 ← run n a (GTail e) s2;
                Some (prepend ps1 x2)
            end
        end
    | GSkip =>
        if a then Some (Some ([], s))
        else
          x ← run n true (GMatch (skip_exp g)) s;
          Some (no_tokens x)
    end
  end.

(** More fuel does not change an answer. *)
Lemma run_mono n m a k s x : run n a k s = Some x → n ≤ m → run m a k s = Some x.
Proof.
  revert m a k s x; induction n as [|n IH]; intros m a k s x; [done|].
  intros H Hm. destruct m as [|m]; [lia|]. apply le_S_n in Hm. revert H. simpl.
  repeat first
    [ done
    | match goal with
      | |- context [run n ?a ?k ?s] =>
          let E := fresh "E" in
          destruct (run n a k s) as [[[??]|]|] eqn:E; simpl; [| |done];
          rewrite (IH m _ _ _ _ E Hm); simpl
      end
    | match goal with
      | |- context [match ?k with GMatch _ => _ | GTail _ => _ | GSkip => _ end] => destruct k
      | |- context [match ?e with Prim _ => _ | _ => _ end] => destruct e
      | |- context [if ?b then _ else _] => destruct b
      end ].
Qed.

(** An answer of the interpreter is an answer of the grammar. *)
Lemma run_sound n a k s x : run n a k s = Some x → peg a k s x.
Proof.
  revert a k s x; induction n as [|n IH]; intros a k s x; [done|]. simpl.
  destruct k as [[p|r|e1 e2|e1 e2|e|e|e]|e|].
  - intros [= <-]. destruct (match_prim _ _ _ _) eqn:E; by constructor.
  - destruct (run n _ _ _) as [[[ps s']|]|] eqn:E; simpl; intros [= <-].
    + apply IH in E. destruct (peg_suffix _ _ _ _ _ _ _ _ E) as [span ->].
      rewrite str_app_length.
      replace (String.length span + String.length s' - String.length s')
        with (String.length span) by lia.
      rewrite take_bytes_app. pose proof (peg_ref_ok _ _ _ a r _ span ps s' E eq_refl) as Hp.
      by destruct a.
    + apply IH in E. by constructor.
  - destruct (run n a (GMatch e1) s) as [[[ps1 s1]|]|] eqn:E1; simpl; [|by intros [= <-]; eauto using peg_seq_fail1|done].
    destruct (run n a GSkip s1) as [[[ps s2]|]|] eqn:E2; simpl; [|by intros [= <-]; eauto using peg_seq_fail_skip|done].
    destruct (run n a (GMatch e2) s2) as [[[ps2 s3]|]|] eqn:E3; simpl; intros [= <-];
      eauto using peg_seq_ok, peg_seq_fail2.
  - destruct (run n a (GMatch e1) s) as [[x1|]|] eqn:E1; simpl; [|..|done].
    + intros [= <-]. eauto using peg_alt_l.
    + intros E2. eauto using peg_alt_r.
  - destruct (run n a (GMatch e) s) as [[[ps1 s1]|]|] eqn:E1; simpl; [|by intros [= <-]; eauto using peg_star_stop|done].
    destruct (run n a (GTail e) s1) as [[[ps2 s2]|]|] eqn:E2; simpl; intros [= <-];
      [eauto using peg_star_go|]. by apply IH, peg_tail_ok in E2.
  - destruct (run n a (GMatch e) s) as [[[ps1 s1]|]|] eqn:E1; simpl; intros [= <-];
      eauto using peg_opt_ok, peg_opt_none.
  - destruct (run n a (GMatch e) s) as [[[ps1 s1]|]|] eqn:E1; simpl; intros [= <-];
      eauto using peg_not_ok, peg_not_fail.
  - destruct (run n a GSkip s) as [[[ps s1]|]|] eqn:E1; simpl; [|by intros [= <-]; eauto using peg_tail_stop_skip|done].
    destruct (run n a (GMatch e) s1) as [[[ps1 s2]|]|] eqn:E2; simpl; [|by intros [= <-]; eauto using peg_tail_stop|done].
    destruct (run n a (GTail e) s2) as [[[ps2 s3]|]|] eqn:E3; simpl; intros [= <-];
      [eauto using peg_tail_go|]. by apply IH, peg_tail_ok in E3.
  - destruct a; [intros [= <-]; constructor|].
    destruct (run n true _ s) as [[[ps s1]|]|] eqn:E1; simpl; intros [= <-];
      eauto using peg_skip_ok, peg_skip_fail.
Qed.

(** An answer of the grammar is found with enough fuel. *)
Lemma run_complete a k s x : peg a k s x → ∃ n, ∀ m, n ≤ m → run m a k s = Some x.
Proof.
  induction 1;
    repeat match goal with IH : ∃ n, ∀ m, _ → _ |- _ => destruct IH as [? ?] end;
    match goal with
    | H1 : ∀ m, ?n1 ≤ m → _, H2 : ∀ m, ?n2 ≤ m → _, H3 : ∀ m, ?n3 ≤ m → _ |- _ =>
        exists (S (n1 + n2 + n3))
    | H1 : ∀ m, ?n1 ≤ m → _, H2 : ∀ m, ?n2 ≤ m → _ |- _ => exists (S (n1 + n2))
    | H1 : ∀ m, ?n1 ≤ m → _ |- _ => exists (S n1)
    | _ => exists 1
    end;
    (intros [|m] Hm; [lia|]); simpl;
    repeat match goal with
    | E : ∀ m, _ → run m ?a ?k ?s = _ |- context [run ?m' ?a ?k ?s] => rewrite (E m') by lia; simpl
    | E : match_prim _ _ _ _ = _ |- _ => rewrite E; simpl
    end; try done.
  subst s. rewrite str_app_length.
  replace (String.length span + String.length s' - String.length s')
    with (String.length span) by lia.
  rewrite take_bytes_app. by destruct a.
Qed.

(** The meaning of a grammar is a function. *)
Lemma peg_deterministic a k s x y : peg a k s x → peg a k s y → x = y.
Proof.
  intros [n Hn]%run_complete [m Hm]%run_complete.
  specialize (Hn (n + m) ltac:(lia)). specialize (Hm (n + m) ltac:(lia)). congruence.
Qed.
End interp.

(** ** Totality on well-formed grammars *)

Lemma length_split_off n s : String.length (split_off n s) = String.length s - n.
Proof. revert s; induction n as [|n IH]; intros [|a s]; simpl; auto with lia. Qed.

Lemma utf8_len_pos a : 1 ≤ utf8_len a.
Proof. unfold utf8_len. repeat case_match; lia. Qed.

Section total.
Context (uppercase : string → bool).
Context {R : Type} `{EqDecision R} (g : grammar R) `{W : WellFormed R g} (full : string).
Local Abbreviation peg := (peg uppercase g full).
Local Abbreviation run := (run uppercase g full).
Local Abbreviation nullable := (nullable wf_nul).
Local Abbreviation stars_ok := (stars_ok wf_nul).
Local Abbreviation level_ok := (level_ok g wf_nul wf_rank).
Local Abbreviation skip_level := (skip_level g wf_rank).

Lemma wf_rule r :
  wf_rank r < wf_ranks ∧ esize 16 (body g r) ≤ wf_size ∧ stars_ok (body g r) = true ∧
  level_ok (wf_rank r) (body g r) = true ∧ (nullable (body g r) = true → wf_nul r = true).
Proof using W.
  pose proof (wf_rules r) as Hr. unfold rule_ok in Hr. rewrite !andb_true_iff in Hr.
  destruct Hr as [[[[?%Nat.ltb_lt ?%Nat.leb_le] ?] ?] Hi]. split_and!; try done.
  intros Hn. by rewrite Hn in Hi.
Qed.

Lemma match_prim_consumes p s s' :
  match_prim uppercase full p s = Some s' → nullable (Prim p) = false →
  String.length s' < String.length s.
Proof.
  destruct p as [t|lo hi| |k| | |]; simpl.
  - case_match eqn:Ht; intros [= <-] Hn. rewrite length_split_off.
    destruct t as [|a t]; [done|]. destruct s as [|b s]; simpl; [done|lia].
  - destruct s as [|b s]; [done|]. simpl. case_match; intros [= <-] _.
    rewrite length_split_off. simpl. pose proof (utf8_len_pos b). lia.
  - destruct s as [|b s]; [done|]. intros [= <-] _. simpl.
    rewrite length_split_off. simpl. pose proof (utf8_len_pos b). lia.
  - destruct s as [|b s]; [done|]. simpl. case_match; intros [= <-] _.
    rewrite length_split_off. simpl. pose proof (utf8_len_pos b). lia.
  - destruct s as [|b s]; [done|]. case_match; [intros [= <-]; simpl; lia|].
    case_match; [|done]. destruct s as [|c s]; [intros [= <-]; simpl; lia|].
    case_match; intros [= <-]; simpl; lia.
  - done.
  - done.
Qed.

Lemma peg_length a k s ps s' :
  peg a k s (Some (ps, s')) → String.length s' ≤ String.length s.
Proof. intros [span ->]%peg_suffix. rewrite str_app_length. lia. Qed.

(** What is not nullable consumes. *)
Lemma peg_consumes a k s ps s' :
  peg a k s (Some (ps, s')) →
  match k with
  | GMatch e => nullable e = false → String.length s' < String.length s
  | _ => True
  end.
Proof using W.
  remember (Some (ps, s')) as res eqn:Hres. intros H. revert ps s' Hres.
  induction H; intros ps' s'' [=]; subst; simpl in *; try done;
    repeat match goal with
    | IH : ∀ ps s', Some _ = Some (ps, s') → _ |- _ => specialize (IH _ _ eq_refl)
    | HP : context [peg] |- _ => fail
    end.
  - intros Hn. eapply match_prim_consumes; eauto.
  - intros Hn. apply IHpeg. destruct (nullable (body g r)) eqn:Hb; [|done].
    apply wf_rule in Hb. congruence.
  - pose proof (peg_length _ _ _ _ _ H). pose proof (peg_length _ _ _ _ _ H0).
    pose proof (peg_length _ _ _ _ _ H1).
    intros [Hn|Hn]%andb_false_iff; [specialize (IHpeg1 Hn)|specialize (IHpeg3 Hn)]; lia.
  - intros [? ?]%orb_false_iff. auto.
  - intros [? ?]%orb_false_iff. eauto.
Qed.

Lemma skip_level_top : skip_level wf_ranks = true.
Proof using W.
  unfold Peg.skip_level. destruct (g_ws g) as [w|], (g_comment g) as [c|];
    rewrite ?andb_true_iff; split_and?; try done; apply Nat.ltb_lt; apply wf_rule.
Qed.

Lemma level_ok_top e : level_ok wf_ranks e = true.
Proof using W.
  induction e; simpl; rewrite ?andb_true_iff; auto.
  - apply Nat.ltb_lt, wf_rule.
  - split; [done|]. apply orb_true_iff. right. by rewrite skip_level_top.
Qed.

Lemma esize_mono c (e : pexp R) : 1 ≤ c → esize 1 e ≤ esize c e.
Proof. intros ?; induction e; simpl; lia. Qed.

Definition csize (a : bool) : nat := if a then 1 else 16.
Definition gsize (a : bool) (k : goal (R := R)) : nat :=
  match k with
  | GMatch e => esize (csize a) e
  | GTail e => S (esize (csize a) e + csize a)
  | GSkip => csize a
  end.
Definition goal_ok (l : nat) (k : goal (R := R)) : Prop :=
  match k with
  | GMatch e => level_ok l e = true ∧ stars_ok e = true
  | GTail e => level_ok l e = true ∧ skip_level l = true ∧ stars_ok e = true ∧ nullable e = false
  | GSkip => skip_level l = true
  end.

Definition size_bound : nat := wf_size + 16.
(** What is left to pay with [len] bytes to read at level [l]. *)
Definition cost (len l : nat) : nat :=
  len * (wf_ranks * S size_bound + S size_bound) + l * S size_bound.

Lemma cost_lt len len' l l' :
  len < len' → l ≤ wf_ranks → cost len l + size_bound < cost len' l'.
Proof.
  unfold cost. intros Hlen Hl. set (w := S size_bound). set (K := wf_ranks * w + w).
  assert (S len * K ≤ len' * K) by (apply Nat.mul_le_mono_r; lia).
  assert (l * w ≤ wf_ranks * w) by (apply Nat.mul_le_mono_r; lia). lia.
Qed.
Lemma cost_le len len' l l' : len ≤ len' → l ≤ l' → cost len l ≤ cost len' l'.
Proof. unfold cost. intros. apply Nat.add_le_mono; by apply Nat.mul_le_mono_r. Qed.
Lemma cost_level len l l' : l < l' → cost len l + size_bound < cost len l'.
Proof.
  unfold cost. intros Hl.
  assert (S l * S size_bound ≤ l' * S size_bound) by (apply Nat.mul_le_mono_r; lia). lia.
Qed.

(** The level at which one goes on after consuming, or not, up to [s']. *)
Definition next_level (s s' : string) (l : nat) : nat :=
  if String.length s' <? String.length s then wf_ranks else l.

Lemma next_level_cost s s' l :
  String.length s' ≤ String.length s → l ≤ wf_ranks →
  cost (String.length s') (next_level s s' l) ≤ cost (String.length s) l ∧
  next_level s s' l ≤ wf_ranks.
Proof.
  unfold next_level. intros ??. destruct (Nat.ltb_spec (String.length s') (String.length s)).
  - split; [|done]. pose proof (cost_lt (String.length s') (String.length s) wf_ranks l). lia.
  - split; [|done]. by apply cost_le.
Qed.

Lemma next_level_ok s s' l b (f : nat → bool) :
  (b = true → f l = true) → f wf_ranks = true →
  (b = false → String.length s' < String.length s) → f (next_level s s' l) = true.
Proof.
  unfold next_level. intros Hl Htop Hb. destruct (Nat.ltb_spec (String.length s') (String.length s)); [done|].
  destruct b; [auto|]. specialize (Hb eq_refl). lia.
Qed.

Lemma gsize_pos a k : 1 ≤ gsize a k.
Proof. destruct k as [[]| |]; simpl; try lia. destruct a; simpl; lia. Qed.

Lemma skip_exp_ok l :
  skip_level l = true → goal_ok l (GMatch (skip_exp g)) ∧ esize 1 (skip_exp g) ≤ 13.
Proof.
  intros Hl. pose proof (wf_skip (g := g)) as Hne. unfold skip_nonempty in Hne.
  pose proof Hl as Hl'. unfold Peg.skip_level in Hl'. unfold skip_exp. simpl.
  destruct (g_ws g) as [w|], (g_comment g) as [c|]; simpl in *; rewrite ?andb_true_r in *;
    rewrite ?Hl; simpl; rewrite ?andb_true_iff in *; destruct_and?; split_and?;
    repeat match goal with
    | H : negb _ = true |- _ => apply negb_true_iff in H
    | H : ?x = _ |- context [?x] => rewrite H; simpl
    end; by try lia.
Qed.

(** On a well-formed grammar the interpreter never lacks fuel. *)
Lemma run_total n a k s l :
  goal_ok l k → l ≤ wf_ranks → gsize a k ≤ size_bound →
  cost (String.length s) l + gsize a k ≤ n → run n a k s ≠ None.
Proof using W.
  revert a k s l; induction n as [|n IH]; intros a k s l Hok Hl Hsz Hn.
  { pose proof (gsize_pos a k). lia. }
  assert (Hc : 1 ≤ csize a) by (destruct a; simpl; lia).
  destruct k as [[p|r|e1 e2|e1 e2|e|e|e]|e|]; simpl in *.
  - done.
  - destruct Hok as [Hlr%Nat.ltb_lt _].
    destruct (wf_rule r) as (?&?&?&?&_).
    pose proof (cost_level (String.length s) _ _ Hlr).
    assert (gsize (body_atomic g a r) (GMatch (body g r)) ≤ wf_size).
    { simpl. unfold csize. destruct (body_atomic g a r); [|done].
      pose proof (esize_mono 16 (body g r)). lia. }
    assert (Hr : run n (body_atomic g a r) (GMatch (body g r)) s ≠ None).
    { apply (IH _ _ _ (wf_rank r)); [done|lia|unfold size_bound in *; lia|unfold size_bound in *; lia]. }
    destruct (run n _ _ s) as [[[]|]|]; done.
  - destruct Hok as [[Hl1 Hl2]%andb_true_iff [Hs1 Hs2]%andb_true_iff].
    assert (Hr : run n a (GMatch e1) s ≠ None) by (apply (IH _ _ _ l); simpl; [done|lia..]).
    destruct (run n a (GMatch e1) s) as [[[ps1 s1]|]|] eqn:E1; simpl; [|done..]. clear Hr.
    apply run_sound in E1. pose proof (peg_length _ _ _ _ _ E1).
    apply peg_consumes in E1. pose proof (next_level_cost s s1 l) as Hnl.
    destruct Hnl as [Hnl1 Hnl2]; [done..|].
    assert (Hk : skip_level (next_level s s1 l) = true).
    { apply (next_level_ok _ _ _ (nullable e1)); [|apply skip_level_top|done].
      intros Hn1. rewrite Hn1 in Hl2. by apply andb_true_iff in Hl2 as [??]. }
    assert (Hr : run n a GSkip s1 ≠ None).
    { apply (IH _ _ _ (next_level s s1 l)); simpl; [done|lia..]. }
    destruct (run n a GSkip s1) as [[[ps s2]|]|] eqn:E2; simpl; [|done..]. clear Hr.
    apply run_sound, peg_length in E2.
    destruct (next_level_cost s s2 l) as [Hnl3 Hnl4]; [lia|done|].
    assert (Hr : run n a (GMatch e2) s2 ≠ None); [|by destruct (run n a (GMatch e2) s2)].
    apply (IH _ _ _ (next_level s s2 l)); simpl; [split; [|done]|lia..].
    apply (next_level_ok _ _ _ (nullable e1) (λ l, level_ok l e2)); [|apply level_ok_top|].
    + intros Hn1. rewrite Hn1 in Hl2. by apply andb_true_iff in Hl2 as [??].
    + intros ?. specialize (E1 ltac:(done)). lia.
  - destruct Hok as [[Hl1 Hl2]%andb_true_iff [Hs1 Hs2]%andb_true_iff].
    assert (Hr : run n a (GMatch e1) s ≠ None) by (apply (IH _ _ _ l); simpl; [done|lia..]).
    destruct (run n a (GMatch e1) s) as [[[ps1 s1]|]|] eqn:E1; simpl; [done| |done].
    apply (IH _ _ _ l); simpl; [done|lia..].
  - destruct Hok as [Hl1 [Hnn%negb_true_iff Hs]%andb_true_iff].
    assert (Hr : run n a (GMatch e) s ≠ None) by (apply (IH _ _ _ l); simpl; [done|lia..]).
    destruct (run n a (GMatch e) s) as [[[ps1 s1]|]|] eqn:E1; simpl; [|done..]. clear Hr.
    apply run_sound, peg_consumes in E1. specialize (E1 Hnn).
    pose proof (cost_lt _ _ wf_ranks l E1).
    assert (Hr : run n a (GTail e) s1 ≠ None); [|by destruct (run n a (GTail e) s1)].
    apply (IH _ _ _ wf_ranks); simpl; [|lia..].
    split_and!; [apply level_ok_top|apply skip_level_top|done..].
  - assert (Hr : run n a (GMatch e) s ≠ None) by (apply (IH _ _ _ l); simpl; [done|lia..]).
    destruct (run n a (GMatch e) s) as [[[ps1 s1]|]|]; done.
  - assert (Hr : run n a (GMatch e) s ≠ None) by (apply (IH _ _ _ l); simpl; [done|lia..]).
    destruct (run n a (GMatch e) s) as [[[ps1 s1]|]|]; done.
  - destruct Hok as (Hl1 & Hk & Hs & Hnn).
    assert (Hr : run n a GSkip s ≠ None) by (apply (IH _ _ _ l); simpl; [done|lia..]).
    destruct (run n a GSkip s) as [[[ps s1]|]|] eqn:E1; simpl; [|done..]. clear Hr.
    apply run_sound, peg_length in E1.
    destruct (next_level_cost s s1 l) as [Hnl1 Hnl2]; [done..|].
    assert (Hr : run n a (GMatch e) s1 ≠ None).
    { apply (IH _ _ _ (next_level s s1 l)); simpl; [split; [|done]|lia..].
      apply (next_level_ok _ _ _ true (λ l, level_ok l e)); [done|apply level_ok_top|done]. }
    destruct (run n a (GMatch e) s1) as [[[ps1 s2]|]|] eqn:E2; simpl; [|done..]. clear Hr.
    apply run_sound, peg_consumes in E2. specialize (E2 Hnn).
    pose proof (cost_lt (String.length s2) (String.length s) wf_ranks l).
    assert (Hr : run n a (GTail e) s2 ≠ None); [|by destruct (run n a (GTail e) s2)].
    apply (IH _ _ _ wf_ranks); simpl; [|lia..].
    split_and!; [apply level_ok_top|apply skip_level_top|done..].
  - destruct a; [done|].
    assert (Hr : run n true (GMatch (skip_exp g)) s ≠ None).
    { destruct (skip_exp_ok l Hok) as (? & ?). apply (IH _ _ _ l); simpl in *; [done|done|lia..]. }
    by destruct (run n true _ s) as [[[]|]|].
Qed.
End total.

(** ** The instance *)

(** The Unicode table restricted to ASCII. *)
Definition ascii_uppercase (c : string) : bool := one_ascii is_upper c.

Section instance.
Context {R : Set} `{EqDecision R} (g : grammar R) `{W : !WellFormed g}.

Definition parse_fuel (s : string) : nat := cost g (String.length s) wf_ranks + 16.

Definition interp_parse (r : R) (s : string) : string + list (token R) :=
  match run ascii_uppercase g s (parse_fuel s) false (GMatch (Ref r)) s with
  | Some (Some (ps, _)) => inr ps
  | _ => inl "parsing failed"
  end.

Lemma interp_total r s :
  ∃ x, run ascii_uppercase g s (parse_fuel s) false (GMatch (Ref r)) s = Some x.
Proof.
  assert (Hr : run ascii_uppercase g s (parse_fuel s) false (GMatch (Ref r)) s ≠ None).
  { eapply (run_total _ _ _ _ _ _ _ wf_ranks).
    - simpl. split; [|done]. apply Nat.ltb_lt, wf_rule.
    - done.
    - unfold size_bound. simpl. lia.
    - unfold parse_fuel. simpl. lia. }
  destruct (run _ _ _ _ _ _ _); [eauto|done].
Qed.

Lemma interp_parse_peg r s x :
  peg ascii_uppercase g s false (GMatch (Ref r)) s x →
  interp_parse r s = match x with Some (ps, _) => inr ps | None => inl "parsing failed" end.
Proof.
  intros Hp. destruct (interp_total r s) as [y Hy]. unfold interp_parse. rewrite Hy.
  apply run_sound in Hy. rewrite (peg_deterministic _ _ _ _ _ _ _ _ Hp Hy). by destruct y as [[]|].
Qed.

(** Any amount of fuel that gives an answer gives the answer. *)
Lemma interp_parse_run n r s x :
  run ascii_uppercase g s n false (GMatch (Ref r)) s = Some x →
  interp_parse r s = match x with Some (ps, _) => inr ps | None => inl "parsing failed" end.
Proof. intros Hp%run_sound. by apply interp_parse_peg. Qed.
End instance.

#[export] Instance interp_engine : PestEngine := {|
  pest_uppercase := ascii_uppercase;
  pest_parse _ _ g _ := interp_parse g;
|}.

#[export] Instance interp_laws : PestLaws.
Proof.
  split.
  - done.
  - intros R ? g ? r s ps Hp. destruct (interp_total g r s) as [y Hy].
    cbn in Hp. unfold interp_parse in Hp. rewrite Hy in Hp. apply run_sound in Hy.
    destruct y as [[ps' rest]|]; [|done]. injection Hp as ->. by exists rest.
  - intros R ? g ? r s e Hp. destruct (interp_total g r s) as [y Hy].
    cbn in Hp. unfold interp_parse in Hp. rewrite Hy in Hp. apply run_sound in Hy.
    by destruct y as [[ps' rest]|].
Qed.
