(* ===== verification/PegText.v ===== *)
(** * PegText: matching texts that are built from known pieces

    The laws of the generated parsers say that a parse is a derivation of
    [peg]; since derivations are unique, building one gives the result of the
    parser.  This file holds the steps for building derivations over texts that
    are put together from pieces: literals, runs of characters, quoted texts,
    and what follows them.  The files [ManifestText], [MakefileText],
    [SpecText] and [MacroText] use them to say what the parsers do with whole
    families of texts. *)

From S2P Require Import Prelude RustStr Peg PegEngine.

(** ** Whole characters *)

(** One character: as many bytes as its first byte announces. *)
Definition whole_char (c : string) : Prop :=
  match c with String a u => S (String.length u) = utf8_len a | EmptyString => False end.

Definition first_byte (P : ascii → bool) (s : string) : bool :=
  match s with String a _ => P a | EmptyString => false end.

(** Every byte of a text satisfies a test. *)
Fixpoint all_bytes (P : ascii → bool) (s : string) : bool :=
  match s with String a s => P a && all_bytes P s | EmptyString => true end.

Definition is_blank (a : ascii) : bool := Ascii.eqb a " " || Ascii.eqb a TAB.
Definition is_eol (a : ascii) : bool := Ascii.eqb a LF || Ascii.eqb a CR.

(** Facts about all bytes are checked by computation. *)
Definition ascii_forall (P : ascii → bool) : bool :=
  forallb P (ascii_of_nat <$> seq 0 256).

Lemma ascii_forall_spec P a : ascii_forall P = true → P a = true.
Proof.
  unfold ascii_forall. rewrite forallb_forall. intros H. apply H.
  rewrite <-list_elem_of_In, list_elem_of_fmap. exists (nat_of_ascii a).
  rewrite ascii_nat_embedding. split; [done|]. apply elem_of_seq.
  pose proof (nat_ascii_bounded a). lia.
Qed.

Lemma ascii_imp P Q :
  ascii_forall (λ a, implb (P a) (Q a)) = true → ∀ a, P a = true → Q a = true.
Proof. intros H a Ha. apply (ascii_forall_spec _ a) in H. cbv beta in H. by rewrite Ha in H. Qed.

Ltac by_bytes := apply ascii_imp; vm_compute; reflexivity.

(** A text that is empty or shows a byte that satisfies a test. *)
Definition starts (P : ascii → bool) (s : string) : Prop := first_byte P s = true ∨ s = EmptyString.

Lemma starts_imp (P Q : ascii → bool) s :
  starts P s → (∀ a, P a = true → Q a = true) → starts Q s.
Proof.
  intros [Hs|Hs] HPQ; [left|by right]. destruct s as [|a s]; [done|]. simpl in *. auto.
Qed.

Lemma starts_app (P : ascii → bool) s t : s ≠ EmptyString → all_bytes P s = true → starts P (s +:+ t).
Proof.
  intros Hne Hs. left. destruct s as [|a s]; [done|]. rewrite str_app_cons. simpl in *.
  by apply andb_true_iff in Hs as [-> _].
Qed.

(** Closes a goal on the first byte from an assumption on it. *)
Ltac by_starts :=
  solve [eapply starts_imp; [first [eassumption|left; eassumption]|by_bytes]|by left|by right].

(** [runs P s]: [s] is a sequence of whole characters that satisfy [P]. *)
Inductive runs (P : string → Prop) : string → Prop :=
| runs_nil : runs P EmptyString
| runs_cons c s : whole_char c → P c → runs P s → runs P (c +:+ s).

Lemma next_char_whole c s : whole_char c → next_char (c +:+ s) = Some (c, s).
Proof.
  destruct c as [|a u]; [done|]. intros Hl. simpl in Hl. unfold next_char.
  rewrite str_app_cons, <-Hl. rewrite <-str_app_cons.
  change (S (String.length u)) with (String.length (String a u)).
  by rewrite take_bytes_app, split_off_app.
Qed.

Lemma whole_ascii a : nat_of_ascii a < 128 → whole_char (chr a).
Proof. intros Ha. unfold whole_char, utf8_len. simpl. case_match eqn:E; [done|]. apply Nat.ltb_ge in E. lia. Qed.

Lemma all_bytes_app P s t : all_bytes P (s +:+ t) = all_bytes P s && all_bytes P t.
Proof. induction s as [|a s IH]; [done|]. rewrite str_app_cons. simpl. by rewrite IH, andb_assoc. Qed.

Lemma all_bytes_impl (P Q : ascii → bool) s :
  (∀ a, P a = true → Q a = true) → all_bytes P s = true → all_bytes Q s = true.
Proof.
  intros HPQ. induction s as [|a s IH]; [done|]. simpl. rewrite !andb_true_iff. intros [??]. auto.
Qed.

Lemma all_bytes_contains P c s : all_bytes P s = true → P c = false → contains_char c s = false.
Proof.
  intros Hs Hc. induction s as [|a s IH]; [done|]. simpl in *.
  apply andb_true_iff in Hs as [Ha Hs]. rewrite IH by done.
  destruct (Ascii.eqb_spec a c) as [->|]; [congruence|done].
Qed.

Lemma runs_impl (P Q : string → Prop) s : (∀ c, P c → Q c) → runs P s → runs Q s.
Proof. intros HPQ. induction 1; constructor; auto. Qed.

Lemma runs_ascii (P : ascii → bool) s :
  (∀ a, P a = true → nat_of_ascii a < 128) → all_bytes P s = true →
  runs (λ c, ∃ a, c = chr a ∧ P a = true) s.
Proof.
  intros HP. induction s as [|a s IH]; simpl; [constructor|]. intros [Ha Hs]%andb_true_iff.
  apply (runs_cons _ (chr a) s); eauto using whole_ascii.
Qed.

(** A valid text is a sequence of whole characters; their first bytes are bytes
    of the text. *)
Lemma utf8_runs (P : ascii → bool) s :
  utf8_valid s = true → all_bytes P s = true → runs (λ c, first_byte P c = true) s.
Proof.
  remember (String.length s) as n eqn:Hn. revert s Hn.
  induction (lt_wf n) as [n _ IH]. intros s -> Hv Hs.
  assert (Hstep : ∀ c t, s = c +:+ t → whole_char c → utf8_valid t = true →
    runs (λ c, first_byte P c = true) s).
  { intros c t -> Hc Ht. rewrite all_bytes_app in Hs. apply andb_true_iff in Hs as [Hsc Hst].
    constructor; [done| |].
    - destruct c as [|a u]; [done|]. simpl in *. by apply andb_true_iff in Hsc as [? _].
    - eapply IH; [|done..]. destruct c; [done|]. simpl. rewrite str_app_length. lia. }
  destruct s as [|a s1]; [constructor|]. cbn [utf8_valid] in Hv.
  destruct (byte_in 0 127 a) eqn:E1.
  { apply (Hstep (chr a) s1); [done| |done]. apply whole_ascii.
    unfold byte_in in E1. apply andb_true_iff in E1 as [_ ?%Nat.leb_le]. lia. }
  destruct s1 as [|b s2]; [done|].
  destruct (byte_in 194 223 a) eqn:E2.
  { apply andb_true_iff in Hv as [_ Hv]. apply (Hstep (String a (chr b)) s2); [done| |done].
    apply andb_true_iff in E2 as [H1%Nat.leb_le H2%Nat.leb_le]. unfold whole_char, utf8_len. simpl.
    repeat case_match; try done; rewrite ?Nat.ltb_lt, ?Nat.ltb_ge in *; lia. }
  destruct s2 as [|c s3]; [done|].
  assert (Hthree : byte_in 224 239 a = true → utf8_valid s3 = true → runs (λ c, first_byte P c = true)
    (String a (String b (String c s3)))).
  { intros [H1%Nat.leb_le H2%Nat.leb_le]%andb_true_iff Hv3.
    apply (Hstep (String a (String b (chr c))) s3); [done| |done]. unfold whole_char, utf8_len. simpl.
    repeat case_match; try done; rewrite ?Nat.ltb_lt, ?Nat.ltb_ge in *; lia. }
  assert (Hsub : ∀ lo hi, 224 ≤ lo → hi ≤ 239 → byte_in lo hi a = true → byte_in 224 239 a = true).
  { intros lo hi ?? [H1%Nat.leb_le H2%Nat.leb_le]%andb_true_iff.
    apply andb_true_iff. rewrite !Nat.leb_le. lia. }
  destruct (byte_in 224 224 a) eqn:E3.
  { apply andb_true_iff in Hv as [_ Hv]. apply Hthree; [eapply Hsub; [..|done]; lia|done]. }
  destruct (byte_in 237 237 a) eqn:E4.
  { apply andb_true_iff in Hv as [_ Hv]. apply Hthree; [eapply Hsub; [..|done]; lia|done]. }
  destruct (byte_in 225 239 a) eqn:E5.
  { apply andb_true_iff in Hv as [_ Hv]. apply Hthree; [eapply Hsub; [..|done]; lia|done]. }
  destruct s3 as [|d s4]; [done|].
  assert (Hfour : ∀ lo, 240 ≤ lo → lo ≤ nat_of_ascii a → utf8_valid s4 = true →
    runs (λ c, first_byte P c = true) (String a (String b (String c (String d s4))))).
  { intros lo ?? Hv4. apply (Hstep (String a (String b (String c (chr d)))) s4); [done| |done].
    unfold whole_char, utf8_len. simpl.
    repeat case_match; try done; rewrite ?Nat.ltb_lt, ?Nat.ltb_ge in *; lia. }
  repeat match type of Hv with
  | (if ?b then _ else _) = true => destruct b eqn:?; [apply andb_true_iff in Hv as [_ Hv];
      match goal with H : byte_in _ _ _ = true |- _ => apply andb_true_iff in H as [?%Nat.leb_le _] end;
      eapply Hfour; [..|done|done]; lia|]
  end. done.
Qed.

(** ** Building derivations *)

Section build.
Context (uppercase : string → bool).
Context {R : Type} `{EqDecision R} (g : grammar R) (full : string).
Local Abbreviation peg := (peg uppercase g full).

Lemma peg_lit_ok a t s : peg a (GMatch (Prim (Lit t))) (t +:+ s) (Some ([], s)).
Proof. apply peg_prim_ok. simpl. by rewrite starts_with_app, split_off_app. Qed.

Lemma peg_lit_fail a t s : starts_with t s = false → peg a (GMatch (Prim (Lit t))) s None.
Proof. intros Ht. apply peg_prim_fail. simpl. by rewrite Ht. Qed.

(** A literal of which the text shows another first byte. *)
Lemma peg_lit_other a b t s :
  starts (λ c, negb (Ascii.eqb c b)) s →
  peg a (GMatch (Prim (Lit (String b t)))) s None.
Proof.
  intros Hs. apply peg_lit_fail. unfold starts_with. destruct s as [|c s]; [done|].
  destruct Hs as [Hs|?]; [|done]. simpl in *. destruct (Ascii.eqb_spec c b) as [->|]; [done|].
  by destruct (ascii_dec b c) as [->|].
Qed.

Lemma peg_any_ok a c s : whole_char c → peg a (GMatch (Prim Any)) (c +:+ s) (Some ([], s)).
Proof. intros Hc. apply peg_prim_ok. unfold match_prim. by rewrite next_char_whole. Qed.

Lemma peg_newline_LF a s : peg a (GMatch (Prim Newline)) (String LF s) (Some ([], s)).
Proof. by apply peg_prim_ok. Qed.

Lemma peg_newline_other a s :
  starts (λ c, negb (Ascii.eqb c LF || Ascii.eqb c CR)) s →
  peg a (GMatch (Prim Newline)) s None.
Proof.
  intros Hs. apply peg_prim_fail. destruct s as [|c s]; [done|]. destruct Hs as [Hs|?]; [|done].
  simpl in *. apply negb_true_iff, orb_false_iff in Hs as [-> ->]. done.
Qed.

Lemma peg_class_ok a k b s :
  nat_of_ascii b < 128 → class_ok uppercase k (chr b) = true →
  peg a (GMatch (Prim (Class_ k))) (String b s) (Some ([], s)).
Proof.
  intros Hb Hk. apply peg_prim_ok. unfold match_prim. change (String b s) with (chr b +:+ s).
  rewrite next_char_whole by by apply whole_ascii. cbn [mbind option_bind]. by rewrite Hk.
Qed.

Lemma peg_class_fail a k b s :
  nat_of_ascii b < 128 → class_ok uppercase k (chr b) = false →
  peg a (GMatch (Prim (Class_ k))) (String b s) None.
Proof.
  intros Hb Hk. apply peg_prim_fail. unfold match_prim. change (String b s) with (chr b +:+ s).
  rewrite next_char_whole by by apply whole_ascii. cbn [mbind option_bind]. by rewrite Hk.
Qed.

(** Inside an atomic rule there are no tokens and nothing is skipped. *)
Lemma peg_seq_atomic e1 e2 s s1 s2 :
  peg true (GMatch e1) s (Some ([], s1)) → peg true (GMatch e2) s1 (Some ([], s2)) →
  peg true (GMatch (Seq e1 e2)) s (Some ([], s2)).
Proof. intros H1 H2. apply (peg_seq_ok _ _ _ _ _ _ _ [] s1 [] s1 [] s2); auto using peg_skip_atomic. Qed.

Lemma peg_seq_atomic_fail e1 e2 s s1 :
  peg true (GMatch e1) s (Some ([], s1)) → peg true (GMatch e2) s1 None →
  peg true (GMatch (Seq e1 e2)) s None.
Proof. intros H1 H2. eapply peg_seq_fail2; eauto using peg_skip_atomic. Qed.

(** A part without tokens before another part. *)
Lemma peg_seq_quiet a e1 e2 s s1 s2 ps s3 :
  peg a (GMatch e1) s (Some ([], s1)) → peg a GSkip s1 (Some ([], s2)) →
  peg a (GMatch e2) s2 (Some (ps, s3)) → peg a (GMatch (Seq e1 e2)) s (Some (ps, s3)).
Proof. intros H1 Hs H2. by apply (peg_seq_ok _ _ _ _ _ _ _ [] s1 [] s2 ps s3). Qed.

(** A rule used inside an atomic rule. *)
Lemma peg_ref_inside r span s :
  peg true (GMatch (body g r)) (span +:+ s) (Some ([], s)) →
  peg true (GMatch (Ref r)) (span +:+ s) (Some ([], s)).
Proof. intros H. by apply (peg_ref_ok _ _ _ true r _ span []). Qed.

Lemma peg_ref_inside_fail r s :
  peg true (GMatch (body g r)) s None → peg true (GMatch (Ref r)) s None.
Proof. intros H. by apply peg_ref_fail. Qed.

(** The token of a rule. *)
Lemma peg_ref_normal r span s ps :
  type_of g r = Normal → is_special g r = false →
  peg false (GMatch (body g r)) (span +:+ s) (Some (ps, s)) →
  peg false (GMatch (Ref r)) (span +:+ s) (Some ([Tok r span ps], s)).
Proof.
  intros Ht Hs H. pose proof (peg_ref_ok uppercase g full false r (span +:+ s) span ps s) as Hr.
  unfold emit, body_atomic in Hr. rewrite Ht, Hs in Hr. by apply Hr.
Qed.

Lemma peg_ref_atomic r span s :
  type_of g r = Atomic → peg true (GMatch (body g r)) (span +:+ s) (Some ([], s)) →
  peg false (GMatch (Ref r)) (span +:+ s) (Some ([Tok r span []], s)).
Proof.
  intros Ht H. pose proof (peg_ref_ok uppercase g full false r (span +:+ s) span [] s) as Hr.
  unfold emit, body_atomic in Hr. rewrite Ht in Hr. rewrite orb_true_r in Hr. by apply Hr.
Qed.

Lemma peg_ref_normal_fail r s :
  type_of g r = Normal → is_special g r = false →
  peg false (GMatch (body g r)) s None → peg false (GMatch (Ref r)) s None.
Proof. intros Ht Hs H. apply peg_ref_fail. unfold body_atomic. by rewrite Ht, Hs. Qed.

Lemma peg_ref_atomic_fail r s :
  type_of g r = Atomic → peg true (GMatch (body g r)) s None → peg false (GMatch (Ref r)) s None.
Proof. intros Ht H. apply peg_ref_fail. unfold body_atomic. by rewrite Ht, orb_true_r. Qed.

(** A run of characters, each matched by [e] whatever follows it, up to where
    [e] does not match. *)
Definition eats (e : pexp R) (c : string) : Prop := ∀ s, peg true (GMatch e) (c +:+ s) (Some ([], s)).

Lemma peg_tail_run e cs s :
  runs (eats e) cs → peg true (GMatch e) s None → peg true (GTail e) (cs +:+ s) (Some ([], s)).
Proof.
  intros Hcs Hs. induction Hcs as [|c cs _ Hc _ IH].
  - apply (peg_tail_stop _ _ _ _ _ _ [] s); auto using peg_skip_atomic.
  - rewrite <-str_app_assoc.
    eapply (peg_tail_go _ _ _ _ _ _ [] _ [] _ []); [apply peg_skip_atomic|apply Hc|exact IH].
Qed.

Lemma peg_star_run e cs s :
  runs (eats e) cs → peg true (GMatch e) s None → peg true (GMatch (Star e)) (cs +:+ s) (Some ([], s)).
Proof.
  intros Hcs Hs. destruct Hcs as [|c cs _ Hc Hcs]; [by apply peg_star_stop|].
  rewrite <-str_app_assoc. apply (peg_star_go _ _ _ _ _ _ [] (cs +:+ s) []); [apply Hc|].
  by apply peg_tail_run.
Qed.

Lemma peg_plus_run e cs s :
  cs ≠ EmptyString → runs (eats e) cs → peg true (GMatch e) s None →
  peg true (GMatch (Plus e)) (cs +:+ s) (Some ([], s)).
Proof.
  intros Hne Hcs Hs. destruct Hcs as [|c cs _ Hc Hcs]; [done|].
  rewrite <-str_app_assoc. eapply peg_seq_atomic; [apply Hc|]. by apply peg_star_run.
Qed.

Lemma peg_alt_none a e1 e2 s :
  peg a (GMatch e1) s None → peg a (GMatch e2) s None → peg a (GMatch (Alt e1 e2)) s None.
Proof. apply peg_alt_r. Qed.

(** [!e ~ ANY]: a character at which [e] does not match. *)
Lemma eats_not e c :
  whole_char c → (∀ s, peg true (GMatch e) (c +:+ s) None) → eats (Seq (Not e) (Prim Any)) c.
Proof. intros Hc He s. eapply peg_seq_atomic; [by apply peg_not_ok|by apply peg_any_ok]. Qed.

Lemma eats_ref r c : eats (body g r) c → eats (Ref r) c.
Proof. intros H s. apply peg_ref_inside, H. Qed.

(** The characters up to the end of the line. *)
Lemma peg_line_run r v t :
  body g r = Seq (Not (Prim Newline)) (Prim Any) →
  utf8_valid v = true → all_bytes (λ a, negb (is_eol a)) v = true →
  peg true (GMatch (Star (Ref r))) (v +:+ String LF t) (Some ([], String LF t)).
Proof.
  intros Hr Hv Hb. apply peg_star_run.
  - pose proof (utf8_runs _ _ Hv Hb) as Hruns. clear Hv Hb.
    induction Hruns as [|c cs Hc Hcb _ IH]; constructor; [done| |done].
    apply eats_ref. rewrite Hr. apply eats_not; [done|]. intros s. apply peg_newline_other. left.
    destruct c as [|a u]; [done|]. by rewrite str_app_cons.
  - apply peg_ref_inside_fail. rewrite Hr. apply peg_seq_fail1. eapply peg_not_fail, peg_newline_LF.
Qed.

Lemma eats_l e1 e2 c : eats e1 c → eats (Alt e1 e2) c.
Proof. intros H s. by apply peg_alt_l. Qed.

Lemma eats_r e1 e2 c :
  (∀ s, peg true (GMatch e1) (c +:+ s) None) → eats e2 c → eats (Alt e1 e2) c.
Proof. intros H1 H2 s. by apply peg_alt_r. Qed.

(** Sets of bytes: a choice of single characters, ranges and classes of ASCII
    matches exactly the bytes of the set. *)
Fixpoint is_byte_set (e : pexp R) : bool :=
  match e with
  | Alt e1 e2 => is_byte_set e1 && is_byte_set e2
  | Prim (Lit (String _ EmptyString)) | Prim (Range _ _) => true
  | Prim (Class_ k) => match k with UPPERCASE => false | _ => true end
  | _ => false
  end.
Fixpoint in_set (e : pexp R) (a : ascii) : bool :=
  match e with
  | Alt e1 e2 => in_set e1 a || in_set e2 a
  | Prim (Lit (String b _)) => Ascii.eqb a b
  | Prim (Range lo hi) => ascii_between lo hi a
  | Prim (Class_ k) => class_ok (λ _, false) k (chr a)
  | _ => false
  end.

Lemma byte_prim_next (k : string → bool) (p : prim) b a s :
  nat_of_ascii b < 128 →
  match_prim uppercase full p (String b s) =
    ('(c, s') ← next_char (String b s); if k c then Some s' else None) →
  peg a (GMatch (Prim p)) (String b s) (if k (chr b) then Some ([], s) else None).
Proof.
  intros Hb Hp. change (String b s) with (chr b +:+ s) in Hp at 2.
  rewrite next_char_whole in Hp by by apply whole_ascii. cbn [mbind option_bind] in Hp.
  destruct (k (chr b)); [by apply peg_prim_ok|by apply peg_prim_fail].
Qed.

Lemma byte_set_match e a b s :
  is_byte_set e = true → nat_of_ascii b < 128 →
  peg a (GMatch e) (String b s) (if in_set e b then Some ([], s) else None).
Proof.
  intros He Hb. induction e; try done.
  - destruct p as [[|c []]|lo hi| |k| | |]; try done; cbn [in_set].
    + destruct (Ascii.eqb_spec b c) as [->|Hne]; [apply (peg_lit_ok _ (chr c))|].
      apply peg_lit_other. left. simpl. by apply negb_true_iff, Ascii.eqb_neq.
    + by apply (byte_prim_next (one_ascii (ascii_between lo hi)) (Range lo hi)).
    + destruct k; try done; by apply (byte_prim_next (class_ok (λ _, false) _) (Class_ _)).
  - simpl in He. apply andb_true_iff in He as [He1 He2]. cbn [in_set].
    specialize (IHe1 He1). specialize (IHe2 He2). destruct (in_set e1 b); simpl.
    + by apply peg_alt_l.
    + destruct (in_set e2 b); [by apply peg_alt_r|by apply peg_alt_none].
Qed.

Lemma byte_set_end e a : is_byte_set e = true → peg a (GMatch e) EmptyString None.
Proof.
  induction e; try done.
  - by destruct p as [[|c []]|lo hi| |k| | |]; try done; intros _; apply peg_prim_fail.
  - simpl. intros [He1 He2]%andb_true_iff. apply peg_alt_none; auto.
Qed.

(** A rule whose body is a set of bytes, used inside an atomic rule. *)
Lemma eats_byte r a :
  is_byte_set (body g r) = true → (nat_of_ascii a <? 128) && in_set (body g r) a = true →
  eats (Ref r) (chr a).
Proof.
  intros Hr [Ha%Nat.ltb_lt Hin]%andb_true_iff. apply eats_ref. intros s.
  pose proof (byte_set_match (body g r) true a s Hr Ha) as Hm. by rewrite Hin in Hm.
Qed.

Lemma byte_stop r s :
  is_byte_set (body g r) = true →
  starts (λ a, (nat_of_ascii a <? 128) && negb (in_set (body g r) a)) s →
  peg true (GMatch (Ref r)) s None.
Proof.
  intros Hr Hs. apply peg_ref_inside_fail. destruct s as [|a s]; [by apply byte_set_end|].
  destruct Hs as [Hs|]; [|done]. simpl in Hs. apply andb_true_iff in Hs as [Ha%Nat.ltb_lt Hn].
  pose proof (byte_set_match (body g r) true a s Hr Ha) as Hm.
  apply negb_true_iff in Hn. by rewrite Hn in Hm.
Qed.

(** A run of bytes of the set. *)
Lemma runs_bytes (P : ascii → bool) r s :
  is_byte_set (body g r) = true →
  (∀ a, P a = true → (nat_of_ascii a <? 128) && in_set (body g r) a = true) →
  all_bytes P s = true → runs (eats (Ref r)) s.
Proof.
  intros Hr HP Hs. eapply runs_impl; [|apply (runs_ascii P); [|exact Hs]].
  - intros c (a & -> & Ha). apply eats_byte; auto.
  - intros a [Ha%Nat.ltb_lt _]%HP%andb_true_iff. done.
Qed.

End build.
Arguments eats _ {R _} _ _ _ _.

(** ** Blanks

    Three of the grammars skip blanks and tabs, and have no comments of their own
    between the parts of a rule. *)
Section blanks.
Context (uppercase : string → bool).
Context {R : Type} `{EqDecision R} (g : grammar R) (full : string) (w : R).
Hypothesis Hws : g_ws g = Some w.
Hypothesis Hcomment : g_comment g = None.
Hypothesis Hbody : body g w = Alt (Prim (Lit " ")) (Prim (Lit (chr TAB))).
Local Abbreviation peg := (peg uppercase g full).

Lemma blank_ok a s : is_blank a = true → peg true (GMatch (Ref w)) (String a s) (Some ([], s)).
Proof using Hbody.
  intros Ha. apply (peg_ref_inside _ _ _ _ (chr a)). rewrite Hbody. unfold is_blank in Ha.
  destruct (Ascii.eqb_spec a " ") as [->|]; [by apply peg_alt_l, (peg_lit_ok _ _ _ _ " ")|].
  destruct (Ascii.eqb_spec a TAB) as [->|]; [|done].
  apply peg_alt_r; [apply peg_lit_other; by left|by apply (peg_lit_ok _ _ _ _ (chr TAB))].
Qed.

Lemma blank_none s : starts (λ a, negb (is_blank a)) s → peg true (GMatch (Ref w)) s None.
Proof using Hbody.
  intros Hs. apply peg_ref_inside_fail. rewrite Hbody.
  apply peg_alt_none; apply peg_lit_other; by_starts.
Qed.

Lemma skip_blanks bl s :
  all_bytes is_blank bl = true → starts (λ a, negb (is_blank a)) s →
  peg false GSkip (bl +:+ s) (Some ([], s)).
Proof using Hbody Hws Hcomment.
  intros Hbl Hs. apply (peg_skip_ok _ _ _ _ []). unfold skip_exp. rewrite Hws, Hcomment.
  apply peg_star_run; [|by apply blank_none].
  induction bl as [|a bl IH]; [constructor|]. simpl in Hbl. apply andb_true_iff in Hbl as [Ha Hbl].
  apply (runs_cons _ (chr a) bl); [| |by apply IH].
  - apply whole_ascii. apply Nat.ltb_lt. revert a Ha. by_bytes.
  - intros t. by apply blank_ok.
Qed.

Lemma skip_nothing s : starts (λ a, negb (is_blank a)) s → peg false GSkip s (Some ([], s)).
Proof using Hbody Hws Hcomment. intros Hs. by apply (skip_blanks EmptyString). Qed.
End blanks.

(** ** The parser on a text with a derivation *)

Section parse.
Context `{PE : PestEngine, !PestLaws} {R : Set} `{EqDecision R} (g : grammar R) `{!WellFormed g}.

Lemma pest_parse_of_peg r s ps rest :
  peg pest_uppercase g s false (GMatch (Ref r)) s (Some (ps, rest)) → pest_parse g r s = inr ps.
Proof.
  intros Hd. destruct (pest_parse g r s) as [e|ps'] eqn:Hp.
  - apply pest_parse_err in Hp. by pose proof (peg_deterministic _ _ _ _ _ _ _ _ Hp Hd).
  - apply pest_parse_ok in Hp as [rest' Hp].
    pose proof (peg_deterministic _ _ _ _ _ _ _ _ Hp Hd) as [= -> ->]. done.
Qed.

Lemma pest_parse_of_peg_none r s :
  peg pest_uppercase g s false (GMatch (Ref r)) s None → ∃ e, pest_parse g r s = inl e.
Proof.
  intros Hd. destruct (pest_parse g r s) as [e|ps'] eqn:Hp; [eauto|].
  apply pest_parse_ok in Hp as [rest' Hp].
  by pose proof (peg_deterministic _ _ _ _ _ _ _ _ Hp Hd).
Qed.
End parse.
