(* ===== verification/Digest.v ===== *)
(** * Digest: content digests ([libips/src/digest/mod.rs])

    The algorithms and sources with the names their [strum] attributes give
    them, the text form [source:algorithm:hash] and its parser, and hashing of
    bytes with the hash functions of the crates [sha2] and [sha3] as
    parameters. *)

From S2P Require Import Prelude RustStr.

Inductive DigestAlgorithm :=
| SHA1 | SHA256 | SHA512 | SHA512Half | SHA3256 | SHA3512Half | SHA3512.

Inductive DigestSource :=
| GzipCompressed | GNUElf | GNUElfUnsigned | UncompressedFile | Unknown | PrimaryPayloadHash.

#[export] Instance DigestAlgorithm_eq_dec : EqDecision DigestAlgorithm.
Proof. solve_decision. Defined.
#[export] Instance DigestSource_eq_dec : EqDecision DigestSource.
Proof. solve_decision. Defined.

(** [#[default]] of the two enums. *)
Definition DigestAlgorithm_default : DigestAlgorithm := SHA1.
Definition DigestSource_default : DigestSource := PrimaryPayloadHash.

Record Digest_ := Digest {
  hash : string;
  algorithm : DigestAlgorithm;
  source : DigestSource;
}.

#[export] Instance Digest_eq_dec : EqDecision Digest_.
Proof. solve_decision. Defined.

Definition Digest_default : Digest_ :=
  {| hash := ""; algorithm := DigestAlgorithm_default; source := DigestSource_default |}.

Inductive DigestError :=
| UnknownAlgorithm (algorithm : string)
| InvalidDigestFormat (digest details : string).

#[export] Instance DigestError_eq_dec : EqDecision DigestError.
Proof. solve_decision. Defined.

(** ** Names: [#[strum(serialize = "..")]] gives both [Display] and [TryFrom<&str>] *)

Definition DigestAlgorithm_to_string (a : DigestAlgorithm) : string :=
  match a with
  | SHA1 => "sha1"
  | SHA256 => "sha256t"
  | SHA512 => "sha512t"
  | SHA512Half => "sha512t_256"
  | SHA3256 => "sha3256t"
  | SHA3512Half => "sha3512t_256"
  | SHA3512 => "sha3512t"
  end.

Definition DigestAlgorithm_try_from (s : string) : option DigestAlgorithm :=
  list_find (λ a, DigestAlgorithm_to_string a = s)
    [SHA1; SHA256; SHA512; SHA512Half; SHA3256; SHA3512Half; SHA3512] ≫= λ x, Some x.2.

Definition DigestSource_to_string (s : DigestSource) : string :=
  match s with
  | GzipCompressed => "gzip"
  | GNUElf => "gelf"
  | GNUElfUnsigned => "gelf.unsigned"
  | UncompressedFile => "file"
  | Unknown => "unknown"
  | PrimaryPayloadHash => "PrimaryPayloadHash"
  end.

Definition DigestSource_try_from (s : string) : option DigestSource :=
  list_find (λ a, DigestSource_to_string a = s)
    [GzipCompressed; GNUElf; GNUElfUnsigned; UncompressedFile; Unknown; PrimaryPayloadHash]
    ≫= λ x, Some x.2.

(** ** [impl FromStr for Digest] *)
Definition from_str (s : string) : outcome DigestError Digest_ :=
  if negb (contains_char ":" s) then
    Ok {| hash := s; algorithm := SHA1; source := PrimaryPayloadHash |}
  else
    match split_char ":" s with
    | p0 :: p1 :: p2 :: _ =>
        let src := default Unknown (DigestSource_try_from p0) in
        algo ← ok_or (UnknownAlgorithm p1) (DigestAlgorithm_try_from p1);
        Ok {| hash := p2; algorithm := algo; source := src |}
    | _ => Err (InvalidDigestFormat s "cannot split into 3 parts")
    end.

(** ** [impl Display for Digest] *)
Definition to_string (d : Digest_) : string :=
  DigestSource_to_string (source d) +:+ String ":"
    (DigestAlgorithm_to_string (algorithm d) +:+ String ":" (hash d)).

(** ** Hashing *)

(** The hash functions of [sha2] and [sha3], printed with [{:x}]. *)
Class Hashes := {
  Sha256 : string → string;
  Sha512Trunc256 : string → string;
  Sha512 : string → string;
  Sha3_256 : string → string;
  Sha3_512 : string → string;
}.

Definition hex_digit (a : ascii) : bool :=
  let n := nat_of_ascii a in
  (48 <=? n) && (n <=? 57) || (97 <=? n) && (n <=? 102).
Fixpoint all_chars (f : ascii → bool) (s : string) : bool :=
  match s with
  | EmptyString => true
  | String a s => f a && all_chars f s
  end.
(** Lower-case hexadecimal of [n] bits. *)
Definition hex_of (n : nat) (s : string) : Prop :=
  all_chars hex_digit s = true ∧ String.length s = n / 4.

Class HashesLaws `{Hashes} := {
  Sha256_hex b : hex_of 256 (Sha256 b);
  Sha512Trunc256_hex b : hex_of 256 (Sha512Trunc256 b);
  Sha512_hex b : hex_of 512 (Sha512 b);
  Sha3_256_hex b : hex_of 256 (Sha3_256 b);
  Sha3_512_hex b : hex_of 512 (Sha3_512 b);
}.

(** [Digest::from_bytes] *)
Definition from_bytes `{Hashes} (b : string) (algo : DigestAlgorithm) (src : DigestSource)
    : outcome DigestError Digest_ :=
  h ← match algo with
      | SHA256 => Ok (Sha256 b)
      | SHA512Half => Ok (Sha512Trunc256 b)
      | SHA512 => Ok (Sha512 b)
      | SHA3512Half | SHA3256 => Ok (Sha3_256 b)
      | SHA3512 => Ok (Sha3_512 b)
      | SHA1 => Err (UnknownAlgorithm (DigestAlgorithm_to_string algo))
      end;
  Ok {| source := src; algorithm := algo; hash := h |}.

(** ** Lemmas *)

Lemma DigestAlgorithm_codec a : DigestAlgorithm_try_from (DigestAlgorithm_to_string a) = Some a.
Proof. by destruct a. Qed.
Lemma DigestSource_codec s : DigestSource_try_from (DigestSource_to_string s) = Some s.
Proof. by destruct s. Qed.
Lemma DigestAlgorithm_no_colon a : contains_char ":" (DigestAlgorithm_to_string a) = false.
Proof. by destruct a. Qed.
Lemma DigestSource_no_colon s : contains_char ":" (DigestSource_to_string s) = false.
Proof. by destruct s. Qed.
#[export] Hint Resolve DigestAlgorithm_no_colon DigestSource_no_colon : rust.

Lemma to_string_colon d : contains_char ":" (to_string d) = true.
Proof. unfold to_string. rewrite contains_char_app. simpl. by rewrite orb_true_r. Qed.

Lemma to_string_split d :
  split_char ":" (to_string d) =
    DigestSource_to_string (source d) :: DigestAlgorithm_to_string (algorithm d)
      :: split_char ":" (hash d).
Proof. unfold to_string. by rewrite !split_char_app by eauto with rust. Qed.

(** Reading what [Display] printed gives the digest back, up to the end of the
    first piece of its hash. *)
Lemma from_str_to_string d :
  from_str (to_string d) =
    Ok {| hash := default "" (head (split_char ":" (hash d)));
          algorithm := algorithm d; source := source d |}.
Proof.
  unfold from_str. rewrite to_string_colon, to_string_split. simpl.
  destruct (split_char ":" (hash d)) as [|h hs] eqn:E; [by apply split_char_ne in E|].
  by rewrite DigestSource_codec, DigestAlgorithm_codec.
Qed.

Lemma split_char_head_iff c s :
  default "" (head (split_char c s)) = s ↔ contains_char c s = false.
Proof.
  split.
  - intros <-. pose proof (split_char_pieces c s) as Hp.
    destruct Hp as [|p ps Hp Hps]; [done|]. done.
  - intros H. by rewrite split_char_none.
Qed.

Lemma hex_no_colon n s : hex_of n s → contains_char ":" s = false.
Proof.
  intros [H _]. induction s as [|a s IH]; simpl in *; [done|].
  apply andb_true_iff in H as [Ha Hs]. rewrite IH by done. case_ascii.
Qed.

Lemma from_str_hash_no_colon s d : from_str s = Ok d → contains_char ":" (hash d) = false.
Proof.
  unfold from_str. destruct (contains_char ":" s) eqn:Hs; simpl; [|by intros [= <-]].
  pose proof (split_char_pieces ":" s) as Hp.
  destruct (split_char ":" s) as [|p0 [|p1 [|p2 ps]]]; try done.
  destruct (DigestAlgorithm_try_from p1); simpl; [|done]. intros [= <-]. simpl.
  rewrite !Forall_cons in Hp. naive_solver.
Qed.
#[export] Hint Resolve from_str_hash_no_colon : rust.

Lemma from_str_no_panic s w : from_str s ≠ Panic w.
Proof.
  unfold from_str. destruct (contains_char ":" s); simpl; [|done].
  destruct (split_char ":" s) as [|p0 [|p1 [|p2 ps]]]; try done.
  by destruct (DigestAlgorithm_try_from p1).
Qed.

(** ** Properties *)

Lemma roundtrip_no_colon d : contains_char ":" (hash d) = false → from_str (to_string d) = Ok d.
Proof. intros Hd. rewrite from_str_to_string, split_char_none by done. by destruct d. Qed.

(** C36. [Display] and [FromStr] of a digest round-trip exactly on the digests
    whose hash holds no colon: printing such a digest as [source:algorithm:hash]
    and parsing the text gives the same digest back, and no other digest does. *)
Theorem digest_roundtrip d :
  from_str (to_string d) = Ok d ↔ contains_char ":" (hash d) = false.
Proof.
  rewrite from_str_to_string, <-split_char_head_iff. destruct d as [h a s]. simpl.
  split; [congruence|by intros ->].
Qed.

(** Parsing normalises: whatever text a digest was parsed from (the bare
    hash of the first action argument, or the three-part form with an unknown
    source or with pieces after the third), printing the digest and parsing it
    again gives the same digest. *)
Theorem digest_parse_print_stable s d : from_str s = Ok d → from_str (to_string d) = Ok d.
Proof. intros H%from_str_hash_no_colon. by apply roundtrip_no_colon. Qed.

Lemma digest_parse_print_stable_witness :
  from_str "somewhere:sha512t:abcd:ignored" = Ok (Digest "abcd" SHA512 Unknown) ∧
  from_str (to_string (Digest "abcd" SHA512 Unknown)) = Ok (Digest "abcd" SHA512 Unknown).
Proof.
  split; [reflexivity|].
  apply (digest_parse_print_stable "somewhere:sha512t:abcd:ignored"). reflexivity.
Defined.

(** [Digest::from_str] on every input: a text without a colon is a SHA1
    payload hash; with one colon it is a format error; with more, an unknown
    algorithm name in the second piece is an error and an unknown source name is
    not.  It never panics. *)
Theorem from_str_cases s :
  match split_char ":" s with
  | [p0] => from_str s = Ok (Digest s SHA1 PrimaryPayloadHash)
  | [p0; p1] => from_str s = Err (InvalidDigestFormat s "cannot split into 3 parts")
  | p0 :: p1 :: p2 :: _ =>
      (∀ a, p1 = DigestAlgorithm_to_string a →
        from_str s = Ok (Digest p2 a (default Unknown (DigestSource_try_from p0)))) ∧
      ((∀ a, p1 ≠ DigestAlgorithm_to_string a) → from_str s = Err (UnknownAlgorithm p1))
  | [] => False
  end.
Proof.
  unfold from_str. destruct (contains_char ":" s) eqn:Hs; simpl.
  - destruct (split_char ":" s) as [|p0 [|p1 [|p2 ps]]] eqn:Hp.
    + by apply split_char_ne in Hp.
    + pose proof (split_char_pieces ":" s) as HF. pose proof (join_split_char ":" s) as HJ.
      rewrite Hp in *. simpl in HJ. subst p0. rewrite Forall_singleton in HF. congruence.
    + done.
    + split; [by intros a ->; rewrite DigestAlgorithm_codec|].
      intros Hno. destruct (DigestAlgorithm_try_from p1) as [a|] eqn:Ha; [|done].
      exfalso. apply (Hno a). unfold DigestAlgorithm_try_from in Ha.
      destruct (list_find _ _) as [[i b]|] eqn:Hf; simpl in Ha; [|done].
      apply list_find_Some in Hf as (_ & Hb & _). by simplify_eq.
  - by rewrite (split_char_none _ _ Hs).
Qed.

(** C37. [Digest::from_bytes] supports every algorithm but SHA1, which it reports
    as unknown, and each digest it computes survives being printed and parsed. *)
Theorem from_bytes_spec `{HashesLaws} b algo src :
  match from_bytes b algo src with
  | Ok d => algo ≠ SHA1 ∧ algorithm d = algo ∧ source d = src ∧ from_str (to_string d) = Ok d
  | Err e => algo = SHA1 ∧ e = UnknownAlgorithm "sha1"
  | Panic _ => False
  end.
Proof.
  destruct algo; simpl; try done; split_and!; try done; apply roundtrip_no_colon; simpl;
    eapply hex_no_colon; first [apply Sha256_hex|apply Sha512_hex|apply Sha512Trunc256_hex
      |apply Sha3_256_hex|apply Sha3_512_hex].
Qed.

(** A hash family for concrete runs: the bytes of the input in hexadecimal, cut
    or padded with zeros to the width. *)
Definition hex_char (n : nat) : ascii := ascii_of_nat (if n <? 10 then 48 + n else 87 + n).
Fixpoint hex_dump (n : nat) (b : string) : string :=
  match n with
  | O => EmptyString
  | S n =>
      match b with
      | EmptyString => String "0" (String "0" (hex_dump n EmptyString))
      | String a b =>
          String (hex_char (nat_of_ascii a / 16)) (String (hex_char (nat_of_ascii a mod 16)) (hex_dump n b))
      end
  end.

Definition dump_hashes : Hashes := {|
  Sha256 := hex_dump 32; Sha512Trunc256 := hex_dump 32; Sha512 := hex_dump 64;
  Sha3_256 := hex_dump 32; Sha3_512 := hex_dump 64;
|}.

Lemma hex_char_digit n : n < 16 → hex_digit (hex_char n) = true.
Proof. intros Hn. do 16 (destruct n as [|n]; [done|]). lia. Qed.

Lemma hex_dump_hex n b : hex_of (8 * n) (hex_dump n b).
Proof.
  unfold hex_of. replace (8 * n / 4) with (2 * n)
    by (replace (8 * n) with (2 * n * 4) by lia; by rewrite Nat.div_mul).
  revert b; induction n as [|n IH]; intros b; [done|]. cbn [hex_dump]. destruct b as [|a b].
  - destruct (IH EmptyString) as [Hd Hl]. simpl. rewrite Hd, Hl. split; [done|lia].
  - destruct (IH b) as [Hd Hl]. cbn [all_chars String.length]. rewrite Hd, Hl, !hex_char_digit; [split; [done|lia]|..].
    + apply Nat.mod_upper_bound; lia.
    + apply Nat.Div0.div_lt_upper_bound. pose proof (nat_ascii_bounded a). lia.
Qed.

Lemma dump_hashes_laws : @HashesLaws dump_hashes.
Proof. split; intros b; first [apply (hex_dump_hex 32)|apply (hex_dump_hex 64)]. Qed.

Lemma from_bytes_spec_witness :
  @from_bytes dump_hashes "a" SHA256 PrimaryPayloadHash =
    Ok (Digest (hex_dump 32 "a") SHA256 PrimaryPayloadHash) ∧
  from_str (to_string (Digest (hex_dump 32 "a") SHA256 PrimaryPayloadHash)) =
    Ok (Digest (hex_dump 32 "a") SHA256 PrimaryPayloadHash).
Proof.
  split; [reflexivity|].
  exact (proj2 (proj2 (proj2 (@from_bytes_spec dump_hashes dump_hashes_laws "a" SHA256 PrimaryPayloadHash)))).
Defined.
