(* ===== verification/Payload.v ===== *)
(** * Payload: file payloads ([libips/src/payload/mod.rs])

    What is known of the content of a file: its digests, and the word size and
    architecture when it is an object file.  Reading the file and recognising an
    object file (crate [object]) are parameters. *)

From S2P Require Import Prelude RustStr World Digest.

Inductive PayloadError :=
| PayloadIOError (e : IOError)
| PayloadDigestError (e : DigestError).
#[export] Instance PayloadError_eq_dec : EqDecision PayloadError.
Proof. solve_decision. Defined.

Inductive PayloadCompressionAlgorithm := Gzip | LZ4.
Inductive PayloadBits := Independent | Bits32 | Bits64.
Inductive PayloadArchitecture := NOARCH | I386 | SPARC | ARM | RISCV.

#[export] Instance PayloadCompressionAlgorithm_eq_dec : EqDecision PayloadCompressionAlgorithm.
Proof. solve_decision. Defined.
#[export] Instance PayloadBits_eq_dec : EqDecision PayloadBits.
Proof. solve_decision. Defined.
#[export] Instance PayloadArchitecture_eq_dec : EqDecision PayloadArchitecture.
Proof. solve_decision. Defined.

Definition PayloadCompressionAlgorithm_default := LZ4.
Definition PayloadBits_default := Independent.
Definition PayloadArchitecture_default := NOARCH.

Record Payload := MkPayload {
  primary_identifier : Digest_;
  additional_identifiers : list Digest_;
  compression_algorithm : PayloadCompressionAlgorithm;
  bitness : PayloadBits;
  architecture : PayloadArchitecture;
}.

#[export] Instance Payload_eq_dec : EqDecision Payload.
Proof. solve_decision. Defined.

Definition Payload_default : Payload := {|
  primary_identifier := Digest_default;
  additional_identifiers := [];
  compression_algorithm := PayloadCompressionAlgorithm_default;
  bitness := PayloadBits_default;
  architecture := PayloadArchitecture_default;
|}.

Definition set_primary_identifier (d : Digest_) (p : Payload) : Payload := {|
  primary_identifier := d;
  additional_identifiers := additional_identifiers p;
  compression_algorithm := compression_algorithm p;
  bitness := bitness p;
  architecture := architecture p;
|}.
Definition push_additional_identifier (d : Digest_) (p : Payload) : Payload := {|
  primary_identifier := primary_identifier p;
  additional_identifiers := additional_identifiers p ++ [d];
  compression_algorithm := compression_algorithm p;
  bitness := bitness p;
  architecture := architecture p;
|}.

(** [Payload::is_elf] *)
Definition is_elf (p : Payload) : bool :=
  bool_decide (architecture p = NOARCH) && bool_decide (bitness p = Independent).

(** What the crate [object] says of a file: its architecture, and [is_64]. *)
Inductive ObjectArchitecture :=
| ArchX86_64 | ArchI386 | ArchAarch64 | ArchArm | ArchOther (name : string).

Class ObjectCrate := {
  (** [object::File::parse], [is_64] and [architecture] *)
  object_parse : string → option (bool * ObjectArchitecture);
}.

Section compute.
Context `{Hashes, FileSystem, ObjectCrate}.

(** [Payload::compute_payload] *)
Definition compute_payload (cwd path : string) : outcome PayloadError Payload :=
  f ← map_err PayloadIOError (of_sum (fs_read cwd path));
  let '(bits, arch) :=
    match object_parse f with
    | Some (is_64, bin_arch) =>
        let bits := if is_64 : bool then Bits64 else Bits32 in
        let arch :=
          match bin_arch with
          | ArchX86_64 | ArchI386 => I386
          | ArchAarch64 | ArchArm => ARM
          | ArchOther _ => NOARCH
          end in
        (bits, arch)
    | None => (Independent, NOARCH)
    end in
  primary ← map_err PayloadDigestError (from_bytes f SHA3512 PrimaryPayloadHash);
  Ok {|
    primary_identifier := primary;
    additional_identifiers := [];
    compression_algorithm := PayloadCompressionAlgorithm_default;
    bitness := bits;
    architecture := arch;
  |}.

(** C38. [Payload::compute_payload] fails only when the file cannot be read, and
    otherwise the payload carries the SHA3-512 digest of the bytes read and no
    other identifier. *)
Theorem compute_payload_spec cwd path :
  match fs_read cwd path with
  | inr f => ∃ p, compute_payload cwd path = Ok p ∧
      primary_identifier p = Digest (Sha3_512 f) SHA3512 PrimaryPayloadHash ∧
      additional_identifiers p = [] ∧ compression_algorithm p = LZ4 ∧
      (bitness p = Independent ↔ object_parse f = None)
  | inl e => compute_payload cwd path = Err (PayloadIOError e)
  end.
Proof.
  unfold compute_payload. destruct (fs_read cwd path) as [e|f]; [done|]. simpl.
  destruct (object_parse f) as [[[] arch]|]; eexists; split_and!; simpl; done.
Qed.

(** [Payload::is_elf] answers the opposite of its name on the payloads the
    library computes: it is true exactly for the files that are not an object
    file. *)
Theorem is_elf_inverted cwd path f p :
  fs_read cwd path = inr f → compute_payload cwd path = Ok p →
  is_elf p = true ↔ object_parse f = None.
Proof.
  intros Hf. unfold compute_payload, is_elf. rewrite Hf. simpl.
  destruct (object_parse f) as [[[] [] ]|]; intros [= <-]; simpl; done.
Qed.
End compute.

(** A concrete world: two files, one of which is recognised as an object file by
    its magic number. *)
Definition demo_files : FileSystem := {|
  fs_read cwd p :=
    if String.eqb p "bin/ls" then inr (String "127" "ELF...")
    else if String.eqb p "etc/motd" then inr "hello"
    else inl (IoError "NotFound");
  fs_chdir cwd p := inr (path_join cwd p);
  fs_canonicalize cwd p := inr (path_join cwd p);
  fs_exists cwd p := String.eqb p "bin/ls" || String.eqb p "etc/motd";
  fs_read_dir cwd p := inr [];
  fs_write cwd p content := inr tt;
|}.
Definition demo_object : ObjectCrate := {|
  object_parse f :=
    if starts_with (String "127" "ELF") f then Some (true, ArchX86_64) else None;
|}.

Lemma is_elf_inverted_witness :
  ∃ p q, @compute_payload dump_hashes demo_files demo_object "/" "bin/ls" = Ok p ∧
         is_elf p = false ∧
         @compute_payload dump_hashes demo_files demo_object "/" "etc/motd" = Ok q ∧
         is_elf q = true.
Proof.
  eexists _, _. split_and!; [reflexivity| |reflexivity|].
  - apply not_true_is_false.
    rewrite (@is_elf_inverted dump_hashes demo_files demo_object "/" "bin/ls" (String "127" "ELF..."));
      done.
  - rewrite (@is_elf_inverted dump_hashes demo_files demo_object "/" "etc/motd" "hello"); done.
Defined.
