(* ===== verification/Actions.v ===== *)
(** * Actions: the packaging actions ([libips/src/actions/mod.rs])

    The data of a manifest's actions and their construction from the generic
    [Action] the parser fills in: one conversion per kind ([From<Action>]), the
    facets, and the small text functions they share. *)

From S2P Require Import Prelude RustStr World Digest Payload.

(** ** Errors *)

Inductive FileError := FilePathIsNoStringError.

Inductive ActionError :=
| ActionPayloadError (e : PayloadError)
| ActionFileError (e : FileError)
| NotBooleanValue (value : string)
| ActionIOError (e : IOError)
| ParserError (e : string).

#[export] Instance FileError_eq_dec : EqDecision FileError.
Proof. solve_decision. Defined.
#[export] Instance ActionError_eq_dec : EqDecision ActionError.
Proof. solve_decision. Defined.

(** ** Data *)

Record Facet := MkFacet { facet_name : string; facet_value : string }.
#[export] Instance Facet_eq_dec : EqDecision Facet.
Proof. solve_decision. Defined.

Record Property := MkProperty { prop_key : string; prop_value : string }.
#[export] Instance Property_eq_dec : EqDecision Property.
Proof. solve_decision. Defined.
Definition Property_default : Property := MkProperty "" "".

Module ActionKind.
Inductive kind :=
| Attr | Dir | File | Dependency | User | Group | Driver | License | Link | Legacy
| Unknown (action : string)
| Transform.
Definition default : kind := Unknown "".
#[global] Instance kind_eq_dec : EqDecision kind.
Proof. solve_decision. Defined.
End ActionKind.

Record Action := MkAction {
  act_kind : ActionKind.kind;
  act_payload : Payload;
  act_payload_string : string;
  act_properties : list Property;
  act_facets : gmap string Facet;
}.

(** [Action::new] *)
Definition Action_new (kind : ActionKind.kind) : Action := {|
  act_kind := kind;
  act_payload := Payload_default;
  act_payload_string := "";
  act_properties := [];
  act_facets := ∅;
|}.
Definition Action_default : Action := Action_new ActionKind.default.

Record Dir := MkDir {
  dir_path : string;
  dir_group : string;
  dir_owner : string;
  dir_mode : string;
  dir_revert_tag : string;
  dir_salvage_from : string;
  dir_facets : gmap string Facet;
}.
Definition Dir_default : Dir := MkDir "" "" "" "" "" "" ∅.

Record File := MkFile {
  file_payload : option Payload;
  file_path : string;
  file_group : string;
  file_owner : string;
  file_mode : string;
  file_preserve : bool;
  file_overlay : bool;
  file_original_name : string;
  file_revert_tag : string;
  file_sys_attr : string;
  file_properties : list Property;
  file_facets : gmap string Facet;
}.
Definition File_default : File := MkFile None "" "" "" "" false false "" "" "" [] ∅.

Record Dependency := MkDependency {
  dep_fmri : string;
  dep_type : string;
  dep_predicate : string;
  dep_root_image : string;
  dep_optional : list Property;
  dep_facets : gmap string Facet;
}.
Definition Dependency_default : Dependency := MkDependency "" "" "" "" [] ∅.

Record Attr := MkAttr {
  attr_key : string;
  attr_values : list string;
  attr_properties : gmap string Property;
}.
Definition Attr_default : Attr := MkAttr "" [] ∅.

Record License := MkLicense {
  license_payload : string;
  license_properties : gmap string Property;
}.
Definition License_default : License := MkLicense "" ∅.

Record Link := MkLink {
  link_path : string;
  link_target : string;
  link_properties : gmap string Property;
}.
Definition Link_default : Link := MkLink "" "" ∅.

#[export] Instance Dir_eq_dec : EqDecision Dir.
Proof. solve_decision. Defined.
#[export] Instance File_eq_dec : EqDecision File.
Proof. solve_decision. Defined.
#[export] Instance Dependency_eq_dec : EqDecision Dependency.
Proof. solve_decision. Defined.
#[export] Instance Attr_eq_dec : EqDecision Attr.
Proof. solve_decision. Defined.
#[export] Instance License_eq_dec : EqDecision License.
Proof. solve_decision. Defined.
#[export] Instance Link_eq_dec : EqDecision Link.
Proof. solve_decision. Defined.

(** ** Text helpers *)

Definition is_facet (s : string) : bool := starts_with "facet." s.

Definition get_facet_key (facet_string : string) : string :=
  match find_char "." facet_string with
  | Some idx => split_off (idx + 1) facet_string
  | None => facet_string
  end.

(** The indexing [v[i]] of a vector. *)
Definition index {E A} (v : list A) (i : nat) : outcome E A :=
  match v !! i with
  | Some a => Ok a
  | None => Panic "index out of bounds"
  end.

Definition split_property {E} (property_string : string) : outcome E (string * string) :=
  match find_char "=" property_string with
  | Some _ =>
      let v := split_char "=" property_string in
      v0 ← index v 0;
      v1 ← index v 1;
      Ok (v0, remove_chars [DQUOTE; BACKSLASH] v1)
  | None => Ok (property_string, "")
  end.

Definition string_to_bool (orig : string) : outcome ActionError bool :=
  let s := to_lowercase (trim orig) in
  if String.eqb s "true" then Ok true
  else if String.eqb s "false" then Ok false
  else if String.eqb s "t" then Ok true
  else if String.eqb s "f" then Ok false
  else Err (NotBooleanValue orig).

(** [match string_to_bool(..) { Ok(b) => b, _ => false }] *)
Definition bool_or_false (orig : string) : bool :=
  match string_to_bool orig with Ok b => b | _ => false end.

Definition get_action_kind (act : string) : ActionKind.kind :=
  if String.eqb act "set" then ActionKind.Attr
  else if String.eqb act "depend" then ActionKind.Dependency
  else if String.eqb act "dir" then ActionKind.Dir
  else if String.eqb act "file" then ActionKind.File
  else if String.eqb act "license" then ActionKind.License
  else if String.eqb act "hardlink" then ActionKind.Link
  else if String.eqb act "link" then ActionKind.Link
  else if String.eqb act "driver" then ActionKind.Driver
  else if String.eqb act "group" then ActionKind.Group
  else if String.eqb act "user" then ActionKind.User
  else if String.eqb act "legacy" then ActionKind.Legacy
  else if String.eqb act "<transform" then ActionKind.Transform
  else ActionKind.Unknown act.

(** ** Facets *)

(** [Facet::from_key_value] *)
Definition Facet_from_key_value (key value : string) : Facet :=
  {| facet_name := get_facet_key key; facet_value := value |}.

(** The trait [FacetedAction]: both operations update the action and answer a
    boolean. *)
Class FacetedAction (A : Type) := {
  add_facet : A → Facet → A * bool;
  remove_facet : A → Facet → A * bool;
}.

(** What the trait promises to its clients, stated through the facets an action
    carries. *)
Class FacetedLaws (A : Type) `{FacetedAction A} := {
  facets_of : A → gmap string Facet;
  add_facet_spec a f :
    facets_of (add_facet a f).1 = <[facet_name f := f]> (facets_of a) ∧
    ((add_facet a f).2 = true ↔ facets_of a !! facet_name f = None);
  remove_facet_spec a f :
    facets_of (remove_facet a f).1 = delete (facet_name f) (facets_of a) ∧
    ((remove_facet a f).2 = true ↔ facets_of a !! facet_name f = Some f);
}.

(** [self.facets.insert(facet.name.clone(), facet).is_none()] *)
Definition insert_facet (m : gmap string Facet) (f : Facet) : gmap string Facet * bool :=
  (<[facet_name f := f]> m, bool_decide (m !! facet_name f = None)).
(** [self.facets.remove(&facet.name) == Some(facet)] *)
Definition delete_facet (m : gmap string Facet) (f : Facet) : gmap string Facet * bool :=
  (delete (facet_name f) m, bool_decide (m !! facet_name f = Some f)).

Definition Action_set_facets (m : gmap string Facet) (a : Action) : Action :=
  MkAction (act_kind a) (act_payload a) (act_payload_string a) (act_properties a) m.
Definition Dir_set_facets (m : gmap string Facet) (d : Dir) : Dir :=
  MkDir (dir_path d) (dir_group d) (dir_owner d) (dir_mode d) (dir_revert_tag d)
    (dir_salvage_from d) m.
Definition File_set_facets (m : gmap string Facet) (f : File) : File :=
  MkFile (file_payload f) (file_path f) (file_group f) (file_owner f) (file_mode f)
    (file_preserve f) (file_overlay f) (file_original_name f) (file_revert_tag f)
    (file_sys_attr f) (file_properties f) m.
Definition Dependency_set_facets (m : gmap string Facet) (d : Dependency) : Dependency :=
  MkDependency (dep_fmri d) (dep_type d) (dep_predicate d) (dep_root_image d) (dep_optional d) m.

#[export] Instance Action_faceted : FacetedAction Action := {|
  add_facet a f := let '(m, b) := insert_facet (act_facets a) f in (Action_set_facets m a, b);
  remove_facet a f := let '(m, b) := delete_facet (act_facets a) f in (Action_set_facets m a, b);
|}.
#[export] Instance Dir_faceted : FacetedAction Dir := {|
  add_facet d f := let '(m, b) := insert_facet (dir_facets d) f in (Dir_set_facets m d, b);
  remove_facet d f := let '(m, b) := delete_facet (dir_facets d) f in (Dir_set_facets m d, b);
|}.
#[export] Instance File_faceted : FacetedAction File := {|
  add_facet d f := let '(m, b) := insert_facet (file_facets d) f in (File_set_facets m d, b);
  remove_facet d f := let '(m, b) := delete_facet (file_facets d) f in (File_set_facets m d, b);
|}.
#[export] Instance Dependency_faceted : FacetedAction Dependency := {|
  add_facet d f := let '(m, b) := insert_facet (dep_facets d) f in (Dependency_set_facets m d, b);
  remove_facet d f := let '(m, b) := delete_facet (dep_facets d) f in (Dependency_set_facets m d, b);
|}.

(** ** The conversions [From<Action>] *)

(** The text of the action that is neither a name nor a property joins the
    properties: [if !act.payload_string.is_empty() { props.push(..) }]. *)
Definition push_payload_string {E} (payload_string : string) (props : list Property)
    : outcome E (list Property) :=
  if negb (is_empty payload_string) then
    '(k, v) ← split_property payload_string;
    Ok (props ++ [MkProperty k v])
  else Ok props.

(** *** Directories *)

Definition Dir_step (dir : Dir) (prop : Property) : Dir :=
  let '(MkProperty key value) := prop in
  let '(MkDir path group owner mode revert_tag salvage_from facets) := dir in
  if String.eqb key "path" then MkDir value group owner mode revert_tag salvage_from facets
  else if String.eqb key "owner" then MkDir path group value mode revert_tag salvage_from facets
  else if String.eqb key "group" then MkDir path value owner mode revert_tag salvage_from facets
  else if String.eqb key "mode" then MkDir path group owner value revert_tag salvage_from facets
  else if String.eqb key "revert-tag" then MkDir path group owner mode value salvage_from facets
  else if String.eqb key "salvage-from" then MkDir path group owner mode revert_tag value facets
  else if is_facet key then (add_facet dir (Facet_from_key_value key value)).1
  else dir.

Definition Dir_from {E} (act : Action) : outcome E Dir :=
  props ← push_payload_string (act_payload_string act) (act_properties act);
  Ok (foldl Dir_step Dir_default props).

(** *** Dependencies *)

Definition Dependency_step (dep : Dependency) (prop : Property) : Dependency :=
  let '(MkProperty key value) := prop in
  let '(MkDependency fmri type predicate root_image optional facets) := dep in
  if String.eqb key "fmri" then MkDependency value type predicate root_image optional facets
  else if String.eqb key "type" then MkDependency fmri value predicate root_image optional facets
  else if String.eqb key "predicate" then MkDependency fmri type value root_image optional facets
  else if String.eqb key "root-image" then MkDependency fmri type predicate value optional facets
  else if is_facet key then (add_facet dep (Facet_from_key_value key value)).1
  else MkDependency fmri type predicate root_image (optional ++ [prop]) facets.

Definition Dependency_from {E} (act : Action) : outcome E Dependency :=
  props ← push_payload_string (act_payload_string act) (act_properties act);
  Ok (foldl Dependency_step Dependency_default props).

(** *** Attributes *)

Definition Attr_step (attr : Attr) (prop : Property) : Attr :=
  let '(MkProperty key value) := prop in
  let '(MkAttr name values properties) := attr in
  if String.eqb key "name" then MkAttr value values properties
  else if String.eqb key "value" then MkAttr name (values ++ [value]) properties
  else MkAttr name values (<[key := MkProperty key value]> properties).

Definition Attr_from {E} (act : Action) : outcome E Attr :=
  props ← push_payload_string (act_payload_string act) (act_properties act);
  Ok (foldl Attr_step Attr_default props).

(** *** Licenses *)

Definition License_step (license : License) (prop : Property) : License :=
  let '(MkProperty key value) := prop in
  MkLicense (license_payload license)
    (<[key := MkProperty key value]> (license_properties license)).

Definition License_from (act : Action) : License :=
  let license :=
    if negb (is_empty (act_payload_string act))
    then MkLicense (act_payload_string act) ∅ else License_default in
  foldl License_step license (act_properties act).

(** *** Links *)

Definition Link_step (link : Link) (prop : Property) : Link :=
  let '(MkProperty key value) := prop in
  let '(MkLink path target properties) := link in
  if String.eqb key "path" then MkLink value target properties
  else if String.eqb key "target" then MkLink path value properties
  else MkLink path target (<[key := MkProperty key value]> properties).

Definition Link_from {E} (act : Action) : outcome E Link :=
  props ← push_payload_string (act_payload_string act) (act_properties act);
  Ok (foldl Link_step Link_default props).

(** *** Files *)

Definition File_push_property (prop : Property) (f : File) : File :=
  MkFile (file_payload f) (file_path f) (file_group f) (file_owner f) (file_mode f)
    (file_preserve f) (file_overlay f) (file_original_name f) (file_revert_tag f)
    (file_sys_attr f) (file_properties f ++ [prop]) (file_facets f).
Definition File_set_payload (p : option Payload) (f : File) : File :=
  MkFile p (file_path f) (file_group f) (file_owner f) (file_mode f)
    (file_preserve f) (file_overlay f) (file_original_name f) (file_revert_tag f)
    (file_sys_attr f) (file_properties f) (file_facets f).
Definition File_set_path (path : string) (f : File) : File :=
  MkFile (file_payload f) path (file_group f) (file_owner f) (file_mode f)
    (file_preserve f) (file_overlay f) (file_original_name f) (file_revert_tag f)
    (file_sys_attr f) (file_properties f) (file_facets f).

Definition unwrap_digest {E} (x : outcome DigestError Digest_) : outcome E Digest_ :=
  unwrap_result "called `Result::unwrap()` on an `Err` value" x.

(** The payload argument: an inline [key=value] with a slash, the path the file
    is taken from, or the digest of its content. *)
Definition File_payload_string {E} (payload_string : string)
    (file : File) (p : Payload) (props : list Property)
    : outcome E (File * Payload * list Property) :=
  if negb (is_empty payload_string) then
    if contains_char "/" payload_string then
      if contains_char "=" payload_string then
        '(k, v) ← split_property payload_string;
        Ok (file, p, props ++ [MkProperty k v])
      else
        Ok (File_push_property
              (MkProperty "original-path" (remove_chars [DQUOTE; BACKSLASH] payload_string)) file,
            p, props)
    else
      d ← unwrap_digest (from_str payload_string);
      Ok (file, set_primary_identifier d p, props)
  else Ok (file, p, props).

Definition File_step {E} (fp : File * Payload) (prop : Property) : outcome E (File * Payload) :=
  let '(file, p) := fp in
  let '(MkProperty key value) := prop in
  let '(MkFile payload path group owner mode preserve overlay original_name revert_tag sys_attr
          properties facets) := file in
  if String.eqb key "path" then
    Ok (MkFile payload value group owner mode preserve overlay original_name revert_tag sys_attr
          properties facets, p)
  else if String.eqb key "owner" then
    Ok (MkFile payload path group value mode preserve overlay original_name revert_tag sys_attr
          properties facets, p)
  else if String.eqb key "group" then
    Ok (MkFile payload path value owner mode preserve overlay original_name revert_tag sys_attr
          properties facets, p)
  else if String.eqb key "mode" then
    Ok (MkFile payload path group owner value preserve overlay original_name revert_tag sys_attr
          properties facets, p)
  else if String.eqb key "revert-tag" then
    Ok (MkFile payload path group owner mode preserve overlay original_name value sys_attr
          properties facets, p)
  else if String.eqb key "original_name" then
    Ok (MkFile payload path group owner mode preserve overlay value revert_tag sys_attr
          properties facets, p)
  else if String.eqb key "sysattr" then
    Ok (MkFile payload path group owner mode preserve overlay original_name revert_tag value
          properties facets, p)
  else if String.eqb key "overlay" then
    Ok (MkFile payload path group owner mode preserve (bool_or_false value) original_name
          revert_tag sys_attr properties facets, p)
  else if String.eqb key "preserve" then
    Ok (MkFile payload path group owner mode (bool_or_false value) overlay original_name
          revert_tag sys_attr properties facets, p)
  else if String.eqb key "chash" || String.eqb key "pkg.content-hash" then
    d ← unwrap_digest (from_str value);
    Ok (file, push_additional_identifier d p)
  else if is_facet key then Ok ((add_facet file (Facet_from_key_value key value)).1, p)
  else Ok (File_push_property (MkProperty key value) file, p).

Definition File_from {E} (act : Action) : outcome E File :=
  '(file, p, props) ← File_payload_string (act_payload_string act) File_default
                        (act_payload act) (act_properties act);
  '(file, p) ← foldM File_step (file, p) props;
  Ok (if is_empty (hash (primary_identifier p)) then File_set_payload None file
      else File_set_payload (Some p) file).

(** [File::get_original_path] *)
Definition get_original_path (f : File) : option string :=
  prop_value <$> (list_find (λ p, prop_key p = "original-path") (file_properties f) ≫= λ x, Some x.2).

(** [File::read_from_path] *)
Definition read_from_path `{Hashes, FileSystem, ObjectCrate} (cwd p : string) : outcome ActionError File :=
  let f := File_default in
  if utf8_valid p then
    let f := File_set_path p f in
    payload ← map_err ActionPayloadError (compute_payload cwd p);
    Ok (File_set_payload (Some payload) f)
  else Err (ActionFileError FilePathIsNoStringError).

(** ** Lemmas on the text helpers *)

(** A facet property is ["facet."] followed by the facet's name. *)
Lemma is_facet_iff k : is_facet k = true ↔ ∃ n, k = "facet." +:+ n.
Proof. split; [apply starts_with_inv|]. intros [n ->]. apply starts_with_app. Qed.

Lemma get_facet_key_facet n : get_facet_key ("facet." +:+ n) = n.
Proof. by destruct n. Qed.

Lemma index_lt {E A} (v : list A) i : i < length v → ∃ a, v !! i = Some a ∧ index (E := E) v i = Ok a.
Proof. intros [a Ha]%lookup_lt_is_Some. exists a. unfold index. by rewrite Ha. Qed.

(** [split_property] never panics: a text that contains the separator has two
    pieces. *)
Lemma split_property_ok {E} s :
  ∃ k v, split_property (E := E) s = Ok (k, v) ∧
    (contains_char "=" s = false → k = s ∧ v = "") ∧
    (∀ a b, contains_char "=" a = false → contains_char "=" b = false → s = a +:+ String "=" b →
       k = a ∧ v = remove_chars [DQUOTE; BACKSLASH] b).
Proof.
  unfold split_property. destruct (find_char "=" s) as [i|] eqn:Hf.
  - apply find_char_Some in Hf as (Hs & Hc & _).
    remember (take_bytes i s) as a eqn:Ha. remember (split_off (S i) s) as b eqn:Hb.
    rewrite Hs, split_char_app by done.
    destruct (split_char "=" b) as [|p ps] eqn:Hp; [by apply split_char_ne in Hp|].
    unfold index. simpl. eexists _, _. split_and!; [done|..].
    + rewrite contains_char_app. simpl. by rewrite orb_true_r.
    + intros a' b' Ha' Hb' Heq.
      assert (Hs' : split_char "=" (a +:+ String "=" b) = [a'; b'])
        by (rewrite Heq, split_char_app, split_char_none; done).
      rewrite split_char_app, Hp in Hs' by done. by simplify_eq.
  - apply find_char_None in Hf. eexists _, _. split_and!; [done|done|].
    intros a b _ _ ->. rewrite contains_char_app in Hf. simpl in Hf.
    by rewrite orb_true_r in Hf.
Qed.

Lemma push_payload_string_ok {E} s props :
  ∃ props', push_payload_string (E := E) s props = Ok props' ∧ props `prefix_of` props'.
Proof.
  unfold push_payload_string. destruct (is_empty s); simpl; [by eexists|].
  destruct (split_property_ok (E := E) s) as (k & v & -> & _). simpl.
  eexists. split; [done|]. by apply prefix_app_r.
Qed.

Lemma push_payload_string_empty {E} props : push_payload_string (E := E) "" props = Ok props.
Proof. done. Qed.

(** The pairs of a list of properties. *)
Definition kv_of (p : Property) : string * string := (prop_key p, prop_value p).
Definition kvs_of (props : list Property) : list (string * string) := kv_of <$> props.

Lemma kvs_of_snoc props k v : kvs_of (props ++ [MkProperty k v]) = kvs_of props ++ [(k, v)].
Proof. unfold kvs_of. by rewrite fmap_app. Qed.

(** ** Facets *)

#[export] Instance Action_faceted_laws : FacetedLaws Action.
Proof. refine {| facets_of := act_facets |}; intros; simpl; by rewrite bool_decide_eq_true. Defined.
#[export] Instance Dir_faceted_laws : FacetedLaws Dir.
Proof. refine {| facets_of := dir_facets |}; intros; simpl; by rewrite bool_decide_eq_true. Defined.
#[export] Instance File_faceted_laws : FacetedLaws File.
Proof. refine {| facets_of := file_facets |}; intros; simpl; by rewrite bool_decide_eq_true. Defined.
#[export] Instance Dependency_faceted_laws : FacetedLaws Dependency.
Proof. refine {| facets_of := dep_facets |}; intros; simpl; by rewrite bool_decide_eq_true. Defined.

(** The facets that a list of pairs denotes: for each name, the last value given
    to the key [facet.<name>]. *)
Definition facets_denote (kvs : list (string * string)) (m : gmap string Facet) : Prop :=
  ∀ n, m !! n = MkFacet n <$> last_of ("facet." +:+ n) kvs.

Lemma facets_denote_nil : facets_denote [] ∅.
Proof. intros n. by rewrite lookup_empty. Qed.

Lemma facets_denote_add kvs m key value :
  facets_denote kvs m → is_facet key = true →
  facets_denote (kvs ++ [(key, value)])
    (<[facet_name (Facet_from_key_value key value) := Facet_from_key_value key value]> m).
Proof.
  intros Hm [k ->]%is_facet_iff n. unfold Facet_from_key_value. simpl.
  rewrite get_facet_key_facet, last_of_snoc.
  destruct (String.eqb_spec ("facet." +:+ k) ("facet." +:+ n)) as [Heq|Hne].
  - apply str_app_inj in Heq as ->. by rewrite lookup_insert_eq.
  - rewrite lookup_insert_ne by congruence. apply Hm.
Qed.

Lemma facets_denote_skip kvs m key value :
  facets_denote kvs m → is_facet key = false → facets_denote (kvs ++ [(key, value)]) m.
Proof.
  intros Hm Hk n. rewrite last_of_snoc.
  destruct (String.eqb_spec key ("facet." +:+ n)) as [->|]; [|apply Hm].
  assert (is_facet ("facet." +:+ n) = true) by (apply is_facet_iff; eauto). congruence.
Qed.
#[export] Hint Resolve facets_denote_nil facets_denote_add facets_denote_skip : rust.

(** ** What each conversion computes *)

(** The pairs a conversion reads: the properties, then the payload text when it
    is an inline property. *)
Definition action_kvs (act : Action) : list (string * string) :=
  match push_payload_string (E := ActionError) (act_payload_string act) (act_properties act) with
  | Ok props => kvs_of props
  | _ => []
  end.

Definition last_or_empty (k : string) (kvs : list (string * string)) : string :=
  default "" (last_of k kvs).

Lemma last_or_empty_snoc k kvs k' v :
  last_or_empty k (kvs ++ [(k', v)]) = if String.eqb k' k then v else last_or_empty k kvs.
Proof. unfold last_or_empty. rewrite last_of_snoc. by destruct (String.eqb k' k). Qed.

(** The pairs whose key is not one of [ks], nor a facet. *)
Definition others (ks : list string) (kvs : list (string * string)) : list Property :=
  (λ kv, MkProperty kv.1 kv.2) <$>
    filter (λ kv, existsb (String.eqb kv.1) ks = false ∧ is_facet kv.1 = false) kvs.

Lemma others_snoc ks kvs k v :
  others ks (kvs ++ [(k, v)]) =
    if existsb (String.eqb k) ks || is_facet k then others ks kvs
    else others ks kvs ++ [MkProperty k v].
Proof.
  unfold others. rewrite filter_app, fmap_app, filter_cons, filter_nil. simpl.
  destruct (existsb _ ks), (is_facet k); simpl; rewrite ?app_nil_r; done.
Qed.

(** The map of the last pair of each key not in [ks]. *)
Definition property_map (ks : list string) (kvs : list (string * string)) (m : gmap string Property) : Prop :=
  ∀ k, m !! k = if existsb (String.eqb k) ks then None else MkProperty k <$> last_of k kvs.

Lemma property_map_skip ks kvs m k v :
  property_map ks kvs m → existsb (String.eqb k) ks = true →
  property_map ks (kvs ++ [(k, v)]) m.
Proof.
  intros Hm Hk k'. rewrite Hm, last_of_snoc. destruct (String.eqb_spec k k') as [->|]; [|done].
  by rewrite Hk.
Qed.

Lemma property_map_add ks kvs m k v :
  property_map ks kvs m → existsb (String.eqb k) ks = false →
  property_map ks (kvs ++ [(k, v)]) (<[k := MkProperty k v]> m).
Proof.
  intros Hm Hk k'. rewrite last_of_snoc. destruct (String.eqb_spec k k') as [->|].
  - by rewrite lookup_insert_eq, Hk.
  - rewrite lookup_insert_ne by done. apply Hm.
Qed.

Lemma property_map_nil ks : property_map ks [] ∅.
Proof. intros k. rewrite lookup_empty. by case_match. Qed.
#[export] Hint Resolve property_map_nil property_map_add property_map_skip : rust.

(** The directory, dependency, attribute, license and link that a list of pairs
    denotes: for each field the last value given to its key. *)
Definition Dir_denotes (kvs : list (string * string)) (d : Dir) : Prop :=
  dir_path d = last_or_empty "path" kvs ∧ dir_owner d = last_or_empty "owner" kvs ∧
  dir_group d = last_or_empty "group" kvs ∧ dir_mode d = last_or_empty "mode" kvs ∧
  dir_revert_tag d = last_or_empty "revert-tag" kvs ∧
  dir_salvage_from d = last_or_empty "salvage-from" kvs ∧ facets_denote kvs (dir_facets d).

Definition Dependency_denotes (kvs : list (string * string)) (d : Dependency) : Prop :=
  dep_fmri d = last_or_empty "fmri" kvs ∧ dep_type d = last_or_empty "type" kvs ∧
  dep_predicate d = last_or_empty "predicate" kvs ∧
  dep_root_image d = last_or_empty "root-image" kvs ∧
  dep_optional d = others ["fmri"; "type"; "predicate"; "root-image"] kvs ∧
  facets_denote kvs (dep_facets d).

Definition Attr_denotes (kvs : list (string * string)) (a : Attr) : Prop :=
  attr_key a = last_or_empty "name" kvs ∧ attr_values a = values_of "value" kvs ∧
  property_map ["name"; "value"] kvs (attr_properties a).

Definition Link_denotes (kvs : list (string * string)) (l : Link) : Prop :=
  link_path l = last_or_empty "path" kvs ∧ link_target l = last_or_empty "target" kvs ∧
  property_map ["path"; "target"] kvs (link_properties l).

Definition License_denotes (payload : string) (kvs : list (string * string)) (l : License) : Prop :=
  license_payload l = payload ∧ property_map [] kvs (license_properties l).

(** Case analysis on the key of the last property; a known key decides all the
    comparisons. *)
Ltac case_keys k :=
  repeat match goal with
  | |- context [String.eqb k ?x] =>
      destruct (String.eqb_spec k x); [subst k; simpl; by split_and!; eauto with rust|]
  end; simpl;
  repeat match goal with
  | H : k ≠ ?x |- context [String.eqb k ?x] => rewrite (proj2 (String.eqb_neq k x) H); simpl
  end.

Lemma Dir_steps_denote props : Dir_denotes (kvs_of props) (foldl Dir_step Dir_default props).
Proof.
  unfold Dir_denotes. induction props as [|[k v] props IH] using rev_ind;
    [by split_and!; eauto with rust|].
  rewrite foldl_snoc, kvs_of_snoc. destruct (foldl _ _ _) as [path group owner mode rt sf facets].
  simpl in IH. destruct IH as (?&?&?&?&?&?&IH). subst. rewrite !last_or_empty_snoc. unfold Dir_step.
  case_keys k. destruct (is_facet k) eqn:Hk; simpl; split_and!; eauto with rust.
Qed.

Lemma Dependency_steps_denote props :
  Dependency_denotes (kvs_of props) (foldl Dependency_step Dependency_default props).
Proof.
  unfold Dependency_denotes. induction props as [|[k v] props IH] using rev_ind;
    [by split_and!; eauto with rust|].
  rewrite foldl_snoc, kvs_of_snoc. destruct (foldl _ _ _) as [fmri ty pred root opt facets].
  simpl in IH. destruct IH as (?&?&?&?&?&IH). subst.
  rewrite !last_or_empty_snoc, others_snoc. unfold Dependency_step. simpl.
  case_keys k. destruct (is_facet k) eqn:Hk; simpl; split_and!; eauto with rust.
Qed.

Lemma Attr_steps_denote props : Attr_denotes (kvs_of props) (foldl Attr_step Attr_default props).
Proof.
  unfold Attr_denotes. induction props as [|[k v] props IH] using rev_ind;
    [by split_and!; eauto with rust|].
  rewrite foldl_snoc, kvs_of_snoc. destruct (foldl _ _ _) as [name values properties].
  simpl in IH. destruct IH as (?&?&IH). subst.
  rewrite !last_or_empty_snoc, values_of_snoc. unfold Attr_step.
  destruct (String.eqb k "name" || String.eqb k "value") eqn:Hk.
  - case_keys k. done.
  - apply orb_false_iff in Hk as [Hn Hv]. rewrite Hn, Hv. split_and!; [done..|].
    apply property_map_add; [done|]. simpl. by rewrite Hn, Hv.
Qed.

Lemma Link_steps_denote props : Link_denotes (kvs_of props) (foldl Link_step Link_default props).
Proof.
  unfold Link_denotes. induction props as [|[k v] props IH] using rev_ind;
    [by split_and!; eauto with rust|].
  rewrite foldl_snoc, kvs_of_snoc. destruct (foldl _ _ _) as [path target properties].
  simpl in IH. destruct IH as (?&?&IH). subst.
  rewrite !last_or_empty_snoc. unfold Link_step.
  destruct (String.eqb k "path" || String.eqb k "target") eqn:Hk.
  - case_keys k. done.
  - apply orb_false_iff in Hk as [Hn Hv]. rewrite Hn, Hv. split_and!; [done..|].
    apply property_map_add; [done|]. simpl. by rewrite Hn, Hv.
Qed.

Lemma License_steps_denote payload props :
  License_denotes payload (kvs_of props) (foldl License_step (MkLicense payload ∅) props).
Proof.
  unfold License_denotes. induction props as [|[k v] props IH] using rev_ind;
    [by split_and!; eauto with rust|].
  rewrite foldl_snoc, kvs_of_snoc. destruct (foldl _ _ _) as [pl properties].
  simpl in IH. destruct IH as (?&IH). subst. split; [done|]. simpl. by apply property_map_add.
Qed.

(** A denotation determines the value. *)
Lemma facets_denote_unique kvs m m' : facets_denote kvs m → facets_denote kvs m' → m = m'.
Proof. intros H H'. apply map_eq. intros n. by rewrite H, H'. Qed.
Lemma property_map_unique ks kvs m m' : property_map ks kvs m → property_map ks kvs m' → m = m'.
Proof. intros H H'. apply map_eq. intros n. by rewrite H, H'. Qed.

Lemma Dir_denotes_unique kvs d d' : Dir_denotes kvs d → Dir_denotes kvs d' → d = d'.
Proof.
  destruct d, d'. intros (?&?&?&?&?&?&Hf) (?&?&?&?&?&?&Hf'). simpl in *.
  pose proof (facets_denote_unique _ _ _ Hf Hf'). congruence.
Qed.
Lemma Dependency_denotes_unique kvs d d' : Dependency_denotes kvs d → Dependency_denotes kvs d' → d = d'.
Proof.
  destruct d, d'. intros (?&?&?&?&?&Hf) (?&?&?&?&?&Hf'). simpl in *.
  pose proof (facets_denote_unique _ _ _ Hf Hf'). congruence.
Qed.
Lemma Attr_denotes_unique kvs d d' : Attr_denotes kvs d → Attr_denotes kvs d' → d = d'.
Proof.
  destruct d, d'. intros (?&?&Hf) (?&?&Hf'). simpl in *.
  pose proof (property_map_unique _ _ _ _ Hf Hf'). congruence.
Qed.
Lemma Link_denotes_unique kvs d d' : Link_denotes kvs d → Link_denotes kvs d' → d = d'.
Proof.
  destruct d, d'. intros (?&?&Hf) (?&?&Hf'). simpl in *.
  pose proof (property_map_unique _ _ _ _ Hf Hf'). congruence.
Qed.

(** The loop of a conversion meets its denotation, on the pairs of the action. *)
Lemma conversion_denotes {A} (step : A → Property → A) (d0 : A)
    (denotes : list (string * string) → A → Prop) (act : Action) :
  (∀ props, denotes (kvs_of props) (foldl step d0 props)) →
  (∀ kvs x y, denotes kvs x → denotes kvs y → x = y) →
  let run : outcome ActionError A :=
    (props ← push_payload_string (act_payload_string act) (act_properties act);
     Ok (foldl step d0 props)) in
  is_ok run = true ∧ ∀ a, run = Ok a ↔ denotes (action_kvs act) a.
Proof.
  intros Hsteps Huniq. unfold action_kvs.
  destruct (push_payload_string_ok (E := ActionError) (act_payload_string act) (act_properties act))
    as (props & -> & _). simpl. split; [done|]. intros a. split; [intros [= <-]; apply Hsteps|].
  intros Ha. f_equal. eapply Huniq; [apply Hsteps|done].
Qed.

Lemma conversion_unique {A} (x : outcome ActionError A) (denotes : A → Prop) :
  is_ok x = true ∧ (∀ a, x = Ok a ↔ denotes a) → ∃ a, x = Ok a ∧ ∀ a', denotes a' ↔ a' = a.
Proof.
  intros [Hok Hx]. destruct x as [a|e|w]; [|done..]. exists a. split; [done|].
  intros a'. rewrite <-Hx. naive_solver.
Qed.

Lemma Dir_conversion act :
  is_ok (Dir_from (E := ActionError) act) = true ∧
  ∀ d, Dir_from (E := ActionError) act = Ok d ↔ Dir_denotes (action_kvs act) d.
Proof. apply conversion_denotes; [apply Dir_steps_denote|apply Dir_denotes_unique]. Qed.

Lemma Dependency_conversion act :
  is_ok (Dependency_from (E := ActionError) act) = true ∧
  ∀ d, Dependency_from (E := ActionError) act = Ok d ↔ Dependency_denotes (action_kvs act) d.
Proof. apply conversion_denotes; [apply Dependency_steps_denote|apply Dependency_denotes_unique]. Qed.

Lemma Attr_conversion act :
  is_ok (Attr_from (E := ActionError) act) = true ∧
  ∀ a, Attr_from (E := ActionError) act = Ok a ↔ Attr_denotes (action_kvs act) a.
Proof. apply conversion_denotes; [apply Attr_steps_denote|apply Attr_denotes_unique]. Qed.

Lemma Link_conversion act :
  is_ok (Link_from (E := ActionError) act) = true ∧
  ∀ l, Link_from (E := ActionError) act = Ok l ↔ Link_denotes (action_kvs act) l.
Proof. apply conversion_denotes; [apply Link_steps_denote|apply Link_denotes_unique]. Qed.

Lemma License_conversion act :
  License_denotes (act_payload_string act) (kvs_of (act_properties act)) (License_from act).
Proof. unfold License_from. destruct (act_payload_string act); simpl; apply License_steps_denote. Qed.

(** C11. The conversions of every kind of action but files meet their
    specifications and always succeed.  A directory, a dependency or a link has,
    for each of its fields, the last value given to that key (empty when there is
    none); facet [n] is the last value of the key [facet.n]; a [set] action has
    the last name, all the values in order and its other properties by key; the
    other properties of a dependency are kept in order, those of a link and of a
    license by key. *)
Theorem conversions_refine act :
  (∃ d, Dir_from (E := ActionError) act = Ok d ∧ ∀ d', Dir_denotes (action_kvs act) d' ↔ d' = d) ∧
  (∃ d, Dependency_from (E := ActionError) act = Ok d ∧
     ∀ d', Dependency_denotes (action_kvs act) d' ↔ d' = d) ∧
  (∃ a, Attr_from (E := ActionError) act = Ok a ∧ ∀ a', Attr_denotes (action_kvs act) a' ↔ a' = a) ∧
  (∃ l, Link_from (E := ActionError) act = Ok l ∧ ∀ l', Link_denotes (action_kvs act) l' ↔ l' = l) ∧
  License_denotes (act_payload_string act) (kvs_of (act_properties act)) (License_from act).
Proof.
  split_and!; [apply conversion_unique..|apply License_conversion];
    auto using Dir_conversion, Dependency_conversion, Attr_conversion, Link_conversion.
Qed.

(** *** Files *)

(** The values given to the two digest keys, in order. *)
Definition is_digest_key (k : string) : bool :=
  String.eqb k "chash" || String.eqb k "pkg.content-hash".
Definition digest_values (kvs : list (string * string)) : list string :=
  snd <$> filter (λ kv, is_digest_key kv.1 = true) kvs.

Lemma digest_values_snoc kvs k v :
  digest_values (kvs ++ [(k, v)]) =
    if is_digest_key k then digest_values kvs ++ [v] else digest_values kvs.
Proof.
  unfold digest_values. rewrite filter_app, fmap_app, filter_cons, filter_nil. simpl.
  destruct (is_digest_key k); simpl; by rewrite ?app_nil_r.
Qed.

Definition file_keys : list string :=
  ["path"; "owner"; "group"; "mode"; "revert-tag"; "original_name"; "sysattr"; "overlay";
   "preserve"; "chash"; "pkg.content-hash"].

Definition flag_of (k : string) (kvs : list (string * string)) : bool :=
  default false (bool_or_false <$> last_of k kvs).

Lemma flag_of_snoc k kvs k' v :
  flag_of k (kvs ++ [(k', v)]) = if String.eqb k' k then bool_or_false v else flag_of k kvs.
Proof. unfold flag_of. rewrite last_of_snoc. by destruct (String.eqb k' k). Qed.

(** The file that a list of pairs denotes, when the payload argument gave the
    properties [orig]. *)
Definition File_denotes (orig : list Property) (kvs : list (string * string)) (f : File) : Prop :=
  file_path f = last_or_empty "path" kvs ∧ file_owner f = last_or_empty "owner" kvs ∧
  file_group f = last_or_empty "group" kvs ∧ file_mode f = last_or_empty "mode" kvs ∧
  file_revert_tag f = last_or_empty "revert-tag" kvs ∧
  file_original_name f = last_or_empty "original_name" kvs ∧
  file_sys_attr f = last_or_empty "sysattr" kvs ∧
  file_overlay f = flag_of "overlay" kvs ∧ file_preserve f = flag_of "preserve" kvs ∧
  file_properties f = orig ++ others file_keys kvs ∧ facets_denote kvs (file_facets f).

Definition add_identifiers (ds : list Digest_) (p : Payload) : Payload := {|
  primary_identifier := primary_identifier p;
  additional_identifiers := additional_identifiers p ++ ds;
  compression_algorithm := compression_algorithm p;
  bitness := bitness p;
  architecture := architecture p;
|}.

Lemma push_add_identifiers d ds p :
  push_additional_identifier d (add_identifiers ds p) = add_identifiers (ds ++ [d]) p.
Proof. unfold push_additional_identifier, add_identifiers. simpl. by rewrite <-app_assoc. Qed.

Definition parses (v : string) (d : Digest_) : Prop := from_str v = Ok d.
Definition malformed (v : string) : Prop := is_ok (from_str v) = false.

Lemma unwrap_digest_cases {E} v :
  (∃ d, from_str v = Ok d ∧ unwrap_digest (E := E) (from_str v) = Ok d) ∨
  (malformed v ∧ ∃ w, unwrap_digest (E := E) (from_str v) = Panic w).
Proof.
  unfold unwrap_digest, malformed. pose proof (from_str_no_panic v).
  destruct (from_str v); simpl; naive_solver.
Qed.

(** What the loop over the properties of a file gives, from a payload [p0]. *)
Definition File_loop_spec (orig : list Property) (p0 : Payload) (kvs : list (string * string))
    (r : outcome ActionError (File * Payload)) : Prop :=
  match r with
  | Ok (f, p) => File_denotes orig kvs f ∧ file_payload f = None ∧
      ∃ ds, Forall2 parses (digest_values kvs) ds ∧ p = add_identifiers ds p0
  | Err _ => False
  | Panic _ => Exists malformed (digest_values kvs)
  end.

Lemma File_step_spec orig p0 kvs fp k v :
  File_loop_spec orig p0 kvs (Ok fp) →
  File_loop_spec orig p0 (kvs ++ [(k, v)]) (File_step fp (MkProperty k v)).
Proof.
  destruct fp as [[payload path group owner mode preserve overlay original_name revert_tag
    sys_attr properties facets] p].
  intros [(?&?&?&?&?&?&?&?&?&?&Hf) [Hp (ds & Hds & Hpp)]]. simpl in *. subst.
  unfold File_step, File_loop_spec, File_denotes.
  rewrite digest_values_snoc, !last_or_empty_snoc, !flag_of_snoc, others_snoc.
  destruct (is_digest_key k) eqn:Hk.
  - assert (Hkey : k = "chash" ∨ k = "pkg.content-hash").
    { apply orb_true_iff in Hk as [Hk|Hk]; apply String.eqb_eq in Hk; auto. }
    destruct (unwrap_digest_cases (E := ActionError) v) as [(d & Hd & Hu)|(Hm & w & Hu)];
      destruct Hkey; subst k; simpl; rewrite Hu; simpl.
    1, 2: split_and!; eauto with rust; exists (ds ++ [d]); rewrite push_add_identifiers;
      split; [apply Forall2_app; auto|done].
    1, 2: apply Exists_app; right; by constructor.
  - unfold is_digest_key in Hk. rewrite Hk.
    case_keys k. apply orb_false_iff in Hk as [-> ->].
    destruct (is_facet k) eqn:Hfk; simpl; split_and!; eauto with rust.
    by rewrite <-(assoc_L (++)).
Qed.

Lemma File_loop orig p0 props :
  File_loop_spec orig p0 (kvs_of props)
    (foldM File_step (MkFile None "" "" "" "" false false "" "" "" orig ∅, p0) props).
Proof.
  induction props as [|[k v] props IH] using rev_ind.
  - unfold File_loop_spec, File_denotes. simpl.
    split_and!; try done; [symmetry; apply app_nil_r|].
    exists []. split; [constructor|]. destruct p0. by unfold add_identifiers; rewrite app_nil_r.
  - rewrite foldM_snoc, kvs_of_snoc. destruct (foldM _ _ _) as [fp|e|w]; simpl.
    + by apply File_step_spec.
    + done.
    + simpl in IH. rewrite digest_values_snoc. destruct (is_digest_key k); [|done].
      apply Exists_app. by left.
Qed.

(** The payload argument of a file: which pairs, which first properties and which
    primary digest it gives. *)
Definition File_kvs (act : Action) : list (string * string) :=
  if contains_char "/" (act_payload_string act) && contains_char "=" (act_payload_string act)
  then action_kvs act else kvs_of (act_properties act).
Definition File_original_path (act : Action) : list Property :=
  if contains_char "/" (act_payload_string act) && negb (contains_char "=" (act_payload_string act))
  then [MkProperty "original-path" (remove_chars [DQUOTE; BACKSLASH] (act_payload_string act))]
  else [].
Definition File_primary (act : Action) : outcome DigestError Digest_ :=
  if negb (is_empty (act_payload_string act)) && negb (contains_char "/" (act_payload_string act))
  then from_str (act_payload_string act)
  else Ok (primary_identifier (act_payload act)).

(** The payload of the file: none when there is no primary hash. *)
Definition File_payload_of (d : Digest_) (ds : list Digest_) (p : Payload) : option Payload :=
  if is_empty (hash d) then None
  else Some (add_identifiers ds (set_primary_identifier d p)).

Definition File_loop_start (act : Action) : File :=
  MkFile None "" "" "" "" false false "" "" "" (File_original_path act) ∅.

(** The payload argument, in the terms of the specification. *)
Lemma File_payload_string_spec act :
  match File_primary act with
  | Ok d => ∃ props, kvs_of props = File_kvs act ∧
      File_payload_string (E := ActionError) (act_payload_string act) File_default
        (act_payload act) (act_properties act) =
      Ok (File_loop_start act, set_primary_identifier d (act_payload act), props)
  | _ => ∃ w, File_payload_string (E := ActionError) (act_payload_string act) File_default
        (act_payload act) (act_properties act) = Panic w
  end.
Proof.
  unfold File_primary, File_payload_string, File_kvs, File_loop_start, File_original_path, action_kvs.
  destruct act as [kind p s props facets]; simpl.
  assert (Hp : set_primary_identifier (primary_identifier p) p = p) by by destruct p.
  destruct (is_empty s) eqn:He; simpl.
  - destruct s; [|done]. simpl. exists props. by rewrite Hp.
  - destruct (contains_char "/" s); simpl.
    + unfold push_payload_string. rewrite He. simpl. destruct (contains_char "=" s); simpl.
      * destruct (split_property_ok (E := ActionError) s) as (k & v & -> & _). simpl.
        exists (props ++ [MkProperty k v]). by rewrite Hp.
      * exists props. by rewrite Hp.
    + destruct (unwrap_digest_cases (E := ActionError) s) as [(d & -> & Hu)|(Hm & w & Hu)].
      * rewrite Hu. simpl. by exists props.
      * unfold malformed in Hm. rewrite Hu. destruct (from_str s); [done|by exists w..].
Qed.

Lemma File_conversion act :
  match File_from (E := ActionError) act with
  | Ok f => ∃ d ds, File_primary act = Ok d ∧ Forall2 parses (digest_values (File_kvs act)) ds ∧
      File_denotes (File_original_path act) (File_kvs act) f ∧
      file_payload f = File_payload_of d ds (act_payload act)
  | Err _ => False
  | Panic _ => is_ok (File_primary act) = false ∨ Exists malformed (digest_values (File_kvs act))
  end.
Proof.
  unfold File_from. pose proof (File_payload_string_spec act) as Hp.
  destruct (File_primary act) as [d|e|w]; [|destruct Hp as [? ->]; simpl; by left..].
  destruct Hp as (props & Hkvs & ->). simpl. rewrite <-Hkvs.
  pose proof (File_loop (File_original_path act) (set_primary_identifier d (act_payload act)) props)
    as Hl. fold (File_loop_start act) in Hl.
  destruct (foldM _ _ props) as [[f p]|e|w]; simpl in *; [|done|by right].
  destruct Hl as (Hf & Hnone & ds & Hds & ->). simpl. exists d, ds. unfold File_payload_of.
  destruct (is_empty (hash d)); (split_and!; [done|done|exact Hf|reflexivity]).
Qed.

(** C4. The conversion of a file action meets its specification.  When it
    returns, every digest text of the action is well-formed, the plain fields are
    the last values of their keys, [overlay] and [preserve] are the booleans of
    theirs, unknown properties are kept in order after the original path, and the
    payload (present exactly when there is a primary hash) carries the digests in
    order.  It never returns an error, and it panics exactly when some digest text
    of the action is malformed. *)
Theorem File_from_refines act :
  match File_from (E := ActionError) act with
  | Ok f => ∃ d ds, File_primary act = Ok d ∧ Forall2 parses (digest_values (File_kvs act)) ds ∧
      File_denotes (File_original_path act) (File_kvs act) f ∧
      file_payload f = File_payload_of d ds (act_payload act)
  | Err _ => False
  | Panic _ => is_ok (File_primary act) = false ∨ Exists malformed (digest_values (File_kvs act))
  end.
Proof. apply File_conversion. Qed.

(** [split_property] keeps the key and the text between the first and the
    second equals sign, without quotes and backslashes: what follows a second
    equals sign is lost. *)
Theorem split_property_truncates {E} a b c :
  contains_char "=" a = false → contains_char "=" b = false →
  split_property (E := E) (a +:+ String "=" (b +:+ String "=" c)) =
    Ok (a, remove_chars [DQUOTE; BACKSLASH] b).
Proof.
  intros Ha Hb. unfold split_property, index.
  rewrite find_char_app, !split_char_app by done. done.
Qed.

Lemma split_property_truncates_witness :
  split_property (E := ActionError) ("path" +:+ String "=" ("usr/a" +:+ String "=" "b")) =
    Ok ("path", "usr/a").
Proof. apply (split_property_truncates "path" "usr/a" "b"); reflexivity. Defined.

(** ** Facets over time *)

(** A call of one of the two methods of [FacetedAction]. *)
Inductive facet_call := AddFacet (f : Facet) | RemoveFacet (f : Facet).

Definition facet_of (c : facet_call) : Facet :=
  match c with AddFacet f | RemoveFacet f => f end.

Definition call_facet `{FacetedAction A} (x : A) (c : facet_call) : A * bool :=
  match c with AddFacet f => add_facet x f | RemoveFacet f => remove_facet x f end.

(** A sequence of calls: the action afterwards, and the answers. *)
Definition call_facets `{FacetedAction A} (x : A) (cs : list facet_call) : A * list bool :=
  foldl (λ st c, let '(x, b) := call_facet st.1 c in (x, st.2 ++ [b])) (x, []) cs.

(** The facet of a name after the calls [cs], from the last call on that name. *)
Definition facet_after (m : gmap string Facet) (cs : list facet_call) (n : string) : option Facet :=
  match last (filter (λ c, facet_name (facet_of c) = n) cs) with
  | Some (AddFacet f) => Some f
  | Some (RemoveFacet _) => None
  | None => m !! n
  end.

(** The answer to the call [c] after the calls [cs]: adding tells whether the name
    was free, removing whether this very facet was there. *)
Definition facet_answer (m : gmap string Facet) (cs : list facet_call) (c : facet_call) : bool :=
  match c with
  | AddFacet f => bool_decide (facet_after m cs (facet_name f) = None)
  | RemoveFacet f => bool_decide (facet_after m cs (facet_name f) = Some f)
  end.

(** What a sequence of calls does to an action whose facets are read by [get] and
    replaced by [set]. *)
Definition calls_as_map `{FacetedAction A} (get : A → gmap string Facet)
    (set : gmap string Facet → A → A) : Prop :=
  ∀ (x : A) (cs : list facet_call),
    let '(y, answers) := call_facets x cs in
    y = set (get y) x ∧
    (∀ n, get y !! n = facet_after (get x) cs n) ∧
    length answers = length cs ∧
    ∀ i c, cs !! i = Some c → answers !! i = Some (facet_answer (get x) (take i cs) c).

Lemma facet_after_snoc m cs c n :
  facet_after m (cs ++ [c]) n =
    if decide (facet_name (facet_of c) = n)
    then match c with AddFacet f => Some f | RemoveFacet _ => None end
    else facet_after m cs n.
Proof.
  unfold facet_after. rewrite filter_app, filter_cons, filter_nil.
  destruct (decide _); [by rewrite last_snoc; destruct c|by rewrite app_nil_r].
Qed.

Lemma calls_as_map_intro `{FacetedAction A} (get : A → gmap string Facet) set :
  (∀ x, set (get x) x = x) → (∀ m x, get (set m x) = m) →
  (∀ m m' x, set m (set m' x) = set m x) →
  (∀ x f, add_facet x f = let '(m, b) := insert_facet (get x) f in (set m x, b)) →
  (∀ x f, remove_facet x f = let '(m, b) := delete_facet (get x) f in (set m x, b)) →
  calls_as_map get set.
Proof.
  intros Hself Hget Hset Hadd Hremove x cs.
  induction cs as [|c cs IH] using rev_ind.
  { split_and!; [by rewrite Hself|done|done|done]. }
  unfold call_facets in *. rewrite foldl_snoc. destruct (foldl _ _ _) as [y answers]. simpl.
  destruct IH as (Hy & Hm & Hlen & Hans).
  assert (∀ m, set m y = set m x) as Hsety by (intros m; rewrite Hy; apply Hset).
  assert (∃ m, call_facet y c = (set m x, facet_answer (get x) cs c) ∧
    ∀ n, m !! n = facet_after (get x) (cs ++ [c]) n) as (m & -> & Hm').
  { setoid_rewrite facet_after_snoc. destruct c as [f|f]; simpl.
    - rewrite Hadd. unfold insert_facet. rewrite Hm. eexists. split; [by rewrite Hsety|].
      intros n. case_decide; subst; [apply lookup_insert_eq|by rewrite lookup_insert_ne].
    - rewrite Hremove. unfold delete_facet. rewrite Hm. eexists. split; [by rewrite Hsety|].
      intros n. case_decide; subst; [apply lookup_delete_eq|by rewrite lookup_delete_ne]. }
  split_and!; [by rewrite Hget|by rewrite Hget|by rewrite !length_app, Hlen|].
  intros i c' [Hi|[Hle Hi]]%lookup_app_Some.
  - pose proof (lookup_lt_Some _ _ _ Hi). rewrite lookup_app_l, take_app_le by lia. by apply Hans.
  - apply list_lookup_singleton_Some in Hi as [Hi ->]. assert (i = length cs) as -> by lia.
    rewrite take_app_length, lookup_app_r, Hlen, Nat.sub_diag by lia. done.
Qed.

(** C39. Every sequence of [add_facet] and [remove_facet] calls, on an action, a
    directory, a file or a dependency: afterwards the facet of each name is the
    one its last call added, none if its last call removed it (also when the
    removed facet had another value), and what it was if there was no call; no
    other field has changed; adding answers whether the name was free at that
    moment, removing whether exactly that facet was there. *)
Theorem facet_calls_as_map :
  calls_as_map act_facets Action_set_facets ∧ calls_as_map dir_facets Dir_set_facets ∧
  calls_as_map file_facets File_set_facets ∧ calls_as_map dep_facets Dependency_set_facets.
Proof. split_and!; apply calls_as_map_intro; try done; by intros []. Qed.

(** A facet is replaced by adding, then removed by naming another value, which
    answers false. *)
Lemma facet_calls_as_map_witness :
  (call_facets Dir_default [AddFacet (MkFacet "doc" "true"); AddFacet (MkFacet "doc" "all");
     RemoveFacet (MkFacet "doc" "true")]).2 = [true; false; false] ∧
  dir_facets (call_facets Dir_default [AddFacet (MkFacet "doc" "true"); AddFacet (MkFacet "doc" "all");
     RemoveFacet (MkFacet "doc" "true")]).1 !! "doc" = None.
Proof.
  destruct facet_calls_as_map as (_ & Hdir & _).
  pose proof (Hdir Dir_default [AddFacet (MkFacet "doc" "true"); AddFacet (MkFacet "doc" "all");
     RemoveFacet (MkFacet "doc" "true")]) as H.
  destruct (call_facets _ _) as [y answers] eqn:Hc. destruct H as (_ & Hn & _ & _).
  split; [vm_compute in Hc; injection Hc as _ <-; reflexivity|]. simpl. rewrite Hn. reflexivity.
Defined.
