(* ===== verification/ManifestGrammar.v ===== *)
(** * ManifestGrammar: the grammar of manifests ([libips/src/actions/manifest.pest])

    The rules of the grammar as data, the certificate that it is well-formed, and
    the shapes of the token trees it gives, which the walker of [Manifest] relies
    on. *)

From S2P Require Import Prelude RustStr Peg.

Module Rule.
(** [enum Rule], as [pest_derive] generates it. *)
Inductive t : Set :=
| EOI
| action_set | action_depend | action_dir | action_file | action_license | action_hardlink
| action_link | action_driver | action_group | action_user | action_legacy
| action_name
| quoted_string | quoted_character
| COMMENT | comment_character | transform_character | unicode_character
| WHITESPACE
| transform_action | transform
| property_name | property_value | payload | property | action | manifest.

#[global] Instance t_eq_dec : EqDecision t.
Proof. solve_decision. Defined.
End Rule.

Import Rule.

Local Open Scope peg_scope.

Local Abbreviation lit := (λ s, Prim (R := Rule.t) (Lit s)).
Local Abbreviation ANY := (Prim (R := Rule.t) Any).
Local Abbreviation NEWLINE := (Prim (R := Rule.t) Newline).

Definition manifest_rule (r : Rule.t) : rule_type * pexp Rule.t :=
  match r with
  | EOI => (Normal, Prim End_)
  | action_set => (Atomic, lit "set")
  | action_depend => (Atomic, lit "depend")
  | action_dir => (Atomic, lit "dir")
  | action_file => (Atomic, lit "file")
  | action_license => (Atomic, lit "license")
  | action_hardlink => (Atomic, lit "hardlink")
  | action_link => (Atomic, lit "link")
  | action_driver => (Atomic, lit "driver")
  | action_group => (Atomic, lit "group")
  | action_user => (Atomic, lit "user")
  | action_legacy => (Atomic, lit "legacy")
  | action_name =>
      (Atomic, Ref action_set // Ref action_depend // Ref action_dir // Ref action_file
               // Ref action_license // Ref action_hardlink // Ref action_link
               // Ref action_driver // Ref action_group // Ref action_user
               // Ref action_legacy)
  | quoted_string => (Atomic, lit (chr DQUOTE) ~~ Star (Ref quoted_character) ~~ lit (chr DQUOTE))
  | quoted_character => (Normal, Not (lit (chr DQUOTE)) ~~ ANY)
  | COMMENT => (Silent, lit "#" ~~ Star (Ref comment_character) ~~ NEWLINE)
  | comment_character => (Normal, Not NEWLINE ~~ ANY)
  | transform_character => (Normal, Not (lit ">") ~~ ANY)
  | unicode_character => (Normal, Not (Ref WHITESPACE // NEWLINE) ~~ ANY)
  | WHITESPACE => (Silent, lit (chr BACKSLASH) ~~ NEWLINE // lit " " // lit (chr TAB))
  | transform_action => (Atomic, Star (Ref transform_character))
  | transform =>
      (Normal, lit "<transform " ~~ Ref action_name ~~ Plus (Ref property) ~~ lit "->"
               ~~ Ref transform_action ~~ lit ">")
  | property_name =>
      (Atomic, Plus (Prim (Class_ ASCII_ALPHANUMERIC) // lit "." // lit "_" // lit "-" // lit "/"))
  | property_value => (Atomic, Ref quoted_string // Plus (Ref unicode_character))
  | payload => (Atomic, Ref property_value)
  | property => (Normal, Ref property_name ~~ lit "=" ~~ Ref property_value)
  | action =>
      (Normal, Ref action_name ~~ (Ref property // Ref payload) ~~ Star (Ref property)
               ~~ (NEWLINE // Ref EOI))
  | manifest =>
      (Normal, Prim Soi ~~ Plus (NEWLINE // Ref transform // Ref action) ~~ Ref EOI)
  end.

Definition manifest_grammar : grammar Rule.t := {|
  g_rule := manifest_rule;
  g_ws := Some WHITESPACE;
  g_comment := Some COMMENT;
|}.

Definition manifest_nul (r : Rule.t) : bool :=
  match r with EOI | transform_action => true | _ => false end.

Definition manifest_rank (r : Rule.t) : nat :=
  match r with
  | COMMENT | action_name | property => 1
  | quoted_character | comment_character | transform_character | unicode_character | action => 2
  | transform_action | property_value => 3
  | payload | manifest => 4
  | _ => 0
  end.

#[export] Instance manifest_wf : WellFormed manifest_grammar.
Proof.
  refine {| wf_nul := manifest_nul; wf_rank := manifest_rank; wf_ranks := 5; wf_size := 150 |}.
  - intros []; vm_compute; reflexivity.
  - reflexivity.
Defined.

Local Close Scope peg_scope.

(** ** The shapes of the token trees *)

Local Abbreviation yields := (yields manifest_grammar).

(** [manifest]: transforms and actions, then the end of input. *)
Lemma manifest_shape rs :
  yields (body manifest_grammar manifest) rs →
  Forall (λ r, r = transform ∨ r = action ∨ r = EOI) rs.
Proof.
  set (P := λ r, r = transform ∨ r = action ∨ r = EOI).
  assert (HP : ∀ rs, yields (Alt (Prim Newline) (Alt (Ref transform) (Ref action))) rs → Forall P rs).
  { intros rs' H. inv_yields; rewrite ?Forall_singleton; unfold P; auto using Forall_nil. }
  intros H. cbn in H. unfold Plus in H.
  apply yields_seq_inv in H as (r1 & r2 & -> & H1 & H2). apply yields_prim_inv in H1 as ->.
  apply yields_seq_inv in H2 as (r3 & r4 & -> & H3 & H4).
  apply yields_seq_inv in H3 as (r5 & r6 & -> & H5 & H6).
  apply yields_emit_inv in H4 as ->; [|done].
  rewrite app_nil_l, !Forall_app, Forall_singleton. split_and!; [auto| |unfold P; auto].
  by eapply yields_star_Forall.
Qed.

Lemma star_ref_repeat (r : Rule.t) rs :
  yields (Star (Ref r)) rs → type_of manifest_grammar r ≠ Silent → Forall (eq r) rs.
Proof.
  intros H Hr. eapply yields_star_Forall; [done|]. intros rs' H'.
  apply yields_emit_inv in H' as ->; [|done]. by constructor.
Qed.

(** [action]: a name, an argument, properties, and the end of input on the last
    line. *)
Lemma action_shape rs :
  yields (body manifest_grammar action) rs →
  ∃ arg props last, rs = action_name :: arg :: props ++ last ∧
    (arg = property ∨ arg = payload) ∧ Forall (eq property) props ∧ (last = [] ∨ last = [EOI]).
Proof.
  intros H. cbn in H. inv_yields;
    match goal with H : yields (Star _) _ |- _ => apply star_ref_repeat in H; [|done] end;
    eexists _, _, _; split_and!; eauto; by rewrite ?app_nil_r.
Qed.

(** [property]: a name and a value. *)
Lemma property_shape rs :
  yields (body manifest_grammar property) rs → rs = [property_name; property_value].
Proof. intros H. cbn in H. by inv_yields. Qed.

(** The names of actions. *)
Definition action_names : list string :=
  ["set"; "depend"; "dir"; "file"; "license"; "hardlink"; "link"; "driver"; "group"; "user"; "legacy"].

(** The text of an [action_name] token is one of them. *)
Lemma action_name_text uppercase full span ps :
  genuine uppercase manifest_grammar full (Tok action_name span ps) → span ∈ action_names.
Proof.
  intros Hg. inversion Hg as [? ? ? s' Hp _]; subst. cbn in Hp.
  repeat match type of Hp with
  | peg _ _ _ _ (GMatch (Alt _ _)) _ _ => apply peg_alt_inv in Hp as [Hp|[_ Hp]]
  end;
  apply peg_ref_inv in Hp as [? Hp]; cbn in Hp; apply peg_lit_inv, str_app_inj_r in Hp; subst;
  unfold action_names; repeat first [by left|right].
Qed.
