(* ===== verification/Manifest.v ===== *)
(** * Manifest: manifests and their parser ([libips/src/actions/mod.rs])

    A manifest is its actions sorted by kind.  [parse_string] runs the generated
    parser and walks its token tree, filling in one generic [Action] per line and
    adding it to the manifest ([add_action]). *)

From S2P Require Import Prelude RustStr World Peg Digest Payload Actions ManifestGrammar.

Record Manifest := MkManifest {
  attributes : list Attr;
  directories : list Dir;
  files : list File;
  dependencies : list Dependency;
  licenses : list License;
  links : list Link;
}.

#[export] Instance Manifest_eq_dec : EqDecision Manifest.
Proof. solve_decision. Defined.

(** [Manifest::new] *)
Definition Manifest_new : Manifest := MkManifest [] [] [] [] [] [].

(** [Manifest::add_file] *)
Definition add_file (f : File) (m : Manifest) : Manifest :=
  MkManifest (attributes m) (directories m) (files m ++ [f]) (dependencies m) (licenses m) (links m).

(** The message of [todo!()]. *)
Definition not_yet_implemented : string := "not yet implemented".

(** [Manifest::add_action] *)
Definition add_action (m : Manifest) (act : Action) : outcome ActionError Manifest :=
  let '(MkManifest attributes directories files dependencies licenses links) := m in
  match act_kind act with
  | ActionKind.Attr =>
      a ← Attr_from act;
      Ok (MkManifest (attributes ++ [a]) directories files dependencies licenses links)
  | ActionKind.Dir =>
      d ← Dir_from act;
      Ok (MkManifest attributes (directories ++ [d]) files dependencies licenses links)
  | ActionKind.File =>
      f ← File_from act;
      Ok (MkManifest attributes directories (files ++ [f]) dependencies licenses links)
  | ActionKind.Dependency =>
      d ← Dependency_from act;
      Ok (MkManifest attributes directories files (dependencies ++ [d]) licenses links)
  | ActionKind.User => Panic not_yet_implemented
  | ActionKind.Group => Panic not_yet_implemented
  | ActionKind.Driver => Panic not_yet_implemented
  | ActionKind.License =>
      Ok (MkManifest attributes directories files dependencies (licenses ++ [License_from act]) links)
  | ActionKind.Link =>
      l ← Link_from act;
      Ok (MkManifest attributes directories files dependencies licenses (links ++ [l]))
  | ActionKind.Legacy => Panic not_yet_implemented
  | ActionKind.Transform => Panic not_yet_implemented
  | ActionKind.Unknown action => Panic ("action " +:+ action +:+ " not known")
  end.

(** ** The walk over the token tree *)

Definition set_act_kind (k : ActionKind.kind) (a : Action) : Action :=
  MkAction k (act_payload a) (act_payload_string a) (act_properties a) (act_facets a).
Definition set_act_payload_string (s : string) (a : Action) : Action :=
  MkAction (act_kind a) (act_payload a) s (act_properties a) (act_facets a).
Definition push_act_property (p : Property) (a : Action) : Action :=
  MkAction (act_kind a) (act_payload a) (act_payload_string a) (act_properties a ++ [p]) (act_facets a).

(** The body of [for prop in action.clone().into_inner()]. *)
Definition walk_property (prop : Property) (p : token Rule.t) : outcome ActionError Property :=
  match as_rule p with
  | Rule.property_name => Ok (MkProperty (as_str p) (prop_value prop))
  | Rule.property_value =>
      Ok (MkProperty (prop_key prop) (remove_chars [DQUOTE; BACKSLASH] (as_str p)))
  | _ => Panic "unexpected rule inside action expected property_name or property_value"
  end.

(** The body of [for action in manifest.clone().into_inner()]. *)
Definition walk_action (act : Action) (p : token Rule.t) : outcome ActionError Action :=
  match as_rule p with
  | Rule.action_name => Ok (set_act_kind (get_action_kind (as_str p)) act)
  | Rule.payload => Ok (set_act_payload_string (as_str p) act)
  | Rule.property =>
      prop ← foldM walk_property Property_default (into_inner p);
      Ok (push_act_property prop act)
  | Rule.EOI => Ok act
  | _ => Panic "unexpected rule inside action expected payload, property, action_name"
  end.

(** The body of [for manifest in p.clone().into_inner()]. *)
Definition walk_manifest (m : Manifest) (p : token Rule.t) : outcome ActionError Manifest :=
  match as_rule p with
  | Rule.action =>
      act ← foldM walk_action Action_default (into_inner p);
      add_action m act
  | Rule.EOI => Ok m
  | Rule.transform => Ok m
  | _ => Panic "unexpected rule inside manifest expected action"
  end.

(** The body of [for p in pairs]. *)
Definition walk_pairs (m : Manifest) (p : token Rule.t) : outcome ActionError Manifest :=
  match as_rule p with
  | Rule.manifest => foldM walk_manifest m (into_inner p)
  | Rule.WHITESPACE => Ok m
  | _ => Panic "unexpected rule inside pair expected manifest"
  end.

(** [Manifest::parse_string] *)
Definition parse_string `{PestEngine} (content : string) : outcome ActionError Manifest :=
  pairs ← map_err ParserError (of_sum (pest_parse manifest_grammar Rule.manifest content));
  foldM walk_pairs Manifest_new pairs.

(** [Manifest::parse_file] *)
Definition parse_file `{FileSystem, PestEngine} (cwd f : string) : outcome ActionError Manifest :=
  content ← map_err ActionIOError (read_to_string cwd f);
  parse_string content.

(** ** What the walk computes *)

(** The property of a [property] token. *)
Definition property_of (t : token Rule.t) : Property :=
  match into_inner t with
  | [n; v] => MkProperty (as_str n) (remove_chars [DQUOTE; BACKSLASH] (as_str v))
  | _ => Property_default
  end.

(** The action of an [action] token: its first child is its name, its properties
    are the [property] children and its payload text the [payload] child. *)
Definition action_of (t : token Rule.t) : Action := {|
  act_kind := get_action_kind (default "" (as_str <$> head (into_inner t)));
  act_payload := Payload_default;
  act_payload_string :=
    default "" (as_str <$> head (filter (λ c, as_rule c = Rule.payload) (into_inner t)));
  act_properties := property_of <$> filter (λ c, as_rule c = Rule.property) (into_inner t);
  act_facets := ∅;
|}.

(** The actions of a parse, in order. *)
Definition actions_of (ps : list (token Rule.t)) : list Action :=
  action_of <$> filter (λ c, as_rule c = Rule.action) (ps ≫= into_inner).

Section walk.
Context `{PE : PestEngine, !PestLaws}.
Context (full : string).
Local Abbreviation genuine := (genuine pest_uppercase manifest_grammar full).

Lemma walk_property_ok t :
  genuine t → as_rule t = Rule.property →
  foldM walk_property Property_default (into_inner t) = Ok (property_of t).
Proof.
  destruct t as [r span ps]; simpl; intros Hg ->.
  apply genuine_inner, property_shape in Hg; [|done].
  destruct ps as [|[rn n ?] [|[rv v ?] [|]]]; try done. simpl in Hg. by simplify_eq.
Qed.

(** The loop body on each kind of child. *)
Lemma walk_action_property act t :
  genuine t → as_rule t = Rule.property →
  walk_action act t = Ok (push_act_property (property_of t) act).
Proof. intros Hg Hr. unfold walk_action. by rewrite Hr, walk_property_ok. Qed.

Lemma walk_action_name act t :
  as_rule t = Rule.action_name →
  walk_action act t = Ok (set_act_kind (get_action_kind (as_str t)) act).
Proof. intros Hr. unfold walk_action. by rewrite Hr. Qed.

Lemma walk_action_payload act t :
  as_rule t = Rule.payload → walk_action act t = Ok (set_act_payload_string (as_str t) act).
Proof. intros Hr. unfold walk_action. by rewrite Hr. Qed.

Lemma walk_action_EOI act t : as_rule t = Rule.EOI → walk_action act t = Ok act.
Proof. intros Hr. unfold walk_action. by rewrite Hr. Qed.

Lemma walk_properties_ok act ts :
  Forall genuine ts → Forall (λ t, as_rule t = Rule.property) ts →
  foldM walk_action act ts =
    Ok (MkAction (act_kind act) (act_payload act) (act_payload_string act)
          (act_properties act ++ (property_of <$> ts)) (act_facets act)).
Proof.
  intros Hg Hr. revert act. induction ts as [|t ts IH]; intros act; cbn [foldM].
  - destruct act; simpl. by rewrite app_nil_r.
  - apply Forall_cons in Hg as [Hg Hgs]. apply Forall_cons in Hr as [Hr Hrs].
    rewrite walk_action_property by done. cbn [mbind outcome_bind].
    rewrite IH by done. simpl. by rewrite <-(assoc_L (++)).
Qed.

Lemma filter_rule_same (ts : list (token Rule.t)) r :
  Forall (λ t, as_rule t = r) ts → filter (λ c, as_rule c = r) ts = ts.
Proof. induction 1 as [|t ts Ht Hts IH]; [done|]. by rewrite filter_cons, IH, decide_True. Qed.

Lemma filter_rule_other (ts : list (token Rule.t)) r r' :
  Forall (λ t, as_rule t = r) ts → r ≠ r' → filter (λ c, as_rule c = r') ts = [].
Proof.
  induction 1 as [|t ts Ht Hts IH]; intros Hr; [done|]. by rewrite filter_cons, IH, decide_False by congruence.
Qed.

(** The walk over an [action] token gives its action. *)
Lemma walk_action_ok t :
  genuine t → as_rule t = Rule.action →
  foldM walk_action Action_default (into_inner t) = Ok (action_of t).
Proof.
  destruct t as [r span ps]; simpl; intros Hg ->.
  pose proof (genuine_inner_genuine _ _ _ _ _ _ Hg) as Hps.
  apply genuine_inner, action_shape in Hg as (arg & props & last & Hrs & Harg & Hprops & Hlast);
    [|done].
  destruct ps as [|n [|a ps]]; try done.
  injection Hrs as Hn Ha Hrs. apply fmap_app_inv in Hrs as (ts & ls & -> & -> & ->).
  rewrite !Forall_cons, Forall_app in Hps. destruct Hps as (_ & Hga & Hts & _).
  assert (Hpt : Forall (λ t, as_rule t = Rule.property) ts).
  { rewrite Forall_fmap in Hprops. eapply Forall_impl; [exact Hprops|]. simpl. congruence. }
  assert (Hl : Forall (λ t, as_rule t = Rule.EOI) ls).
  { destruct ls as [|l [|]]; simpl in Hlast; [done| |naive_solver].
    destruct Hlast as [[=]|[= ?]]. by repeat constructor. }
  assert (Hls : ∀ act, foldM walk_action act ls = Ok act).
  { clear -Hl. intros act. induction Hl as [|l ls Hl Hls IH]; [done|].
    cbn [foldM]. by rewrite walk_action_EOI. }
  cbn [foldM]. rewrite walk_action_name by done. cbn [mbind outcome_bind].
  unfold action_of. cbn [into_inner]. rewrite !filter_cons, !filter_app, Hn.
  rewrite (filter_rule_same _ _ Hpt), !(filter_rule_other _ _ _ Hl),
    (filter_rule_other _ _ Rule.payload Hpt), !app_nil_r by done.
  destruct Harg as [-> | ->]; rewrite Ha.
  - rewrite walk_action_property by done. cbn [mbind outcome_bind].
    rewrite foldM_app, walk_properties_ok by done. cbn [mbind outcome_bind]. by rewrite Hls.
  - rewrite walk_action_payload by done. cbn [mbind outcome_bind].
    rewrite foldM_app, walk_properties_ok by done. cbn [mbind outcome_bind]. by rewrite Hls.
Qed.
End walk.

(** ** Adding actions *)

(** The kinds whose arm of [add_action] is [todo!()]. *)
Definition is_todo (k : ActionKind.kind) : bool :=
  match k with
  | ActionKind.User | ActionKind.Group | ActionKind.Driver | ActionKind.Legacy => true
  | _ => false
  end.

(** The kinds an action line can have. *)
Definition is_known (k : ActionKind.kind) : bool :=
  match k with
  | ActionKind.Unknown _ | ActionKind.Transform => false
  | _ => true
  end.

(** An action that cannot be added: a kind that is not implemented, or a file
    with a malformed digest. *)
Definition bad_action (act : Action) : Prop :=
  is_todo (act_kind act) = true ∨
  act_kind act = ActionKind.File ∧
    (is_ok (File_primary act) = false ∨ Exists malformed (digest_values (File_kvs act))).

Lemma Forall2_parses_not_malformed vs ds : Forall2 parses vs ds → ¬ Exists malformed vs.
Proof.
  induction 1 as [|v d vs ds Hv _ IH]; [by inversion 1|].
  intros [Hm|Hm]%Exists_cons; [|done]. unfold malformed, parses in *. by rewrite Hv in Hm.
Qed.

Lemma add_action_cases m act :
  is_known (act_kind act) = true →
  match add_action m act with
  | Ok _ => ¬ bad_action act
  | Err _ => False
  | Panic _ => bad_action act
  end.
Proof.
  intros Hk. destruct m as [at_ di fi de li ln]. unfold add_action, bad_action.
  destruct (act_kind act) eqn:E; try done; simpl; try naive_solver.
  - destruct (Attr_conversion act) as [Hok _]. destruct (Attr_from act); simpl in *; naive_solver.
  - destruct (Dir_conversion act) as [Hok _]. destruct (Dir_from act); simpl in *; naive_solver.
  - pose proof (File_conversion act) as Hf. destruct (File_from act); simpl in *; [|done|by right].
    destruct Hf as (d & ds & Hp & Hds%Forall2_parses_not_malformed & _).
    rewrite Hp. simpl. naive_solver.
  - destruct (Dependency_conversion act) as [Hok _].
    destruct (Dependency_from act); simpl in *; naive_solver.
  - destruct (Link_conversion act) as [Hok _]. destruct (Link_from act); simpl in *; naive_solver.
Qed.

Lemma add_actions_cases m acts :
  Forall (λ a, is_known (act_kind a) = true) acts →
  match foldM add_action m acts with
  | Ok _ => ¬ Exists bad_action acts
  | Err _ => False
  | Panic _ => Exists bad_action acts
  end.
Proof.
  intros Hk. revert m. induction Hk as [|act acts Ha Hk IH]; intros m; simpl; [by inversion 1|].
  pose proof (add_action_cases m act Ha) as Hc.
  destruct (add_action m act) as [m'|e|w]; simpl; [|done|by left].
  specialize (IH m'). destruct (foldM add_action m' acts); [|done|by right].
  intros [?|?]%Exists_cons; done.
Qed.

(** The sections of a manifest, as the conversions of its actions. *)
Definition of_kind (k : ActionKind.kind) (acts : list Action) : list Action :=
  filter (λ a, act_kind a = k) acts.

Definition sections (acts : list Action) (m : Manifest) : Prop :=
  Forall2 (λ a x, Attr_from (E := ActionError) a = Ok x) (of_kind ActionKind.Attr acts) (attributes m) ∧
  Forall2 (λ a x, Dir_from (E := ActionError) a = Ok x) (of_kind ActionKind.Dir acts) (directories m) ∧
  Forall2 (λ a x, File_from (E := ActionError) a = Ok x) (of_kind ActionKind.File acts) (files m) ∧
  Forall2 (λ a x, Dependency_from (E := ActionError) a = Ok x)
    (of_kind ActionKind.Dependency acts) (dependencies m) ∧
  licenses m = License_from <$> of_kind ActionKind.License acts ∧
  Forall2 (λ a x, Link_from (E := ActionError) a = Ok x) (of_kind ActionKind.Link acts) (links m).

Lemma of_kind_snoc k acts act :
  of_kind k (acts ++ [act]) = of_kind k acts ++ (if decide (act_kind act = k) then [act] else []).
Proof. unfold of_kind. by rewrite filter_app, filter_cons, filter_nil. Qed.

Lemma add_action_sections acts m act m' :
  sections acts m → add_action m act = Ok m' → sections (acts ++ [act]) m'.
Proof.
  intros (H1&H2&H3&H4&H5&H6). destruct m as [at_ di fi de li ln]. simpl in *.
  unfold add_action, sections. rewrite !of_kind_snoc.
  destruct (act_kind act) eqn:E; intros Ha; inv_outcome; try done; simpl;
    rewrite ?app_nil_r, ?fmap_app; split_and!; try done;
    try (apply Forall2_app; [done|by repeat constructor]); by rewrite ?H5.
Qed.

Lemma add_actions_sections acts m :
  foldM add_action Manifest_new acts = Ok m → sections acts m.
Proof.
  revert m. induction acts as [|act acts IH] using rev_ind; intros m.
  - simpl. intros [= <-]. by unfold sections, of_kind; simpl; split_and!; try constructor.
  - rewrite foldM_snoc. intros (m0 & H0 & Ha)%outcome_bind_Ok.
    eapply add_action_sections; eauto.
Qed.

(** The kinds with a section partition the actions that can be added. *)
Lemma of_kind_partition acts :
  Forall (λ a, is_known (act_kind a) = true) acts → ¬ Exists bad_action acts →
  length (of_kind ActionKind.Attr acts) + length (of_kind ActionKind.Dir acts) +
  length (of_kind ActionKind.File acts) + length (of_kind ActionKind.Dependency acts) +
  length (of_kind ActionKind.License acts) + length (of_kind ActionKind.Link acts) = length acts.
Proof.
  induction 1 as [|a acts Ha Hk IH]; intros Hbad; [done|].
  assert (Hacts : ¬ Exists bad_action acts) by (contradict Hbad; by right).
  assert (Htodo : is_todo (act_kind a) = false).
  { apply not_true_is_false. contradict Hbad. by left; left. }
  specialize (IH Hacts). unfold of_kind in *. rewrite !filter_cons.
  destruct (act_kind a); simpl in *; try done; lia.
Qed.

(** ** The parser *)

Section parser.
Context `{PE : PestEngine, !PestLaws}.

Lemma walk_manifest_skip m t :
  as_rule t = Rule.transform ∨ as_rule t = Rule.EOI → walk_manifest m t = Ok m.
Proof. unfold walk_manifest. by intros [-> | ->]. Qed.

Lemma walk_manifest_action full m t :
  genuine pest_uppercase manifest_grammar full t → as_rule t = Rule.action →
  walk_manifest m t = add_action m (action_of t).
Proof. intros Hg Hr. unfold walk_manifest. rewrite Hr. by rewrite (walk_action_ok full). Qed.

Lemma walk_manifest_ok full m ts :
  Forall (genuine pest_uppercase manifest_grammar full) ts →
  Forall (λ t, as_rule t = Rule.transform ∨ as_rule t = Rule.action ∨ as_rule t = Rule.EOI) ts →
  foldM walk_manifest m ts =
    foldM add_action m (action_of <$> filter (λ c, as_rule c = Rule.action) ts).
Proof.
  intros Hg Hr. revert m. induction ts as [|t ts IH]; intros m; [done|].
  apply Forall_cons in Hg as [Hg Hgs]. apply Forall_cons in Hr as [Hr Hrs].
  cbn [foldM]. rewrite filter_cons.
  destruct Hr as [Hr|[Hr|Hr]]; rewrite Hr.
  - rewrite walk_manifest_skip by auto. by apply IH.
  - rewrite (walk_manifest_action full) by done. rewrite decide_True by done. simpl.
    destruct (add_action m (action_of t)); simpl; [by apply IH|done..].
  - rewrite walk_manifest_skip by auto. by apply IH.
Qed.

Lemma action_of_known full t :
  genuine pest_uppercase manifest_grammar full t → as_rule t = Rule.action →
  is_known (act_kind (action_of t)) = true.
Proof.
  destruct t as [r span ps]; simpl; intros Hg ->.
  pose proof (genuine_inner_genuine _ _ _ _ _ _ Hg) as Hps.
  apply genuine_inner, action_shape in Hg as (arg & props & last & Hrs & _); [|done].
  destruct ps as [|[rn n ni] ps]; [done|]. injection Hrs as -> _. apply Forall_cons in Hps as [Hn _].
  apply action_name_text in Hn. unfold action_of. simpl. clear -Hn. unfold action_names in Hn.
  repeat (apply elem_of_cons in Hn as [->|Hn]; [done|]). by apply elem_of_nil in Hn.
Qed.

Lemma parse_string_actions content ps :
  pest_parse manifest_grammar Rule.manifest content = inr ps →
  parse_string content = foldM add_action Manifest_new (actions_of ps) ∧
  Forall (λ a, is_known (act_kind a) = true) (actions_of ps).
Proof.
  intros Hp. pose proof (pest_parse_genuine _ _ _ _ Hp) as Hg.
  pose proof (pest_parse_yields _ _ _ _ Hp) as Hy.
  apply yields_emit_inv in Hy; [|done].
  destruct ps as [|t [|]]; try done. injection Hy as Hr.
  rewrite Forall_singleton in Hg. destruct t as [r span ps]. simpl in Hr. subst r.
  pose proof (genuine_inner_genuine _ _ _ _ _ _ Hg) as Hps.
  apply genuine_inner, manifest_shape in Hg; [|done]. rewrite Forall_fmap in Hg.
  assert (Ha : actions_of [Tok Rule.manifest span ps] =
               action_of <$> filter (λ c, as_rule c = Rule.action) ps).
  { unfold actions_of. simpl. by rewrite app_nil_r. }
  rewrite Ha, <-(walk_manifest_ok content) by done.
  split.
  { unfold parse_string. rewrite Hp. cbn [map_err of_sum mbind outcome_bind foldM].
    unfold walk_pairs. cbn [as_rule into_inner]. by destruct (foldM walk_manifest _ ps). }
  rewrite Forall_fmap, Forall_forall. intros t [Ht Hin]%list_elem_of_filter.
  apply (action_of_known content); [|done]. by eapply Forall_forall in Hps.
Qed.
End parser.

(** ** Properties *)

Section properties.
Context `{PE : PestEngine, !PestLaws}.

(** C12. [Manifest::parse_string] is the generated parser followed by
    [add_action] on the actions of the parse in their order: an error of the
    parser is the only error it returns, transforms and the ends of lines add
    nothing, and none of its "unexpected rule" arms is ever reached. *)
Theorem parse_string_refines content :
  parse_string content =
    match pest_parse manifest_grammar Rule.manifest content with
    | inl e => Err (ParserError e)
    | inr ps => foldM add_action Manifest_new (actions_of ps)
    end.
Proof.
  destruct (pest_parse manifest_grammar Rule.manifest content) as [e|ps] eqn:Hp.
  - unfold parse_string. by rewrite Hp.
  - by apply parse_string_actions.
Qed.

(** C17. [Manifest::parse_string] on every input: it returns a parser error
    exactly when the text is not in the grammar; on a text of the grammar it
    returns a manifest unless some action is a user, group, driver or legacy
    action or a file with a malformed digest, and then it panics. *)
Theorem parse_string_cases content :
  match parse_string content with
  | Err e => (∃ msg, e = ParserError msg) ∧
      peg pest_uppercase manifest_grammar content false (GMatch (Ref Rule.manifest)) content None
  | Ok _ => ∃ ps, pest_parse manifest_grammar Rule.manifest content = inr ps ∧
      ¬ Exists bad_action (actions_of ps)
  | Panic _ => ∃ ps, pest_parse manifest_grammar Rule.manifest content = inr ps ∧
      Exists bad_action (actions_of ps)
  end.
Proof.
  destruct (pest_parse manifest_grammar Rule.manifest content) as [e|ps] eqn:Hp.
  - unfold parse_string. rewrite Hp. simpl. split; [eauto|]. by eapply pest_parse_err.
  - destruct (parse_string_actions _ _ Hp) as [-> Hk].
    pose proof (add_actions_cases Manifest_new _ Hk) as Hc.
    destruct (foldM add_action Manifest_new (actions_of ps)); [|done|]; eauto.
Qed.

(** The manifest that [Manifest::parse_string] returns has one entry per
    action, in the section of its kind, in the order of the text, and each entry
    is the conversion of its action. *)
Theorem parse_string_sections content m :
  parse_string content = Ok m →
  ∃ ps, pest_parse manifest_grammar Rule.manifest content = inr ps ∧ sections (actions_of ps) m ∧
    length (attributes m) + length (directories m) + length (files m) +
    length (dependencies m) + length (licenses m) + length (links m) = length (actions_of ps).
Proof.
  intros Hm. destruct (pest_parse manifest_grammar Rule.manifest content) as [e|ps] eqn:Hp.
  { unfold parse_string in Hm. by rewrite Hp in Hm. }
  destruct (parse_string_actions _ _ Hp) as [Hf Hk]. rewrite Hf in Hm. exists ps.
  pose proof (add_actions_cases Manifest_new _ Hk) as Hbad. rewrite Hm in Hbad.
  apply add_actions_sections in Hm as Hs. split_and!; [done|done|].
  destruct Hs as (H1&H2&H3&H4&H5&H6).
  apply Forall2_length in H1, H2, H3, H4, H6. apply (f_equal length) in H5.
  rewrite length_fmap in H5. rewrite <-H1, <-H2, <-H3, <-H4, H5, <-H6.
  by apply of_kind_partition.
Qed.

(** A manifest with a user, group, driver or legacy action is in the
    grammar, but [Manifest::parse_string] panics on it instead of returning a
    result. *)
Theorem parse_string_todo content ps act :
  pest_parse manifest_grammar Rule.manifest content = inr ps →
  act ∈ actions_of ps → is_todo (act_kind act) = true →
  ∃ w, parse_string content = Panic w.
Proof.
  intros Hp Hin Ht. destruct (parse_string_actions _ _ Hp) as [-> Hk].
  pose proof (add_actions_cases Manifest_new _ Hk) as Hc.
  assert (Hb : Exists bad_action (actions_of ps)).
  { apply Exists_exists. exists act. split; [done|]. by left. }
  destruct (foldM _ _ _); [done..|eauto].
Qed.
End properties.

(** [Manifest::parse_file] reports a file that cannot be read, or is not
    UTF-8, as an I/O error, and otherwise parses its content. *)
Theorem parse_file_spec `{FileSystem, PestEngine} cwd path :
  match fs_read cwd path with
  | inl e => parse_file cwd path = Err (ActionIOError e)
  | inr content =>
      if utf8_valid content then parse_file cwd path = parse_string content
      else parse_file cwd path = Err (ActionIOError (IoError "InvalidData"))
  end.
Proof.
  unfold parse_file, read_to_string. destruct (fs_read cwd path) as [e|content]; simpl; [done|].
  by destruct (utf8_valid content).
Qed.
