(* ===== verification/ManifestInv.v ===== *)
(** * ManifestInv: the invariant of manifests

    The maps of an entry hold each value under its own name, the properties that
    are kept apart never clash with the keywords of their action, and the digests
    of a file survive being printed.  Every operation of the library keeps this:
    adding actions and files, adding and removing facets, parsing. *)

From S2P Require Import Prelude RustStr World Peg Digest Payload Actions ManifestGrammar Manifest.

(** Each value of the map is stored under the name it carries. *)
Definition keyed {A} (name : A → string) (m : gmap string A) : Prop := map_Forall (λ k a, name a = k) m.

(** A map of properties that holds none of the keywords. *)
Definition properties_wf (ks : list string) (m : gmap string Property) : Prop :=
  keyed prop_key m ∧ ∀ k, existsb (String.eqb k) ks = true → m !! k = None.

(** A list of properties that holds neither keywords nor facets. *)
Definition others_wf (ks : list string) (ps : list Property) : Prop :=
  Forall (λ p, existsb (String.eqb (prop_key p)) ks = false ∧ is_facet (prop_key p) = false) ps.

(** A digest that [Display] and [FromStr] agree on. *)
Definition digest_wf (d : Digest_) : Prop := contains_char ":" (hash d) = false.
Definition payload_wf (p : Payload) : Prop :=
  hash (primary_identifier p) ≠ EmptyString ∧ digest_wf (primary_identifier p) ∧
  Forall digest_wf (additional_identifiers p).

Definition attr_wf (a : Attr) : Prop := properties_wf ["name"; "value"] (attr_properties a).
Definition dir_wf (d : Dir) : Prop := keyed facet_name (dir_facets d).
Definition file_wf (f : File) : Prop :=
  keyed facet_name (file_facets f) ∧ others_wf file_keys (file_properties f) ∧
  match file_payload f with Some p => payload_wf p | None => True end.
Definition dependency_wf (d : Dependency) : Prop :=
  keyed facet_name (dep_facets d) ∧
  others_wf ["fmri"; "type"; "predicate"; "root-image"] (dep_optional d).
Definition license_wf (l : License) : Prop := keyed prop_key (license_properties l).
Definition link_wf (l : Link) : Prop := properties_wf ["path"; "target"] (link_properties l).

Record manifest_wf (m : Manifest) : Prop := {
  wf_attributes : Forall attr_wf (attributes m);
  wf_directories : Forall dir_wf (directories m);
  wf_files : Forall file_wf (files m);
  wf_dependencies : Forall dependency_wf (dependencies m);
  wf_licenses : Forall license_wf (licenses m);
  wf_links : Forall link_wf (links m);
}.

(** ** Entries *)

Lemma property_map_wf ks kvs m : property_map ks kvs m → properties_wf ks m.
Proof.
  intros Hm. split.
  - intros k p. rewrite Hm. case_match; [done|]. destruct (last_of k kvs); [|done]. by intros [= <-].
  - intros k Hk. by rewrite Hm, Hk.
Qed.

Lemma facets_denote_keyed kvs m : facets_denote kvs m → keyed facet_name m.
Proof. intros Hm n f. rewrite Hm. destruct (last_of _ _); [|done]. by intros [= <-]. Qed.

Lemma others_are_wf ks kvs : others_wf ks (others ks kvs).
Proof.
  unfold others_wf, others. rewrite Forall_fmap, Forall_forall. by intros [k v] [? _]%list_elem_of_filter.
Qed.

Lemma keyed_insert {A} (name : A → string) m a :
  keyed name m → keyed name (<[name a := a]> m).
Proof. intros Hm. by apply map_Forall_insert_2. Qed.

Lemma keyed_delete {A} (name : A → string) m k : keyed name m → keyed name (delete k m).
Proof. apply map_Forall_delete. Qed.

(** The invariant through the interface: no operation of [FacetedAction] breaks
    it. *)
Lemma faceted_keyed `{FA : FacetedAction A, FL : !FacetedLaws A} (a : A) f :
  keyed facet_name (facets_of a) →
  keyed facet_name (facets_of (add_facet a f).1) ∧ keyed facet_name (facets_of (remove_facet a f).1).
Proof.
  intros Ha. destruct (add_facet_spec a f) as [-> _]. destruct (remove_facet_spec a f) as [-> _].
  split; [by apply keyed_insert|by apply keyed_delete].
Qed.

Lemma parses_wf vs ds : Forall2 parses vs ds → Forall digest_wf ds.
Proof.
  induction 1 as [|v d vs ds Hv _ IH]; constructor; [|done]. unfold parses in Hv.
  by eapply from_str_hash_no_colon.
Qed.

Lemma File_from_wf act f :
  act_payload act = Payload_default → File_from (E := ActionError) act = Ok f → file_wf f.
Proof.
  intros Hpl Hf. pose proof (File_conversion act) as Hc. rewrite Hf in Hc.
  destruct Hc as (d & ds & Hd & Hds & Hden & Hp).
  destruct Hden as (_ & _ & _ & _ & _ & _ & _ & _ & _ & Hprops & Hfacets).
  split_and!; [by eapply facets_denote_keyed|..].
  - rewrite Hprops. apply Forall_app. split; [|apply others_are_wf].
    unfold File_original_path. case_match; by repeat constructor.
  - rewrite Hp. unfold File_payload_of. destruct (is_empty (hash d)) eqn:He; [done|].
    unfold payload_wf. simpl. split_and!; [by intros Hn; rewrite Hn in He|..].
    + unfold File_primary in Hd. case_match; [by eapply from_str_hash_no_colon|].
      rewrite Hpl in Hd. by injection Hd as <-.
    + rewrite Hpl. simpl. by eapply parses_wf.
Qed.

(** ** Operations *)

Lemma manifest_wf_new : manifest_wf Manifest_new.
Proof. split; constructor. Qed.

Lemma add_action_wf m act m' :
  act_payload act = Payload_default → manifest_wf m → add_action m act = Ok m' → manifest_wf m'.
Proof.
  intros Hpl [H1 H2 H3 H4 H5 H6] Ha. destruct m as [at_ di fi de li ln]. unfold add_action in Ha. simpl in *.
  destruct (act_kind act); inv_outcome; try done; split; simpl; try done;
    apply Forall_app; (split; [done|]); rewrite Forall_singleton.
  - match goal with H : Attr_from act = Ok ?a |- _ => apply (Attr_conversion act) in H as (_ & _ & H) end.
    by eapply property_map_wf.
  - match goal with H : Dir_from act = Ok ?a |- _ => apply (Dir_conversion act) in H as (_ & _ & _ & _ & _ & _ & H) end.
    by eapply facets_denote_keyed.
  - by eapply File_from_wf.
  - match goal with H : Dependency_from act = Ok ?a |- _ =>
      apply (Dependency_conversion act) in H as (_ & _ & _ & _ & Ho & H) end.
    split; [by eapply facets_denote_keyed|]. rewrite Ho. apply others_are_wf.
  - destruct (License_conversion act) as [_ Hl]. by apply property_map_wf in Hl as [? _].
  - match goal with H : Link_from act = Ok ?a |- _ => apply (Link_conversion act) in H as (_ & _ & H) end.
    by eapply property_map_wf.
Qed.

Lemma add_actions_wf m acts m' :
  Forall (λ a, act_payload a = Payload_default) acts →
  manifest_wf m → foldM add_action m acts = Ok m' → manifest_wf m'.
Proof.
  intros Hacts. revert m. induction Hacts as [|act acts Ha _ IH]; intros m Hm; [by intros [= <-]|].
  cbn [foldM]. intros (m1 & H1 & H2)%outcome_bind_Ok. eapply IH; [|done]. by eapply add_action_wf.
Qed.

Lemma facets_wf :
  (∀ (d : Dir) f, dir_wf d → dir_wf (add_facet d f).1 ∧ dir_wf (remove_facet d f).1) ∧
  (∀ (x : File) f, file_wf x → file_wf (add_facet x f).1 ∧ file_wf (remove_facet x f).1) ∧
  (∀ (d : Dependency) f, dependency_wf d →
     dependency_wf (add_facet d f).1 ∧ dependency_wf (remove_facet d f).1).
Proof.
  split_and!; intros x f Hx.
  - exact (faceted_keyed (FL := Dir_faceted_laws) x f Hx).
  - destruct Hx as [Hx Ho]. by destruct (faceted_keyed (FL := File_faceted_laws) x f Hx).
  - destruct Hx as [Hx Ho]. by destruct (faceted_keyed (FL := Dependency_faceted_laws) x f Hx).
Qed.

(** A file read from the disk. *)
Lemma read_from_path_wf `{HashesLaws, FileSystem, ObjectCrate} cwd p f :
  read_from_path cwd p = Ok f → file_wf f.
Proof.
  unfold read_from_path, compute_payload. destruct (utf8_valid p); [|done].
  destruct (fs_read cwd p) as [e|content]; [done|]. simpl.
  destruct (object_parse content) as [[is_64 arch]|]; intros [= <-];
    (split_and!; [apply map_Forall_empty|constructor|]);
    (split_and!; simpl; [|by eapply hex_no_colon, Sha3_512_hex|constructor]);
    destruct (Sha3_512_hex content) as [_ Hl]; by intros Hn; rewrite Hn in Hl.
Qed.

(** C3. The invariant of manifests holds of the empty manifest, is kept by adding an
    action of the parser, by adding a file read from the disk and by adding or
    removing a facet of an entry, and so holds of every manifest that [Manifest::parse_string] returns: facets and properties
    are stored under their own names, no free property has the key of a field or
    of a facet, and a payload has a hash and digests that survive being printed
    and parsed. *)
Theorem manifest_invariant `{PE : PestEngine, !PestLaws, HashesLaws, FileSystem, ObjectCrate} :
  manifest_wf Manifest_new ∧
  (∀ m act m', act_payload act = Payload_default → manifest_wf m → add_action m act = Ok m' → manifest_wf m') ∧
  (∀ (d : Dir) f, dir_wf d → dir_wf (add_facet d f).1 ∧ dir_wf (remove_facet d f).1) ∧
  (∀ (x : File) f, file_wf x → file_wf (add_facet x f).1 ∧ file_wf (remove_facet x f).1) ∧
  (∀ (d : Dependency) f, dependency_wf d →
     dependency_wf (add_facet d f).1 ∧ dependency_wf (remove_facet d f).1) ∧
  (∀ m cwd p f, manifest_wf m → read_from_path cwd p = Ok f → manifest_wf (add_file f m)) ∧
  ∀ content m, parse_string content = Ok m → manifest_wf m.
Proof.
  split_and!.
  - apply manifest_wf_new.
  - apply add_action_wf.
  - apply facets_wf.
  - apply facets_wf.
  - apply facets_wf.
  - intros m cwd p f [] Hf. split; try done. apply Forall_app. split; [done|].
    rewrite Forall_singleton. by eapply read_from_path_wf.
  - intros content m Hm.
    destruct (pest_parse manifest_grammar Rule.manifest content) as [e|ps] eqn:Hp.
    { unfold parse_string in Hm. by rewrite Hp in Hm. }
    destruct (parse_string_actions _ _ Hp) as [Hf _]. rewrite Hf in Hm.
    eapply add_actions_wf; [|apply manifest_wf_new|exact Hm].
    unfold actions_of. by rewrite Forall_fmap, Forall_forall.
Qed.
