(* ===== verification/ManifestText.v ===== *)
(** * ManifestText: manifests as texts

    What the parser of manifests does with a whole text: the lines of a
    manifest are written from their names, arguments and properties, with blank
    lines and comments between them ([write_items]), and [parse_string] reads
    them back.  From it, every well-formed manifest is what some text parses to
    ([print_manifest]). *)

From S2P Require Import Prelude RustStr World Peg PegEngine PegText Digest Payload Actions ManifestGrammar Manifest.

(** ** Lines *)

(** A line: the name of the action, the argument after it, the properties. *)
Record action_line := ALine {
  al_name : string;
  al_arg : option string;
  al_props : list (string * string);
}.

(** The bytes of a value that needs no quotes. *)
Definition bare_byte (a : ascii) : bool :=
  negb (is_blank a || is_eol a || Ascii.eqb a BACKSLASH || Ascii.eqb a DQUOTE).
Definition bare (v : string) : bool :=
  first_byte (λ a, negb (Ascii.eqb a "#")) v && all_bytes bare_byte v.
Definition write_value (v : string) : string := if bare v then v else quoted v.

Definition write_prop (p : string * string) : string := p.1 +:+ String "=" (write_value p.2).
Fixpoint write_props (ps : list (string * string)) : string :=
  match ps with
  | [] => EmptyString
  | p :: ps => String " " (write_prop p +:+ write_props ps)
  end.
Definition write_line (l : action_line) : string :=
  al_name l +:+ match al_arg l with Some a => String " " a | None => EmptyString end
  +:+ write_props (al_props l) +:+ chr LF.

(** Blank lines and comments stand between the actions. *)
Inductive item := Blank | Comment (c : string) | Line (l : action_line).
Definition write_item (i : item) : string :=
  match i with
  | Blank => chr LF
  | Comment c => String "#" (c +:+ chr LF)
  | Line l => write_line l
  end.
Fixpoint write_items (its : list item) : string :=
  match its with [] => EmptyString | i :: its => write_item i +:+ write_items its end.

Definition action_lines (its : list item) : list action_line :=
  its ≫= λ i, match i with Line l => [l] | _ => [] end.

(** The names of properties. *)
Definition name_byte (a : ascii) : bool :=
  is_digit a || is_lower a || is_upper a || Ascii.eqb a "." || Ascii.eqb a "_"
  || Ascii.eqb a "-" || Ascii.eqb a "/".
Definition key_ok (k : string) : bool := negb (is_empty k) && all_bytes name_byte k.
(** The values: any text without quotes and backslashes. *)
Definition value_byte (a : ascii) : bool := negb (Ascii.eqb a DQUOTE || Ascii.eqb a BACKSLASH).
Definition value_ok (v : string) : bool := utf8_valid v && all_bytes value_byte v.
(** The arguments: one word that is neither a property nor a comment. *)
Definition arg_byte (a : ascii) : bool := bare_byte a && negb (Ascii.eqb a "=" || Ascii.eqb a "#").
Definition arg_ok (a : string) : bool := negb (is_empty a) && utf8_valid a && all_bytes arg_byte a.
Definition comment_ok (c : string) : bool := utf8_valid c && all_bytes (λ a, negb (is_eol a)) c.

Definition line_ok (l : action_line) : Prop :=
  al_name l ∈ action_names ∧
  match al_arg l with Some a => arg_ok a = true | None => al_props l ≠ [] end ∧
  Forall (λ p, key_ok p.1 = true ∧ value_ok p.2 = true) (al_props l).
Definition item_ok (i : item) : Prop :=
  match i with Blank => True | Comment c => comment_ok c = true | Line l => line_ok l end.

(** What a line says. *)
Definition action_of_line (l : action_line) : Action := {|
  act_kind := get_action_kind (al_name l);
  act_payload := Payload_default;
  act_payload_string := default "" (al_arg l);
  act_properties := (λ p, MkProperty p.1 p.2) <$> al_props l;
  act_facets := ∅;
|}.

(** ** Characters *)

(** The bytes at which white space does not start. *)
Definition no_space_byte (a : ascii) : bool := negb (is_blank a || Ascii.eqb a BACKSLASH).
(** The bytes at which a value without quotes ends. *)
Definition end_byte (a : ascii) : bool := is_blank a || is_eol a.
(** The bytes that stop a run of blanks and comments. *)
Definition plain_byte (a : ascii) : bool :=
  negb (is_blank a || Ascii.eqb a BACKSLASH || Ascii.eqb a "#").
Definition plain : string → Prop := starts plain_byte.

Lemma name_byte_ascii a : name_byte a = true → nat_of_ascii a < 128.
Proof.
  intros Ha. apply Nat.ltb_lt. revert a Ha. by_bytes.
Qed.

Lemma name_byte_plain : ∀ a, name_byte a = true → plain_byte a && negb (is_eol a) = true.
Proof. by_bytes. Qed.

Lemma one_ascii_first f a u : one_ascii f (String a u) = true → f a = true.
Proof. by destruct u. Qed.

Lemma remove_chars_value v : all_bytes value_byte v = true → remove_chars [DQUOTE; BACKSLASH] v = v.
Proof.
  intros Hv. apply remove_chars_id. by repeat constructor; apply (all_bytes_contains value_byte).
Qed.

Lemma bare_value v : bare v = true → all_bytes value_byte v = true.
Proof.
  intros [_ Hv]%andb_true_iff. eapply all_bytes_impl; [|exact Hv].
  by_bytes.
Qed.

Lemma remove_chars_write_value v :
  all_bytes value_byte v = true → remove_chars [DQUOTE; BACKSLASH] (write_value v) = v.
Proof.
  intros Hv. unfold write_value. destruct (bare v); [by apply remove_chars_value|].
  unfold quoted. change (String DQUOTE (v +:+ chr DQUOTE)) with (chr DQUOTE +:+ (v +:+ chr DQUOTE)).
  rewrite !remove_chars_app, (remove_chars_value v) by done. simpl. by rewrite str_app_nil_r.
Qed.

(** ** The pieces of a line *)

Section pieces.
Context (uppercase : string → bool) (full : string).
Local Abbreviation G := manifest_grammar.
Local Abbreviation peg := (peg uppercase G full).
Local Abbreviation eats := (eats uppercase G full).

Definition name_char : pexp Rule.t :=
  Alt (Prim (Class_ ASCII_ALPHANUMERIC))
    (Alt (Prim (Lit ".")) (Alt (Prim (Lit "_")) (Alt (Prim (Lit "-")) (Prim (Lit "/"))))).

Lemma eats_name_char a : name_byte a = true → eats name_char (chr a).
Proof.
  intros Ha s. change (chr a +:+ s) with (String a s).
  destruct (class_ok uppercase ASCII_ALPHANUMERIC (chr a)) eqn:E.
  { apply peg_alt_l, peg_class_ok; [by apply name_byte_ascii|done]. }
  apply peg_alt_r; [apply peg_class_fail; [by apply name_byte_ascii|done]|].
  simpl in E. unfold name_byte in Ha. rewrite E in Ha. simpl in Ha.
  repeat match type of Ha with _ || _ = true => apply orb_true_iff in Ha as [Ha|Ha] end;
    apply Ascii.eqb_eq in Ha as ->;
    repeat first [apply (peg_lit_ok _ _ _ _ (chr _))|apply peg_alt_l, (peg_lit_ok _ _ _ _ (chr _))
                 |apply peg_alt_r; [by apply peg_lit_other; left|]].
Qed.

(** No name goes on where another byte follows. *)
Lemma name_char_stop s : first_byte name_byte s = false → peg true (GMatch name_char) s None.
Proof.
  intros Hs. unfold name_char. destruct s as [|a s].
  { repeat apply peg_alt_none; first [by apply peg_prim_fail|by apply peg_lit_other; right]. }
  simpl in Hs. unfold name_byte in Hs. repeat rewrite orb_false_iff in Hs.
  destruct Hs as ((((((Hd & Hl) & Hu) & H1) & H2) & H3) & H4).
  apply peg_alt_none; [|repeat apply peg_alt_none; apply peg_lit_other; left; cbn [first_byte];
    by apply negb_true_iff].
  apply peg_prim_fail. unfold match_prim, next_char. cbn [mbind option_bind].
  destruct (class_ok _ _ _) eqn:E; [|done]. simpl in E.
  destruct (utf8_len a); [done|]. apply one_ascii_first in E. by rewrite Hd, Hl, Hu in E.
Qed.

Lemma runs_name k : all_bytes name_byte k = true → runs (eats name_char) k.
Proof.
  intros Hk. eapply runs_impl; [|by apply runs_ascii; [apply name_byte_ascii|exact Hk]].
  intros c (a & -> & Ha). by apply eats_name_char.
Qed.

Lemma property_name_token k s :
  key_ok k = true → first_byte name_byte s = false →
  peg false (GMatch (Ref Rule.property_name)) (k +:+ s) (Some ([Tok Rule.property_name k []], s)).
Proof.
  intros [Hne Hk]%andb_true_iff Hs. apply peg_ref_atomic; [done|].
  apply peg_plus_run; [by destruct k|by apply runs_name|by apply name_char_stop].
Qed.

(** A blank or the end of a line is no character of a value. *)
Lemma white_space_none s : starts no_space_byte s → peg true (GMatch (Ref Rule.WHITESPACE)) s None.
Proof.
  intros Hs. apply peg_ref_inside_fail. cbn [body g_rule G manifest_rule snd].
  apply peg_alt_none; [apply peg_seq_fail1|apply peg_alt_none]; apply peg_lit_other; by_starts.
Qed.

Lemma white_space_ok a s :
  a = " "%char ∨ a = TAB → peg true (GMatch (Ref Rule.WHITESPACE)) (String a s) (Some ([], s)).
Proof.
  intros Ha. apply (peg_ref_inside _ _ _ _ (chr a)). cbn.
  apply peg_alt_r; [apply peg_seq_fail1, peg_lit_other; left; by destruct Ha as [->| ->]|].
  destruct Ha as [->| ->]; [by apply peg_alt_l, (peg_lit_ok _ _ _ _ " ")|].
  apply peg_alt_r; [apply peg_lit_other; by left|]. by apply (peg_lit_ok _ _ _ _ (chr TAB)).
Qed.

Lemma unicode_character_stop s :
  first_byte end_byte s = true → peg true (GMatch (Ref Rule.unicode_character)) s None.
Proof.
  intros Hs. apply peg_ref_inside_fail, peg_seq_fail1.
  assert (∃ s', peg true (GMatch (Alt (Ref Rule.WHITESPACE) (Prim Newline))) s (Some ([], s'))) as [s' Hx];
    [|by eapply peg_not_fail].
  destruct s as [|a s]; [done|]. simpl in Hs. unfold end_byte, is_blank, is_eol in Hs.
  rewrite !orb_true_iff, !Ascii.eqb_eq in Hs. destruct Hs as [[->| ->]|[->| ->]].
  - exists s. apply peg_alt_l, white_space_ok; auto.
  - exists s. apply peg_alt_l, white_space_ok; auto.
  - exists s. apply peg_alt_r; [apply white_space_none; by left|apply peg_newline_LF].
  - destruct (match_prim uppercase full Newline (String CR s)) as [s'|] eqn:E;
      [|destruct s as [|b s]; simpl in E; [done|by case_match]].
    exists s'. apply peg_alt_r; [apply white_space_none; by left|by apply peg_prim_ok].
Qed.

Lemma eats_unicode_character c :
  whole_char c → first_byte bare_byte c = true → eats (Ref Rule.unicode_character) c.
Proof.
  intros Hc Hb. apply eats_ref, eats_not; [done|]. intros s. destruct c as [|a u]; [done|].
  assert (Hs : starts bare_byte (String a u +:+ s)) by by left.
  apply peg_alt_none; [apply white_space_none|apply peg_newline_other]; by_starts.
Qed.

Lemma bare_value_run v s :
  utf8_valid v = true → v ≠ EmptyString → all_bytes bare_byte v = true → first_byte end_byte s = true →
  peg true (GMatch (Plus (Ref Rule.unicode_character))) (v +:+ s) (Some ([], s)).
Proof.
  intros Hv Hne Hb Hs. apply peg_plus_run; [done| |by apply unicode_character_stop].
  remember v as w eqn:Hw in Hne. clear Hne Hw w.
  pose proof (utf8_runs _ _ Hv Hb) as Hr. clear Hv Hb.
  induction Hr as [|c cs Hc Hcb _ IH]; constructor; auto using eats_unicode_character.
Qed.

Lemma eats_quoted_character c :
  whole_char c → first_byte (λ a, negb (Ascii.eqb a DQUOTE)) c = true → eats (Ref Rule.quoted_character) c.
Proof.
  intros Hc Hb. apply eats_ref, eats_not; [done|]. intros s. apply peg_lit_other. left.
  destruct c as [|a u]; [done|]. by rewrite str_app_cons.
Qed.

Lemma quoted_string_ok v s :
  utf8_valid v = true → all_bytes value_byte v = true →
  peg true (GMatch (Ref Rule.quoted_string)) (quoted v +:+ s) (Some ([], s)).
Proof.
  intros Hv Hb. apply peg_ref_inside. unfold quoted.
  change (String DQUOTE (v +:+ chr DQUOTE)) with (chr DQUOTE +:+ (v +:+ chr DQUOTE)).
  rewrite <-!str_app_assoc. eapply peg_seq_atomic; [apply peg_lit_ok|].
  eapply peg_seq_atomic; [|apply (peg_lit_ok _ _ _ _ (chr DQUOTE))].
  apply peg_star_run.
  - assert (Hq : all_bytes (λ a, negb (Ascii.eqb a DQUOTE)) v = true).
    { eapply all_bytes_impl; [|exact Hb]. by_bytes. }
    pose proof (utf8_runs _ _ Hv Hq) as Hr. clear Hv Hb Hq.
    induction Hr as [|c cs Hc Hcb _ IH]; constructor; auto using eats_quoted_character.
  - apply peg_ref_inside_fail, peg_seq_fail1. eapply peg_not_fail, (peg_lit_ok _ _ _ _ (chr DQUOTE)).
Qed.

Lemma no_quote s : starts value_byte s → peg true (GMatch (Ref Rule.quoted_string)) s None.
Proof. intros Hs. apply peg_ref_inside_fail, peg_seq_fail1, peg_lit_other. by_starts. Qed.

Lemma value_body v s :
  value_ok v = true → first_byte end_byte s = true →
  peg true (GMatch (body G Rule.property_value)) (write_value v +:+ s) (Some ([], s)).
Proof.
  intros [Hv Hb]%andb_true_iff Hs. unfold write_value. destruct (bare v) eqn:Hbare.
  - apply andb_true_iff in Hbare as [Hh Hb']. assert (v ≠ EmptyString) by by destruct v.
    apply peg_alt_r; [|by apply bare_value_run]. by apply no_quote, starts_app.
  - apply peg_alt_l. by apply quoted_string_ok.
Qed.

(** ** What is skipped *)

Lemma no_comment s :
  starts (λ a, negb (Ascii.eqb a "#")) s → peg true (GMatch (Ref Rule.COMMENT)) s None.
Proof. intros Hs. apply peg_ref_inside_fail, peg_seq_fail1, peg_lit_other. by_starts. Qed.

Lemma skip_none s : plain s → peg false GSkip s (Some ([], s)).
Proof.
  unfold plain. intros Hs. apply (peg_skip_ok _ _ _ s []). cbn [skip_exp G g_ws g_comment].
  eapply peg_seq_atomic; [apply peg_star_stop|apply peg_star_stop, peg_seq_fail1].
  - apply white_space_none. by_starts.
  - apply no_comment. by_starts.
Qed.

Lemma skip_blank s : plain s → peg false GSkip (String " " s) (Some ([], s)).
Proof.
  unfold plain. intros Hs. apply (peg_skip_ok _ _ _ _ []). cbn [skip_exp G g_ws g_comment].
  eapply peg_seq_atomic.
  - apply (peg_star_run _ _ _ _ " " s); [|apply white_space_none; by_starts].
    apply (runs_cons _ " " ""); [done| |constructor]. intros t. apply white_space_ok. by left.
  - apply peg_star_stop, peg_seq_fail1, no_comment. by_starts.
Qed.

(** ** Properties *)

Definition prop_token (p : string * string) : token Rule.t :=
  Tok Rule.property (write_prop p)
    [Tok Rule.property_name p.1 []; Tok Rule.property_value (write_value p.2) []].
Definition prop_ok (p : string * string) : Prop := key_ok p.1 = true ∧ value_ok p.2 = true.

Lemma write_value_plain v s : plain (write_value v +:+ s).
Proof.
  unfold write_value. destruct (bare v) eqn:Hb; [|by left].
  apply andb_true_iff in Hb as [Hh Hb]. left. destruct v as [|a v]; [done|].
  rewrite str_app_cons. simpl in *. apply andb_true_iff in Hb as [Ha _].
  assert (bare_byte a && negb (Ascii.eqb a "#") = true) as Hx by by rewrite Ha. revert Hx. clear.
  revert a. by_bytes.
Qed.

Lemma key_plain k s : key_ok k = true → first_byte (λ a, plain_byte a && negb (is_eol a)) (k +:+ s) = true.
Proof.
  intros [Hne Hk]%andb_true_iff. destruct k as [|a k]; [done|]. rewrite str_app_cons. simpl in *.
  apply andb_true_iff in Hk as [Ha _]. by apply name_byte_plain.
Qed.

Lemma property_token p s :
  prop_ok p → first_byte end_byte s = true →
  peg false (GMatch (Ref Rule.property)) (write_prop p +:+ s) (Some ([prop_token p], s)).
Proof.
  intros [Hk Hv] Hs. apply peg_ref_normal; [done..|]. destruct p as [k v]. unfold write_prop. simpl in *.
  rewrite <-str_app_assoc, str_app_cons.
  apply (peg_seq_ok _ _ _ _ _ _ _ [Tok Rule.property_name k []] (String "=" (write_value v +:+ s)) []
    (String "=" (write_value v +:+ s)) [Tok Rule.property_value (write_value v) []]).
  - by apply property_name_token.
  - apply skip_none. by left.
  - apply (peg_seq_ok _ _ _ _ _ _ _ [] (write_value v +:+ s) [] (write_value v +:+ s) [_]).
    + apply (peg_lit_ok _ _ _ _ "=").
    + apply skip_none, write_value_plain.
    + apply peg_ref_atomic; [done|by apply value_body].
Qed.

(** Where no property starts. *)
Lemma property_none s : first_byte name_byte s = false → peg false (GMatch (Ref Rule.property)) s None.
Proof.
  intros Hs. apply peg_ref_normal_fail; [done..|]. apply peg_seq_fail1, peg_ref_atomic_fail; [done|].
  by apply peg_seq_fail1, name_char_stop.
Qed.

Lemma write_props_end ps t : first_byte end_byte (write_props ps +:+ String LF t) = true.
Proof. by destruct ps. Qed.

(** The properties after the first part of a line. *)
Lemma tail_props ps t :
  Forall prop_ok ps →
  peg false (GTail (Ref Rule.property)) (write_props ps +:+ String LF t)
    (Some (prop_token <$> ps, String LF t)).
Proof.
  induction 1 as [|p ps Hp _ IH].
  - apply (peg_tail_stop _ _ _ _ _ _ [] (String LF t)); [apply skip_none; by left|by apply property_none].
  - cbn [write_props]. rewrite str_app_cons, <-str_app_assoc.
    apply (peg_tail_go _ _ _ _ _ _ [] (write_prop p +:+ (write_props ps +:+ String LF t)) [prop_token p]
      (write_props ps +:+ String LF t)); [|by apply property_token; [|apply write_props_end]|done].
    apply skip_blank. unfold write_prop. rewrite <-str_app_assoc. eapply starts_imp; [left; by apply key_plain, Hp|].
    by_bytes.
Qed.

Lemma skip_star_props ps t :
  Forall prop_ok ps →
  ∃ s, peg false GSkip (write_props ps +:+ String LF t) (Some ([], s)) ∧
    peg false (GMatch (Star (Ref Rule.property))) s (Some (prop_token <$> ps, String LF t)).
Proof.
  intros Hps. destruct Hps as [|p ps Hp Hps].
  - exists (String LF t). split; [apply skip_none; by left|]. by apply peg_star_stop, property_none.
  - exists (write_prop p +:+ (write_props ps +:+ String LF t)). cbn [write_props].
    rewrite str_app_cons, <-str_app_assoc. split.
    + apply skip_blank. unfold write_prop. rewrite <-str_app_assoc. eapply starts_imp; [left; by apply key_plain, Hp|].
      by_bytes.
    + apply (peg_star_go _ _ _ _ _ _ [prop_token p] (write_props ps +:+ String LF t));
        [by apply property_token; [|apply write_props_end]|by apply tail_props].
Qed.

(** ** Arguments *)

(** No property starts at an argument: after the longest name there is no equals
    sign. *)
Lemma arg_no_property a s :
  arg_ok a = true →
  (∃ s', peg false GSkip s (Some ([], s')) ∧ first_byte (λ b, negb (Ascii.eqb b "=")) s' = true) →
  first_byte name_byte s = false →
  peg false (GMatch (Ref Rule.property)) (a +:+ s) None.
Proof.
  intros Ha (s' & Hskip & Hs') Hs. apply andb_true_iff in Ha as [[Hne _]%andb_true_iff Ha].
  destruct (first_byte name_byte (a +:+ s)) eqn:Hn; [|by apply property_none].
  apply peg_ref_normal_fail; [done..|].
  (* the longest name *)
  assert (∃ k t, a = k +:+ t ∧ all_bytes name_byte k = true ∧ first_byte name_byte t = false) as (k & t & -> & Hk & Ht).
  { clear. induction a as [|b a (k & t & -> & Hk & Ht)]; [by exists "", ""|].
    destruct (name_byte b) eqn:Hb.
    - exists (String b k), t. split_and!; [done| |done]. simpl. by rewrite Hb.
    - by exists "", (String b (k +:+ t)). }
  rewrite all_bytes_app in Ha. apply andb_true_iff in Ha as [_ Ha].
  assert (Hkne : negb (is_empty k) = true).
  { destruct k as [|b k]; [|done]. rewrite str_app_nil_l in Hn. destruct t; simpl in *; congruence. }
  rewrite <-str_app_assoc.
  assert (Hname : peg false (GMatch (Ref Rule.property_name)) (k +:+ (t +:+ s)) (Some ([Tok Rule.property_name k []], t +:+ s))).
  { apply property_name_token; [by unfold key_ok; rewrite Hkne|]. by destruct t. }
  destruct t as [|b t].
  - eapply peg_seq_fail2; [exact Hname|exact Hskip|]. apply peg_seq_fail1, peg_lit_other. by left.
  - assert (Hb : starts arg_byte (String b t +:+ s)).
    { left. simpl in *. by apply andb_true_iff in Ha as [-> _]. }
    eapply peg_seq_fail2; [exact Hname|apply skip_none; unfold plain; by_starts|].
    apply peg_seq_fail1, peg_lit_other. by_starts.
Qed.

Lemma payload_token a s :
  arg_ok a = true → first_byte end_byte s = true →
  peg false (GMatch (Ref Rule.payload)) (a +:+ s) (Some ([Tok Rule.payload a []], s)).
Proof.
  intros [[Hne Hv]%andb_true_iff Ha]%andb_true_iff Hs. apply peg_ref_atomic; [done|].
  apply peg_ref_inside. assert (a ≠ EmptyString) by by destruct a.
  apply peg_alt_r; [apply no_quote; eapply starts_imp; [by apply starts_app|by_bytes]|].
  apply bare_value_run; [done..| |done]. eapply all_bytes_impl; [|exact Ha]. by_bytes.
Qed.

Lemma arg_plain a s : arg_ok a = true → plain (a +:+ s).
Proof.
  intros [[Hne Hv]%andb_true_iff Ha]%andb_true_iff. assert (a ≠ EmptyString) by by destruct a.
  eapply starts_imp; [by apply starts_app|by_bytes].
Qed.

(** ** Lines *)

Definition line_tokens (l : action_line) : list (token Rule.t) :=
  Tok Rule.action_name (al_name l) []
  :: match al_arg l with Some a => [Tok Rule.payload a []] | None => [] end
  ++ (prop_token <$> al_props l).
Definition line_token (l : action_line) : token Rule.t :=
  Tok Rule.action (write_line l) (line_tokens l).

Lemma action_name_token n s :
  n ∈ action_names →
  peg false (GMatch (Ref Rule.action_name)) (n +:+ s) (Some ([Tok Rule.action_name n []], s)).
Proof.
  intros Hn. apply peg_ref_atomic; [done|]. unfold action_names in Hn.
  repeat (apply elem_of_cons in Hn as [->|Hn]; [
    repeat first [apply peg_alt_l, peg_ref_inside, peg_lit_ok|apply peg_ref_inside, peg_lit_ok
                 |apply peg_alt_r; [by apply peg_ref_inside_fail, peg_lit_fail|]]|]).
  by apply not_elem_of_nil in Hn.
Qed.

Lemma action_name_plain n s : n ∈ action_names → first_byte is_lower (n +:+ s) = true.
Proof.
  intros Hn. unfold action_names in Hn.
  repeat (apply elem_of_cons in Hn as [->|Hn]; [done|]). by apply not_elem_of_nil in Hn.
Qed.

(** The properties of a line and its end. *)
Lemma rest_of_line ps t :
  Forall prop_ok ps →
  ∃ s, peg false GSkip (write_props ps +:+ String LF t) (Some ([], s)) ∧
    peg false (GMatch (Seq (Star (Ref Rule.property)) (Alt (Prim Newline) (Ref Rule.EOI)))) s
      (Some (prop_token <$> ps, t)).
Proof.
  intros Hps. destruct (skip_star_props ps t Hps) as (s & Hskip & Hstar). exists s. split; [done|].
  rewrite <-(app_nil_r (prop_token <$> ps)).
  eapply (peg_seq_ok _ _ _ _ _ _ _ (prop_token <$> ps) _ [] (String LF t) []); [exact Hstar|..].
  - apply skip_none. by left.
  - apply peg_alt_l, peg_newline_LF.
Qed.

Lemma action_token l t :
  line_ok l → peg false (GMatch (Ref Rule.action)) (write_line l +:+ t) (Some ([line_token l], t)).
Proof.
  intros (Hn & Harg & Hps). apply peg_ref_normal; [done..|]. destruct l as [n arg ps]. simpl in *.
  unfold write_line, line_tokens. simpl. rewrite <-!str_app_assoc.
  change (chr LF +:+ t) with (String LF t). destruct arg as [a|].
  - rewrite str_app_cons. destruct (rest_of_line ps t Hps) as (s & Hskip & Hrest).
    eapply (peg_seq_ok _ _ _ _ _ _ _ [Tok Rule.action_name n []] _ []
      (a +:+ (write_props ps +:+ String LF t))); [by apply action_name_token|by apply skip_blank, arg_plain|].
    apply (peg_seq_ok _ _ _ _ _ _ _ [Tok Rule.payload a []] (write_props ps +:+ String LF t) [] s); [|done..].
    apply peg_alt_r; [|by apply payload_token; [|apply write_props_end]].
    apply arg_no_property; [done| |by destruct ps].
    destruct Hps as [|p ps [Hk _] _].
    + exists (String LF t). split; [|done]. apply skip_none. by left.
    + exists (write_prop p +:+ (write_props ps +:+ String LF t)). cbn [write_props].
      rewrite str_app_cons, <-str_app_assoc. unfold write_prop. rewrite <-str_app_assoc.
      pose proof (key_plain p.1 (String "=" (write_value p.2) +:+ (write_props ps +:+ String LF t)) Hk) as Hkp.
      split; [apply skip_blank; unfold plain; by_starts|].
      apply andb_true_iff in Hk as [Hne Hk]. destruct (p.1) as [|b k]; [done|]. rewrite str_app_cons. simpl in *.
      apply andb_true_iff in Hk as [Hb _]. clear Hkp Hne; revert b Hb; by_bytes.
  - destruct Hps as [|p ps Hp Hps]; [done|]. destruct (rest_of_line ps t Hps) as (s & Hskip & Hrest).
    cbn [write_props]. rewrite str_app_nil_l, str_app_cons, <-str_app_assoc.
    eapply (peg_seq_ok _ _ _ _ _ _ _ [Tok Rule.action_name n []] _ []
      (write_prop p +:+ (write_props ps +:+ String LF t))); [by apply action_name_token|..].
    + apply skip_blank. unfold write_prop, plain. rewrite <-str_app_assoc.
      pose proof (key_plain p.1 (String "=" (write_value p.2) +:+ (write_props ps +:+ String LF t)) (proj1 Hp)).
      by_starts.
    + apply (peg_seq_ok _ _ _ _ _ _ _ [prop_token p] (write_props ps +:+ String LF t) [] s); [|done..].
      by apply peg_alt_l, property_token; [|apply write_props_end].
Qed.

(** ** Blank lines and comments *)

Definition is_comment (i : item) : bool := match i with Comment _ => true | _ => false end.

(** Nothing but lines and blank lines stops what is skipped. *)
Fixpoint drop_comments (its : list item) : list item :=
  match its with Comment _ :: its => drop_comments its | _ => its end.

Lemma comment_text c t :
  comment_ok c = true →
  peg true (GMatch (Ref Rule.COMMENT)) (write_item (Comment c) +:+ t) (Some ([], t)).
Proof.
  intros [Hv Hc]%andb_true_iff. apply peg_ref_inside. cbn [write_item].
  change (String "#" (c +:+ chr LF)) with ("#" +:+ (c +:+ chr LF)). rewrite <-!str_app_assoc.
  eapply peg_seq_atomic; [apply peg_lit_ok|]. change (chr LF +:+ t) with (String LF t).
  eapply peg_seq_atomic; [by apply peg_line_run|apply peg_newline_LF].
Qed.

Lemma write_items_space its : Forall item_ok its → starts no_space_byte (write_items its).
Proof.
  intros Hits. destruct Hits as [|[|c|l] its Hi _]; [by right|by left..|]. cbn [write_items write_item].
  unfold write_line. rewrite <-str_app_assoc.
  eapply starts_imp; [left; by apply action_name_plain, Hi|by_bytes].
Qed.

Lemma write_items_comment its :
  Forall item_ok its → drop_comments its = its → starts (λ a, negb (Ascii.eqb a "#")) (write_items its).
Proof.
  intros Hits Hd. destruct Hits as [|[|c|l] its Hi _]; [by right|by left|..].
  - apply (f_equal length) in Hd. simpl in Hd.
    assert (∀ its, length (drop_comments its) ≤ length its) as Hle.
    { clear. induction its as [|[] its IH]; simpl; lia. }
    specialize (Hle its). lia.
  - cbn [write_items write_item]. unfold write_line. rewrite <-str_app_assoc.
    eapply starts_imp; [left; by apply action_name_plain, Hi|by_bytes].
Qed.

Local Abbreviation comment_and_space := (Seq (Ref Rule.COMMENT) (Star (Ref Rule.WHITESPACE))).

Lemma tail_comments its :
  Forall item_ok its →
  peg true (GTail comment_and_space) (write_items its) (Some ([], write_items (drop_comments its))).
Proof.
  induction 1 as [|i its Hi Hits IH].
  - apply (peg_tail_stop _ _ _ _ _ _ [] EmptyString); [apply peg_skip_atomic|].
    by apply peg_seq_fail1, no_comment; right.
  - destruct (is_comment i) eqn:Hc.
    + destruct i as [|c|]; try done. cbn [write_items drop_comments].
      eapply (peg_tail_go _ _ _ _ _ _ [] _ [] (write_items its)); [apply peg_skip_atomic| |exact IH].
      eapply peg_seq_atomic; [by apply comment_text|].
      by apply peg_star_stop, white_space_none, write_items_space.
    + assert (drop_comments (i :: its) = i :: its) as -> by by destruct i.
      eapply (peg_tail_stop _ _ _ _ _ _ []); [apply peg_skip_atomic|].
      apply peg_seq_fail1, no_comment, write_items_comment; [by constructor|by destruct i].
Qed.

Lemma skip_items its :
  Forall item_ok its → peg false GSkip (write_items its) (Some ([], write_items (drop_comments its))).
Proof.
  intros Hits. apply (peg_skip_ok _ _ _ _ []). cbn [skip_exp G g_ws g_comment].
  eapply peg_seq_atomic; [by apply peg_star_stop, white_space_none, write_items_space|].
  destruct Hits as [|i its Hi Hits]; [by apply peg_star_stop, peg_seq_fail1, no_comment; right|].
  destruct (is_comment i) eqn:Hc.
  - destruct i as [|c|]; try done. cbn [write_items drop_comments].
    apply (peg_star_go _ _ _ _ _ _ [] (write_items its)); [|by apply tail_comments].
    eapply peg_seq_atomic; [by apply comment_text|].
    by apply peg_star_stop, white_space_none, write_items_space.
  - assert (drop_comments (i :: its) = i :: its) as -> by by destruct i.
    apply peg_star_stop, peg_seq_fail1, no_comment, write_items_comment; [by constructor|by destruct i].
Qed.

(** ** Whole manifests *)

Local Abbreviation item_exp := (Alt (Prim Newline) (Alt (Ref Rule.transform) (Ref Rule.action))).

Lemma action_lines_cons i its : action_lines (i :: its) = action_lines [i] ++ action_lines its.
Proof. unfold action_lines. simpl. by rewrite app_nil_r. Qed.

Lemma action_lines_drop its : action_lines (drop_comments its) = action_lines its.
Proof. induction its as [|[] its IH]; [done..|by cbn [drop_comments]; rewrite IH|done]. Qed.

Lemma drop_comments_ok its : Forall item_ok its → Forall item_ok (drop_comments its).
Proof. induction 1 as [|[] its]; simpl; auto. Qed.

Lemma drop_comments_nil its : drop_comments its = [] → Forall is_comment its.
Proof. induction its as [|[] its IH]; intros H; try done; constructor; auto. Qed.

Lemma drop_comments_head its i r : drop_comments its = i :: r → is_comment i = false ∧ length r < length its.
Proof.
  induction its as [|[] its IH]; simpl; intros H; try done; simplify_eq; simpl; [split; [done|lia]| |split; [done|lia]].
  destruct (IH H). split; [done|lia].
Qed.

Lemma item_match i t :
  item_ok i → is_comment i = false →
  peg false (GMatch item_exp) (write_item i +:+ t) (Some (line_token <$> action_lines [i], t)).
Proof.
  intros Hi Hc. destruct i as [|c|l]; try done.
  - apply peg_alt_l, peg_newline_LF.
  - assert (Hs : starts is_lower (write_line l +:+ t)).
    { left. unfold write_line. rewrite <-str_app_assoc. by apply action_name_plain, Hi. }
    apply peg_alt_r; [apply peg_newline_other; by_starts|].
    apply peg_alt_r; [|by apply action_token]. apply peg_ref_normal_fail; [done..|].
    apply peg_seq_fail1, peg_lit_other. by_starts.
Qed.

Lemma item_end : peg false (GMatch item_exp) EmptyString None.
Proof.
  apply peg_alt_none; [apply peg_newline_other; by right|].
  apply peg_alt_none; (apply peg_ref_normal_fail; [done..|]).
  - apply peg_seq_fail1, peg_lit_other. by right.
  - apply peg_seq_fail1, peg_ref_atomic_fail; [done|].
    repeat (apply peg_alt_none; [apply peg_ref_inside_fail, peg_lit_other; by right|]).
    apply peg_ref_inside_fail, peg_lit_other. by right.
Qed.

(** The items after the first: comments at the end are left. *)
Lemma tail_items its :
  Forall item_ok its →
  ∃ rest, Forall item_ok rest ∧ drop_comments rest = [] ∧
    peg false (GTail item_exp) (write_items its)
      (Some (line_token <$> action_lines its, write_items rest)).
Proof.
  remember (length its) as n eqn:Hn. revert its Hn. induction (lt_wf n) as [n _ IH].
  intros its -> Hits. pose proof (skip_items its Hits) as Hskip.
  pose proof (drop_comments_ok its Hits) as Hd. destruct (drop_comments its) as [|i r] eqn:E.
  - exists its. split_and!; [done..|]. rewrite <-action_lines_drop, E.
    eapply peg_tail_stop; [exact Hskip|apply item_end].
  - apply drop_comments_head in E as Hlen. destruct Hlen as [Hi Hlen].
    apply Forall_cons in Hd as [Hiok Hr]. destruct (IH _ Hlen r eq_refl Hr) as (rest & ? & ? & Hrest).
    exists rest. split_and!; [done..|]. rewrite <-action_lines_drop, E, action_lines_cons, fmap_app.
    eapply peg_tail_go; [exact Hskip|by apply item_match|exact Hrest].
Qed.

Lemma star_items its :
  Forall item_ok its →
  ∃ rest, Forall item_ok rest ∧ drop_comments rest = [] ∧
    peg false (GMatch (Star item_exp)) (write_items (drop_comments its))
      (Some (line_token <$> action_lines its, write_items rest)).
Proof.
  intros Hits. apply drop_comments_ok in Hits as Hd. destruct (drop_comments its) as [|i r] eqn:E.
  - exists []. split_and!; [done..|]. rewrite <-action_lines_drop, E. apply peg_star_stop, item_end.
  - apply drop_comments_head in E as Hi. destruct Hi as [Hi _]. apply Forall_cons in Hd as [Hiok Hr].
    destruct (tail_items r Hr) as (rest & ? & ? & Hrest). exists rest. split_and!; [done..|].
    rewrite <-action_lines_drop, E, action_lines_cons, fmap_app.
    eapply peg_star_go; [by apply item_match|exact Hrest].
Qed.
End pieces.

(** The token tree of the items. *)
Definition manifest_token (its : list item) : token Rule.t :=
  Tok Rule.manifest (write_items its)
    ((line_token <$> action_lines its) ++ [Tok Rule.EOI EmptyString []]).

Lemma manifest_derivation uppercase its :
  Forall item_ok its → drop_comments its ≠ [] →
  peg uppercase manifest_grammar (write_items its) false (GMatch (Ref Rule.manifest)) (write_items its)
    (Some ([manifest_token its], EmptyString)).
Proof.
  intros Hits Hne. rewrite <-(str_app_nil_r (write_items its)) at 2.
  apply peg_ref_normal; [done..|]. rewrite str_app_nil_r.
  pose proof (drop_comments_ok its Hits) as Hd. destruct (drop_comments its) as [|i r] eqn:E; [done|].
  apply Forall_cons in Hd as [Hiok Hr].
  destruct (star_items uppercase (write_items its) r Hr) as (rest & Hrok & Hrest & Hstar).
  pose proof (skip_items uppercase (write_items its) its Hits) as Hskip. rewrite E in Hskip.
  pose proof (skip_items uppercase (write_items its) rest Hrok) as Hlast. rewrite Hrest in Hlast.
  eapply (peg_seq_ok _ _ _ _ _ _ _ []).
  { apply peg_prim_ok. unfold match_prim. by rewrite String.eqb_refl. }
  { exact Hskip. }
  eapply peg_seq_ok; [|exact Hlast|].
  - rewrite <-action_lines_drop, E, action_lines_cons, fmap_app.
    apply drop_comments_head in E as Hi. destruct Hi as [Hi _].
    eapply peg_seq_ok; [by apply item_match|by apply skip_items|].
    exact Hstar.
  - apply (peg_ref_normal _ _ _ _ EmptyString); [done..|]. by apply peg_prim_ok.
Qed.

(** Blank lines and comments alone are no manifest. *)
Lemma manifest_comments uppercase its :
  Forall item_ok its → drop_comments its = [] →
  peg uppercase manifest_grammar (write_items its) false (GMatch (Ref Rule.manifest)) (write_items its) None.
Proof.
  intros Hits Hd. apply peg_ref_normal_fail; [done..|].
  pose proof (skip_items uppercase (write_items its) its Hits) as Hskip. rewrite Hd in Hskip.
  eapply peg_seq_fail2; [|exact Hskip|].
  - apply peg_prim_ok. unfold match_prim. by rewrite String.eqb_refl.
  - apply peg_seq_fail1, peg_seq_fail1, item_end.
Qed.

(** ** What the tokens of a line say *)

Lemma filter_props (ps : list (string * string)) :
  filter (λ c, as_rule c = Rule.property) (prop_token <$> ps) = prop_token <$> ps.
Proof. by induction ps as [|p ps IH]; [|rewrite fmap_cons, filter_cons, decide_True, IH]. Qed.

Lemma filter_props_payload (ps : list (string * string)) :
  filter (λ c, as_rule c = Rule.payload) (prop_token <$> ps) = [].
Proof. by induction ps as [|p ps IH]; [|rewrite fmap_cons, filter_cons, decide_False, IH]. Qed.

Lemma property_of_token p : prop_ok p → property_of (prop_token p) = MkProperty p.1 p.2.
Proof. intros [_ [_ Hv]%andb_true_iff]. unfold property_of. simpl. by rewrite remove_chars_write_value. Qed.

Lemma action_of_line_token l : line_ok l → action_of (line_token l) = action_of_line l.
Proof.
  intros (_ & _ & Hps). destruct l as [n arg ps]. unfold action_of, action_of_line, line_token, line_tokens.
  cbn [into_inner al_name al_arg al_props] in *.
  assert (Hmap : property_of <$> (prop_token <$> ps) = (λ p, MkProperty p.1 p.2) <$> ps).
  { induction Hps as [|p ps Hp _ IH]; [done|]. rewrite !fmap_cons, IH. by rewrite property_of_token. }
  destruct arg as [a|]; cbn [app]; rewrite !filter_cons, filter_props, filter_props_payload; simpl;
    by rewrite Hmap.
Qed.

Lemma actions_of_manifest its :
  Forall item_ok its → actions_of [manifest_token its] = action_of_line <$> action_lines its.
Proof.
  intros Hits. unfold actions_of, manifest_token. simpl. rewrite app_nil_r, filter_app.
  rewrite filter_cons, decide_False, filter_nil, app_nil_r by done.
  assert (Hl : Forall line_ok (action_lines its)).
  { induction Hits as [|i its Hi _ IH]; [constructor|]. rewrite action_lines_cons, Forall_app.
    split; [|done]. destruct i as [|c|l]; [exact (Forall_nil_2 _)..|by apply Forall_singleton]. }
  induction Hl as [|l ls Hl _ IH]; [done|].
  rewrite !fmap_cons, filter_cons, decide_True, fmap_cons, IH by done. by rewrite action_of_line_token.
Qed.

Section text.
Context `{PE : PestEngine, !PestLaws}.

Lemma pest_parse_items its :
  Forall item_ok its →
  if bool_decide (drop_comments its = []) then ∃ e, pest_parse manifest_grammar Rule.manifest (write_items its) = inl e
  else pest_parse manifest_grammar Rule.manifest (write_items its) = inr [manifest_token its].
Proof.
  intros Hits. case_bool_decide as Hd.
  - by apply pest_parse_of_peg_none, manifest_comments.
  - by eapply pest_parse_of_peg, manifest_derivation.
Qed.

Lemma parse_items its :
  Forall item_ok its → drop_comments its ≠ [] →
  parse_string (write_items its) =
    foldM add_action Manifest_new (action_of_line <$> action_lines its).
Proof.
  intros Hits Hd. pose proof (pest_parse_items its Hits) as Hp. rewrite bool_decide_eq_false_2 in Hp by done.
  destruct (parse_string_actions _ _ Hp) as [-> _]. by rewrite actions_of_manifest.
Qed.

(** C2. The text of a manifest means what its lines say: written lines, with
    blank lines and comments between them, are parsed to one action per line,
    with the name, the argument and the properties that were written (with or
    without quotes), in their order, and these are added to the empty manifest. A
    text of comments only is a parser error. *)
Theorem parse_string_written its :
  Forall item_ok its →
  if bool_decide (drop_comments its = []) then ∃ e, parse_string (write_items its) = Err (ParserError e)
  else parse_string (write_items its) =
    foldM add_action Manifest_new (action_of_line <$> action_lines its).
Proof.
  intros Hits. case_bool_decide as Hd; [|by apply parse_items].
  pose proof (pest_parse_items its Hits) as Hp. rewrite bool_decide_eq_true_2 in Hp by done.
  destruct Hp as [e He]. exists e. unfold parse_string. by rewrite He.
Qed.
End text.
