(* ===== verification/ManifestPrint.v ===== *)
(** * ManifestPrint: a text for every manifest

    [print_manifest] writes each entry of a manifest as one line: its fields as
    properties, its maps as properties in the order of their enumeration, the
    digests of a file in the form [Display] prints.  Reading the text gives the
    manifest back: the conversions [From<Action>] lose nothing of a manifest that
    can be written, and every such manifest is parsed from some text. *)

From S2P Require Import Prelude RustStr World Peg PegEngine PegText Digest Payload Actions ManifestGrammar Manifest ManifestText.

(** ** Printing *)

(** The properties of a map, and its facets. *)
Definition props_of_map (m : gmap string Property) : list (string * string) :=
  (λ kp, (kp.1, prop_value kp.2)) <$> map_to_list m.
Definition props_of_facets (m : gmap string Facet) : list (string * string) :=
  (λ kf, ("facet." +:+ kf.1, facet_value kf.2)) <$> map_to_list m.
Definition kv_of_prop (p : Property) : string * string := (prop_key p, prop_value p).
Definition write_bool (b : bool) : string := if b then "true" else "false".

Definition attr_line (a : Attr) : action_line :=
  ALine "set" None
    (("name", attr_key a) :: ((λ v, ("value", v)) <$> attr_values a)
     ++ props_of_map (attr_properties a)).
Definition dir_line (d : Dir) : action_line :=
  ALine "dir" None
    ([("path", dir_path d); ("group", dir_group d); ("owner", dir_owner d); ("mode", dir_mode d);
      ("revert-tag", dir_revert_tag d); ("salvage-from", dir_salvage_from d)]
     ++ props_of_facets (dir_facets d)).
Definition digest_props (ds : list Digest_) : list (string * string) :=
  (λ d, ("pkg.content-hash", to_string d)) <$> ds.
Definition file_line (f : File) : action_line :=
  ALine "file" (to_string ∘ primary_identifier <$> file_payload f)
    ([("path", file_path f); ("group", file_group f); ("owner", file_owner f); ("mode", file_mode f);
      ("preserve", write_bool (file_preserve f)); ("overlay", write_bool (file_overlay f));
      ("original_name", file_original_name f); ("revert-tag", file_revert_tag f);
      ("sysattr", file_sys_attr f)]
     ++ digest_props (default [] (additional_identifiers <$> file_payload f))
     ++ (kv_of_prop <$> file_properties f) ++ props_of_facets (file_facets f)).
Definition dependency_line (d : Dependency) : action_line :=
  ALine "depend" None
    ([("fmri", dep_fmri d); ("type", dep_type d); ("predicate", dep_predicate d);
      ("root-image", dep_root_image d)]
     ++ (kv_of_prop <$> dep_optional d) ++ props_of_facets (dep_facets d)).
Definition license_line (l : License) : action_line :=
  ALine "license" (if is_empty (license_payload l) then None else Some (license_payload l))
    (props_of_map (license_properties l)).
Definition link_line (l : Link) : action_line :=
  ALine "link" None
    ([("path", link_path l); ("target", link_target l)] ++ props_of_map (link_properties l)).

Definition manifest_lines (m : Manifest) : list action_line :=
  (attr_line <$> attributes m) ++ (dir_line <$> directories m) ++ (file_line <$> files m)
  ++ (dependency_line <$> dependencies m) ++ (license_line <$> licenses m) ++ (link_line <$> links m).
Definition print_manifest (m : Manifest) : string := write_items (Line <$> manifest_lines m).

(** ** What can be written *)

(** A property that is no keyword of its action. *)
Definition free_key (keywords : list string) (k : string) : Prop := key_ok k = true ∧ k ∉ keywords.
Definition map_ok (keywords : list string) (m : gmap string Property) : Prop :=
  map_Forall (λ k p, prop_key p = k ∧ free_key keywords k ∧ value_ok (prop_value p) = true) m.
Definition facets_ok (m : gmap string Facet) : Prop :=
  map_Forall (λ n f, facet_name f = n ∧ all_bytes name_byte n = true ∧ value_ok (facet_value f) = true) m.
Definition props_ok (keywords : list string) (ps : list Property) : Prop :=
  Forall (λ p, free_key keywords (prop_key p) ∧ is_facet (prop_key p) = false ∧ value_ok (prop_value p) = true) ps.
Definition hash_byte (a : ascii) : bool :=
  arg_byte a && negb (Ascii.eqb a ":" || Ascii.eqb a "/").
Definition digest_ok (d : Digest_) : Prop := utf8_valid (hash d) = true ∧ all_bytes hash_byte (hash d) = true.

Definition attr_ok (a : Attr) : Prop :=
  value_ok (attr_key a) = true ∧ Forall (λ v, value_ok v = true) (attr_values a) ∧
  map_ok ["name"; "value"] (attr_properties a).
Definition dir_ok (d : Dir) : Prop :=
  Forall (λ v, value_ok v = true)
    [dir_path d; dir_group d; dir_owner d; dir_mode d; dir_revert_tag d; dir_salvage_from d] ∧
  facets_ok (dir_facets d).
Definition payload_ok (p : Payload) : Prop :=
  p = MkPayload (primary_identifier p) (additional_identifiers p) PayloadCompressionAlgorithm_default
        PayloadBits_default PayloadArchitecture_default ∧
  hash (primary_identifier p) ≠ EmptyString ∧ digest_ok (primary_identifier p) ∧
  Forall digest_ok (additional_identifiers p).
Definition file_ok (f : File) : Prop :=
  Forall (λ v, value_ok v = true)
    [file_path f; file_group f; file_owner f; file_mode f; file_original_name f; file_revert_tag f;
     file_sys_attr f] ∧
  match file_payload f with Some p => payload_ok p | None => True end ∧
  props_ok file_keys (file_properties f) ∧ facets_ok (file_facets f).
Definition dependency_ok (d : Dependency) : Prop :=
  Forall (λ v, value_ok v = true) [dep_fmri d; dep_type d; dep_predicate d; dep_root_image d] ∧
  props_ok ["fmri"; "type"; "predicate"; "root-image"] (dep_optional d) ∧ facets_ok (dep_facets d).
Definition license_ok (l : License) : Prop :=
  (license_payload l = EmptyString ∧ license_properties l ≠ ∅ ∨ arg_ok (license_payload l) = true) ∧
  map_ok [] (license_properties l).
Definition link_ok (l : Link) : Prop :=
  value_ok (link_path l) = true ∧ value_ok (link_target l) = true ∧
  map_ok ["path"; "target"] (link_properties l).

(** A manifest whose texts can be written on lines. *)
Record printable (m : Manifest) : Prop := {
  pr_attributes : Forall attr_ok (attributes m);
  pr_directories : Forall dir_ok (directories m);
  pr_files : Forall file_ok (files m);
  pr_dependencies : Forall dependency_ok (dependencies m);
  pr_licenses : Forall license_ok (licenses m);
  pr_links : Forall link_ok (links m);
}.

(** ** The lines are well-formed *)

Local Abbreviation prop_ok := ManifestText.prop_ok.

Lemma props_of_map_ok ks m : map_ok ks m → Forall prop_ok (props_of_map m).
Proof.
  intros Hm. unfold props_of_map. rewrite Forall_fmap, Forall_forall. intros [k p] Hkp%elem_of_map_to_list.
  destruct (Hm _ _ Hkp) as (_ & [Hk _] & Hv). done.
Qed.

Lemma props_of_facets_ok m : facets_ok m → Forall prop_ok (props_of_facets m).
Proof.
  intros Hm. unfold props_of_facets. rewrite Forall_fmap, Forall_forall. intros [n f] Hnf%elem_of_map_to_list.
  destruct (Hm _ _ Hnf) as (_ & Hk & Hv). split; [|done]. unfold key_ok. simpl.
  change (String "f" _) with ("facet." +:+ n). by rewrite all_bytes_app, Hk.
Qed.

Lemma kv_of_props_ok ks ps : props_ok ks ps → Forall prop_ok (kv_of_prop <$> ps).
Proof.
  intros Hps. rewrite Forall_fmap. eapply Forall_impl; [exact Hps|]. intros p ([Hk _] & _ & Hv). done.
Qed.

Lemma keyed_values_ok k vs :
  key_ok k = true → Forall (λ v, value_ok v = true) vs → Forall prop_ok ((λ v, (k, v)) <$> vs).
Proof. intros Hk Hvs. rewrite Forall_fmap. eapply Forall_impl; [exact Hvs|]. by intros v Hv. Qed.

Lemma bool_value_ok b : value_ok (write_bool b) = true.
Proof. by destruct b. Qed.

Lemma utf8_valid_ascii s t :
  all_bytes (λ a, nat_of_ascii a <? 128) s = true → utf8_valid (s +:+ t) = utf8_valid t.
Proof.
  induction s as [|a s IH]; [done|]. rewrite str_app_cons. simpl. intros [Ha Hs]%andb_true_iff.
  unfold byte_in at 1. apply Nat.ltb_lt in Ha. assert ((nat_of_ascii a <=? 127) = true) as -> by (apply Nat.leb_le; lia).
  by apply IH.
Qed.

Lemma to_string_arg d : digest_ok d → arg_ok (to_string d) = true ∧ contains_char "/" (to_string d) = false.
Proof.
  intros [Hu Hb]. unfold to_string. split.
  - unfold arg_ok. destruct d as [h a s]. simpl in *. rewrite !andb_true_iff. split_and!.
    + by destruct s.
    + rewrite utf8_valid_ascii by by destruct s. change (String ":" ?x) with (":" +:+ x).
      rewrite utf8_valid_ascii by done. rewrite utf8_valid_ascii by by destruct a. done.
    + rewrite all_bytes_app. cbn [all_bytes]. rewrite all_bytes_app. cbn [all_bytes].
      rewrite (all_bytes_impl hash_byte arg_byte h) by (done || by_bytes). by destruct s, a.
  - rewrite contains_char_app. cbn [contains_char]. rewrite contains_char_app. cbn [contains_char].
    rewrite (all_bytes_contains hash_byte "/" (hash d)) by done. by destruct (source d), (algorithm d).
Qed.

Lemma arg_value a : arg_ok a = true → value_ok a = true.
Proof.
  intros [[_ Hu]%andb_true_iff Ha]%andb_true_iff. unfold value_ok. rewrite Hu.
  eapply all_bytes_impl; [|exact Ha]. by_bytes.
Qed.

Lemma digest_props_ok ds : Forall digest_ok ds → Forall prop_ok (digest_props ds).
Proof.
  intros Hds. unfold digest_props. rewrite Forall_fmap. eapply Forall_impl; [exact Hds|].
  intros d Hd. split; [done|]. by apply arg_value, to_string_arg.
Qed.

Ltac in_names := unfold action_names; repeat first [by left|right].

Lemma attr_line_ok a : attr_ok a → line_ok (attr_line a).
Proof.
  intros (Hk & Hvs & Hm). split_and!; [in_names|done|]. simpl. constructor; [done|].
  apply Forall_app. split; [by apply keyed_values_ok|by eapply props_of_map_ok].
Qed.

Lemma dir_line_ok d : dir_ok d → line_ok (dir_line d).
Proof.
  intros [Hf Hm]. split_and!; [in_names|done|]. simpl.
  repeat (apply Forall_cons in Hf as [? Hf]; constructor; [done|]). by apply props_of_facets_ok.
Qed.

Lemma file_line_ok f : file_ok f → line_ok (file_line f).
Proof.
  intros (Hf & Hp & Hps & Hm). split_and!; [in_names|..].
  - simpl. destruct (file_payload f) as [p|]; [|done]. destruct Hp as (_ & _ & Hd & _). by apply to_string_arg.
  - simpl. repeat (apply Forall_cons in Hf as [? Hf]).
    repeat (constructor; [by (split; [|first [apply bool_value_ok|done]])|]).
    rewrite !Forall_app. split_and!; [|by eapply kv_of_props_ok|by apply props_of_facets_ok].
    apply digest_props_ok. destruct (file_payload f); [by destruct Hp as (_ & _ & _ & ?)|constructor].
Qed.

Lemma dependency_line_ok d : dependency_ok d → line_ok (dependency_line d).
Proof.
  intros (Hf & Hps & Hm). split_and!; [in_names|done|]. simpl.
  repeat (apply Forall_cons in Hf as [? Hf]; constructor; [done|]). apply Forall_app.
  split; [by eapply kv_of_props_ok|by apply props_of_facets_ok].
Qed.

Lemma license_line_ok l : license_ok l → line_ok (license_line l).
Proof.
  intros [Hp Hm]. split_and!; [in_names| |by eapply props_of_map_ok]. simpl.
  destruct Hp as [[-> Hne]|Ha]; simpl.
  - unfold props_of_map. intros Hnil%fmap_nil_inv. by apply map_to_list_empty_iff in Hnil.
  - by destruct (license_payload l).
Qed.

Lemma link_line_ok l : link_ok l → line_ok (link_line l).
Proof.
  intros (Hp & Ht & Hm). split_and!; [in_names|done|]. simpl.
  do 2 (constructor; [done|]). by eapply props_of_map_ok.
Qed.

Lemma manifest_lines_ok m : printable m → Forall line_ok (manifest_lines m).
Proof.
  intros []. unfold manifest_lines. rewrite !Forall_app, !Forall_fmap.
  split_and!; (eapply Forall_impl; [eassumption|]);
    auto using attr_line_ok, dir_line_ok, file_line_ok, dependency_line_ok, license_line_ok, link_line_ok.
Qed.

(** ** Reading an entry back *)

Local Abbreviation props_of := (fmap (λ p : string * string, MkProperty p.1 p.2)).

(** The properties of a map, inserted one after the other, are the map. *)
Lemma insert_props_of_map ks m (step : gmap string Property → Property → gmap string Property) :
  map_ok ks m →
  (∀ m' k v, free_key ks k → step m' (MkProperty k v) = <[k := MkProperty k v]> m') →
  foldl step ∅ (props_of (props_of_map m)) = m.
Proof.
  intros Hm Hstep. unfold props_of_map.
  assert (Hgo : ∀ l m', (∀ k p, (k, p) ∈ l → prop_key p = k ∧ free_key ks k) →
    foldl step m' (props_of ((λ kp, (kp.1, prop_value kp.2)) <$> l)) =
    foldl (λ m kp, <[kp.1 := kp.2]> m) m' l).
  { induction l as [|[k p] l IH]; intros m' Hl; [done|]. simpl.
    destruct (Hl k p) as [Hk Hf]; [by left|]. rewrite Hstep by done.
    rewrite IH by (intros; apply Hl; by right). f_equal. f_equal. destruct p; simpl in *; congruence. }
  rewrite Hgo.
  - apply foldl_insert_map_to_list.
  - intros k p Hkp%elem_of_map_to_list. destruct (Hm _ _ Hkp) as (? & ? & _). done.
Qed.

(** The same for facets. *)
Definition add_facet_prop (m : gmap string Facet) (p : Property) : gmap string Facet :=
  (insert_facet m (Facet_from_key_value (prop_key p) (prop_value p))).1.

Lemma insert_props_of_facets m :
  facets_ok m → foldl add_facet_prop ∅ (props_of (props_of_facets m)) = m.
Proof.
  intros Hm. unfold props_of_facets.
  assert (Hgo : ∀ l m', (∀ n f, (n, f) ∈ l → facet_name f = n) →
    foldl add_facet_prop m' (props_of ((λ kf, ("facet." +:+ kf.1, facet_value kf.2)) <$> l)) =
    foldl (λ m kf, <[kf.1 := kf.2]> m) m' l).
  { induction l as [|[n f] l IH]; intros m' Hl; [done|]. cbn [fmap list_fmap foldl fst snd].
    rewrite IH by (intros; apply Hl; by right). f_equal. unfold add_facet_prop, insert_facet.
    cbn [prop_key prop_value fst facet_name Facet_from_key_value]. rewrite get_facet_key_facet. f_equal.
    unfold Facet_from_key_value. rewrite get_facet_key_facet.
    rewrite <-(Hl n f) by by left. by destruct f. }
  rewrite Hgo; [apply foldl_insert_map_to_list|].
  intros n f Hnf%elem_of_map_to_list. by destruct (Hm _ _ Hnf).
Qed.

Lemma props_of_facets_keys m :
  Forall (λ p, ∃ n, prop_key p = "facet." +:+ n) (props_of (props_of_facets m)).
Proof. unfold props_of_facets. rewrite !Forall_fmap, Forall_forall. intros [n f] _. by exists n. Qed.

Lemma is_facet_prefixed n : is_facet ("facet." +:+ n) = true.
Proof. apply starts_with_app. Qed.

(** The tests of a loop body on a key that is no keyword. *)
Ltac skip_keywords H :=
  rewrite ?not_elem_of_cons in H;
  repeat match goal with
  | |- context [String.eqb ?a ?b] => rewrite (proj2 (String.eqb_neq a b)) by tauto
  end.

Lemma from_action {A} (step : A → Property → A) a0 l props :
  al_arg l = None → props = props_of (al_props l) →
  (props' ← push_payload_string (E := ActionError) (act_payload_string (action_of_line l))
    (act_properties (action_of_line l)); Ok (foldl step a0 props')) = Ok (foldl step a0 props).
Proof. intros Ha ->. unfold action_of_line. simpl. by rewrite Ha. Qed.

Lemma read_attr a : attr_ok a → Attr_from (E := ActionError) (action_of_line (attr_line a)) = Ok a.
Proof.
  intros (_ & _ & Hm). unfold Attr_from. rewrite (from_action Attr_step Attr_default (attr_line a) _ eq_refl eq_refl). f_equal.
  destruct a as [k vs m]. cbn [attr_line al_props attr_key attr_values attr_properties] in *.
  rewrite fmap_cons, fmap_app. cbn [foldl]. rewrite foldl_app.
  assert (Hvs : ∀ ws us, foldl Attr_step (MkAttr k us ∅) (props_of ((λ v, ("value", v)) <$> ws)) =
    MkAttr k (us ++ ws) ∅).
  { induction ws as [|w ws IH]; intros us; [by rewrite app_nil_r|]. simpl. rewrite IH.
    by rewrite <-(assoc_L (++)). }
  change (Attr_step Attr_default _) with (MkAttr k [] ∅). rewrite Hvs.
  rewrite (foldl_through (MkAttr k ([] ++ vs)) (λ m p, <[prop_key p := p]> m)).
  - f_equal. by eapply insert_props_of_map.
  - unfold props_of_map. rewrite !Forall_fmap, Forall_forall. intros [n p] Hnp%elem_of_map_to_list m'.
    destruct (Hm _ _ Hnp) as (_ & [_ Hf] & _). simpl. by skip_keywords Hf.
Qed.

Lemma read_dir d : dir_ok d → Dir_from (E := ActionError) (action_of_line (dir_line d)) = Ok d.
Proof.
  intros [_ Hm]. unfold Dir_from. rewrite (from_action Dir_step Dir_default (dir_line d) _ eq_refl eq_refl). f_equal.
  destruct d as [path group owner mode revert salvage m]. simpl in *.
  rewrite (foldl_through (MkDir path group owner mode revert salvage) add_facet_prop).
  - f_equal. by apply insert_props_of_facets.
  - eapply Forall_impl; [apply props_of_facets_keys|]. intros [k v] [n Hn] m'. simpl in Hn. subst k.
    cbn -[String.append is_facet]. by rewrite is_facet_prefixed.
Qed.

Lemma read_props {A} (F : list Property → A) step ks ps qs :
  props_ok ks ps →
  (∀ qs p, free_key ks (prop_key p) → is_facet (prop_key p) = false → step (F qs) p = F (qs ++ [p])) →
  foldl step (F qs) (props_of (kv_of_prop <$> ps)) = F (qs ++ ps).
Proof.
  intros Hps Hstep. revert qs. induction Hps as [|p ps (Hk & Hf & _) _ IH]; intros qs; [by rewrite app_nil_r|].
  cbn [fmap list_fmap foldl kv_of_prop fst snd].
  assert (MkProperty (prop_key p) (prop_value p) = p) as -> by by destruct p.
  rewrite Hstep, IH by done. by rewrite <-(assoc_L (++)).
Qed.

Lemma read_dependency d :
  dependency_ok d → Dependency_from (E := ActionError) (action_of_line (dependency_line d)) = Ok d.
Proof.
  intros (_ & Hps & Hm). unfold Dependency_from. rewrite (from_action Dependency_step Dependency_default (dependency_line d) _ eq_refl eq_refl). f_equal.
  destruct d as [fmri ty pred root ps m]. cbn [dependency_line al_props dep_optional dep_facets] in *.
  rewrite !fmap_app, !foldl_app.
  change (foldl Dependency_step Dependency_default _) with (MkDependency fmri ty pred root [] ∅).
  rewrite (read_props (λ qs, MkDependency fmri ty pred root qs ∅) Dependency_step _ ps [] Hps).
  - rewrite (foldl_through (MkDependency fmri ty pred root ([] ++ ps)) add_facet_prop).
    + f_equal. by apply insert_props_of_facets.
    + eapply Forall_impl; [apply props_of_facets_keys|]. intros [k v] [n Hn] m'. simpl in Hn. subst k.
    cbn -[String.append is_facet]. by rewrite is_facet_prefixed.
  - intros qs [k v] [_ Hk] Hf. simpl in *. skip_keywords Hk. by rewrite Hf.
Qed.

Lemma read_license l : license_ok l → License_from (action_of_line (license_line l)) = l.
Proof.
  intros [Hp Hm]. destruct l as [pl m]. unfold License_from, action_of_line. cbn in *.
  assert (Hgo : foldl License_step (MkLicense pl ∅) (props_of (props_of_map m)) = MkLicense pl m).
  { rewrite (foldl_through (MkLicense pl) (λ m p, <[prop_key p := p]> m)).
    - f_equal. by eapply insert_props_of_map.
    - rewrite Forall_forall. by intros [] _ m'. }
  by destruct pl.
Qed.

Lemma read_link l : link_ok l → Link_from (E := ActionError) (action_of_line (link_line l)) = Ok l.
Proof.
  intros (_ & _ & Hm). unfold Link_from. rewrite (from_action Link_step Link_default (link_line l) _ eq_refl eq_refl). f_equal.
  destruct l as [path target m]. cbn [link_line al_props link_path link_target link_properties] in *. rewrite fmap_app, foldl_app.
  cbn [fmap list_fmap foldl Link_step fst snd Link_default String.eqb Ascii.eqb Bool.eqb].
  rewrite (foldl_through (MkLink path target) (λ m p, <[prop_key p := p]> m)).
  - f_equal. by eapply insert_props_of_map.
  - unfold props_of_map. rewrite !Forall_fmap, Forall_forall. intros [n p] Hnp%elem_of_map_to_list m'.
    destruct (Hm _ _ Hnp) as (_ & [_ Hf] & _). simpl. by skip_keywords Hf.
Qed.

Lemma bool_of_write_bool b : bool_or_false (write_bool b) = b.
Proof. by destruct b. Qed.

Lemma digest_ok_parses d : digest_ok d → from_str (to_string d) = Ok d.
Proof.
  intros [_ Hb]. rewrite from_str_to_string, split_char_none; [by destruct d|].
  by apply (all_bytes_contains hash_byte).
Qed.

Section read_file.
Local Abbreviation file_step := (File_step (E := ActionError)).
Local Abbreviation parsed_payload pr ds :=
  (MkPayload pr ds PayloadCompressionAlgorithm_default PayloadBits_default PayloadArchitecture_default).

Lemma read_digests f pr ds ds0 :
  Forall digest_ok ds →
  foldM file_step (f, parsed_payload pr ds0) (props_of (digest_props ds)) =
  Ok (f, parsed_payload pr (ds0 ++ ds)).
Proof.
  intros Hds. revert ds0. induction Hds as [|d ds Hd _ IH]; intros ds0; [by rewrite app_nil_r|].
  cbn [digest_props fmap list_fmap foldM fst snd]. unfold File_step at 2. destruct f. cbn -[to_string from_str push_additional_identifier].
  rewrite digest_ok_parses by done. cbn [unwrap_digest unwrap_result mbind outcome_bind]. unfold push_additional_identifier. cbn [primary_identifier additional_identifiers].
  change ((λ d, ("pkg.content-hash", to_string d)) <$> ds) with (digest_props ds). rewrite IH.
  by rewrite <-(assoc_L (++)).
Qed.

(** The properties and the facets of a file. *)
Lemma read_file_props f p :
  props_ok file_keys (file_properties f) → facets_ok (file_facets f) →
  foldM file_step
    (MkFile None (file_path f) (file_group f) (file_owner f) (file_mode f) (file_preserve f) (file_overlay f)
       (file_original_name f) (file_revert_tag f) (file_sys_attr f) [] ∅, p)
    (props_of (kv_of_prop <$> file_properties f) ++ props_of (props_of_facets (file_facets f))) =
  Ok (File_set_payload None f, p).
Proof.
  intros Hps Hm. rewrite foldM_app. destruct f as [pl path group owner mode pre over orig rev sys ps m]. simpl in *.
  rewrite (foldM_through (λ qs, (MkFile None path group owner mode pre over orig rev sys qs ∅, p))
    (λ qs q, qs ++ [q])).
  - cbn [mbind outcome_bind].
    rewrite (foldM_through (λ m, (MkFile None path group owner mode pre over orig rev sys
      (foldl (λ qs q, qs ++ [q]) [] (props_of (kv_of_prop <$> ps))) m, p)) add_facet_prop).
    + rewrite insert_props_of_facets by done. unfold File_set_payload. simpl. do 3 f_equal. 
      assert (Hgo : ∀ l qs, foldl (λ qs q, qs ++ [q]) qs (props_of (kv_of_prop <$> l)) = qs ++ l).
      { induction l as [|[k v] l IH]; intros qs; [by rewrite app_nil_r|]. simpl. by rewrite IH, <-(assoc_L (++)). }
      apply Hgo.
    + eapply Forall_impl; [apply props_of_facets_keys|]. intros [k v] [n Hn] m'. simpl in Hn. subst k.
      cbn -[String.append is_facet]. by rewrite is_facet_prefixed.
  - rewrite !Forall_fmap. eapply Forall_impl; [exact Hps|]. intros [k v] ([_ Hk] & Hf & _) qs. simpl in *.
    unfold file_keys in Hk. skip_keywords Hk. by rewrite Hf.
Qed.

(** The fields of a file, and all that is written after its argument. *)
Local Abbreviation field_props f :=
  [("path", file_path f); ("group", file_group f); ("owner", file_owner f); ("mode", file_mode f);
   ("preserve", write_bool (file_preserve f)); ("overlay", write_bool (file_overlay f));
   ("original_name", file_original_name f); ("revert-tag", file_revert_tag f);
   ("sysattr", file_sys_attr f)].

Lemma read_file_fields f pr ds :
  Forall digest_ok ds → props_ok file_keys (file_properties f) → facets_ok (file_facets f) →
  foldM file_step (File_default, parsed_payload pr [])
    (props_of (field_props f ++ digest_props ds ++ (kv_of_prop <$> file_properties f)
               ++ props_of_facets (file_facets f))) =
  Ok (File_set_payload None f, parsed_payload pr ds).
Proof.
  intros Hds Hps Hm. rewrite fmap_app, foldM_app.
  assert (foldM file_step (File_default, parsed_payload pr []) (props_of (field_props f)) =
    Ok (MkFile None (file_path f) (file_group f) (file_owner f) (file_mode f) (file_preserve f)
      (file_overlay f) (file_original_name f) (file_revert_tag f) (file_sys_attr f) [] ∅,
      parsed_payload pr [])) as ->.
  { cbn -[bool_or_false write_bool]. by rewrite !bool_of_write_bool. }
  cbn [mbind outcome_bind]. rewrite !fmap_app, foldM_app, read_digests by done. cbn [mbind outcome_bind app].
  by apply read_file_props.
Qed.

Lemma file_line_props f :
  act_properties (action_of_line (file_line f)) =
    props_of (field_props f ++ digest_props (default [] (additional_identifiers <$> file_payload f))
      ++ (kv_of_prop <$> file_properties f) ++ props_of_facets (file_facets f)).
Proof. done. Qed.

Lemma read_file f : file_ok f → File_from (E := ActionError) (action_of_line (file_line f)) = Ok f.
Proof.
  intros (_ & Hp & Hps & Hm). unfold File_from. rewrite file_line_props.
  destruct (file_payload f) as [p|] eqn:Epl.
  - destruct Hp as (Hpl & Hne & Hd & Hds). destruct p as [pr ds ca bi ar]. simpl in Hpl, Hne, Hd, Hds.
    injection Hpl as -> -> ->. destruct (to_string_arg pr Hd) as [Harg Hsl].
    assert (act_payload_string (action_of_line (file_line f)) = to_string pr) as ->
      by by unfold action_of_line, file_line; rewrite Epl.
    unfold File_payload_string. rewrite Hsl, digest_ok_parses by done.
    apply andb_true_iff in Harg as [[-> _]%andb_true_iff _]. cbn [unwrap_digest unwrap_result mbind outcome_bind].
    change (set_primary_identifier pr _) with (parsed_payload pr []).
    cbn [fmap option_fmap option_map default additional_identifiers].
    rewrite read_file_fields by done. cbn [mbind outcome_bind primary_identifier].
    destruct (hash pr) eqn:Eh; [done|]. f_equal. destruct f. simpl in *. by subst.
  - assert (act_payload_string (action_of_line (file_line f)) = EmptyString) as ->
      by by unfold action_of_line, file_line; rewrite Epl.
    unfold File_payload_string. cbn [is_empty negb mbind outcome_bind].
    change (act_payload _) with (parsed_payload Digest_default []).
    cbn [fmap option_fmap option_map default]. rewrite read_file_fields by done.
    cbn. f_equal. destruct f. simpl in *. by subst.
Qed.
End read_file.

(** ** Reading a printed manifest *)

Lemma foldM_entries {E A S} (f : S → A → outcome E S) {B} (line : B → A) (F : list B → S) (es : list B) (P : B → Prop) es0 :
  (∀ es e, P e → f (F es) (line e) = Ok (F (es ++ [e]))) → Forall P es →
  foldM f (F es0) (line <$> es) = Ok (F (es0 ++ es)).
Proof.
  intros Hf Hes. revert es0. induction Hes as [|e es He _ IH]; intros es0; [by rewrite app_nil_r|].
  simpl. rewrite Hf by done. simpl. by rewrite IH, <-(assoc_L (++)).
Qed.

(** Adding the line of an entry whose reading is known. *)
Ltac add_line read :=
  let es := fresh in let e := fresh "e" in let He := fresh "He" in
  intros es e He; unfold add_action, compose;
  match goal with
  | |- context [act_kind ?a] => let k := eval compute in (act_kind a) in change (act_kind a) with k
  end; cbv beta iota; rewrite (read e He); reflexivity.

Lemma add_lines m :
  printable m → foldM add_action Manifest_new (action_of_line <$> manifest_lines m) = Ok m.
Proof.
  intros [Ha Hd Hf Hdep Hlic Hlink]. unfold manifest_lines. rewrite !fmap_app, <-!list_fmap_compose, foldM_app.
  destruct m as [at_ di fi de li ln]. simpl in *. unfold Manifest_new.
  rewrite (foldM_entries _ _ (λ x, MkManifest x [] [] [] [] []) _ attr_ok)
    by (done || add_line read_attr).
  cbn [mbind outcome_bind app]; rewrite ?foldM_app.
  rewrite (foldM_entries _ _ (λ x, MkManifest at_ x [] [] [] []) _ dir_ok)
    by (done || add_line read_dir).
  cbn [mbind outcome_bind app]; rewrite ?foldM_app.
  rewrite (foldM_entries _ _ (λ x, MkManifest at_ di x [] [] []) _ file_ok)
    by (done || add_line read_file).
  cbn [mbind outcome_bind app]; rewrite ?foldM_app.
  rewrite (foldM_entries _ _ (λ x, MkManifest at_ di fi x [] []) _ dependency_ok)
    by (done || add_line read_dependency).
  cbn [mbind outcome_bind app]; rewrite ?foldM_app.
  rewrite (foldM_entries _ _ (λ x, MkManifest at_ di fi de x []) _ license_ok)
    by (done || add_line read_license).
  cbn [mbind outcome_bind app]; rewrite ?foldM_app.
  by rewrite (foldM_entries _ _ (λ x, MkManifest at_ di fi de li x) _ link_ok)
    by (done || add_line read_link).
Qed.

Lemma action_lines_of ls : action_lines (Line <$> ls) = ls.
Proof. induction ls as [|l ls IH]; [done|]. by rewrite fmap_cons, action_lines_cons, IH. Qed.

(** C1. Printing and parsing of manifests round-trip: a manifest with printable
    texts that has an entry is exactly what [Manifest::parse_string] returns on
    its text.  So the parser and the conversions lose nothing: every field, every
    facet and property, every digest of a file, and the order of the entries are
    read back as they were written. *)
Theorem parse_print_manifest `{PE : PestEngine, !PestLaws} m :
  printable m → m ≠ Manifest_new → parse_string (print_manifest m) = Ok m.
Proof.
  intros Hm Hne. unfold print_manifest.
  assert (Hl : manifest_lines m ≠ []).
  { contradict Hne. unfold manifest_lines in Hne.
    repeat match goal with H : _ ++ _ = [] |- _ => apply app_eq_nil in H as [? ?] end.
    destruct m. simpl in *. repeat match goal with H : _ <$> _ = [] |- _ => apply fmap_nil_inv in H end.
    by subst. }
  rewrite parse_items.
  - rewrite action_lines_of. by apply add_lines.
  - rewrite Forall_fmap. by apply manifest_lines_ok.
  - by destruct (manifest_lines m).
Qed.

(** ** Concatenation *)

(** The entries of one manifest after those of another. *)
Definition append_manifest (m m' : Manifest) : Manifest :=
  MkManifest (attributes m ++ attributes m') (directories m ++ directories m') (files m ++ files m')
    (dependencies m ++ dependencies m') (licenses m ++ licenses m') (links m ++ links m').

Lemma add_action_append m m' act :
  add_action (append_manifest m m') act = (r ← add_action m' act; Ok (append_manifest m r)).
Proof.
  unfold append_manifest, add_action. destruct m, m'. simpl.
  destruct (act_kind act); simpl; try done;
    repeat match goal with |- context [?f act ≫= _] => destruct (f act); simpl; try done end;
    by rewrite (assoc_L (++)).
Qed.

Lemma add_actions_append m acts m' :
  foldM add_action (append_manifest m m') acts = (r ← foldM add_action m' acts; Ok (append_manifest m r)).
Proof.
  revert m'. induction acts as [|act acts IH]; intros m'; [done|]. cbn [foldM].
  rewrite add_action_append. destruct (add_action m' act) as [r|e|w]; simpl; [apply IH|done..].
Qed.

Lemma write_items_app its its' : write_items (its ++ its') = write_items its +:+ write_items its'.
Proof. induction its as [|i its IH]; [done|]. simpl. by rewrite IH, str_app_assoc. Qed.

Lemma drop_comments_app its its' :
  drop_comments its ≠ [] → drop_comments (its ++ its') ≠ [].
Proof. induction its as [|[] its IH]; simpl; auto. Qed.

(** C16. The parser is a homomorphism on written texts: the text of one manifest
    followed by the text of another is parsed to the entries of the first
    followed by those of the second, section by section, whatever blank lines and
    comments the texts hold. *)
Theorem parse_string_concat `{PE : PestEngine, !PestLaws} its its' m m' :
  Forall item_ok its → Forall item_ok its' →
  parse_string (write_items its) = Ok m → parse_string (write_items its') = Ok m' →
  parse_string (write_items its +:+ write_items its') = Ok (append_manifest m m').
Proof.
  intros Hits Hits' Hm Hm'.
  assert (Hne : ∀ its m, Forall item_ok its → parse_string (write_items its) = Ok m → drop_comments its ≠ []).
  { intros its0 m0 H0 Hm0 Hd. pose proof (pest_parse_items its0 H0) as Hp.
    rewrite bool_decide_eq_true_2 in Hp by done. destruct Hp as [e He].
    unfold parse_string in Hm0. by rewrite He in Hm0. }
  pose proof (Hne _ _ Hits Hm) as Hd. pose proof (Hne _ _ Hits' Hm') as Hd'.
  rewrite parse_items in Hm, Hm' by done.
  rewrite <-write_items_app, parse_items; [|by apply Forall_app|by apply drop_comments_app].
  assert (action_lines (its ++ its') = action_lines its ++ action_lines its') as -> by apply bind_app.
  rewrite fmap_app, foldM_app, Hm. cbn [mbind outcome_bind].
  assert (append_manifest m Manifest_new = m) as <- by by destruct m; unfold append_manifest; simpl; rewrite !app_nil_r.
  rewrite add_actions_append, Hm'. simpl. f_equal. destruct m. unfold append_manifest. simpl. by rewrite !app_nil_r.
Qed.
