(* ===== verification/ManifestRuns.v ===== *)
(** * ManifestRuns: the manifest parser on concrete texts

    The properties of [Manifest] applied at texts, with the interpreter of
    [PegEngine] as the generated parser. *)

From S2P Require Import Prelude RustStr World Peg PegEngine Digest Payload Actions ManifestGrammar Manifest ManifestInv PegText ManifestText ManifestPrint.

Definition two_lines : string := text
  ["set name=com.oracle.info.name value=nginx value=test";
   "dir group=bin mode=0755 owner=root path=" +:+ quoted "var/nginx"].

Definition two_lines_manifest : Manifest := MkManifest
  [MkAttr "com.oracle.info.name" ["nginx"; "test"] ∅]
  [MkDir "var/nginx" "bin" "root" "0755" "" "" ∅] [] [] [] [].

Definition user_line : string := "user username=webservd uid=80".

Lemma parse_string_sections_witness :
  parse_string two_lines = Ok two_lines_manifest ∧
  ∃ ps, pest_parse manifest_grammar Rule.manifest two_lines = inr ps ∧
    sections (actions_of ps) two_lines_manifest ∧ 2 = length (actions_of ps).
Proof.
  assert (H : parse_string two_lines = Ok two_lines_manifest) by (vm_compute; reflexivity).
  split; [exact H|]. exact (parse_string_sections _ _ H).
Defined.

Lemma parse_string_todo_witness : ∃ w, parse_string user_line = Panic w.
Proof.
  destruct (pest_parse manifest_grammar Rule.manifest user_line) as [e|ps] eqn:Hp;
    [vm_compute in Hp; discriminate Hp|].
  apply (parse_string_todo user_line ps (default Action_default (head (actions_of ps))) Hp);
    vm_compute in Hp; injection Hp as <-; [by left|reflexivity].
Defined.

Lemma parse_string_refines_witness :
  parse_string two_lines = Ok two_lines_manifest.
Proof. rewrite (parse_string_refines two_lines). vm_compute. reflexivity. Defined.

Lemma parse_string_cases_witness :
  peg ascii_uppercase manifest_grammar "no such action" false (GMatch (Ref Rule.manifest))
    "no such action" None.
Proof.
  pose proof (parse_string_cases "no such action") as H.
  destruct (parse_string "no such action") as [m|e|w] eqn:E;
    [vm_compute in E; discriminate E|exact (proj2 H)|vm_compute in E; discriminate E].
Defined.

(** A manifest with an entry of every kind. *)
Definition every_kind : Manifest := MkManifest
  [MkAttr "pkg.summary" ["Nginx Webserver"; ""] (<["optional" := MkProperty "optional" "test ing"]> ∅)]
  [MkDir "etc/nginx" "bin" "root" "0755" "" "" (<["doc" := MkFacet "doc" "true"]> ∅)]
  [MkFile (Some (MkPayload (Digest "4b76e8" SHA1 PrimaryPayloadHash)
      [Digest "42007a" SHA512Half UncompressedFile; Digest "ec1445" SHA512Half GzipCompressed]
      PayloadCompressionAlgorithm_default PayloadBits_default PayloadArchitecture_default))
     "lib/svc/method/http-nginx" "bin" "root" "555" true false "" "" ""
     [MkProperty "pkg.size" "1855"] (<["doc" := MkFacet "doc" "#1"]> ∅);
   MkFile None "usr/share/a file" "bin" "root" "0644" false false "" "" "" [] ∅]
  [MkDependency "pkg:/system/library@0.5.11" "require" "" "" [MkProperty "variant.arch" "i386"] ∅]
  [MkLicense "cr_Sun" (<["license" := MkProperty "license" "Sun"]> ∅)]
  [MkLink "usr/bin/perl" "../perl5/bin/perl" ∅].

Ltac decide_ok :=
  unfold attr_ok, dir_ok, file_ok, dependency_ok, license_ok, link_ok, map_ok, facets_ok, props_ok,
    free_key, payload_ok, digest_ok; cbn [file_payload];
  apply (bool_decide_unpack _); vm_compute; exact I.

Lemma parse_print_manifest_witness :
  printable every_kind ∧ parse_string (print_manifest every_kind) = Ok every_kind.
Proof.
  assert (Hp : printable every_kind).
  { split; cbn [every_kind attributes directories files dependencies licenses links];
      repeat (apply Forall_cons; split); try apply Forall_nil; decide_ok. }
  split; [exact Hp|]. apply (parse_print_manifest every_kind Hp). discriminate.
Defined.

(** A text with a comment, a blank line, quotes and a value that starts with a
    number sign. *)
Definition written : list item :=
  [Comment " services"; Blank;
   Line (ALine "user" None [("username", "webservd"); ("gcos-field", "Web Server")]);
   Comment ""; Line (ALine "license" (Some "cr_Sun") [("license", "#1")])].
Definition written_license : list item :=
  [Line (ALine "license" (Some "cr_Sun") [("license", "#1")]); Comment " end"].
Definition written_license_manifest : Manifest :=
  MkManifest [] [] [] [] [MkLicense "cr_Sun" {["license" := MkProperty "license" "#1"]}] [].

Ltac items_ok :=
  repeat (apply Forall_cons; split); try apply Forall_nil;
  unfold item_ok, line_ok; cbn [al_arg al_name al_props]; apply (bool_decide_unpack _); vm_compute; exact I.

Lemma parse_string_written_witness :
  write_items written = text ["# services"; ""; "user username=webservd gcos-field=" +:+ quoted "Web Server";
    "#"; "license cr_Sun license=" +:+ quoted "#1"; ""] ∧
  parse_string (write_items written) = Panic not_yet_implemented ∧
  parse_string (write_items written_license) = Ok written_license_manifest.
Proof.
  split_and!; [reflexivity|..].
  - assert (H : Forall item_ok written) by items_ok. pose proof (parse_string_written written H) as Hp.
    exact Hp.
  - assert (H : Forall item_ok written_license) by items_ok.
    pose proof (parse_string_written written_license H) as Hp. exact Hp.
Defined.

Lemma parse_string_concat_witness :
  parse_string (write_items written_license +:+ write_items written_license) =
    Ok (append_manifest written_license_manifest written_license_manifest).
Proof.
  assert (H : Forall item_ok written_license) by items_ok.
  apply (parse_string_concat _ _ _ _ H H); vm_compute; reflexivity.
Defined.

Lemma manifest_invariant_witness :
  parse_string two_lines = Ok two_lines_manifest ∧ manifest_wf two_lines_manifest ∧
  ∃ f, @read_from_path dump_hashes demo_files demo_object "/" "bin/ls" = Ok f ∧
    manifest_wf (add_file f two_lines_manifest).
Proof.
  assert (H : parse_string two_lines = Ok two_lines_manifest) by (vm_compute; reflexivity).
  destruct (@manifest_invariant _ _ _ dump_hashes_laws demo_files demo_object)
    as (_ & _ & _ & _ & _ & Hadd & Hparse).
  split_and!; [exact H|exact (Hparse _ _ H)|]. eexists. split; [reflexivity|].
  apply (Hadd _ "/" "bin/ls"); [exact (Hparse _ _ H)|reflexivity].
Defined.
