(* ===== verification/LibTests.v ===== *)
(** * LibTests: the unit tests of [libips] ([libips/src/lib.rs])

    The manifests the crate's own tests parse and the values they expect,
    transcribed from [mod tests].  A continuation in a Rust string literal (a
    backslash, the end of the line and the blanks of the next) is no part of
    the text, so the texts of [parse_line_breaks] and [parse_unicode] hold the
    joined lines.  Every test is a run of the model: [parse_string] gives
    exactly the manifest the test lists, which is more than its assertions
    compare. *)

From S2P Require Import Prelude RustStr World Peg PegEngine Digest Payload Actions ManifestGrammar Manifest.

Definition attributes_text : string := text
  ["set name=pkg.fmri value=pkg://openindiana.org/web/server/nginx@1.18.0,5.11-2020.0.1.0:20200421T195136Z";
   "set name=com.oracle.info.name value=nginx value=test";
   "set name=userland.info.git-remote value=git://github.com/OpenIndiana/oi-userland.git";
   "set name=userland.info.git-branch value=HEAD";
   "set name=userland.info.git-rev value=1665491ba61bd494bf73e2916cd2250f3024260e";
   "set name=pkg.summary value=" +:+ quoted "Nginx Webserver";
   "set name=info.classification value=" +:+ quoted "org.opensolaris.category.2008:Web Services/Application and Web Servers";
   "set name=info.upstream-url value=http://nginx.net/";
   "set name=info.source-url value=http://nginx.org/download/nginx-1.18.0.tar.gz";
   "set name=org.opensolaris.consolidation value=userland";
   "set name=com.oracle.info.version value=1.18.0";
   "set name=pkg.summary value=" +:+ quoted "provided mouse accessibility enhancements";
   "set name=info.upstream value=" +:+ quoted "X.Org Foundation";
   "set name=pkg.description value=" +:+ quoted "Latvian language support's extra files";
   "set name=variant.arch value=i386 optional=testing optionalWithString=" +:+ quoted "test ing";
   "set name=info.source-url value=" +:+ quoted "http://www.pgpool.net/download.php?f=pgpool-II-3.3.1.tar.gz";
   "set name=pkg.summary value=" +:+ quoted "'XZ Utils - loss-less file compression application and library.'"].

Definition optional_hash : gmap string Property :=
  <["optionalWithString" := MkProperty "optionalWithString" "test ing"]>
  (<["optional" := MkProperty "optional" "testing"]> ∅).

Definition attributes_expected : list Attr :=
  [MkAttr "pkg.fmri" ["pkg://openindiana.org/web/server/nginx@1.18.0,5.11-2020.0.1.0:20200421T195136Z"] ∅;
   MkAttr "com.oracle.info.name" ["nginx";
       "test"] ∅;
   MkAttr "userland.info.git-remote" ["git://github.com/OpenIndiana/oi-userland.git"] ∅;
   MkAttr "userland.info.git-branch" ["HEAD"] ∅;
   MkAttr "userland.info.git-rev" ["1665491ba61bd494bf73e2916cd2250f3024260e"] ∅;
   MkAttr "pkg.summary" ["Nginx Webserver"] ∅;
   MkAttr "info.classification" ["org.opensolaris.category.2008:Web Services/Application and Web Servers"] ∅;
   MkAttr "info.upstream-url" ["http://nginx.net/"] ∅;
   MkAttr "info.source-url" ["http://nginx.org/download/nginx-1.18.0.tar.gz"] ∅;
   MkAttr "org.opensolaris.consolidation" ["userland"] ∅;
   MkAttr "com.oracle.info.version" ["1.18.0"] ∅;
   MkAttr "pkg.summary" ["provided mouse accessibility enhancements"] ∅;
   MkAttr "info.upstream" ["X.Org Foundation"] ∅;
   MkAttr "pkg.description" ["Latvian language support's extra files"] ∅;
   MkAttr "variant.arch" ["i386"] optional_hash;
   MkAttr "info.source-url" ["http://www.pgpool.net/download.php?f=pgpool-II-3.3.1.tar.gz"] ∅;
   MkAttr "pkg.summary" ["'XZ Utils - loss-less file compression application and library.'"] ∅].

Definition directories_text : string := text
  ["dir group=bin mode=0755 owner=root path=etc/nginx";
   "dir group=bin mode=0755 owner=root path=usr/share/nginx";
   "dir group=bin mode=0755 owner=root path=usr/share/nginx/html";
   "dir group=bin mode=0755 owner=webservd path=var/nginx/logs";
   "dir group=bin mode=0755 owner=root path=" +:+ quoted "var/nginx"].

Definition directories_expected : list Dir :=
  [MkDir "etc/nginx" "bin" "root" "0755" "" "" ∅;
   MkDir "usr/share/nginx" "bin" "root" "0755" "" "" ∅;
   MkDir "usr/share/nginx/html" "bin" "root" "0755" "" "" ∅;
   MkDir "var/nginx/logs" "bin" "webservd" "0755" "" "" ∅;
   MkDir "var/nginx" "bin" "root" "0755" "" "" ∅].

Definition files_text : string := text
  ["file 4b76e83bb4bb7c87176b72ef805fe78ecae60d2c chash=7288afc78233791bb8e13b3e13aa4f0b4b1d6ee8 group=bin mode=555 owner=root path=lib/svc/method/http-nginx pkg.content-hash=file:sha512t_256:42007aaee6bd54977eb33f91db28f931ab11c39787ba9f7851b6baf0d142185b pkg.content-hash=gzip:sha512t_256:ec144533fa077af1d5b152d8c7549f113902021d71808adb12ea3f92bda9fd66 pkg.csize=975 pkg.size=1855";
   "file 72e0496a02e72e7380b0b62cdc8410108302876f chash=2f82b51db9cbba0705cb680e5aa0f11ff237009b group=sys mode=0444 owner=root path=lib/svc/manifest/network/http-nginx.xml pkg.content-hash=file:sha512t_256:c0c3640d6e61b53a3dc4228adff7532ec6b5d09bf1847991a3aaa5eb3e04d19a pkg.content-hash=gzip:sha512t_256:e1999bae58ef887d81dc686b794429a9dea0e7674b631c2a08f07fb9b34440e2 pkg.csize=1067 pkg.size=2844 restart_fmri=svc:/system/manifest-import:default";
   "file 95de71d58b37f9f74bede0e91bc381d6059fc2d7 chash=c2e2e4cf82ec527800a2170d9e2565b75d557012 group=bin mode=0444 owner=root path=usr/share/nginx/html/50x.html pkg.content-hash=file:sha512t_256:b592728ea1dcd6dd0924e1e6767e217ad70ec6973086911d8bc07d44695b9f0e pkg.content-hash=gzip:sha512t_256:8407d82b497c4a865841ab8874207cc5a4d581ba574d66074ef5f92f05ee13cf pkg.csize=327 pkg.size=494";
   "file 7dd71afcfb14e105e80b0c0d7fce370a28a41f0a chash=50b7bcf6c555b8e9bde1eacd2c3d5c34a757c312 group=bin mode=0444 owner=root path=usr/share/nginx/html/index.html pkg.content-hash=file:sha512t_256:204038cd5fbbcdd2c3d24acb7f41b1e861c51d689f53202ec69b43bdba01cb60 pkg.content-hash=gzip:sha512t_256:34bad6066578cf03289b0c957cb4f01a9353f91b3b95079d69bf9e12dd569279 pkg.csize=381 pkg.size=612";
   "file cbf596ddb3433a8e0d325f3c188bec9c1bb746b3 chash=2df27ca83841b9c8e38c5aa30760372773166928 group=bin mode=0644 owner=root path=etc/nginx/fastcgi.conf pkg.content-hash=file:sha512t_256:d260c064680ec58135d9a290ed3cfd64274db769701ab3df2bfdeb653a864518 pkg.content-hash=gzip:sha512t_256:4924c0f4bdc37b832afd281ad07b0bf339c8c3a0e2d95e076998d46fab76a084 pkg.csize=448 pkg.size=1077 preserve=true";
   "file da38e2a0dded838afbe0eade6cb837ac30fd8046 chash=530616dc345f6acf0aea26db06e56aa41b2f510d group=bin mode=0644 owner=root path=etc/nginx/fastcgi_params pkg.content-hash=file:sha512t_256:baeeb2df301f8764568a86884c127e90faf39bee4ff0e53fb4a890955e605cee pkg.content-hash=gzip:sha512t_256:5c6f541692556eacbde4ea1536de3c1af2cd8e9980fc4edca36851a97ed671ba pkg.csize=430 pkg.size=1007 preserve=true";
   "file 407cb51b397ba4ad90a2246640a81af18e2e917a chash=00d285c15dd65f24c4c89d5790094c38432a1ac6 group=bin mode=0644 owner=root path=etc/nginx/koi-utf pkg.content-hash=file:sha512t_256:06381b2c4a28fe88c0d908f1cd81453c9482358c8195163e294b8def8924b366 pkg.content-hash=gzip:sha512t_256:d66022b08971eaf9ddf3230a991b0d8352fcefe0f797305a94b5ca0574d70ff5 pkg.csize=938 pkg.size=2837 preserve=true";
   "file 19ec7fb71e7f00d7e8a1cfc1013490f0cfee572b chash=0f2588ac25780698ea7ebeac3ea0e9041502d501 group=bin mode=0644 owner=root path=etc/nginx/koi-win pkg.content-hash=file:sha512t_256:92d4df1df754d3e2cd8c52aba7415680c86097803b437bf0edcd8d022ab6aa8c pkg.content-hash=gzip:sha512t_256:2ad3bb0540d800f2115691c96e8ed35b9b91eb5c248bea199da22ffd102cc847 pkg.csize=749 pkg.size=2223 preserve=true";
   "file e39dbc36680b717ec902fadc805a302f1cf62245 chash=325af5a4b735284a3cdfd3b04bd249ff22334965 group=bin mode=0644 owner=root path=etc/nginx/mime.types pkg.content-hash=file:sha512t_256:8217c6955d644400707c4ecf1539ece4ee2fd1be4838654860f2ef2ecacdebd4 pkg.content-hash=gzip:sha512t_256:46566d205da4d67a6e12a1d3d2f78e3602770ce42ef2c117ee95b821aec90100 pkg.csize=990 pkg.size=5231 preserve=true";
   "file d143ca7a6aac765d28724af54d969a4bd2202383 chash=adacb374c514459417f07cacd4f8bf60644c9651 group=bin mode=0644 owner=root path=etc/nginx/nginx.conf pkg.content-hash=file:sha512t_256:cc9263a836b4db441340d2e041adf10136c9a8aa31259b868000f88c84032ba1 pkg.content-hash=gzip:sha512t_256:cf0cd12b5f3f1d9d15378e1a1bacaaff7589bf2c129312b277b66ea3418acc54 pkg.csize=997 pkg.size=2798 preserve=true";
   "file 379c1e2a2a5ffb8c91a07328d4c9be2bc58799fd chash=2c75c59e0de9208a9b96460d0566e5686708310c group=bin mode=0644 owner=root path=etc/nginx/scgi_params pkg.content-hash=file:sha512t_256:e6dd7076b6319abc3fcd04554fede95c8cc40f1e21a83772c36577f939e81cb6 pkg.content-hash=gzip:sha512t_256:48efb28df3607f1a8b67eab95d4ca19526e8351d10529d97cb4af05250f8ee95 pkg.csize=275 pkg.size=636 preserve=true";
   "file cc2fcdb4605dcac23d59f667889ccbdfdc6e3668 chash=62320c6c207a26bf9c68c39d0372f4d4b97b905f group=bin mode=0644 owner=root path=etc/nginx/uwsgi_params pkg.content-hash=file:sha512t_256:eb133ae0a357df02b4b02615bc47dc2e5328105dac2dbcbd647667e9bbc3b2fd pkg.content-hash=gzip:sha512t_256:e5a2625a67f5502c5911d7e7a850030b6af89929e182b2da74ecf6e79df0e9d2 pkg.csize=284 pkg.size=664 preserve=true";
   "file e10f2d42c9e581901d810928d01a3bf8f3372838 chash=fd231cdd1a726fcb2abeba90b31cbf4c7df6df4d group=bin mode=0644 owner=root path=etc/nginx/win-utf pkg.content-hash=file:sha512t_256:7620f21db4c06f3eb863c0cb0a8b3f62c435abd2f8f47794c42f08ad434d90dd pkg.content-hash=gzip:sha512t_256:ca16a95ddd6ef2043969db20915935829b8ccb6134588e1710b24baf45afd7bb pkg.csize=1197 pkg.size=3610 preserve=true";
   "file 6d5f820bb1d67594c7b757c79ef6f9242df49e98 chash=3ab17dde089f1eac7abd37d8efd700b5139d70b2 elfarch=i386 elfbits=64 elfhash=25b0cdd7736cddad78ce91b61385a8fdde91f7b2 group=bin mode=0555 owner=root path=usr/sbin/nginx pkg.content-hash=gelf:sha512t_256:add9bfb171c2a173b8f12d375884711527f40e592d100a337a9fae078c8beabd pkg.content-hash=gelf.unsigned:sha512t_256:add9bfb171c2a173b8f12d375884711527f40e592d100a337a9fae078c8beabd pkg.content-hash=file:sha512t_256:3d87b058a8e69b3a8dfab142f5e856549dcd531a371e3ca4d2be391655b0d076 pkg.content-hash=gzip:sha512t_256:7f93c48194b3e164ea35a9d2ddff310215769dbd27b45e9ab72beef1cce0d4f6 pkg.csize=657230 pkg.size=1598048";
   "file path=usr/lib/golang/1.16/src/cmd/go/testdata/mod/rsc.io_!c!g!o_v1.0.0.txt";
   "file path=usr/lib/golang/1.16/src/runtime/runtime-gdb_test.go.~1~"].

Definition expected_file_1 : File :=
  MkFile
    (Some (MkPayload (Digest "4b76e83bb4bb7c87176b72ef805fe78ecae60d2c" DigestAlgorithm_default DigestSource_default)
         [Digest "7288afc78233791bb8e13b3e13aa4f0b4b1d6ee8" DigestAlgorithm_default DigestSource_default;
           Digest "42007aaee6bd54977eb33f91db28f931ab11c39787ba9f7851b6baf0d142185b" SHA512Half UncompressedFile;
           Digest "ec144533fa077af1d5b152d8c7549f113902021d71808adb12ea3f92bda9fd66" SHA512Half GzipCompressed] PayloadCompressionAlgorithm_default PayloadBits_default PayloadArchitecture_default))
    "lib/svc/method/http-nginx" "bin" "root" "555" false false "" "" ""
    [MkProperty "pkg.csize" "975";
      MkProperty "pkg.size" "1855"]
    ∅.

Definition expected_file_2 : File :=
  MkFile
    (Some (MkPayload (Digest "72e0496a02e72e7380b0b62cdc8410108302876f" DigestAlgorithm_default DigestSource_default)
         [Digest "2f82b51db9cbba0705cb680e5aa0f11ff237009b" DigestAlgorithm_default DigestSource_default;
           Digest "c0c3640d6e61b53a3dc4228adff7532ec6b5d09bf1847991a3aaa5eb3e04d19a" SHA512Half UncompressedFile;
           Digest "e1999bae58ef887d81dc686b794429a9dea0e7674b631c2a08f07fb9b34440e2" SHA512Half GzipCompressed] PayloadCompressionAlgorithm_default PayloadBits_default PayloadArchitecture_default))
    "lib/svc/manifest/network/http-nginx.xml" "sys" "root" "0444" false false "" "" ""
    [MkProperty "pkg.csize" "1067";
      MkProperty "pkg.size" "2844";
      MkProperty "restart_fmri" "svc:/system/manifest-import:default"]
    ∅.

Definition expected_file_3 : File :=
  MkFile
    (Some (MkPayload (Digest "95de71d58b37f9f74bede0e91bc381d6059fc2d7" DigestAlgorithm_default DigestSource_default)
         [Digest "c2e2e4cf82ec527800a2170d9e2565b75d557012" DigestAlgorithm_default DigestSource_default;
           Digest "b592728ea1dcd6dd0924e1e6767e217ad70ec6973086911d8bc07d44695b9f0e" SHA512Half UncompressedFile;
           Digest "8407d82b497c4a865841ab8874207cc5a4d581ba574d66074ef5f92f05ee13cf" SHA512Half GzipCompressed] PayloadCompressionAlgorithm_default PayloadBits_default PayloadArchitecture_default))
    "usr/share/nginx/html/50x.html" "bin" "root" "0444" false false "" "" ""
    [MkProperty "pkg.csize" "327";
      MkProperty "pkg.size" "494"]
    ∅.

Definition expected_file_4 : File :=
  MkFile
    (Some (MkPayload (Digest "7dd71afcfb14e105e80b0c0d7fce370a28a41f0a" DigestAlgorithm_default DigestSource_default)
         [Digest "50b7bcf6c555b8e9bde1eacd2c3d5c34a757c312" DigestAlgorithm_default DigestSource_default;
           Digest "204038cd5fbbcdd2c3d24acb7f41b1e861c51d689f53202ec69b43bdba01cb60" SHA512Half UncompressedFile;
           Digest "34bad6066578cf03289b0c957cb4f01a9353f91b3b95079d69bf9e12dd569279" SHA512Half GzipCompressed] PayloadCompressionAlgorithm_default PayloadBits_default PayloadArchitecture_default))
    "usr/share/nginx/html/index.html" "bin" "root" "0444" false false "" "" ""
    [MkProperty "pkg.csize" "381";
      MkProperty "pkg.size" "612"]
    ∅.

Definition expected_file_5 : File :=
  MkFile
    (Some (MkPayload (Digest "cbf596ddb3433a8e0d325f3c188bec9c1bb746b3" DigestAlgorithm_default DigestSource_default)
         [Digest "2df27ca83841b9c8e38c5aa30760372773166928" DigestAlgorithm_default DigestSource_default;
           Digest "d260c064680ec58135d9a290ed3cfd64274db769701ab3df2bfdeb653a864518" SHA512Half UncompressedFile;
           Digest "4924c0f4bdc37b832afd281ad07b0bf339c8c3a0e2d95e076998d46fab76a084" SHA512Half GzipCompressed] PayloadCompressionAlgorithm_default PayloadBits_default PayloadArchitecture_default))
    "etc/nginx/fastcgi.conf" "bin" "root" "0644" true false "" "" ""
    [MkProperty "pkg.csize" "448";
      MkProperty "pkg.size" "1077"]
    ∅.

Definition expected_file_6 : File :=
  MkFile
    (Some (MkPayload (Digest "da38e2a0dded838afbe0eade6cb837ac30fd8046" DigestAlgorithm_default DigestSource_default)
         [Digest "530616dc345f6acf0aea26db06e56aa41b2f510d" DigestAlgorithm_default DigestSource_default;
           Digest "baeeb2df301f8764568a86884c127e90faf39bee4ff0e53fb4a890955e605cee" SHA512Half UncompressedFile;
           Digest "5c6f541692556eacbde4ea1536de3c1af2cd8e9980fc4edca36851a97ed671ba" SHA512Half GzipCompressed] PayloadCompressionAlgorithm_default PayloadBits_default PayloadArchitecture_default))
    "etc/nginx/fastcgi_params" "bin" "root" "0644" true false "" "" ""
    [MkProperty "pkg.csize" "430";
      MkProperty "pkg.size" "1007"]
    ∅.

Definition expected_file_7 : File :=
  MkFile
    (Some (MkPayload (Digest "407cb51b397ba4ad90a2246640a81af18e2e917a" DigestAlgorithm_default DigestSource_default)
         [Digest "00d285c15dd65f24c4c89d5790094c38432a1ac6" DigestAlgorithm_default DigestSource_default;
           Digest "06381b2c4a28fe88c0d908f1cd81453c9482358c8195163e294b8def8924b366" SHA512Half UncompressedFile;
           Digest "d66022b08971eaf9ddf3230a991b0d8352fcefe0f797305a94b5ca0574d70ff5" SHA512Half GzipCompressed] PayloadCompressionAlgorithm_default PayloadBits_default PayloadArchitecture_default))
    "etc/nginx/koi-utf" "bin" "root" "0644" true false "" "" ""
    [MkProperty "pkg.csize" "938";
      MkProperty "pkg.size" "2837"]
    ∅.

Definition expected_file_8 : File :=
  MkFile
    (Some (MkPayload (Digest "19ec7fb71e7f00d7e8a1cfc1013490f0cfee572b" DigestAlgorithm_default DigestSource_default)
         [Digest "0f2588ac25780698ea7ebeac3ea0e9041502d501" DigestAlgorithm_default DigestSource_default;
           Digest "92d4df1df754d3e2cd8c52aba7415680c86097803b437bf0edcd8d022ab6aa8c" SHA512Half UncompressedFile;
           Digest "2ad3bb0540d800f2115691c96e8ed35b9b91eb5c248bea199da22ffd102cc847" SHA512Half GzipCompressed] PayloadCompressionAlgorithm_default PayloadBits_default PayloadArchitecture_default))
    "etc/nginx/koi-win" "bin" "root" "0644" true false "" "" ""
    [MkProperty "pkg.csize" "749";
      MkProperty "pkg.size" "2223"]
    ∅.

Definition expected_file_9 : File :=
  MkFile
    (Some (MkPayload (Digest "e39dbc36680b717ec902fadc805a302f1cf62245" DigestAlgorithm_default DigestSource_default)
         [Digest "325af5a4b735284a3cdfd3b04bd249ff22334965" DigestAlgorithm_default DigestSource_default;
           Digest "8217c6955d644400707c4ecf1539ece4ee2fd1be4838654860f2ef2ecacdebd4" SHA512Half UncompressedFile;
           Digest "46566d205da4d67a6e12a1d3d2f78e3602770ce42ef2c117ee95b821aec90100" SHA512Half GzipCompressed] PayloadCompressionAlgorithm_default PayloadBits_default PayloadArchitecture_default))
    "etc/nginx/mime.types" "bin" "root" "0644" true false "" "" ""
    [MkProperty "pkg.csize" "990";
      MkProperty "pkg.size" "5231"]
    ∅.

Definition expected_file_10 : File :=
  MkFile
    (Some (MkPayload (Digest "d143ca7a6aac765d28724af54d969a4bd2202383" DigestAlgorithm_default DigestSource_default)
         [Digest "adacb374c514459417f07cacd4f8bf60644c9651" DigestAlgorithm_default DigestSource_default;
           Digest "cc9263a836b4db441340d2e041adf10136c9a8aa31259b868000f88c84032ba1" SHA512Half UncompressedFile;
           Digest "cf0cd12b5f3f1d9d15378e1a1bacaaff7589bf2c129312b277b66ea3418acc54" SHA512Half GzipCompressed] PayloadCompressionAlgorithm_default PayloadBits_default PayloadArchitecture_default))
    "etc/nginx/nginx.conf" "bin" "root" "0644" true false "" "" ""
    [MkProperty "pkg.csize" "997";
      MkProperty "pkg.size" "2798"]
    ∅.

Definition expected_file_11 : File :=
  MkFile
    (Some (MkPayload (Digest "379c1e2a2a5ffb8c91a07328d4c9be2bc58799fd" DigestAlgorithm_default DigestSource_default)
         [Digest "2c75c59e0de9208a9b96460d0566e5686708310c" DigestAlgorithm_default DigestSource_default;
           Digest "e6dd7076b6319abc3fcd04554fede95c8cc40f1e21a83772c36577f939e81cb6" SHA512Half UncompressedFile;
           Digest "48efb28df3607f1a8b67eab95d4ca19526e8351d10529d97cb4af05250f8ee95" SHA512Half GzipCompressed] PayloadCompressionAlgorithm_default PayloadBits_default PayloadArchitecture_default))
    "etc/nginx/scgi_params" "bin" "root" "0644" true false "" "" ""
    [MkProperty "pkg.csize" "275";
      MkProperty "pkg.size" "636"]
    ∅.

Definition expected_file_12 : File :=
  MkFile
    (Some (MkPayload (Digest "cc2fcdb4605dcac23d59f667889ccbdfdc6e3668" DigestAlgorithm_default DigestSource_default)
         [Digest "62320c6c207a26bf9c68c39d0372f4d4b97b905f" DigestAlgorithm_default DigestSource_default;
           Digest "eb133ae0a357df02b4b02615bc47dc2e5328105dac2dbcbd647667e9bbc3b2fd" SHA512Half UncompressedFile;
           Digest "e5a2625a67f5502c5911d7e7a850030b6af89929e182b2da74ecf6e79df0e9d2" SHA512Half GzipCompressed] PayloadCompressionAlgorithm_default PayloadBits_default PayloadArchitecture_default))
    "etc/nginx/uwsgi_params" "bin" "root" "0644" true false "" "" ""
    [MkProperty "pkg.csize" "284";
      MkProperty "pkg.size" "664"]
    ∅.

Definition expected_file_13 : File :=
  MkFile
    (Some (MkPayload (Digest "e10f2d42c9e581901d810928d01a3bf8f3372838" DigestAlgorithm_default DigestSource_default)
         [Digest "fd231cdd1a726fcb2abeba90b31cbf4c7df6df4d" DigestAlgorithm_default DigestSource_default;
           Digest "7620f21db4c06f3eb863c0cb0a8b3f62c435abd2f8f47794c42f08ad434d90dd" SHA512Half UncompressedFile;
           Digest "ca16a95ddd6ef2043969db20915935829b8ccb6134588e1710b24baf45afd7bb" SHA512Half GzipCompressed] PayloadCompressionAlgorithm_default PayloadBits_default PayloadArchitecture_default))
    "etc/nginx/win-utf" "bin" "root" "0644" true false "" "" ""
    [MkProperty "pkg.csize" "1197";
      MkProperty "pkg.size" "3610"]
    ∅.

Definition expected_file_14 : File :=
  MkFile
    (Some (MkPayload (Digest "6d5f820bb1d67594c7b757c79ef6f9242df49e98" DigestAlgorithm_default DigestSource_default)
         [Digest "3ab17dde089f1eac7abd37d8efd700b5139d70b2" DigestAlgorithm_default DigestSource_default;
           Digest "add9bfb171c2a173b8f12d375884711527f40e592d100a337a9fae078c8beabd" SHA512Half GNUElf;
           Digest "add9bfb171c2a173b8f12d375884711527f40e592d100a337a9fae078c8beabd" SHA512Half GNUElfUnsigned;
           Digest "3d87b058a8e69b3a8dfab142f5e856549dcd531a371e3ca4d2be391655b0d076" SHA512Half UncompressedFile;
           Digest "7f93c48194b3e164ea35a9d2ddff310215769dbd27b45e9ab72beef1cce0d4f6" SHA512Half GzipCompressed] PayloadCompressionAlgorithm_default PayloadBits_default PayloadArchitecture_default))
    "usr/sbin/nginx" "bin" "root" "0555" false false "" "" ""
    [MkProperty "elfarch" "i386";
      MkProperty "elfbits" "64";
      MkProperty "elfhash" "25b0cdd7736cddad78ce91b61385a8fdde91f7b2";
      MkProperty "pkg.csize" "657230";
      MkProperty "pkg.size" "1598048"]
    ∅.

Definition expected_file_15 : File :=
  MkFile
    None
    "usr/lib/golang/1.16/src/cmd/go/testdata/mod/rsc.io_!c!g!o_v1.0.0.txt" "" "" "" false false "" "" ""
    []
    ∅.

Definition expected_file_16 : File :=
  MkFile
    None
    "usr/lib/golang/1.16/src/runtime/runtime-gdb_test.go.~1~" "" "" "" false false "" "" ""
    []
    ∅.

Definition files_expected : list File :=
  [expected_file_1; expected_file_2; expected_file_3; expected_file_4; expected_file_5; expected_file_6; expected_file_7; expected_file_8; expected_file_9; expected_file_10; expected_file_11; expected_file_12; expected_file_13; expected_file_14; expected_file_15; expected_file_16].

Definition dependencies_text : string := text
  ["depend fmri=pkg:/system/library@0.5.11-2020.0.1.19563 type=require";
   "depend fmri=pkg:/system/file-system/nfs@0.5.11,5.11-2020.0.1.19951 type=incorporate";
   "depend facet.version-lock.system/data/hardware-registry=true fmri=pkg:/system/data/hardware-registry@2020.2.22,5.11-2020.0.1.19951 type=incorporate";
   "depend facet.version-lock.xvm=true fmri=xvm@0.5.11-2015.0.2.0 type=incorporate";
   "depend facet.version-lock.system/mozilla-nss=true fmri=system/mozilla-nss@3.51.1-2020.0.1.0 type=incorporate"].

Definition dependencies_expected : list Dependency :=
  [MkDependency "pkg:/system/library@0.5.11-2020.0.1.19563" "require" "" "" []
     ∅;
   MkDependency "pkg:/system/file-system/nfs@0.5.11,5.11-2020.0.1.19951" "incorporate" "" "" []
     ∅;
   MkDependency "pkg:/system/data/hardware-registry@2020.2.22,5.11-2020.0.1.19951" "incorporate" "" "" []
     (<["version-lock.system/data/hardware-registry" := MkFacet "version-lock.system/data/hardware-registry" "true"]>
      (∅));
   MkDependency "xvm@0.5.11-2015.0.2.0" "incorporate" "" "" []
     (<["version-lock.xvm" := MkFacet "version-lock.xvm" "true"]>
      (∅));
   MkDependency "system/mozilla-nss@3.51.1-2020.0.1.0" "incorporate" "" "" []
     (<["version-lock.system/mozilla-nss" := MkFacet "version-lock.system/mozilla-nss" "true"]>
      (∅))].

Definition line_breaks_text : string := text
  ["link path=usr/lib/cups/backend/http target=ipp";
   "file Solaris/desktop-print-management mode=0555 path=usr/lib/cups/bin/desktop-print-management";
   "file Solaris/desktop-print-management-applet mode=0555 path=usr/lib/cups/bin/desktop-print-management-applet";
   "file Solaris/smb mode=0555 path=usr/lib/cups/backend/smb";
   "# SMF service start method script";
   "file Solaris/svc-cupsd mode=0644 path=lib/svc/method/svc-cupsd";
   "";
   "# SMF help";
   "file Solaris/ManageCUPS.html mode=0444 path=usr/lib/help/auths/locale/C/ManageCUPS.html"].

Definition line_breaks_files : list File :=
  [MkFile
     None
     "usr/lib/cups/bin/desktop-print-management" "" "" "0555" false false "" "" ""
     [MkProperty "original-path" "Solaris/desktop-print-management"]
     ∅;
   MkFile
     None
     "usr/lib/cups/bin/desktop-print-management-applet" "" "" "0555" false false "" "" ""
     [MkProperty "original-path" "Solaris/desktop-print-management-applet"]
     ∅;
   MkFile
     None
     "usr/lib/cups/backend/smb" "" "" "0555" false false "" "" ""
     [MkProperty "original-path" "Solaris/smb"]
     ∅;
   MkFile
     None
     "lib/svc/method/svc-cupsd" "" "" "0644" false false "" "" ""
     [MkProperty "original-path" "Solaris/svc-cupsd"]
     ∅;
   MkFile
     None
     "usr/lib/help/auths/locale/C/ManageCUPS.html" "" "" "0444" false false "" "" ""
     [MkProperty "original-path" "Solaris/ManageCUPS.html"]
     ∅].

Definition line_breaks_links : list Link :=
  [MkLink "usr/lib/cups/backend/http" "ipp" ∅].

Definition unicode_text : string := text
  ["link path=usr/lib/cups/пертинах/http target=Про";
   "# SMF blub";
   "link path=usr/lib/cups/пертинах/http target=blub"].

Definition unicode_links : list Link :=
  [MkLink "usr/lib/cups/пертинах/http" "Про" ∅;
   MkLink "usr/lib/cups/пертинах/http" "blub" ∅].

(** ** The tests, run *)

Ltac run_test := vm_compute; reflexivity.

Lemma parse_attributes :
  parse_string attributes_text = Ok (MkManifest attributes_expected [] [] [] [] []).
Proof. run_test. Qed.

Lemma parse_direcory_actions :
  parse_string directories_text = Ok (MkManifest [] directories_expected [] [] [] []).
Proof. run_test. Qed.

Lemma parse_file_actions :
  parse_string files_text = Ok (MkManifest [] [] files_expected [] [] []).
Proof. run_test. Qed.

Lemma parse_dependency_actions :
  parse_string dependencies_text = Ok (MkManifest [] [] [] dependencies_expected [] []).
Proof. run_test. Qed.

Lemma parse_line_breaks :
  parse_string line_breaks_text = Ok (MkManifest [] [] line_breaks_files [] [] line_breaks_links).
Proof. run_test. Qed.

Lemma parse_unicode :
  parse_string unicode_text = Ok (MkManifest [] [] [] [] [] unicode_links).
Proof. run_test. Qed.

(** The continuation the literal of [parse_line_breaks] loses, kept in the text. *)
Lemma parse_continued_lines :
  parse_string (text
    ["link " +:+ chr BACKSLASH;
     "    path=usr/lib/cups/backend/http " +:+ chr BACKSLASH;
     "    target=ipp"]) = Ok (MkManifest [] [] [] [] [] line_breaks_links).
Proof. run_test. Qed.
