(* ===== verification/MakefileGrammar.v ===== *)
(** * MakefileGrammar: the grammar of makefiles ([userland/src/makefile.pest])

    The rules of the grammar as data, the certificate that it is well-formed, and
    the shapes of the token trees it gives.  [variable_set], [variable_add],
    [comment_string] and [comment_character] are silent: the walker of [Makefile]
    never meets their tokens. *)

From S2P Require Import Prelude RustStr Peg.

Module MRule.
(** [enum Rule], as [pest_derive] generates it. *)
Inductive t : Set :=
| EOI
| WHITESPACE
| comment_string | comment_character
| variable_name_character | variable_name | variable_value_character | variable_value
| variable_set | variable_add | variable
| target_character | target_name | target
| include
| define_keyword | define_end_keyword | define_value_character | define_value | define
| makefile.

#[global] Instance t_eq_dec : EqDecision t.
Proof. solve_decision. Defined.
End MRule.

Import MRule.

Local Open Scope peg_scope.

Local Abbreviation lit := (λ s, Prim (R := MRule.t) (Lit s)).
Local Abbreviation ANY := (Prim (R := MRule.t) Any).
Local Abbreviation NEWLINE := (Prim (R := MRule.t) Newline).

Definition makefile_rule (r : MRule.t) : rule_type * pexp MRule.t :=
  match r with
  | EOI => (Normal, Prim End_)
  | WHITESPACE => (Silent, lit " " // lit (chr TAB))
  | comment_string => (Silent, lit "#" ~~ Star (Ref comment_character) ~~ NEWLINE)
  | comment_character => (Silent, Not NEWLINE ~~ ANY)
  | variable_name_character =>
      (Normal, Prim (Class_ UPPERCASE) // Prim (Class_ ASCII_DIGIT) // lit "_" // lit ".")
  | variable_name => (Atomic, Star (Ref variable_name_character))
  | variable_value_character => (Normal, Not NEWLINE ~~ ANY)
  | variable_value => (Atomic, Star (Ref variable_value_character))
  | variable_set => (Silent, lit "=")
  | variable_add => (Silent, lit "+=")
  | variable =>
      (Normal, Ref variable_name ~~ (Ref variable_set // Ref variable_add)
               ~~ Opt (Ref variable_value))
  | target_character => (Normal, Not (lit ":") ~~ ANY)
  | target_name => (Normal, Plus (Ref target_character))
  | target => (Normal, Ref target_name ~~ lit ":" ~~ Ref variable_value)
  | include => (Normal, lit "include" ~~ Ref variable_value)
  | define_keyword => (Silent, lit "define")
  | define_end_keyword => (Silent, NEWLINE ~~ lit "endef")
  | define_value_character => (Normal, Not (Ref define_end_keyword) ~~ ANY)
  | define_value => (Atomic, Star (Ref define_value_character))
  | define =>
      (Normal, Ref define_keyword ~~ Ref variable_name ~~ Ref variable_set ~~ NEWLINE
               ~~ Ref define_value ~~ Ref define_end_keyword)
  | makefile =>
      (Normal, Prim Soi
               ~~ Plus (NEWLINE // Ref comment_string // Ref define // Ref variable
                        // Ref include // Ref target)
               ~~ Ref EOI)
  end.

Definition makefile_grammar : grammar MRule.t := {|
  g_rule := makefile_rule;
  g_ws := Some WHITESPACE;
  g_comment := None;
|}.

Definition makefile_nul (r : MRule.t) : bool :=
  match r with EOI | variable_name | variable_value | define_value => true | _ => false end.

Definition makefile_rank (r : MRule.t) : nat :=
  match r with
  | comment_character | variable_name_character | define_value_character | define
  | variable_value_character | target_character => 1
  | variable_name | variable_value | define_value | target_name => 2
  | variable | target => 3
  | makefile => 4
  | _ => 0
  end.

#[export] Instance makefile_wf : WellFormed makefile_grammar.
Proof.
  refine {| wf_nul := makefile_nul; wf_rank := makefile_rank; wf_ranks := 5; wf_size := 150 |}.
  - intros []; vm_compute; reflexivity.
  - reflexivity.
Defined.

Local Close Scope peg_scope.

(** ** The shapes of the token trees *)

Local Abbreviation yields := (yields makefile_grammar).


Lemma set_or_add_shape rs : yields (Alt (Ref variable_set) (Ref variable_add)) rs → rs = [].
Proof.
  intros H. apply yields_alt_inv in H as [H|H]; apply yields_silent_inv in H; try done;
    cbn in H; by inv_yields.
Qed.

(** [variable]: its name, and its value if any; no token for the operator. *)
Lemma variable_shape rs :
  yields (body makefile_grammar variable) rs →
  rs = [variable_name] ∨ rs = [variable_name; variable_value].
Proof.
  intros H. cbn in H. apply yields_seq_inv in H as (r1 & r2 & -> & H1 & H2).
  apply yields_seq_inv in H2 as (r3 & r4 & -> & H3 & H4). apply set_or_add_shape in H3 as ->.
  inv_yields; auto.
Qed.

Lemma include_shape rs : yields (body makefile_grammar include) rs → rs = [variable_value].
Proof. intros H. cbn in H. by inv_yields. Qed.

(** [define]: its name and its text. *)
Lemma define_shape rs :
  yields (body makefile_grammar define) rs → rs = [variable_name; define_value].
Proof.
  intros H. cbn in H.
  apply yields_seq_inv in H as (r1 & r2 & -> & H1 & H).
  apply yields_seq_inv in H as (r3 & r4 & -> & H3 & H).
  apply yields_seq_inv in H as (r5 & r6 & -> & H5 & H).
  apply yields_seq_inv in H as (r7 & r8 & -> & H7 & H).
  apply yields_seq_inv in H as (r9 & r10 & -> & H9 & H).
  apply yields_silent_inv in H1, H5, H; try done. cbn in H1, H5, H. by inv_yields.
Qed.

(** The items of a [makefile]; comments give none. *)
Definition makefile_item (r : MRule.t) : bool :=
  match r with
  | define | variable | include | target | EOI => true
  | _ => false
  end.

Lemma makefile_shape rs :
  yields (body makefile_grammar makefile) rs → Forall makefile_item rs.
Proof.
  intros H. cbn in H. unfold Plus in H.
  assert (Hs : ∀ rs, yields (Ref comment_string) rs → Forall makefile_item rs).
  { intros rs' H'. apply yields_silent_inv in H'; try done. cbn in H'.
    apply yields_seq_inv in H' as (r1 & r2 & -> & H1 & H2). apply yields_prim_inv in H1 as ->.
    apply yields_seq_inv in H2 as (r3 & r4 & -> & H3 & H4). apply yields_prim_inv in H4 as ->.
    rewrite app_nil_r. simpl. eapply yields_star_Forall; [done|].
    intros rs'' H''. apply yields_silent_inv in H''; [|done..]. cbn in H''.
    apply yields_seq_inv in H'' as (r5 & r6 & -> & H5 & H6). apply yields_prim_inv in H6 as ->.
    inversion H5. constructor. }
  assert (Hi : ∀ rs, yields (Alt (Prim Newline) (Alt (Ref comment_string) (Alt (Ref define)
     (Alt (Ref variable) (Alt (Ref include) (Ref target)))))) rs → Forall makefile_item rs).
  { intros rs' H'. apply yields_alt_inv in H' as [H'|H']; [by apply yields_prim_inv in H' as ->|].
    apply yields_alt_inv in H' as [H'|H']; [by apply Hs|].
    clear H Hs. inv_yields; by repeat constructor. }
  apply yields_seq_inv in H as (r1 & r2 & -> & H1 & H2). apply yields_prim_inv in H1 as ->.
  apply yields_seq_inv in H2 as (r3 & r4 & -> & H3 & H4).
  apply yields_seq_inv in H3 as (r5 & r6 & -> & H5 & H6).
  apply yields_emit_inv in H4 as ->; [|done]. simpl. rewrite !Forall_app. split_and!; auto.
  by eapply yields_star_Forall.
Qed.
