(* ===== verification/Makefile.v ===== *)
(** * Makefile: makefiles, their parser and their merge ([userland/src/lib.rs])

    A makefile is its path, its variables and the texts of its include lines.
    [parse_string] runs the generated parser and walks the items of the file;
    [merge] writes the variables of one makefile over those of another. *)

From S2P Require Import Prelude RustStr World Peg MakefileGrammar.

Inductive VariableMode := Add | Set_.
#[export] Instance VariableMode_eq_dec : EqDecision VariableMode.
Proof. solve_decision. Defined.

(** [VariableMode::default] *)
Definition VariableMode_default : VariableMode := Set_.

Record MakefileVariable := MkVariable {
  key : string;
  values : list string;
  mode : VariableMode;
}.
#[export] Instance MakefileVariable_eq_dec : EqDecision MakefileVariable.
Proof. solve_decision. Defined.

(** [MakefileVariable::default] *)
Definition MakefileVariable_default : MakefileVariable := MkVariable "" [] VariableMode_default.

Record Makefile := MkMakefile {
  path : string;
  variables : gmap string MakefileVariable;
  includes : list string;
}.
#[export] Instance Makefile_eq_dec : EqDecision Makefile.
Proof. solve_decision. Defined.

(** [Makefile::default] *)
Definition Makefile_default : Makefile := MkMakefile "" ∅ [].

Definition set_path (p : string) (m : Makefile) : Makefile :=
  MkMakefile p (variables m) (includes m).
(** [m.variables.insert(name, var)] *)
Definition insert_variable (name : string) (var : MakefileVariable) (m : Makefile) : Makefile :=
  MkMakefile (path m) (<[name := var]> (variables m)) (includes m).
(** [m.includes.push(incl)] *)
Definition push_include (incl : string) (m : Makefile) : Makefile :=
  MkMakefile (path m) (variables m) (includes m ++ [incl]).

(** [var.values.push(v)] *)
Definition push_value (v : string) (var : MakefileVariable) : MakefileVariable :=
  MkVariable (key var) (values var ++ [v]) (mode var).
Definition set_mode (mo : VariableMode) (var : MakefileVariable) : MakefileVariable :=
  MkVariable (key var) (values var) mo.

(** ** The walk over the token tree *)

(** The body of the loop of [parse_include]. *)
Definition include_step (m : Makefile) (p : token MRule.t) : outcome anyhow Makefile :=
  match as_rule p with
  | MRule.variable_value => Ok (push_include (as_str p) m)
  | _ => Panic "unexpected rule inside include rule expected variable_value"
  end.
Definition parse_include (include_pair : list (token MRule.t)) (m : Makefile) : outcome anyhow Makefile :=
  foldM include_step m include_pair.

(** The body of the loop of [parse_define], on the pair [var]. *)
Definition define_step (var : string * MakefileVariable) (p : token MRule.t) :
  outcome anyhow (string * MakefileVariable) :=
  match as_rule p with
  | MRule.variable_name => Ok (as_str p, var.2)
  | MRule.define_value => Ok (var.1, push_value (as_str p) var.2)
  | _ => Panic "unexpected rule inside define rule expected variable_name, define_value"
  end.
Definition parse_define (define_pair : list (token MRule.t)) (m : Makefile) : outcome anyhow Makefile :=
  var ← foldM define_step ("", MakefileVariable_default) define_pair;
  Ok (insert_variable var.1 var.2 m).

(** The body of the loop of [parse_variable], on the pair [var]. *)
Definition variable_step (m : Makefile) (var : string * MakefileVariable) (p : token MRule.t) :
  outcome anyhow (string * MakefileVariable) :=
  match as_rule p with
  | MRule.variable_name => Ok (as_str p, var.2)
  | MRule.variable_set => Ok (var.1, set_mode Set_ var.2)
  | MRule.variable_add => Ok (var.1, set_mode Add var.2)
  | MRule.variable_value =>
      match mode var.2 with
      | Add =>
          let v := match variables m !! var.1 with Some v => v | None => var.2 end in
          Ok (var.1, push_value (as_str p) v)
      | Set_ => Ok (var.1, push_value (as_str p) var.2)
      end
  | _ => Panic "unexpected rule inside makefile rule expected variable_name, variable_set, variable_add, variable_value"
  end.
Definition parse_variable (variable_pair : list (token MRule.t)) (m : Makefile) : outcome anyhow Makefile :=
  var ← foldM (variable_step m) ("", MakefileVariable_default) variable_pair;
  Ok (insert_variable var.1 var.2 m).

(** The message of the panic of [parse_makefile]. *)
Definition unexpected_item : string :=
  "unexpected rule inside makefile rule expected variable, define, comment, NEWLINE, include, target".

(** The body of the loop of [parse_makefile]. *)
Definition makefile_step (m : Makefile) (p : token MRule.t) : outcome anyhow Makefile :=
  match as_rule p with
  | MRule.variable => parse_variable (into_inner p) m
  | MRule.comment_string => Ok m
  | MRule.include => parse_include (into_inner p) m
  | MRule.target => Ok m
  | MRule.define => parse_define (into_inner p) m
  | MRule.EOI => Ok m
  | _ => Panic unexpected_item
  end.
Definition parse_makefile (pairs : list (token MRule.t)) (m : Makefile) : outcome anyhow Makefile :=
  foldM makefile_step m pairs.

(** [parse_string] *)
Definition parse_string `{PestEngine} (content : string) : outcome anyhow Makefile :=
  makefile_pair ← map_err AnyPest (of_sum (pest_parse makefile_grammar MRule.makefile content));
  foldM (λ m p,
    match as_rule p with
    | MRule.makefile => parse_makefile (into_inner p) m
    | _ => Panic "unexpected rule inside pair expected manifest"
    end) Makefile_default makefile_pair.

(** ** What the walk computes *)

(** The text of the first child of [t] made by the rule [r]. *)
Definition child_text (r : MRule.t) (t : token MRule.t) : string :=
  default "" (as_str <$> head (filter (λ c, as_rule c = r) (into_inner t))).

(** The reference reading of the items of a makefile: each assignment and each
    definition replaces the value of its variable, whatever its operator. *)
Definition item_effect (m : Makefile) (t : token MRule.t) : Makefile :=
  match as_rule t with
  | MRule.variable =>
      insert_variable (child_text MRule.variable_name t)
        (MkVariable "" [child_text MRule.variable_value t] Set_) m
  | MRule.define =>
      insert_variable (child_text MRule.variable_name t)
        (MkVariable "" [child_text MRule.define_value t] Set_) m
  | MRule.include => push_include (child_text MRule.variable_value t) m
  | _ => m
  end.

Section walk.
Context `{PE : PestEngine, !PestLaws}.
Context (full : string).
Local Abbreviation genuine := (genuine pest_uppercase makefile_grammar full).

(** A [variable] token has a value, which may be empty. *)
Lemma variable_children span ps :
  genuine (Tok MRule.variable span ps) → as_rule <$> ps = [MRule.variable_name; MRule.variable_value].
Proof.
  intros Hg. pose proof Hg as Hg'. inversion Hg as [? ? ? s' Hp _]; subst.
  apply genuine_inner, variable_shape in Hg' as [Hps|]; [|done..]. exfalso.
  cbn in Hp. apply peg_seq_inv in Hp as (ps1 & s1 & ps2 & s2 & ps3 & H1 & _ & H2 & ->).
  apply peg_seq_inv in H2 as (ps4 & s3 & ps5 & s4 & ps6 & H3 & _ & H4 & ->).
  apply peg_ref_token in H1 as (? & ? & -> & _); [|done].
  apply (peg_yields _ _ _ (GMatch _)), set_or_add_shape, fmap_nil_inv in H3 as ->.
  apply peg_opt_inv in H4 as [(? & ? & -> & _)%peg_ref_token|(_ & _ & H4)]; [done..|].
  by apply peg_ref_fail_inv, peg_star_ok in H4.
Qed.

Lemma parse_variable_ok m span ps :
  genuine (Tok MRule.variable span ps) →
  parse_variable ps m = Ok (item_effect m (Tok MRule.variable span ps)).
Proof.
  intros Hps%variable_children. destruct ps as [|[r1 n ?] [|[r2 v ?] [|]]]; simplify_eq/=. done.
Qed.

Lemma parse_define_ok m span ps :
  genuine (Tok MRule.define span ps) →
  parse_define ps m = Ok (item_effect m (Tok MRule.define span ps)).
Proof.
  intros Hps%genuine_inner%define_shape; [|done].
  destruct ps as [|[r1 n ?] [|[r2 v ?] [|]]]; simplify_eq/=. done.
Qed.

Lemma parse_include_ok m span ps :
  genuine (Tok MRule.include span ps) →
  parse_include ps m = Ok (item_effect m (Tok MRule.include span ps)).
Proof.
  intros Hps%genuine_inner%include_shape; [|done].
  destruct ps as [|[r1 n ?] [|]]; simplify_eq/=. done.
Qed.

(** Every item is applied. *)
Lemma makefile_step_ok m t :
  genuine t → makefile_item (as_rule t) → makefile_step m t = Ok (item_effect m t).
Proof.
  destruct t as [r span ps]. unfold makefile_step. simpl. intros Hg Hi. destruct r; try done.
  - by apply parse_variable_ok.
  - by apply parse_include_ok.
  - by apply parse_define_ok.
Qed.

Lemma parse_makefile_ok m ts :
  Forall genuine ts → Forall makefile_item (as_rule <$> ts) →
  parse_makefile ts m = Ok (foldl item_effect m ts).
Proof.
  unfold parse_makefile. revert m.
  induction ts as [|t ts IH]; intros m Hg Hi; [done|]. cbn [foldM].
  apply Forall_cons in Hg as [Hg Hgs]. rewrite fmap_cons, Forall_cons in Hi. destruct Hi as [Hi His].
  rewrite makefile_step_ok by done. by apply IH.
Qed.
End walk.

(** ** Parsing *)

(** The items of a parse, in order. *)
Definition items_of (ps : list (token MRule.t)) : list (token MRule.t) := ps ≫= into_inner.

(** The assignments of an item: a variable's name and what it is set to. *)
Definition assignment_of (t : token MRule.t) : list (string * MakefileVariable) :=
  match as_rule t with
  | MRule.variable =>
      [(child_text MRule.variable_name t, MkVariable "" [child_text MRule.variable_value t] Set_)]
  | MRule.define =>
      [(child_text MRule.variable_name t, MkVariable "" [child_text MRule.define_value t] Set_)]
  | _ => []
  end.
Definition include_of (t : token MRule.t) : list string :=
  match as_rule t with
  | MRule.include => [child_text MRule.variable_value t]
  | _ => []
  end.

Lemma item_effect_all m ts :
  foldl item_effect m ts =
    MkMakefile (path m)
      (foldl (λ vs kv, <[kv.1 := kv.2]> vs) (variables m) (ts ≫= assignment_of))
      (includes m ++ (ts ≫= include_of)).
Proof.
  revert m; induction ts as [|t ts IH]; intros m; simpl.
  - destruct m; simpl. by rewrite app_nil_r.
  - rewrite IH. rewrite foldl_app.
    unfold item_effect, assignment_of, include_of. destruct (as_rule t); simpl; try done.
    by rewrite <-(assoc_L (++)).
Qed.

(** A plain variable holds one value, which replaces what it held before. *)
Definition plain_variable (v : MakefileVariable) : Prop := mode v = Set_ ∧ ∃ x, values v = [x].
(** A plain makefile has plain variables only. *)
Definition plain (m : Makefile) : Prop := map_Forall (λ _ v, plain_variable v) (variables m).

Lemma plain_default : plain Makefile_default.
Proof. apply map_Forall_empty. Qed.

Lemma plain_item_effect m t : plain m → plain (item_effect m t).
Proof.
  intros Hm. unfold item_effect. destruct (as_rule t); try done;
    (apply map_Forall_insert_2; [by split; eauto|done]).
Qed.

Lemma plain_items m ts : plain m → plain (foldl item_effect m ts).
Proof. revert m; induction ts; simpl; auto using plain_item_effect. Qed.

Section parse.
Context `{PE : PestEngine, !PestLaws}.

Lemma parse_string_items content ps :
  pest_parse makefile_grammar MRule.makefile content = inr ps →
  parse_string content = Ok (foldl item_effect Makefile_default (items_of ps)).
Proof.
  intros Hp. unfold parse_string. rewrite Hp. cbn [of_sum map_err mbind outcome_bind].
  pose proof (pest_parse_genuine _ _ _ _ Hp) as Hg.
  apply pest_parse_yields, yields_emit_inv in Hp; [|done].
  destruct ps as [|[r span ps] [|]]; simplify_eq/=. rewrite Forall_singleton in Hg.
  unfold items_of. simpl. rewrite app_nil_r.
  rewrite (parse_makefile_ok content); [done|..].
  - by eapply genuine_inner_genuine.
  - by apply makefile_shape; eapply genuine_inner.
Qed.

Lemma parse_string_plain content m : parse_string content = Ok m → plain m.
Proof.
  intros Hm. destruct (pest_parse makefile_grammar MRule.makefile content) as [e|ps] eqn:Hp.
  { unfold parse_string in Hm. by rewrite Hp in Hm. }
  rewrite (parse_string_items _ _ Hp) in Hm. simplify_eq.
  apply plain_items, plain_default.
Qed.

(** C18. Parsing a makefile, on every text: the error of the generated parser on a
    text outside the grammar, otherwise the items of the file applied in order to
    the empty makefile.  Comments and targets have no effect, and none of the
    "unexpected rule" arms is ever reached: the parser never panics. *)
Theorem makefile_cases content :
  parse_string content =
    match pest_parse makefile_grammar MRule.makefile content with
    | inl e => Err (AnyPest e)
    | inr ps => Ok (foldl item_effect Makefile_default (items_of ps))
    end.
Proof.
  destruct (pest_parse makefile_grammar MRule.makefile content) as [e|ps] eqn:Hp.
  - unfold parse_string. by rewrite Hp.
  - by apply parse_string_items.
Qed.

(** C21. The makefile that parsing returns: a variable is what its last assignment
    or definition says, whether the operator is [=] or [+=], and the includes are
    the texts of the include lines, in order. *)
Theorem parse_string_last_assignment content m :
  parse_string content = Ok m →
  ∃ ps, pest_parse makefile_grammar MRule.makefile content = inr ps ∧
    (∀ k, variables m !! k = last_of k (items_of ps ≫= assignment_of)) ∧
    includes m = items_of ps ≫= include_of ∧ path m = "".
Proof.
  intros Hm. destruct (pest_parse makefile_grammar MRule.makefile content) as [e|ps] eqn:Hp.
  { unfold parse_string in Hm. by rewrite Hp in Hm. }
  exists ps. rewrite (parse_string_items _ _ Hp) in Hm. simplify_eq.
  rewrite item_effect_all. simpl. split_and!; [done| |done|done].
  intros k. rewrite foldl_insert_lookup, lookup_empty. by destruct (last_of k _).
Qed.
End parse.

(** ** Merging *)

(** The body of the loop of [Makefile::merge]. *)
Definition merge_variable (vars : gmap string MakefileVariable) (e : string * MakefileVariable) :
  gmap string MakefileVariable :=
  let '(key, var) := e in
  match mode var with
  | Add =>
      match vars !! key with
      | Some v =>
          let new_variable := foldl (λ n val, push_value val n) v (values var) in
          <[key := set_mode (mode var) new_variable]> vars
      | None => <[key := var]> vars
      end
  | Set_ => <[key := var]> vars
  end.

(** [Makefile::merge], when the iteration over [other.variables] gives the
    [entries]. *)
Definition merge_entries (self : Makefile) (entries : list (string * MakefileVariable)) : Makefile :=
  MkMakefile (path self) (foldl merge_variable (variables self) entries) (includes self).
Definition merge (self other : Makefile) : outcome anyhow Makefile :=
  Ok (merge_entries self (map_to_list (variables other))).

(** What a variable is after a merge. *)
Definition merged (mine theirs : option MakefileVariable) : option MakefileVariable :=
  match theirs with
  | None => mine
  | Some var =>
      match mode var, mine with
      | Add, Some v => Some (MkVariable (key v) (values v ++ values var) Add)
      | _, _ => Some var
      end
  end.

Lemma push_values v vals :
  foldl (λ n val, push_value val n) v vals = MkVariable (key v) (values v ++ vals) (mode v).
Proof.
  revert v; induction vals as [|x vals IH]; intros v; simpl.
  - rewrite app_nil_r. by destruct v.
  - rewrite IH. simpl. by rewrite <-(assoc_L (++)).
Qed.

Lemma merge_variable_lookup vars k var k' :
  merge_variable vars (k, var) !! k' =
    if decide (k = k') then merged (vars !! k) (Some var) else vars !! k'.
Proof.
  unfold merge_variable, merged. case_decide as Hk; [subst|];
    destruct (mode var); try destruct (vars !! _) eqn:He; simplify_map_eq; try done;
    by rewrite push_values.
Qed.

Lemma merge_entries_lookup vars entries k :
  NoDup entries.*1 →
  foldl merge_variable vars entries !! k =
    merged (vars !! k) (list_to_map (M := gmap string MakefileVariable) entries !! k).
Proof.
  revert vars; induction entries as [|[k' var] entries IH]; intros vars Hnd; [done|].
  rewrite fmap_cons in Hnd. apply NoDup_cons in Hnd as [Hk' Hnd]. simpl in Hk'.
  cbn [foldl]. rewrite IH by done. rewrite merge_variable_lookup, list_to_map_cons.
  case_decide as Hk; subst.
  - by rewrite lookup_insert_eq, (not_elem_of_list_to_map_1 (M:=gmap string)).
  - by rewrite lookup_insert_ne.
Qed.

(** C13. Merging [other] into a makefile gives each variable its merged value,
    keeps the path and the includes, and does not depend on the order in which
    the hash map hands out the variables of [other]. *)
Theorem merge_spec self other entries :
  entries ≡ₚ map_to_list (variables other) →
  merge self other = Ok (merge_entries self entries) ∧
  path (merge_entries self entries) = path self ∧
  includes (merge_entries self entries) = includes self ∧
  ∀ k, variables (merge_entries self entries) !! k =
    merged (variables self !! k) (variables other !! k).
Proof.
  intros Hperm.
  assert (Hl : ∀ es, es ≡ₚ map_to_list (variables other) → ∀ k,
    foldl merge_variable (variables self) es !! k = merged (variables self !! k) (variables other !! k)).
  { intros es Hes k.
    assert (NoDup es.*1) by (rewrite Hes; apply NoDup_fst_map_to_list).
    rewrite merge_entries_lookup by done.
    rewrite (list_to_map_proper _ (map_to_list (variables other))) by done.
    by rewrite list_to_map_to_list. }
  split_and!; [|done|done|by apply Hl]. unfold merge, merge_entries. do 2 f_equal.
  apply map_eq. intros k. by rewrite !Hl.
Qed.
