(* ===== verification/MakefileText.v ===== *)
(** * MakefileText: makefiles as texts

    What the parser of makefiles does with a whole text: assignments,
    definitions, include lines, comments and blank lines, as they are written,
    and the makefile they give.  From it, every makefile with plain variables is
    what some text parses to ([print_makefile]). *)

From S2P Require Import Prelude RustStr World Peg PegEngine PegText MakefileGrammar Makefile.

(** ** Items *)

Inductive item :=
| Blank
| Comment (c : string)
| Assign (name : string) (append : bool) (value : string)
| Include (file : string)
| Define (name value : string).

Definition write_item (i : item) : string :=
  match i with
  | Blank => chr LF
  | Comment c => String "#" (c +:+ chr LF)
  | Assign n append v => n +:+ (if append then " += " else " = ") +:+ v +:+ chr LF
  | Include f => "include " +:+ f +:+ chr LF
  | Define n v => "define " +:+ n +:+ " =" +:+ chr LF +:+ v +:+ chr LF +:+ "endef" +:+ chr LF
  end.
Fixpoint write_items (its : list item) : string :=
  match its with [] => EmptyString | i :: its => write_item i +:+ write_items its end.

Definition name_byte (a : ascii) : bool :=
  is_upper a || is_digit a || Ascii.eqb a "_" || Ascii.eqb a ".".
Definition name_ok (n : string) : bool := negb (is_empty n) && all_bytes name_byte n.
(** The rest of a line, which does not start with a blank. *)
Definition no_blank (s : string) : bool :=
  match s with String a _ => negb (is_blank a) | EmptyString => true end.
Definition line_ok (v : string) : bool :=
  utf8_valid v && all_bytes (λ a, negb (is_eol a)) v && no_blank v.
(** No line of the text starts with the keyword that ends a definition. *)
Fixpoint no_endef (s : string) : bool :=
  match s with
  | EmptyString => true
  | String a s => negb (Ascii.eqb a LF && starts_with "endef" s) && no_endef s
  end.
Definition text_ok (v : string) : bool :=
  utf8_valid v && all_bytes (λ a, negb (Ascii.eqb a CR)) v && no_blank v && no_endef v.

Definition item_ok (i : item) : Prop :=
  match i with
  | Blank => True
  | Comment c => utf8_valid c = true ∧ all_bytes (λ a, negb (is_eol a)) c = true
  | Assign n _ v => name_ok n = true ∧ line_ok v = true
  | Include f => line_ok f = true
  | Define n v => name_ok n = true ∧ text_ok v = true
  end.

(** What an item does to a makefile; the operator of an assignment is ignored. *)
Definition apply_item (m : Makefile) (i : item) : Makefile :=
  match i with
  | Assign n _ v | Define n v => insert_variable n (MkVariable "" [v] Set_) m
  | Include f => push_include f m
  | _ => m
  end.

Definition item_tokens (i : item) : list (token MRule.t) :=
  match i with
  | Assign n append v =>
      [Tok MRule.variable (n +:+ (if append then " += " else " = ") +:+ v)
         [Tok MRule.variable_name n []; Tok MRule.variable_value v []]]
  | Include f => [Tok MRule.include ("include " +:+ f) [Tok MRule.variable_value f []]]
  | Define n v =>
      [Tok MRule.define ("define " +:+ n +:+ " =" +:+ chr LF +:+ v +:+ chr LF +:+ "endef")
         [Tok MRule.variable_name n []; Tok MRule.define_value v []]]
  | _ => []
  end.

(** ** The pieces of a line *)

Section pieces.
Context `{PE : PestEngine, !PestLaws} (full : string).
Local Abbreviation G := makefile_grammar.
Local Abbreviation peg := (peg pest_uppercase G full).
Local Abbreviation eats := (eats pest_uppercase G full).

Lemma mk_name_byte_ascii a : name_byte a = true → nat_of_ascii a < 128.
Proof. intros Ha. apply Nat.ltb_lt. revert a Ha. by_bytes. Qed.

Lemma mk_skip_to bl s :
  all_bytes is_blank bl = true → starts (λ a, negb (is_blank a)) s →
  peg false GSkip (bl +:+ s) (Some ([], s)).
Proof. by apply (skip_blanks _ _ _ MRule.WHITESPACE). Qed.

Lemma mk_skip_none s : starts (λ a, negb (is_blank a)) s → peg false GSkip s (Some ([], s)).
Proof. apply (mk_skip_to EmptyString). done. Qed.

Local Abbreviation name_char :=
  (Alt (Prim (Class_ UPPERCASE)) (Alt (Prim (Class_ ASCII_DIGIT)) (Alt (Prim (Lit "_")) (Prim (Lit "."))))).

Lemma mk_eats_name_char a : name_byte a = true → eats (Ref MRule.variable_name_character) (chr a).
Proof.
  intros Ha. apply eats_ref. intros s. change (chr a +:+ s) with (String a s).
  pose proof (mk_name_byte_ascii a Ha) as Hlt. cbn [body g_rule G makefile_rule snd].
  destruct (is_upper a) eqn:Hu.
  { apply peg_alt_l, peg_class_ok; [done|]. simpl. by rewrite pest_uppercase_ascii. }
  apply peg_alt_r; [apply peg_class_fail; [done|]; simpl; by rewrite pest_uppercase_ascii|].
  destruct (is_digit a) eqn:Hd; [by apply peg_alt_l, peg_class_ok|].
  apply peg_alt_r; [by apply peg_class_fail|]. unfold name_byte in Ha. rewrite Hu, Hd in Ha.
  apply orb_true_iff in Ha as [Ha%Ascii.eqb_eq|Ha%Ascii.eqb_eq]; rewrite Ha.
  - by apply peg_alt_l, (peg_lit_ok _ _ _ _ "_").
  - apply peg_alt_r; [apply peg_lit_other; by left|by apply (peg_lit_ok _ _ _ _ ".")].
Qed.

(** Where a name stops: at a byte of ASCII that is no byte of a name. *)
Lemma mk_name_char_stop a s :
  (nat_of_ascii a <? 128) && negb (name_byte a) = true →
  peg true (GMatch (Ref MRule.variable_name_character)) (String a s) None.
Proof.
  intros [Hlt%Nat.ltb_lt Hn%negb_true_iff]%andb_true_iff. apply peg_ref_inside_fail. cbn.
  unfold name_byte in Hn. rewrite !orb_false_iff in Hn. destruct Hn as [[[Hu Hd] H1] H2].
  apply peg_alt_none; [apply peg_class_fail; [done|]; simpl; by rewrite pest_uppercase_ascii|].
  apply peg_alt_none; [by apply peg_class_fail|].
  apply peg_alt_none; apply peg_lit_other; left; simpl; by apply negb_true_iff.
Qed.

Lemma name_run n a s :
  all_bytes name_byte n = true → (nat_of_ascii a <? 128) && negb (name_byte a) = true →
  peg true (GMatch (body G MRule.variable_name)) (n +:+ String a s) (Some ([], String a s)).
Proof.
  intros Hn Ha. apply peg_star_run; [|by apply mk_name_char_stop].
  eapply runs_impl; [|apply runs_ascii; [apply mk_name_byte_ascii|exact Hn]].
  intros c (b & -> & Hb). by apply mk_eats_name_char.
Qed.

Lemma mk_name_token n a s :
  all_bytes name_byte n = true → (nat_of_ascii a <? 128) && negb (name_byte a) = true →
  peg false (GMatch (Ref MRule.variable_name)) (n +:+ String a s)
    (Some ([Tok MRule.variable_name n []], String a s)).
Proof. intros Hn Ha. apply peg_ref_atomic; [done|by apply name_run]. Qed.

Lemma mk_name_starts n s : name_ok n = true → starts name_byte (n +:+ s).
Proof. intros [Hne Hn]%andb_true_iff. apply starts_app; [by destruct n|done]. Qed.

Lemma value_token v t :
  utf8_valid v = true → all_bytes (λ a, negb (is_eol a)) v = true →
  peg false (GMatch (Ref MRule.variable_value)) (v +:+ String LF t)
    (Some ([Tok MRule.variable_value v []], String LF t)).
Proof. intros Hv Hb. apply peg_ref_atomic; [done|by apply peg_line_run]. Qed.

Lemma mk_line_starts v t : no_blank v = true → starts (λ a, negb (is_blank a)) (v +:+ String LF t).
Proof. intros Hv. left. by destruct v. Qed.

(** A silent rule that is a literal. *)
Lemma silent_lit r l s :
  type_of G r = Silent → is_special G r = false → body G r = Prim (Lit l) →
  peg false (GMatch (Ref r)) (l +:+ s) (Some ([], s)).
Proof.
  intros Ht Hs Hb. pose proof (peg_ref_ok pest_uppercase G full false r (l +:+ s) l [] s) as Hr.
  unfold emit, body_atomic in Hr. rewrite Ht, Hs, Hb in Hr. apply Hr; [apply peg_lit_ok|done].
Qed.

Lemma silent_fail r s :
  type_of G r = Silent → is_special G r = false → peg false (GMatch (body G r)) s None →
  peg false (GMatch (Ref r)) s None.
Proof. intros Ht Hs Hf. apply peg_ref_fail. unfold body_atomic. by rewrite Ht, Hs. Qed.

(** ** Comments *)

(** A character of a comment. *)
Definition line_char (c : string) : Prop := first_byte (λ a, negb (is_eol a)) c = true.

Lemma comment_char c s :
  whole_char c → line_char c → first_byte (λ a, negb (is_blank a)) c = true →
  peg false (GMatch (Ref MRule.comment_character)) (c +:+ s) (Some ([], s)).
Proof.
  intros Hc Hl Hb. unfold line_char in Hl.
  pose proof (peg_ref_ok pest_uppercase G full false MRule.comment_character (c +:+ s) c [] s) as Hr.
  apply Hr; [|done]. clear Hr. cbn.
  apply (peg_seq_ok _ _ _ _ _ _ _ [] (c +:+ s) [] (c +:+ s) []); [| |by apply peg_any_ok];
    (destruct c as [|a u]; [done|]); rewrite str_app_cons.
  - apply peg_not_ok, peg_newline_other. by left.
  - apply mk_skip_none. by left.
Qed.

Lemma comment_char_end t : peg false (GMatch (Ref MRule.comment_character)) (String LF t) None.
Proof. apply silent_fail; [done..|]. apply peg_seq_fail1. eapply peg_not_fail, peg_newline_LF. Qed.

Lemma whole_blank a u : is_blank a = true → whole_char (String a u) → u = EmptyString.
Proof.
  intros Ha Hc. assert ((nat_of_ascii a <? 192) = true) as Hlt by (clear Hc; revert a Ha; by_bytes).
  unfold whole_char, utf8_len in Hc. rewrite Hlt in Hc. by destruct u.
Qed.

(** A comment goes on to the end of its line, whatever blanks it holds. *)
Lemma comment_tail x t bl :
  runs line_char x → all_bytes is_blank bl = true →
  ∃ bl', all_bytes is_blank bl' = true ∧
    peg false (GTail (Ref MRule.comment_character)) (bl +:+ x +:+ String LF t) (Some ([], bl' +:+ String LF t)).
Proof.
  intros Hx. revert bl. induction Hx as [|c x Hc Hl _ IH]; intros bl Hbl.
  - exists bl. split; [done|].
    eapply (peg_tail_stop _ _ _ _ _ _ [] (String LF t)); [by apply mk_skip_to; [|left]|apply comment_char_end].
  - destruct (first_byte is_blank c) eqn:Hb.
    + destruct c as [|a u]; [done|]. apply (whole_blank a u Hb) in Hc as ->.
      destruct (IH (bl +:+ chr a)) as (bl' & Hbl' & Ht).
      { rewrite all_bytes_app, Hbl. simpl in *. by rewrite Hb. }
      exists bl'. split; [done|]. by rewrite <-!str_app_assoc in Ht |- *.
    + destruct (IH EmptyString eq_refl) as (bl' & Hbl' & Ht). exists bl'. split; [done|].
      rewrite <-str_app_assoc.
      assert (Hnb : first_byte (λ a, negb (is_blank a)) c = true) by (destruct c; simpl in *; [done|by rewrite Hb]).
      eapply (peg_tail_go _ _ _ _ _ _ [] (c +:+ (x +:+ String LF t)) [] _ []); [|by apply comment_char|exact Ht].
      apply mk_skip_to; [done|]. left. by destruct c.
Qed.

Lemma strip_blanks P x :
  runs P x → ∃ bl y, x = bl +:+ y ∧ all_bytes is_blank bl = true ∧ runs P y ∧ no_blank y = true.
Proof.
  induction 1 as [|c x Hc Hp Hx (bl & y & -> & Hbl & Hy & Hn)]; [by exists "", ""; repeat constructor|].
  destruct (first_byte is_blank c) eqn:Hb.
  - destruct c as [|a u]; [done|]. apply (whole_blank a u Hb) in Hc as ->.
    exists (String a bl), y. split_and!; [done| |done..]. simpl in *. by rewrite Hb.
  - exists "", (c +:+ (bl +:+ y)). split_and!; [done..|by constructor|].
    destruct c as [|a u]; [done|]. rewrite str_app_cons. simpl in *. by rewrite Hb.
Qed.

Lemma comment_match c t :
  utf8_valid c = true → all_bytes (λ a, negb (is_eol a)) c = true →
  peg false (GMatch (Ref MRule.comment_string)) (write_item (Comment c) +:+ t) (Some ([], t)).
Proof.
  intros Hv Hb. pose proof (peg_ref_ok pest_uppercase G full false MRule.comment_string
    (write_item (Comment c) +:+ t) (write_item (Comment c)) [] t) as Hr.
  apply Hr; [|done]. clear Hr. cbn [write_item].
  change (String "#" (c +:+ chr LF)) with ("#" +:+ (c +:+ chr LF)). rewrite <-!str_app_assoc.
  destruct (strip_blanks _ _ (utf8_runs _ _ Hv Hb)) as (bl & y & -> & Hbl & Hy & Hn).
  change (chr LF +:+ t) with (String LF t). rewrite <-str_app_assoc.
  eapply (peg_seq_ok _ _ _ _ _ _ _ [] _ [] (y +:+ String LF t) []);
    [apply peg_lit_ok|apply mk_skip_to; [done|by apply mk_line_starts]|].
  assert (∃ bl', all_bytes is_blank bl' = true ∧
    peg false (GMatch (Star (Ref MRule.comment_character))) (y +:+ String LF t) (Some ([], bl' +:+ String LF t)))
    as (bl' & Hbl' & Hstar).
  { destruct Hy as [|ch x Hc Hl Hx]; [exists ""; split; [done|]; apply peg_star_stop, comment_char_end|].
    destruct (comment_tail x t "" Hx eq_refl) as (bl' & Hbl' & Ht). exists bl'. split; [done|].
    rewrite <-str_app_assoc. apply (peg_star_go _ _ _ _ _ _ [] (x +:+ String LF t) []); [|exact Ht].
    apply comment_char; [done..|]. destruct ch; [done|]. by rewrite str_app_cons in Hn. }
  eapply (peg_seq_ok _ _ _ _ _ _ _ [] _ [] (String LF t) []);
    [exact Hstar|by apply mk_skip_to; [|left]|apply peg_newline_LF].
Qed.

(** ** Assignments and includes *)

Lemma assign_match n (append : bool) v t :
  name_ok n = true → line_ok v = true →
  peg false (GMatch (Ref MRule.variable))
    ((n +:+ (if append then " += " else " = ") +:+ v) +:+ String LF t)
    (Some (item_tokens (Assign n append v), String LF t)).
Proof.
  intros [_ Hn]%andb_true_iff [[Hv Hb]%andb_true_iff Hnb]%andb_true_iff. apply peg_ref_normal; [done..|].
  rewrite <-!str_app_assoc. set (op := if append then " += " else " = ").
  assert (op = " " +:+ (if append then "+=" else "=") +:+ " ") as -> by by destruct append.
  rewrite <-!str_app_assoc.
  apply (peg_seq_ok _ _ _ _ _ _ _ [Tok MRule.variable_name n []] (String " " ((if append then "+=" else "=") +:+ String " " (v +:+ String LF t)))
    [] ((if append then "+=" else "=") +:+ String " " (v +:+ String LF t)) [_]); [by apply mk_name_token| |].
  { apply (mk_skip_to " "); [done|]. left. by destruct append. }
  apply (peg_seq_ok _ _ _ _ _ _ _ [] (String " " (v +:+ String LF t)) [] (v +:+ String LF t) [_]).
  - destruct append.
    + apply peg_alt_r; [apply silent_fail; [done..|]; apply peg_lit_other; by left|by apply silent_lit].
    + by apply peg_alt_l, silent_lit.
  - apply (mk_skip_to " "); [done|by apply mk_line_starts].
  - by apply peg_opt_ok, value_token.
Qed.

Lemma include_match f t :
  line_ok f = true →
  peg false (GMatch (Ref MRule.include)) (("include " +:+ f) +:+ String LF t)
    (Some (item_tokens (Include f), String LF t)).
Proof.
  intros [[Hv Hb]%andb_true_iff Hnb]%andb_true_iff. apply peg_ref_normal; [done..|].
  rewrite <-str_app_assoc. change "include " with ("include" +:+ " "). rewrite <-str_app_assoc.
  eapply (peg_seq_ok _ _ _ _ _ _ _ [] _ [] (f +:+ String LF t) [_]); [apply peg_lit_ok| |by apply value_token].
  apply (mk_skip_to " "); [done|by apply mk_line_starts].
Qed.

(** ** Definitions *)

Lemma starts_line p s t :
  contains_char LF p = false → starts_with p s = false → starts_with p (s +:+ String LF t) = false.
Proof.
  revert s. induction p as [|b p IH]; intros s Hp Hs; [by destruct s|]. simpl in Hp.
  apply orb_false_iff in Hp as [Hb Hp]. unfold starts_with in *.
  destruct s as [|a s]; simpl in *.
  - destruct (ascii_dec b LF) as [->|]; [done|done].
  - cbn [String.append]. simpl. destruct (ascii_dec b a); [|done]. by apply IH.
Qed.

Lemma no_endef_app c s : no_endef (c +:+ s) = true → no_endef s = true.
Proof. induction c as [|a c IH]; [done|]. rewrite str_app_cons. simpl. intros [_ Hs]%andb_true_iff. auto. Qed.

Lemma define_end_stop t :
  peg true (GMatch (Ref MRule.define_end_keyword)) (String LF ("endef" +:+ t)) (Some ([], t)).
Proof.
  apply (peg_ref_inside _ _ _ _ (String LF "endef") t).
  eapply peg_seq_atomic; [apply peg_newline_LF|apply (peg_lit_ok _ _ _ _ "endef")].
Qed.

(** A character of the text at which the definition does not end. *)
Lemma define_char c s t :
  whole_char c → first_byte (λ a, negb (Ascii.eqb a CR)) c = true →
  no_endef (c +:+ s) = true →
  peg true (GMatch (Ref MRule.define_value_character)) (c +:+ (s +:+ String LF t)) (Some ([], s +:+ String LF t)).
Proof.
  intros Hc Hcr Hn. apply peg_ref_inside.
  eapply peg_seq_atomic; [|by apply peg_any_ok]. apply peg_not_ok, peg_ref_inside_fail.
  destruct c as [|a u]; [done|]. rewrite str_app_cons in *. simpl in Hcr, Hn.
  apply andb_true_iff in Hn as [Hn _].
  destruct (Ascii.eqb_spec a LF) as [->|Ha].
  - assert (u = EmptyString) as ->.
    { clear Hcr Hn. unfold whole_char, utf8_len in Hc. by destruct u. }
    eapply peg_seq_atomic_fail; [apply peg_newline_LF|]. apply peg_lit_fail, starts_line; [done|].
    by apply negb_true_iff.
  - apply peg_seq_fail1, peg_newline_other. left. simpl.
    apply negb_true_iff, orb_false_iff. split; [by apply Ascii.eqb_neq|by apply negb_true_iff].
Qed.

Lemma define_value_token v t :
  text_ok v = true →
  peg false (GMatch (Ref MRule.define_value)) (v +:+ String LF ("endef" +:+ t))
    (Some ([Tok MRule.define_value v []], String LF ("endef" +:+ t))).
Proof.
  unfold text_ok. rewrite !andb_true_iff. intros [[[Hv Hcr] _] Hn]. apply peg_ref_atomic; [done|].
  assert (Hend : peg true (GMatch (Ref MRule.define_value_character)) (String LF ("endef" +:+ t)) None).
  { apply peg_ref_inside_fail, peg_seq_fail1. eapply peg_not_fail, define_end_stop. }
  pose proof (utf8_runs _ _ Hv Hcr) as Hr. clear Hv Hcr.
  assert (Htail : ∀ x, runs (λ c, first_byte (λ a, negb (Ascii.eqb a CR)) c = true) x → no_endef x = true →
    peg true (GTail (Ref MRule.define_value_character)) (x +:+ String LF ("endef" +:+ t))
      (Some ([], String LF ("endef" +:+ t)))).
  { induction 1 as [|c x Hc Hcb _ IH]; intros Hx.
    - eapply (peg_tail_stop _ _ _ _ _ _ [] _); [apply peg_skip_atomic|exact Hend].
    - rewrite <-str_app_assoc. eapply (peg_tail_go _ _ _ _ _ _ [] _ [] _ []);
        [apply peg_skip_atomic|by apply define_char|]. apply IH. by eapply no_endef_app. }
  destruct Hr as [|c x Hc Hcb Hx]; [by apply peg_star_stop|].
  rewrite <-str_app_assoc.
  apply (peg_star_go _ _ _ _ _ _ [] (x +:+ String LF ("endef" +:+ t)) []); [by apply define_char|].
  apply Htail; [done|]. by eapply no_endef_app.
Qed.

Lemma define_match n v t :
  name_ok n = true → text_ok v = true →
  peg false (GMatch (Ref MRule.define))
    (("define " +:+ n +:+ " =" +:+ chr LF +:+ v +:+ chr LF +:+ "endef") +:+ t)
    (Some (item_tokens (Define n v), t)).
Proof.
  intros Hn Hv. pose proof Hv as Hv'. unfold text_ok in Hv'. rewrite !andb_true_iff in Hv'.
  destruct Hv' as [[_ Hb] _]. apply peg_ref_normal; [done..|]. rewrite <-!str_app_assoc.
  set (r5 := v +:+ String LF ("endef" +:+ t)). set (r4 := String LF r5).
  set (r2 := String " " ("=" +:+ r4)).
  apply (peg_seq_ok _ _ _ _ _ _ _ [] (" " +:+ (n +:+ r2)) [] (n +:+ r2) [_; _]).
  { by apply (silent_lit MRule.define_keyword "define"). }
  { apply (mk_skip_to " "); [done|]. eapply starts_imp; [by apply mk_name_starts|]. by_bytes. }
  apply (peg_seq_ok _ _ _ _ _ _ _ [Tok MRule.variable_name n []] r2 [] ("=" +:+ r4) [_]).
  { apply mk_name_token; [|done]. by apply andb_true_iff in Hn as [_ ?]. }
  { apply (mk_skip_to " "); [done|by left]. }
  apply (peg_seq_ok _ _ _ _ _ _ _ [] r4 [] r4 [_]);
    [by apply (silent_lit MRule.variable_set "=")|by apply mk_skip_none; left|].
  apply (peg_seq_ok _ _ _ _ _ _ _ [] r5 [] r5 [_]);
    [apply peg_newline_LF|by apply mk_skip_none, mk_line_starts|].
  apply (peg_seq_ok _ _ _ _ _ _ _ [Tok MRule.define_value v []] (String LF ("endef" +:+ t)) [] (String LF ("endef" +:+ t)) []).
  { by apply define_value_token. }
  { apply mk_skip_none. by left. }
  pose proof (peg_ref_ok pest_uppercase G full false MRule.define_end_keyword
    (String LF ("endef" +:+ t)) (String LF "endef") [] t) as Hr.
  apply Hr; [|done]. clear Hr.
  eapply (peg_seq_ok _ _ _ _ _ _ _ [] ("endef" +:+ t) [] ("endef" +:+ t) []);
    [apply peg_newline_LF|apply mk_skip_none; by left|apply (peg_lit_ok _ _ _ _ "endef")].
Qed.

(** ** The items of a file *)

(** One item of the rule [makefile]. *)
Definition one_item : pexp MRule.t :=
  Alt (Prim Newline) (Alt (Ref MRule.comment_string) (Alt (Ref MRule.define)
    (Alt (Ref MRule.variable) (Alt (Ref MRule.include) (Ref MRule.target))))).

Lemma comment_none s :
  starts (λ a, negb (Ascii.eqb a "#")) s → peg false (GMatch (Ref MRule.comment_string)) s None.
Proof. intros Hs. apply silent_fail; [done..|]. by apply peg_seq_fail1, peg_lit_other. Qed.

Lemma define_none s :
  starts (λ a, negb (Ascii.eqb a "d")) s → peg false (GMatch (Ref MRule.define)) s None.
Proof.
  intros Hs. apply peg_ref_normal_fail; [done..|]. apply peg_seq_fail1, silent_fail; [done..|].
  by apply peg_lit_other.
Qed.

(** A line that starts with another lower-case letter is not an assignment. *)
Lemma variable_none s : peg false (GMatch (Ref MRule.variable)) (String "i" s) None.
Proof.
  apply peg_ref_normal_fail; [done..|].
  eapply peg_seq_fail2; [by apply (mk_name_token EmptyString)|by apply mk_skip_none; left|].
  apply peg_seq_fail1, peg_alt_none; (apply silent_fail; [done..|]; apply peg_lit_other; by left).
Qed.

(** An item matches its line, up to the end of the line or past it. *)
Lemma mk_item_match i t :
  item_ok i → ∃ nl, (nl = EmptyString ∨ nl = chr LF) ∧
    peg false (GMatch one_item) (write_item i +:+ t) (Some (item_tokens i, nl +:+ t)).
Proof.
  assert (Hskip : ∀ s x, starts (λ a, negb (is_eol a || Ascii.eqb a "#")) s →
    peg false (GMatch (Alt (Ref MRule.define) (Alt (Ref MRule.variable)
      (Alt (Ref MRule.include) (Ref MRule.target))))) s x → peg false (GMatch one_item) s x).
  { intros s x Hs Hx. apply peg_alt_r; [apply peg_newline_other; by_starts|].
    apply peg_alt_r; [apply comment_none; by_starts|done]. }
  destruct i as [|c|n append v|f|n v]; cbn [item_ok].
  - intros _. exists EmptyString. split; [by left|]. apply peg_alt_l, peg_newline_LF.
  - intros [Hv Hb]. exists EmptyString. split; [by left|].
    apply peg_alt_r; [apply peg_newline_other; by left|]. by apply peg_alt_l, comment_match.
  - intros [Hn Hv]. exists (chr LF). split; [by right|]. cbn [write_item].
    rewrite (str_app_assoc _ v), (str_app_assoc n), <-(str_app_assoc _ _ t).
    pose proof (mk_name_starts n ((if append then " += " else " = ") +:+ v +:+ (chr LF +:+ t)) Hn) as Hs.
    rewrite <-2!str_app_assoc. rewrite <-?str_app_assoc in Hs.
    apply Hskip; [by_starts|]. apply peg_alt_r; [apply define_none; by_starts|].
    rewrite 2!str_app_assoc, <-(str_app_assoc n). by apply peg_alt_l, assign_match.
  - intros Hf. exists (chr LF). split; [by right|]. cbn [write_item].
    rewrite (str_app_assoc _ f), <-(str_app_assoc _ _ t).
    apply Hskip; [by left|]. apply peg_alt_r; [apply define_none; by left|].
    apply peg_alt_r; [apply variable_none|]. by apply peg_alt_l, include_match.
  - intros [Hn Hv]. exists (chr LF). split; [by right|]. cbn [write_item].
    apply Hskip; [by left|]. apply peg_alt_l.
    pose proof (define_match n v (chr LF +:+ t) Hn Hv) as Hd. by rewrite <-!str_app_assoc in Hd |- *.
Qed.

Lemma mk_item_starts i t : item_ok i → starts (λ a, negb (is_blank a)) (write_item i +:+ t).
Proof.
  destruct i; cbn [item_ok write_item]; try by left.
  intros [Hn _]. rewrite <-str_app_assoc. eapply starts_imp; [by apply mk_name_starts|]. by_bytes.
Qed.

Lemma mk_items_start its : Forall item_ok its → starts (λ a, negb (is_blank a)) (write_items its).
Proof. intros [|i its' Hi _]; [by right|by apply mk_item_starts]. Qed.

Lemma mk_item_none_end : peg false (GMatch one_item) EmptyString None.
Proof.
  apply peg_alt_none; [apply peg_newline_other; by right|].
  apply peg_alt_none; [apply comment_none; by right|].
  apply peg_alt_none; [apply define_none; by right|].
  apply peg_alt_none; [|apply peg_alt_none].
  - apply peg_ref_normal_fail; [done..|].
    eapply (peg_seq_fail2 _ _ _ _ _ _ _ _ EmptyString).
    + apply (peg_ref_atomic _ _ _ _ EmptyString EmptyString); [done|]. apply peg_star_stop, peg_ref_inside_fail.
      repeat apply peg_alt_none; by apply peg_prim_fail.
    + apply mk_skip_none. by right.
    + apply peg_seq_fail1, peg_alt_none; (apply silent_fail; [done..|]; apply peg_lit_other; by right).
  - apply peg_ref_normal_fail; [done..|]. apply peg_seq_fail1, peg_lit_other. by right.
  - apply peg_ref_normal_fail; [done..|]. apply peg_seq_fail1, peg_ref_normal_fail; [done..|].
    apply peg_seq_fail1, peg_ref_normal_fail; [done..|].
    eapply peg_seq_fail2; [apply peg_not_ok, peg_lit_other; by right|apply mk_skip_none; by right|].
    by apply peg_prim_fail.
Qed.

Lemma newline_tail s ps :
  peg false (GTail one_item) s (Some (ps, EmptyString)) →
  peg false (GTail one_item) (String LF s) (Some (ps, EmptyString)).
Proof.
  intros Hs. change ps with ([] ++ ps). eapply (peg_tail_go _ _ _ _ _ _ [] (String LF s));
    [apply mk_skip_none; by left|apply peg_alt_l, peg_newline_LF|done].
Qed.

(** The rest of a file after an item. *)
Lemma mk_items_tail nl its :
  nl = EmptyString ∨ nl = chr LF → Forall item_ok its →
  peg false (GTail one_item) (nl +:+ write_items its) (Some (its ≫= item_tokens, EmptyString)).
Proof.
  intros Hnl Hits. revert nl Hnl. induction Hits as [|i its Hi Hits IH]; intros nl Hnl.
  - assert (peg false (GTail one_item) EmptyString (Some ([], EmptyString))) as Hend.
    { eapply peg_tail_stop; [apply mk_skip_none; by right|apply mk_item_none_end]. }
    destruct Hnl as [->| ->]; [done|]. by apply newline_tail.
  - assert (peg false (GTail one_item) (write_items (i :: its))
      (Some ((i :: its) ≫= item_tokens, EmptyString))) as Hgo.
    { destruct (mk_item_match i (write_items its) Hi) as (nl' & Hnl' & Hm). rewrite bind_cons.
      eapply (peg_tail_go _ _ _ _ _ _ [] _ (item_tokens i) _ (its ≫= item_tokens));
        [apply mk_skip_none; by apply mk_item_starts|exact Hm|by apply IH]. }
    destruct Hnl as [->| ->]; [done|]. by apply newline_tail.
Qed.

Lemma items_star nl its :
  nl = EmptyString ∨ nl = chr LF → Forall item_ok its →
  peg false (GMatch (Star one_item)) (nl +:+ write_items its) (Some (its ≫= item_tokens, EmptyString)).
Proof.
  intros [->| ->] Hits.
  - destruct Hits as [|i its Hi Hits]; [apply peg_star_stop, mk_item_none_end|].
    destruct (mk_item_match i (write_items its) Hi) as (nl' & Hnl' & Hm). rewrite bind_cons.
    eapply (peg_star_go _ _ _ _ _ _ (item_tokens i) _ (its ≫= item_tokens)); [exact Hm|by apply mk_items_tail].
  - change (its ≫= item_tokens) with ([] ++ (its ≫= item_tokens)).
    eapply peg_star_go; [apply peg_alt_l, peg_newline_LF|].
    by apply (mk_items_tail EmptyString); [left|].
Qed.

Lemma makefile_match i its :
  full = write_items (i :: its) → Forall item_ok (i :: its) →
  peg false (GMatch (Ref MRule.makefile)) (write_items (i :: its))
    (Some ([Tok MRule.makefile (write_items (i :: its))
      (((i :: its) ≫= item_tokens) ++ [Tok MRule.EOI EmptyString []])], EmptyString)).
Proof.
  intros Hfull [Hi Hits]%Forall_cons. rewrite <-(str_app_nil_r (write_items (i :: its))) at 1.
  apply peg_ref_normal; [done..|]. rewrite str_app_nil_r.
  destruct (mk_item_match i (write_items its) Hi) as (nl & Hnl & Hm).
  eapply (peg_seq_ok _ _ _ _ _ _ _ [] _ [] (write_items (i :: its)) (_ ++ _)).
  { apply peg_prim_ok. unfold match_prim. by rewrite Hfull, String.eqb_refl. }
  { apply mk_skip_none. by apply mk_item_starts. }
  eapply (peg_seq_ok _ _ _ _ _ _ _ ((i :: its) ≫= item_tokens) EmptyString [] EmptyString [_]).
  - rewrite bind_cons. eapply (peg_seq_ok _ _ _ _ _ _ _ (item_tokens i) _ [] (nl +:+ write_items its)).
    + exact Hm.
    + apply mk_skip_none. destruct Hnl as [->| ->]; [by apply mk_items_start|by left].
    + by apply items_star.
  - apply mk_skip_none. by right.
  - apply (peg_ref_normal _ _ _ _ EmptyString); [done..|]. by apply peg_prim_ok.
Qed.
End pieces.

(** ** The meaning of a text *)

Lemma item_tokens_effect m its :
  Forall item_ok its → foldl item_effect m (its ≫= item_tokens) = foldl apply_item m its.
Proof.
  intros Hits. revert m. induction Hits as [|i its _ _ IH]; intros m; [done|].
  rewrite bind_cons, foldl_app, IH. by destruct i.
Qed.

Section text.
Context `{PE : PestEngine, !PestLaws}.

Lemma mk_parse_items its :
  Forall item_ok its → its ≠ [] →
  parse_string (write_items its) = Ok (foldl apply_item Makefile_default its).
Proof.
  intros Hits Hne. destruct its as [|i its]; [done|].
  pose proof (pest_parse_of_peg _ _ _ _ _ (makefile_match _ i its eq_refl Hits)) as Hp.
  rewrite (parse_string_items _ _ Hp). unfold items_of. rewrite bind_cons. cbn [into_inner].
  rewrite app_nil_r, foldl_app, item_tokens_effect by done. done.
Qed.

(** C6. The text of a makefile means what its lines say: assignments, definitions
    of several lines, include lines, comments and blank lines, as they are
    written, are applied in their order to the empty makefile.  Each assignment
    replaces the value of its variable, whether its operator is [=] or [+=]. *)
Theorem parse_makefile_written its :
  Forall item_ok its → its ≠ [] →
  parse_string (write_items its) = Ok (foldl apply_item Makefile_default its).
Proof. apply mk_parse_items. Qed.
End text.

(** ** Writing a makefile *)

Definition variable_item (v : string * MakefileVariable) : item :=
  let x := default "" (head (values v.2)) in
  if line_ok x then Assign v.1 false x else Define v.1 x.
Definition makefile_items (m : Makefile) : list item :=
  (variable_item <$> map_to_list (variables m)) ++ (Include <$> includes m).
Definition print_makefile (m : Makefile) : string := write_items (makefile_items m).

(** The variables that a text can say: a name of the grammar, no key, the mode of
    a plain variable, and one value that is the rest of a line or a text of
    several lines. *)
Definition writable_variable (n : string) (v : MakefileVariable) : Prop :=
  name_ok n = true ∧ ∃ x, v = MkVariable "" [x] Set_ ∧ (line_ok x = true ∨ text_ok x = true).
Definition writable (m : Makefile) : Prop :=
  path m = "" ∧ map_Forall writable_variable (variables m) ∧ Forall (λ f, line_ok f = true) (includes m).

Lemma variable_item_ok n v : writable_variable n v → item_ok (variable_item (n, v)).
Proof.
  intros (Hn & x & -> & Hx). unfold variable_item. simpl.
  destruct (line_ok x) eqn:E; [done|]. by destruct Hx.
Qed.

Lemma apply_variable_item m n v :
  writable_variable n v → apply_item m (variable_item (n, v)) = insert_variable n v m.
Proof. intros (Hn & x & -> & Hx). unfold variable_item. simpl. by destruct (line_ok x). Qed.

Lemma apply_variable_items m vs :
  Forall (λ v, writable_variable v.1 v.2) vs →
  foldl apply_item m (variable_item <$> vs) =
    MkMakefile (path m) (foldl (λ vs kv, <[kv.1 := kv.2]> vs) (variables m) vs) (includes m).
Proof.
  intros Hvs. revert m. induction Hvs as [|[n v] vs Hv _ IH]; intros m; [by destruct m|].
  rewrite fmap_cons. cbn [foldl]. rewrite apply_variable_item by done. by rewrite IH.
Qed.

Lemma apply_includes m fs :
  foldl apply_item m (Include <$> fs) = MkMakefile (path m) (variables m) (includes m ++ fs).
Proof.
  revert m. induction fs as [|f fs IH]; intros m; [by destruct m; rewrite app_nil_r|].
  rewrite fmap_cons. cbn [foldl]. rewrite IH. simpl. by rewrite <-(assoc_L (++)).
Qed.

Lemma writable_variables m :
  writable m → Forall (λ v, writable_variable v.1 v.2) (map_to_list (variables m)).
Proof.
  intros (_ & Hv & _). apply map_Forall_to_list in Hv. eapply Forall_impl; [exact Hv|]. by intros [].
Qed.

(** C15. Parsing what [print_makefile] writes gives the makefile back: every
    makefile with plain variables, whose names and values the grammar can write,
    is what some text parses to, and the parser loses nothing of it. *)
Theorem parse_print_makefile `{PE : PestEngine, !PestLaws} m :
  writable m → m ≠ Makefile_default → parse_string (print_makefile m) = Ok m.
Proof.
  intros Hm Hne. pose proof (writable_variables m Hm) as Hvs. destruct Hm as (Hp & Hv & Hi).
  unfold print_makefile, makefile_items. rewrite mk_parse_items.
  - rewrite foldl_app, apply_variable_items, apply_includes by done. simpl.
    rewrite foldl_insert_map_to_list. destruct m. by simplify_eq/=.
  - rewrite Forall_app, !Forall_fmap. split; [|exact Hi].
    eapply Forall_impl; [exact Hvs|]. intros [n v]. apply variable_item_ok.
  - contradict Hne. apply app_eq_nil in Hne as [Hne1 Hne2].
    apply fmap_nil_inv in Hne1, Hne2. apply map_to_list_empty_iff in Hne1.
    destruct m. simpl in *. by subst.
Qed.
