(* ===== verification/MakefileIncludes.v ===== *)
(** * MakefileIncludes: reading makefiles and what they include
    ([userland/src/lib.rs]: [parse_single_file], [parse_included_makefiles],
    [parse_all])

    [parse_all] follows the include lines of a makefile and merges what it finds.
    Its recursion follows the files on disk, so it takes fuel: the number of
    nested makefiles it may enter.  It changes the current directory of the
    process, which is threaded through. *)

From stdpp Require Import relations.
From S2P Require Import Prelude RustStr World Peg MakefileGrammar Makefile.

Section includes.
Context `{FileSystem, PestEngine}.

(** [Makefile::parse_single_file] *)
Definition parse_single_file (cwd p : string) : outcome anyhow Makefile :=
  content ← with_context ("cannot read " +:+ p +:+ " to string")
    (map_err AnyIo (read_to_string cwd p));
  m ← with_context ("cannot parse " +:+ p) (parse_string content);
  Ok (set_path p m).

(** [Makefile::get_includes] *)
Definition get_includes (self : Makefile) : option (list string) :=
  match includes self with
  | [] => None
  | _ => Some (includes self)
  end.

(** [Makefile::has_includes] *)
Definition has_includes (self : Makefile) : bool :=
  match includes self with
  | [] => false
  | _ => true
  end.

(** The body of the loop of [parse_included_makefiles]. *)
Definition include_makefile (cwd : string) (included : list Makefile) (incl : string) :
  outcome anyhow (list Makefile) :=
  incl_path ← map_err (AnyIncludeNotFound incl) (of_sum (fs_canonicalize cwd incl));
  m ← parse_single_file cwd incl_path;
  Ok (included ++ [m]).

(** [Makefile::parse_included_makefiles]: the makefiles and the directory the
    process is in afterwards. *)
Definition parse_included_makefiles (cwd : string) (self : Makefile) :
  outcome anyhow (list Makefile * string) :=
  match get_includes self with
  | Some includes =>
      let d := match path_parent (path self) with Some d => d | None => "/" end in
      cwd ← map_err AnyIo (of_sum (fs_chdir cwd d));
      included_makefiles ← foldM (include_makefile cwd) [] includes;
      Ok (included_makefiles, cwd)
  | None => Ok ([], cwd)
  end.

(** The body of the loop of [parse_all], which calls [parse_all] as [rec], on the
    makefile built so far and the current directory. *)
Definition include_all_step (rec : string → Makefile → fuelled anyhow (Makefile * string))
    (st : Makefile * string) (incl : Makefile) : fuelled anyhow (Makefile * string) :=
  if has_includes incl then
    final_include ←! rec st.2 incl;
    final_makefile ←! Some (merge st.1 final_include.1);
    Some (Ok (final_makefile, final_include.2))
  else
    final_makefile ←! Some (merge st.1 incl);
    Some (Ok (final_makefile, st.2)).

(** [Makefile::parse_all] *)
Fixpoint parse_all (fuel : nat) (cwd : string) (self : Makefile) :
  fuelled anyhow (Makefile * string) :=
  match fuel with
  | O => None
  | S fuel =>
      includes ←! Some (parse_included_makefiles cwd self);
      st ←! foldF (include_all_step (parse_all fuel)) (Makefile_default, includes.2) includes.1;
      final_makefile ←! Some (merge st.1 self);
      Some (Ok (final_makefile, st.2))
  end.

Arguments merge : simpl never.

(** ** Facts *)

Lemma include_all_step_mono rec rec' st incl y :
  (∀ cwd m r, rec cwd m = Some r → rec' cwd m = Some r) →
  include_all_step rec st incl = Some y → include_all_step rec' st incl = Some y.
Proof.
  intros Hrec. unfold include_all_step. destruct (has_includes incl); [|done].
  apply fbind_mono; auto.
Qed.

(** The outcome does not depend on the fuel that is left over. *)
Lemma parse_all_mono n n' cwd self r :
  parse_all n cwd self = Some r → n ≤ n' → parse_all n' cwd self = Some r.
Proof.
  revert n' cwd self r; induction n as [|n IH]; intros [|n'] cwd self r Hr Hle; try done; [lia|].
  revert Hr. cbn [parse_all]. apply fbind_mono; [done|]. intros incls r'. apply fbind_mono; [|done].
  intros r''. apply foldF_mono. intros st incl y. apply include_all_step_mono.
  intros cwd' m r0 Hr0. eapply IH; [done|lia].
Qed.

(** [nests m incl]: [incl] is read for an include line of [m], from whatever
    directory, and has include lines of its own. *)
Definition nests (m incl : Makefile) : Prop :=
  ∃ cwd incls cwd', parse_included_makefiles cwd m = Ok (incls, cwd') ∧
    incl ∈ incls ∧ has_includes incl = true.

(** C22. [parse_all] terminates when the makefiles that can be reached from the
    given one do not include each other in a circle, that is when some rank goes
    down from each of them to those it includes: the rank is fuel enough, and
    more fuel gives the same outcome. *)
Theorem parse_all_terminates (rank : Makefile → nat) cwd self :
  (∀ m incl, rtc nests self m → nests m incl → rank incl < rank m) →
  ∃ r, ∀ n, rank self < n → parse_all n cwd self = Some r.
Proof.
  intros Hrank.
  assert (Hex : ∀ n cwd m, rtc nests self m → rank m < n → ∃ r, parse_all n cwd m = Some r).
  { intros n; induction n as [|n IH]; intros cwd' m Hm Hlt; [lia|]. simpl.
    destruct (parse_included_makefiles cwd' m) as [[incls cwd'']|e|w] eqn:Hi; simpl; eauto.
    destruct (foldF_total (include_all_step (parse_all n)) (Makefile_default, cwd'') incls)
      as [[st|e|w] ->]; simpl; eauto.
    intros st incl Hin. unfold include_all_step. destruct (has_includes incl) eqn:Hh; [|by eexists].
    assert (nests m incl) as Hn by (repeat eexists; eauto).
    pose proof (Hrank _ _ Hm Hn).
    destruct (IH st.2 incl (rtc_r _ _ _ Hm Hn) ltac:(lia)) as [[st'|e|w] ->]; simpl; eauto. }
  destruct (Hex (S (rank self)) cwd self (rtc_refl _ _) ltac:(lia)) as [r Hr].
  exists r. intros n Hn. eapply parse_all_mono; [done|lia].
Qed.

(** [calls x y]: [parse_all] on the directory and the makefile [x] calls itself
    on [y], a makefile that [x] includes and that has includes of its own, after
    what [x] includes before it has been read and merged. *)
Definition calls (x y : string * Makefile) : Prop :=
  ∃ before rest cwd n m,
    parse_included_makefiles x.1 x.2 = Ok (before ++ y.2 :: rest, cwd) ∧
    has_includes y.2 = true ∧
    foldF (include_all_step (parse_all n)) (Makefile_default, cwd) before = Some (Ok (m, y.1)).

(** A call that needs more fuel than is left leaves the caller without a result. *)
Lemma calls_None n x y : calls x y → parse_all n y.1 y.2 = None → parse_all (S n) x.1 x.2 = None.
Proof.
  intros (before & rest & cwd & k & m & Hi & Hh & Hbefore) Hy.
  cbn [parse_all]. rewrite Hi. cbn [fbind fst snd]. rewrite foldF_app.
  assert (∀ n n' st l r, n ≤ n' → foldF (include_all_step (parse_all n)) st l = Some r →
    foldF (include_all_step (parse_all n')) st l = Some r) as Hmono.
  { intros n1 n2 st l r Hle. apply foldF_mono. intros st' incl r'. apply include_all_step_mono.
    intros cwd' m' r'' Hr. by eapply parse_all_mono. }
  destruct (foldF (include_all_step (parse_all n)) (Makefile_default, cwd) before) as [r|] eqn:Hr; [|done].
  apply (Hmono n (n `max` k)) in Hr; [|lia]. apply (Hmono k (n `max` k)) in Hbefore; [|lia].
  rewrite Hr in Hbefore. injection Hbefore as ->. simpl.
  unfold include_all_step at 1. rewrite Hh. simpl. by rewrite Hy.
Qed.

(** C25. When the calls of [parse_all] lead back to a call already made, a circle
    of any length, entered from anywhere, through any of the include lines, the
    recursion never ends, whatever the fuel: no error is reported. *)
Theorem parse_all_diverges cwd self y :
  rtc calls (cwd, self) y → tc calls y y → ∀ fuel, parse_all fuel cwd self = None.
Proof.
  intros Hself Hy fuel.
  assert (∀ n z, tc calls z z → parse_all n z.1 z.2 = None) as Hcircle.
  { intros n; induction n as [|n IH]; intros z Hz; [done|].
    assert (∃ z', calls z z' ∧ rtc calls z' z) as (z' & Hcall & Hback).
    { inversion Hz; subst; eauto using rtc_refl, tc_rtc. }
    eapply calls_None, IH; [done|]. by eapply tc_rtc_l, tc_once. }
  revert fuel. change cwd with (cwd, self).1. change self with (cwd, self).2 at 2.
  induction Hself as [x|x z y Hcall _ IH]; intros fuel; [by apply Hcircle|].
  destruct fuel as [|fuel]; [done|]. eapply calls_None; eauto.
Qed.
End includes.

(** ** What [parse_all] returns *)

Section result.
Context `{FileSystem, PE : PestEngine, !PestLaws}.

Lemma parse_single_file_plain cwd p m : parse_single_file cwd p = Ok m → plain m.
Proof.
  unfold parse_single_file, with_context. intros Hm. inv_outcome.
  destruct (parse_string _) eqn:Hs; simplify_eq/=. by apply parse_string_plain in Hs.
Qed.

Lemma parse_included_plain cwd self incls cwd' :
  parse_included_makefiles cwd self = Ok (incls, cwd') → Forall plain incls.
Proof.
  unfold parse_included_makefiles. destruct (get_includes self) as [ps|]; intros Hi; inv_outcome.
  - simplify_eq. eapply (foldM_invariant _ (Forall plain)); [by constructor| |done].
    intros ms p ms' _ Hms Hm. unfold include_makefile in Hm. inv_outcome.
    apply Forall_app; split; [done|]. constructor; [|done]. by eapply parse_single_file_plain.
  - simplify_eq. by constructor.
Qed.

Lemma merged_plain mine v :
  plain_variable v → merged mine (Some v) = Some v.
Proof. intros [Hv _]. unfold merged. by rewrite Hv. Qed.

(** Merging a plain makefile is the union in which its variables win. *)
Lemma merge_plain self other :
  plain other →
  merge self other = Ok (MkMakefile (path self) (variables other ∪ variables self) (includes self)).
Proof.
  intros Ho. unfold merge, merge_entries. do 2 f_equal. apply map_eq. intros k.
  rewrite merge_entries_lookup by apply NoDup_fst_map_to_list. rewrite list_to_map_to_list.
  destruct (variables other !! k) as [v|] eqn:Hk.
  - rewrite merged_plain by (by eapply Ho). symmetry. by apply lookup_union_Some_l.
  - simpl. by rewrite lookup_union_r.
Qed.

(** The makefile that an include contributes. *)
Definition contributes (incl part : Makefile) : Prop :=
  if has_includes incl
  then ∃ n cwd cwd', parse_all n cwd incl = Some (Ok (part, cwd'))
  else part = incl.

(** The variables of the [parts], a later part over an earlier one. *)
Definition overlay (parts : list Makefile) (vars : gmap string MakefileVariable) :=
  foldl (λ vs m, variables m ∪ vs) vars parts.

Lemma overlay_lookup parts vars k :
  overlay parts vars !! k =
    match last (omap (λ m, variables m !! k) parts) with Some v => Some v | None => vars !! k end.
Proof.
  unfold overlay. revert vars; induction parts as [|m parts IH] using rev_ind; intros vars; [done|].
  rewrite foldl_snoc, omap_app. simpl. destruct (variables m !! k) as [v|] eqn:Hk; simpl.
  - rewrite last_snoc. by apply lookup_union_Some_l.
  - rewrite app_nil_r, <-IH. by rewrite lookup_union_r.
Qed.

Lemma plain_union (vars vars' : gmap string MakefileVariable) :
  map_Forall (λ _ v, plain_variable v) vars → map_Forall (λ _ v, plain_variable v) vars' →
  map_Forall (λ _ v, plain_variable v) (vars ∪ vars').
Proof. intros ?? k v [?|[_ ?]]%lookup_union_Some_raw; eauto. Qed.

Lemma parse_all_plain n cwd self final cwd' :
  plain self → parse_all n cwd self = Some (Ok (final, cwd')) → plain final.
Proof.
  revert cwd self final cwd'; induction n as [|n IH]; intros cwd self final cwd' Hs Hf; [done|].
  cbn [parse_all] in Hf. apply fbind_Ok in Hf as ([incls cwd1] & [= Hi] & Hf).
  apply fbind_Ok in Hf as ([m c] & Hm & Hf). rewrite merge_plain in Hf by done. simplify_eq/=.
  apply plain_union; [done|]. apply parse_included_plain in Hi.
  enough (∀ st incls, Forall plain incls → plain st.1 → ∀ r,
    foldF (include_all_step (parse_all n)) st incls = Some (Ok r) → plain r.1) as Hgo.
  { by apply (Hgo (_, _) _ Hi plain_default) in Hm. }
  clear -IH. intros st incls Hi. revert st; induction Hi as [|incl incls Hi _ IHi]; intros st Hst r Hr.
  { by simplify_eq/=. }
  cbn [foldF] in Hr. apply fbind_Ok in Hr as (st' & Hst' & Hr). eapply IHi, Hr.
  unfold include_all_step in Hst'. destruct (has_includes incl).
  - apply fbind_Ok in Hst' as ([fi c] & Hfi & Hst'). apply IH in Hfi; [|done].
    rewrite merge_plain in Hst' by done. simplify_eq/=. by apply plain_union.
  - rewrite merge_plain in Hst' by done. simplify_eq/=. by apply plain_union.
Qed.

(** What the loop of [parse_all] builds, from what each include contributes. *)
Lemma merge_includes_spec n st incls r :
  Forall plain incls → foldF (include_all_step (parse_all n)) st incls = Some (Ok r) →
  ∃ parts, Forall2 contributes incls parts ∧ path r.1 = path st.1 ∧
    includes r.1 = includes st.1 ∧ variables r.1 = overlay parts (variables st.1).
Proof.
  intros Hi. revert st; induction Hi as [|incl incls Hi _ IHi]; intros st Hr.
  { simplify_eq/=. by exists []. }
  cbn [foldF] in Hr. apply fbind_Ok in Hr as (st' & Hst' & Hr).
  apply IHi in Hr as (parts & Hparts & Hp & Hin & Hv). unfold include_all_step in Hst'.
  assert (∃ part c, contributes incl part ∧ merge st.1 part = Ok st'.1 ∧ plain part ∧ st'.2 = c)
    as (part & c & Hc & Hm & Hpart & _).
  { unfold contributes. destruct (has_includes incl).
    - apply fbind_Ok in Hst' as ([fi c] & Hfi & Hst').
      apply fbind_Ok in Hst' as (m & [= Hm] & Hst'). simplify_eq. exists fi, c.
      split_and!; eauto using parse_all_plain.
    - apply fbind_Ok in Hst' as (m & [= Hm] & Hst'). simplify_eq. by exists incl, st.2. }
  rewrite merge_plain in Hm by done. exists (part :: parts). injection Hm as Hm.
  rewrite <-Hm in Hp, Hin, Hv. split_and!; auto.
Qed.

(** C9. The makefile [parse_all] returns has neither path nor includes; each of
    its variables has the value the makefile itself gives it, else the value of
    the last include that sets it, an include standing for everything it
    includes. *)
Theorem parse_all_precedence n cwd self final cwd' :
  plain self → parse_all n cwd self = Some (Ok (final, cwd')) →
  path final = "" ∧ includes final = [] ∧ plain final ∧
  ∃ incls cwd1 parts,
    parse_included_makefiles cwd self = Ok (incls, cwd1) ∧ Forall2 contributes incls parts ∧
    ∀ k, variables final !! k =
      match variables self !! k with
      | Some v => Some v
      | None => last (omap (λ part, variables part !! k) parts)
      end.
Proof.
  intros Hs Hf. pose proof (parse_all_plain _ _ _ _ _ Hs Hf) as Hfp.
  destruct n as [|n]; [done|]. cbn [parse_all] in Hf.
  apply fbind_Ok in Hf as ([incls cwd1] & [= Hi] & Hf).
  apply fbind_Ok in Hf as ([m c] & Hm & Hf). rewrite merge_plain in Hf by done. simplify_eq/=.
  pose proof (parse_included_plain _ _ _ _ Hi) as Hpl.
  apply merge_includes_spec in Hm as (parts & Hparts & Hp & Hin & Hv); [|done]. simpl in *.
  split_and!; try done. exists incls, cwd1, parts. split_and!; [done..|]. intros k.
  destruct (variables self !! k) as [v|] eqn:Hk; [by apply lookup_union_Some_l|].
  rewrite lookup_union_r by done. rewrite Hv, overlay_lookup, lookup_empty.
  by destruct (last _).
Qed.

(** Reading a makefile: an unreadable file is an error with its name, and so
    is a text outside the grammar; otherwise the makefile remembers its path, and
    every variable has exactly one value, in the mode that replaces. *)
Theorem parse_single_file_cases cwd p :
  match parse_single_file cwd p with
  | Ok m => path m = p ∧ plain m ∧ ∃ content, read_to_string cwd p = Ok content ∧
      ∃ m0, parse_string content = Ok m0 ∧ m = set_path p m0
  | Err e =>
      (∃ io, read_to_string cwd p = Err io ∧
         e = AnyContext ("cannot read " +:+ p +:+ " to string") (AnyIo io)) ∨
      (∃ content e', read_to_string cwd p = Ok content ∧ parse_string content = Err e' ∧
         e = AnyContext ("cannot parse " +:+ p) e')
  | Panic w => ∃ content, read_to_string cwd p = Ok content ∧ parse_string content = Panic w
  end.
Proof.
  destruct (parse_single_file cwd p) as [m|e|w] eqn:Hm.
  - pose proof (parse_single_file_plain _ _ _ Hm) as Hpl. revert Hm.
    unfold parse_single_file, with_context. intros Hm. inv_outcome.
    destruct (read_to_string cwd p) eqn:Hr; simplify_eq/=.
    destruct (parse_string _) eqn:Hs; simplify_eq/=. eauto 10.
  - revert Hm. unfold parse_single_file, with_context.
    destruct (read_to_string cwd p) as [content|io|w'] eqn:Hr; simpl; [|naive_solver..].
    destruct (parse_string content) eqn:Hs; simpl; naive_solver.
  - revert Hm. unfold parse_single_file, with_context.
    destruct (read_to_string cwd p) as [content|io|w'] eqn:Hr; simpl; [|naive_solver|].
    + destruct (parse_string content) eqn:Hs; simpl; naive_solver.
    + unfold read_to_string in Hr. destruct (fs_read cwd p); simpl in Hr; [done|].
      by destruct (utf8_valid _).
Qed.
End result.
