(* ===== verification/MakefileVars.v ===== *)
(** * MakefileVars: reading the variables of a makefile ([userland/src/lib.rs]:
    [get], [resolve_nested_variables], [get_first_value_of_variable_by_name],
    [vars_to_string])

    Reading a variable resolves the references in its values, which reads other
    variables: the recursion follows the references, so it takes fuel, the number
    of nested references it may follow.  The references are found by the regular
    expression of the source, [(?P<var_name>\$\(.+?\))]; the regex engine is not part
    of the program, and [VarRegex] states what it is asked and what it answers. *)

From S2P Require Import Prelude RustStr World Peg MakefileGrammar Makefile.

(** ** The regular expression *)

(** What [.*?\)] matches at the start of [s]: everything up to the first closing
    parenthesis, on the same line. *)
Fixpoint up_to_paren (s : string) : option string :=
  match s with
  | EmptyString => None
  | String a s =>
      if Ascii.eqb a LF then None
      else if Ascii.eqb a ")" then Some (chr a)
      else String a <$> up_to_paren s
  end.

(** What the expression matches at the start of [s]; the first character after
    the opening parenthesis may be anything but a newline. *)
Definition var_match (s : string) : option string :=
  match s with
  | String "$" (String "(" (String a s)) =>
      if Ascii.eqb a LF then None
      else (λ t, "$(" +:+ String a t) <$> up_to_paren s
  | _ => None
  end.

(** The matches from left to right, which do not overlap; [skip] is what is left
    of the last one. *)
Fixpoint var_matches_go (skip : nat) (s : string) : list string :=
  match s with
  | EmptyString => []
  | String _ s' =>
      match skip with
      | S k => var_matches_go k s'
      | O => match var_match s with
             | Some t => t :: var_matches_go (pred (String.length t)) s'
             | None => var_matches_go 0 s'
             end
      end
  end.
Definition var_matches : string → list string := var_matches_go 0.

(** [VARRE.captures_iter(s)], the text of the group [var_name] of each. *)
Class VarRegex := var_captures : string → list string.
Class VarRegexLaws `{VarRegex} := var_captures_spec : ∀ s, var_captures s = var_matches s.

(** ** Reading variables *)

(** [vars_to_string] *)
Definition vars_to_string (vars : list string) : string :=
  match vars with
  | [] => EmptyString
  | [v] => v
  | _ => join (chr LF) vars
  end.

(** [nested_var.as_str().replace("$(", "").replace(')', "")] *)
Definition nested_var_name (nested_var : string) : string :=
  remove_chars [")"%char] (replace_str "$(" "" nested_var).

Section vars.
Context `{VarRegex}.
Local Abbreviation fuelled A := (fuelled anyhow A).

(** The body of the inner loop of [resolve_nested_variables], on [vars_copy];
    [get] is the function [Makefile::get], which it calls. *)
Definition resolve_capture (get : string → fuelled (option string)) (i : nat)
    (vars_copy : list string) (nested_var : string) : fuelled (list string) :=
  resolved ←! get (nested_var_name nested_var);
  Some (Ok (match resolved with
            | Some resolved_nested_var =>
                let new_string := replacen_str nested_var resolved_nested_var 1 (vars_copy !!! i) in
                <[i := new_string]> vars_copy
            | None => vars_copy
            end)).

(** [Makefile::resolve_nested_variables] *)
Definition resolve_nested_variables (get : string → fuelled (option string))
    (var : MakefileVariable) : fuelled (list string) :=
  foldF (λ vars_copy '(i, maybe_nested_var),
    foldF (resolve_capture get i) vars_copy (var_captures maybe_nested_var))
    (values var) (imap pair (values var)).

(** [Makefile::get] *)
Fixpoint get (fuel : nat) (self : Makefile) (var_name : string) : fuelled (option string) :=
  match fuel with
  | O => None
  | S fuel =>
      match variables self !! var_name with
      | Some var =>
          vars_resolved ←! resolve_nested_variables (get fuel self) var;
          Some (Ok (Some (vars_to_string vars_resolved)))
      | None => Some (Ok None)
      end
  end.

(** [Makefile::get_first_value_of_variable_by_name] *)
Definition get_first_value_of_variable_by_name (fuel : nat) (self : Makefile) (var_name : string) :
  fuelled (option string) :=
  match variables self !! var_name with
  | Some var =>
      vars_resolved ←! resolve_nested_variables (get fuel self) var;
      match head vars_resolved with
      | Some v => Some (Ok (Some v))
      | None => Some (Panic "called `Option::unwrap()` on a `None` value")
      end
  | None => Some (Ok None)
  end.

(** ** One value at a time *)

(** The resolution of one value: each reference found in it is replaced, once, by
    the value of the variable, if it has one. *)
Definition resolve_value (get : string → fuelled (option string)) (value : string) : fuelled string :=
  foldF (λ s nested_var,
    resolved ←! get (nested_var_name nested_var);
    Some (Ok (match resolved with
              | Some r => replacen_str nested_var r 1 s
              | None => s
              end))) value (var_captures value).

Fixpoint resolve_values (get : string → fuelled (option string)) (vs : list string) : fuelled (list string) :=
  match vs with
  | [] => Some (Ok [])
  | v :: vs => v' ←! resolve_value get v; vs' ←! resolve_values get vs; Some (Ok (v' :: vs'))
  end.

Lemma resolve_captures_middle g pre v post caps :
  foldF (resolve_capture g (length pre)) (pre ++ v :: post) caps =
    (v' ←! foldF (λ s nested_var,
       resolved ←! g (nested_var_name nested_var);
       Some (Ok (match resolved with
                 | Some r => replacen_str nested_var r 1 s
                 | None => s
                 end))) v caps;
     Some (Ok (pre ++ v' :: post))).
Proof.
  revert v; induction caps as [|c caps IH]; intros v; [done|]. cbn [foldF].
  unfold resolve_capture at 1. destruct (g (nested_var_name c)) as [[[r|]|e|w]|]; simpl; try done.
  rewrite list_lookup_total_middle by done. rewrite insert_app_r_alt, Nat.sub_diag by lia. apply IH.
Qed.

Lemma resolve_nested_go g pre post :
  foldF (λ vars_copy '(i, v), foldF (resolve_capture g i) vars_copy (var_captures v))
    (pre ++ post) (imap (λ i v, (length pre + i, v)) post) =
  (post' ←! resolve_values g post; Some (Ok (pre ++ post'))).
Proof.
  revert pre; induction post as [|v post IH]; intros pre; [done|].
  rewrite imap_cons. cbn [foldF resolve_values]. rewrite Nat.add_0_r.
  rewrite resolve_captures_middle. unfold resolve_value.
  destruct (foldF _ v (var_captures v)) as [[v'|e|w]|]; simpl; try done.
  specialize (IH (pre ++ [v'])). rewrite length_app, <-(assoc_L (++)) in IH. simpl in IH.
  erewrite imap_ext; [rewrite IH|].
  - destruct (resolve_values g post) as [[]|]; simpl; try done. by rewrite <-(assoc_L (++)).
  - intros i x _. simpl. f_equal. lia.
Qed.

(** The loop over the indexes treats each value on its own. *)
Lemma resolve_nested_values g var :
  resolve_nested_variables g var = resolve_values g (values var).
Proof.
  unfold resolve_nested_variables. pose proof (resolve_nested_go g [] (values var)) as Hgo.
  simpl in Hgo. etrans; [apply Hgo|]. by destruct (resolve_values g (values var)) as [[]|].
Qed.

Lemma resolve_values_length g vs vs' :
  resolve_values g vs = Some (Ok vs') → length vs' = length vs.
Proof.
  revert vs'; induction vs as [|v vs IH]; intros vs' Hvs; simplify_eq/=; [done|].
  apply fbind_Ok in Hvs as (v' & _ & Hvs). apply fbind_Ok in Hvs as (vs1 & Hvs1 & Hvs).
  simplify_eq/=. by rewrite (IH vs1).
Qed.

Lemma resolve_value_mono g g' v y :
  (∀ n r, g n = Some r → g' n = Some r) → resolve_value g v = Some y → resolve_value g' v = Some y.
Proof. intros Hg. apply foldF_mono. intros s c r. apply fbind_mono; auto. Qed.

Lemma resolve_values_mono g g' vs y :
  (∀ n r, g n = Some r → g' n = Some r) → resolve_values g vs = Some y → resolve_values g' vs = Some y.
Proof.
  intros Hg. revert y; induction vs as [|v vs IH]; intros y; [done|]. simpl.
  apply fbind_mono; [intros r; by apply resolve_value_mono|]. intros v' r.
  apply fbind_mono; auto.
Qed.

Lemma get_mono n n' self k r : get n self k = Some r → n ≤ n' → get n' self k = Some r.
Proof.
  revert n' k r; induction n as [|n IH]; intros [|n'] k r Hr Hle; try done; [lia|]. simpl in *.
  destruct (variables self !! k) as [var|]; [|done]. rewrite resolve_nested_values in *.
  revert Hr. apply fbind_mono; [|done]. intros r'. apply resolve_values_mono.
  intros m r0 Hr0. eapply IH; [done|lia].
Qed.

(** The names a variable refers to. *)
Definition references (var : MakefileVariable) : list string :=
  values var ≫= λ v, nested_var_name <$> var_captures v.

(** The resolution of a variable panics in no case. *)
Lemma resolve_value_total g v :
  (∀ c, c ∈ var_captures v → ∃ r, g (nested_var_name c) = Some (Ok r)) →
  ∃ s, resolve_value g v = Some (Ok s).
Proof.
  unfold resolve_value. generalize v at 2 as s. revert v. intros v s.
  revert s; induction (var_captures v) as [|c caps IH]; intros s Hc; simpl; [by eexists|].
  destruct (Hc c ltac:(by left)) as [r ->]. simpl. apply IH. intros; apply Hc; by right.
Qed.

Lemma resolve_values_total g vs :
  (∀ v c, v ∈ vs → c ∈ var_captures v → ∃ r, g (nested_var_name c) = Some (Ok r)) →
  ∃ vs', resolve_values g vs = Some (Ok vs').
Proof.
  induction vs as [|v vs IH]; intros Hvs; simpl; [by eexists|].
  destruct (resolve_value_total g v) as [s ->]; [intros; eapply Hvs; [by left|done]|]. simpl.
  destruct IH as [vs' ->]; [intros; eapply Hvs; [by right|done]|]. by eexists.
Qed.

(** C23. Reading a variable ends, without error or panic, when the references
    between the variables have no circle, that is when some rank goes down from
    a variable to those it refers to: the rank is fuel enough, and more fuel
    gives the same text. *)
Theorem get_terminates (rank : string → nat) self k :
  (∀ k var k', variables self !! k = Some var → k' ∈ references var → rank k' < rank k) →
  ∃ r, ∀ n, rank k < n → get n self k = Some (Ok r).
Proof.
  intros Hrank.
  assert (Hex : ∀ n k, rank k < n → ∃ r, get n self k = Some (Ok r)).
  { induction n as [|n IH]; intros k' Hlt; [lia|]. simpl.
    destruct (variables self !! k') as [var|] eqn:Hk; [|by eexists].
    rewrite resolve_nested_values. destruct (resolve_values_total (get n self) (values var)) as [vs ->].
    - intros v c Hv Hc. apply IH. enough (rank (nested_var_name c) < rank k') by lia.
      eapply Hrank; [done|]. apply list_elem_of_bind. exists v. split; [|done].
      by apply list_elem_of_fmap_2.
    - by eexists. }
  destruct (Hex (S (rank k)) k ltac:(lia)) as [r Hr]. exists r. intros n Hn.
  eapply get_mono; [done|lia].
Qed.

(** Reading a variable, if it ends, gives a value. *)
Lemma get_no_error n self k r : get n self k = Some r → is_ok r = true.
Proof.
  revert k r; induction n as [|n IH]; intros k r; [done|]. simpl.
  destruct (variables self !! k) as [var|]; [|by intros [= <-]].
  rewrite resolve_nested_values.
  enough (∀ vs r, resolve_values (get n self) vs = Some r → is_ok r = true) as Hvs.
  { destruct (resolve_values _ _) as [[vs|e|w]|] eqn:Hv; simpl; [by intros [= <-]| | |done];
      by apply Hvs in Hv. }
  assert (∀ caps s r, foldF (λ s nested_var,
    resolved ←! get n self (nested_var_name nested_var);
    Some (Ok (match resolved with
              | Some r => replacen_str nested_var r 1 s
              | None => s
              end))) s caps = Some r → is_ok r = true) as Hcaps.
  { induction caps as [|c caps IHc]; intros s r'; simpl; [by intros [= <-]|].
    destruct (get n self (nested_var_name c)) as [[o|e|w]|] eqn:Hg; simpl; [apply IHc| | |done];
      by apply IH in Hg. }
  clear r. induction vs as [|v vs IHv]; intros r; simpl; [by intros [= <-]|].
  unfold resolve_value. destruct (foldF _ _ _) as [[v'|e|w]|] eqn:Hv; simpl; [| | |done];
    [|by apply Hcaps in Hv..].
  destruct (resolve_values _ vs) as [[vs'|e|w]|]; simpl; [by intros [= <-]| | |done];
    intros [= <-]; by apply (IHv _ eq_refl).
Qed.

Lemma resolve_value_None g v c :
  (∀ k r, g k = Some r → is_ok r = true) →
  c ∈ var_captures v → g (nested_var_name c) = None → resolve_value g v = None.
Proof.
  unfold resolve_value. intros Hg. generalize v at 2 as s. induction (var_captures v) as [|c' caps IH];
    intros s Hc Hn; [by apply not_elem_of_nil in Hc|]. simpl.
  apply elem_of_cons in Hc as [<-|Hc]; [by rewrite Hn|].
  destruct (g (nested_var_name c')) as [[o|e|w]|] eqn:Hc'; simpl; [by apply IH| | |done];
    by apply Hg in Hc'.
Qed.

Lemma resolve_values_None n self vs v c :
  v ∈ vs → c ∈ var_captures v → get n self (nested_var_name c) = None →
  ∀ r, resolve_values (get n self) vs = Some (Ok r) → False.
Proof.
  intros Hv Hc Hn. induction vs as [|v' vs IH]; intros r; [by apply not_elem_of_nil in Hv|]. simpl.
  rewrite fbind_Ok. intros (v1 & Hv1 & Hr). apply fbind_Ok in Hr as (vs1 & Hvs1 & _).
  apply elem_of_cons in Hv as [->|Hv]; [|by eapply IH].
  by erewrite resolve_value_None in Hv1; [|apply get_no_error|..].
Qed.

(** Variables that refer to each other in a circle, or one to itself, make
    [get] recurse for ever, whatever the fuel: the program overflows its stack. *)
Theorem get_diverges (P : string → Prop) self k :
  (∀ k, P k → ∃ var k', variables self !! k = Some var ∧ k' ∈ references var ∧ P k') →
  P k → ∀ fuel, get fuel self k = None.
Proof.
  intros HP Hk fuel. revert k Hk. induction fuel as [|n IH]; intros k Hk; [done|].
  destruct (get (S n) self k) as [r|] eqn:Hr; [|done]. exfalso.
  pose proof (get_no_error _ _ _ _ Hr) as Hok. destruct r as [r|e|w]; [|done..].
  simpl in Hr. destruct (HP _ Hk) as (var & k' & Hvar & Hin & Hk'). rewrite Hvar in Hr.
  apply fbind_Ok in Hr as (vs & Hvs & _). rewrite resolve_nested_values in Hvs.
  apply list_elem_of_bind in Hin as (v & Hin & Hv). apply list_elem_of_fmap in Hin as (c & -> & Hc).
  by eapply resolve_values_None; [..|done]; eauto.
Qed.

(** On a makefile that was parsed, [get_first_value_of_variable_by_name]
    reads what [get] reads, in one level of fuel less: its [unwrap] of the first
    value never panics. *)
Theorem first_value_is_get n self k :
  plain self → get_first_value_of_variable_by_name n self k = get (S n) self k.
Proof.
  intros Hp. unfold get_first_value_of_variable_by_name. cbn [get].
  destruct (variables self !! k) as [var|] eqn:Hk; [|done].
  destruct (Hp _ _ Hk) as [_ [x Hx]]. rewrite resolve_nested_values, Hx.
  destruct (resolve_values (get n self) [x]) as [[vs|e|w]|] eqn:Hvs; [|done..].
  apply resolve_values_length in Hvs. by destruct vs as [|v [|]].
Qed.
End vars.

(** ** Substitution *)

(** A value made of texts and references to variables. *)
Definition reference (name : string) : string := "$(" +:+ name +:+ ")".
Definition template (segs : list (string * string)) (post : string) : string :=
  foldr (λ seg s, seg.1 +:+ reference seg.2 +:+ s) post segs.

(** A name that the regular expression finds whole. *)
Definition proper_name (name : string) : bool :=
  negb (is_empty name) && negb (contains_char "$" name) && negb (contains_char ")" name)
    && negb (contains_char LF name).

Lemma proper_name_spec name :
  proper_name name = true →
  name ≠ EmptyString ∧ contains_char "$" name = false ∧ contains_char ")" name = false ∧
  contains_char LF name = false.
Proof.
  unfold proper_name. intros (((H1%negb_true_iff & H2%negb_true_iff)%andb_true_iff &
    H3%negb_true_iff)%andb_true_iff & H4%negb_true_iff)%andb_true_iff. by destruct name.
Qed.

Lemma nested_var_name_reference name : proper_name name = true → nested_var_name (reference name) = name.
Proof.
  intros (_ & Hd & Hp & _)%proper_name_spec. unfold nested_var_name, reference, replace_str.
  rewrite replace_go_match by done. cbn [fmap option_fmap option_map]. rewrite str_app_nil_l.
  rewrite replace_go_none by done. rewrite remove_chars_app. simpl. rewrite str_app_nil_r.
  apply remove_chars_id. by constructor.
Qed.

Lemma up_to_paren_app s t :
  contains_char ")" s = false → contains_char LF s = false →
  up_to_paren (s +:+ String ")" t) = Some (s +:+ ")").
Proof.
  induction s as [|a s IH]; intros Hp Hl; [done|]. rewrite str_app_cons. simpl in *.
  apply orb_false_iff in Hp as [Ha Hp], Hl as [Hb Hl]. by rewrite Ha, Hb, IH.
Qed.

Lemma var_match_reference name t :
  proper_name name = true → var_match (reference name +:+ t) = Some (reference name).
Proof.
  intros (Hne & _ & Hp & Hl)%proper_name_spec. destruct name as [|a name]; [done|].
  unfold reference. simpl in Hp, Hl. apply orb_false_iff in Hp as [_ Hp], Hl as [Ha Hl].
  rewrite !str_app_cons, !str_app_nil_l, !str_app_cons, <-str_app_assoc, str_app_cons, str_app_nil_l.
  unfold var_match. by rewrite Ha, up_to_paren_app.
Qed.

Lemma replacen_reference name r pre post :
  contains_char "$" pre = false →
  replacen_str (reference name) r 1 (pre +:+ reference name +:+ post) = pre +:+ r +:+ post.
Proof. apply (replacen_first "$" ("(" +:+ name +:+ ")")). Qed.

Lemma var_matches_skip s t : var_matches_go (String.length s) (s +:+ t) = var_matches t.
Proof. induction s as [|a s IH]; [done|]. rewrite str_app_cons. apply IH. Qed.

Lemma var_matches_text s t :
  contains_char "$" s = false → var_matches (s +:+ t) = var_matches t.
Proof.
  unfold var_matches. induction s as [|a s IH]; intros Hs; [done|]. rewrite str_app_cons.
  simpl in Hs. apply orb_false_iff in Hs as [Ha Hs]. cbn [var_matches_go].
  assert (var_match (String a (s +:+ t)) = None) as ->.
  { apply Ascii.eqb_neq in Ha. destruct a as [[] [] [] [] [] [] [] []]; try done. }
  by apply IH.
Qed.

Lemma var_matches_reference name t :
  proper_name name = true → var_matches (reference name +:+ t) = reference name :: var_matches t.
Proof.
  intros Hn. pose proof (var_match_reference name t Hn) as Hm.
  unfold reference in *. rewrite !str_app_cons in *. unfold var_matches at 1. cbn [var_matches_go].
  rewrite Hm. f_equal. cbn [String.length pred]. apply (var_matches_skip (String "(" _)).
Qed.

Lemma var_matches_template segs post :
  Forall (λ seg, contains_char "$" seg.1 = false ∧ proper_name seg.2 = true) segs →
  contains_char "$" post = false →
  var_matches (template segs post) = reference ∘ snd <$> segs.
Proof.
  intros Hs Hp. induction Hs as [|[l n] segs [Hl Hn] _ IH]; simpl in *.
  - rewrite <-(str_app_nil_r post). by rewrite var_matches_text.
  - by rewrite var_matches_text, var_matches_reference, IH.
Qed.

Section substitution.
Context `{VR : VarRegex, !VarRegexLaws}.

Lemma resolve_value_substitutes (g : string → fuelled anyhow (option string))
    (value_of : string → string) segs post :
  Forall (λ seg, contains_char "$" seg.1 = false ∧ proper_name seg.2 = true ∧
    g seg.2 = Some (Ok (Some (value_of seg.2))) ∧ contains_char "$" (value_of seg.2) = false) segs →
  contains_char "$" post = false →
  resolve_value g (template segs post) =
    Some (Ok (foldr (λ seg s, seg.1 +:+ value_of seg.2 +:+ s) post segs)).
Proof.
  intros Hs Hp. unfold resolve_value. rewrite var_captures_spec, var_matches_template; [|
    by eapply Forall_impl; [exact Hs|]; intros ? (?&?&_)|done].
  enough (∀ pre, contains_char "$" pre = false → foldF (λ s nested_var,
    resolved ←! g (nested_var_name nested_var);
    Some (Ok (match resolved with
              | Some r => replacen_str nested_var r 1 s
              | None => s
              end))) (pre +:+ template segs post) (reference ∘ snd <$> segs) =
    Some (Ok (pre +:+ foldr (λ seg s, seg.1 +:+ value_of seg.2 +:+ s) post segs))) as Hgo
    by apply (Hgo EmptyString eq_refl).
  induction Hs as [|[l n] segs (Hl & Hn & Hg & Hv) _ IH]; intros pre Hpre; [done|].
  simpl in Hl, Hn, Hg, Hv. cbn [fmap list_fmap foldF template foldr].
  change ((reference ∘ snd) (l, n)) with (reference n). cbn [fst snd].
  rewrite nested_var_name_reference, Hg by done. cbn [fbind].
  rewrite (str_app_assoc pre l), replacen_reference by (by rewrite contains_char_app, Hpre, Hl).
  rewrite (str_app_assoc _ (value_of n)). fold (template segs post).
  rewrite IH by (by rewrite !contains_char_app, Hpre, Hl, Hv). by rewrite <-!str_app_assoc.
Qed.

(** C24. Reading a variable whose value is made of texts and of references to
    defined variables gives the text with every reference replaced by what
    reading its variable gives, when those values have no dollar sign left. *)
Theorem get_substitutes n self k var (value_of : string → string) segs post :
  variables self !! k = Some var → values var = [template segs post] →
  Forall (λ seg, contains_char "$" seg.1 = false ∧ proper_name seg.2 = true ∧
    get n self seg.2 = Some (Ok (Some (value_of seg.2))) ∧
    contains_char "$" (value_of seg.2) = false) segs →
  contains_char "$" post = false →
  get (S n) self k = Some (Ok (Some (foldr (λ seg s, seg.1 +:+ value_of seg.2 +:+ s) post segs))).
Proof.
  intros Hk Hv Hs Hp. cbn [get]. rewrite Hk, resolve_nested_values, Hv. cbn [resolve_values].
  by rewrite (resolve_value_substitutes _ value_of).
Qed.
End substitution.
