(* ===== verification/Component.v ===== *)
(** * Component: components read from makefiles ([userland/src/component.rs])

    A component is the version, the sources, the options and the build style that
    the variables of a makefile describe. *)

From S2P Require Import Prelude RustStr World Peg MakefileGrammar Makefile MakefileVars.

Inductive BuildStyle := Configure | Cmake | Make | Meson | Custom.
#[export] Instance BuildStyle_eq_dec : EqDecision BuildStyle.
Proof. solve_decision. Defined.

Inductive ComponentOptionPlatform := All | Intel | Sparc | Arm.

Record ComponentOption := MkComponentOption {
  platform : ComponentOptionPlatform;
  opt : string;
}.

Section component.
Context `{VarRegex, Semver, UrlCrate}.

Inductive Source :=
| GitSource (url : Url)
| ArchiveSource (version : Version) (hash : option string) (url : Url).

Record Component := MkComponent {
  version : Version;
  revision : option Z;
  sources : gmap string Source;
  options : list ComponentOption;
  build_style : BuildStyle;
}.

(** The [match] on the text of [BUILD_STYLE]. *)
Definition build_style_of (style : string) : BuildStyle :=
  if String.eqb style "justmake" then Make
  else if String.eqb style "cmake" then Cmake
  else if String.eqb style "meson" then Meson
  else if String.eqb style "custom" then Custom
  else if String.eqb style "configure" then Configure
  else Configure.

Definition parse_url (s : string) : outcome anyhow Url := map_err AnyUrl (of_sum (Url_parse s)).

(** The source of a component: its name and where it comes from. *)
Definition component_source (ver : Version)
    (component_src component_archive_url git_url component_archive_hash : option string) :
  outcome anyhow (string * Source) :=
  match component_src, component_archive_url with
  | Some name, Some url => url ← parse_url url; Ok (name, ArchiveSource ver component_archive_hash url)
  | _, _ =>
      match component_src, git_url with
      | Some name, Some url => url ← parse_url url; Ok (name, GitSource url)
      | _, _ => Err (AnyMsg "no source found in makefile")
      end
  end.

(** [Component::new_from_makefile]; the fuel is that of the variable references. *)
Definition new_from_makefile (fuel : nat) (m : Makefile) : fuelled anyhow Component :=
  let get_first := get_first_value_of_variable_by_name fuel m in
  let opts :=
    match variables m !! "CONFIGURE_OPTIONS" with
    | Some opts => MkComponentOption All <$> values opts
    | None => []
    end in
  ver_text ←! get_first "COMPONENT_VERSION";
  ver_text ←! Some (ok_or (AnyMsg "missing component version") ver_text);
  ver ←! Some (map_err AnySemver (of_sum (Version_parse ver_text)));
  revision_text ←! get_first "COMPONENT_REVISION";
  let revision := (λ s, default 0%Z (parse_i32 s)) <$> revision_text in
  component_src ←! get_first "COMPONENT_SRC";
  component_archive_url ←! get_first "COMPONENT_ARCHIVE_URL";
  git_url ←! get_first "GIT_URL";
  component_archive_hash ←! get_first "COMPONENT_ARCHIVE_HASH";
  style ←! get_first "BUILD_STYLE";
  let build_style := match style with Some style => build_style_of style | None => Configure end in
  src ←! Some (component_source ver component_src component_archive_url git_url component_archive_hash);
  Some (Ok (MkComponent ver revision {[ src.1 := src.2 ]} opts build_style)).

(** ** Facts *)

(** The variables that a component is made of. *)
Definition component_variables : list string :=
  ["COMPONENT_VERSION"; "COMPONENT_REVISION"; "COMPONENT_SRC"; "COMPONENT_ARCHIVE_URL"; "GIT_URL";
   "COMPONENT_ARCHIVE_HASH"; "BUILD_STYLE"].

(** What a makefile whose variables read [v] says a component is: the declarative
    reading, without the order in which the code looks the variables up. *)
Record describes (m : Makefile) (v : string → option string) (c : Component) : Prop := {
  desc_version : ∃ s, v "COMPONENT_VERSION" = Some s ∧ Version_parse s = inr (version c);
  desc_revision : revision c = (λ s, default 0%Z (parse_i32 s)) <$> v "COMPONENT_REVISION";
  desc_source : ∃ name src, v "COMPONENT_SRC" = Some name ∧ sources c = {[ name := src ]} ∧
    match v "COMPONENT_ARCHIVE_URL" with
    | Some u => ∃ url, Url_parse u = inr url ∧
        src = ArchiveSource (version c) (v "COMPONENT_ARCHIVE_HASH") url
    | None => ∃ u url, v "GIT_URL" = Some u ∧ Url_parse u = inr url ∧ src = GitSource url
    end;
  desc_options : options c =
    match variables m !! "CONFIGURE_OPTIONS" with
    | Some var => MkComponentOption All <$> values var
    | None => []
    end;
  desc_style : build_style c = from_option build_style_of Configure (v "BUILD_STYLE");
}.

Lemma component_source_Ok ver src aurl gurl hash name s :
  component_source ver src aurl gurl hash = Ok (name, s) ↔
  src = Some name ∧
  match aurl with
  | Some u => ∃ url, Url_parse u = inr url ∧ s = ArchiveSource ver hash url
  | None => ∃ u url, gurl = Some u ∧ Url_parse u = inr url ∧ s = GitSource url
  end.
Proof.
  unfold component_source, parse_url.
  destruct src as [n|], aurl as [u|], gurl as [gu|]; simpl;
    try destruct (Url_parse _) eqn:Hu; simpl;
    (split; [intros; simplify_eq; eauto 10|intros; destruct_hyps; simplify_eq; congruence]).
Qed.

Lemma component_source_no_panic ver src aurl gurl hash :
  is_panic (component_source ver src aurl gurl hash) = false.
Proof.
  unfold component_source, parse_url. destruct src, aurl, gurl; simpl; try done;
    by destruct (Url_parse _).
Qed.

Local Ltac member :=
  unfold component_variables; repeat first [apply list_elem_of_here | apply list_elem_of_further].

(** C10. The component of a makefile whose variables can be read: it is returned
    exactly when the version is there and parses and a source name is there with
    an archive URL that parses or, failing an archive URL, a git URL that parses;
    it is then the one the variables describe (the archive is preferred, a
    revision that is not a number counts as 0, an unknown build style as
    configure); and nothing panics. *)
Theorem new_from_makefile_refines fuel m (v : string → option string) :
  (∀ k, k ∈ component_variables →
     get_first_value_of_variable_by_name fuel m k = Some (Ok (v k))) →
  ∃ r, new_from_makefile fuel m = Some r ∧ is_panic r = false ∧
    (∀ c, r = Ok c ↔ describes m v c).
Proof.
  intros Hv. unfold new_from_makefile.
  rewrite !Hv by member. cbn [fbind].
  destruct (v "COMPONENT_VERSION") as [s|] eqn:Hs; simpl; [|eexists; split_and!; [done..|]].
  2: { intros c; split; [done|]. intros [(?&?&_) _ _ _ _]. congruence. }
  destruct (Version_parse s) as [e|ver] eqn:Hver; simpl; [eexists; split_and!; [done..|]|].
  { intros c; split; [done|]. intros [(?&?&?) _ _ _ _]. congruence. }
  cbn [fbind].
  pose proof (component_source_no_panic ver (v "COMPONENT_SRC") (v "COMPONENT_ARCHIVE_URL")
    (v "GIT_URL") (v "COMPONENT_ARCHIVE_HASH")) as Hnp.
  pose proof (component_source_Ok ver (v "COMPONENT_SRC") (v "COMPONENT_ARCHIVE_URL")
    (v "GIT_URL") (v "COMPONENT_ARCHIVE_HASH")) as Hok.
  destruct (component_source _ _ _ _ _) as [[name src]|e|w]; simpl; [| |done];
    eexists; split_and!; try done; intros c; split.
  - intros [= <-]. destruct (Hok name src) as [Hsrc _]. destruct (Hsrc eq_refl) as [Hn Hm].
    split; simpl; eauto.
  - intros [(s' & Hs' & Hver') Hrev (name' & src' & Hn & Hsrc & Hm) Hopts Hst].
    destruct c as [cver crev csrc copts cst]; simpl in *. simplify_eq.
    assert (cver = ver) as -> by congruence.
    pose proof (proj2 (Hok name' src') (conj Hn Hm)) as [= -> ->].
    by destruct (v "BUILD_STYLE").
  - done.
  - intros [(s' & Hs' & Hver') Hrev (name' & src' & Hn & Hsrc & Hm) Hopts Hst].
    assert (version c = ver) as Hcv by congruence. rewrite Hcv in Hm.
    by pose proof (proj2 (Hok name' src') (conj Hn Hm)).
Qed.

(** C26. The revision of a component is exact: without [COMPONENT_REVISION] there
    is none; otherwise it is the number the variable reads, a sign and digits of
    any length, when that fits an [i32], and 0 when the number overflows or the
    text is no number. *)
Theorem new_from_makefile_revision fuel m c :
  new_from_makefile fuel m = Some (Ok c) →
  ∃ text, get_first_value_of_variable_by_name fuel m "COMPONENT_REVISION" = Some (Ok text) ∧
    match text, revision c with
    | None, None => True
    | Some s, Some r =>
        (signed_number s r ∧ (i32_min <= r <= i32_max)%Z) ∨
        (r = 0%Z ∧ ∀ z, signed_number s z → (z < i32_min ∨ i32_max < z)%Z)
    | _, _ => False
    end.
Proof.
  intros Hc. unfold new_from_makefile in Hc.
  repeat (apply fbind_Ok in Hc as (? & ? & Hc)). simplify_eq. eexists. split; [done|]. simpl.
  case_match; simpl; [|done]. pose proof (parse_i32_spec s) as Hs.
  destruct (parse_i32 s) as [z|]; simpl.
  - left. unfold in_i32 in Hs. split; [tauto|lia].
  - right. split; [done|]. intros z Hz. apply Hs in Hz. unfold in_i32 in Hz. lia.
Qed.
End component.
