(* ===== verification/Repology.v ===== *)
(** * Repology: the newest version of a package ([userland/src/repology.rs])

    The program asks the Repology service for the packages of a project and takes
    the newest of their versions.  The service and the crate [semver] are
    parameters. *)

From S2P Require Import Prelude RustStr World.
From stdpp Require Import sorting.

Definition BASE_URL : string := "https://repology.org/api/v1/".

Record Package := MkPackage {
  repo : string;
  name : option string;
  version : string;
  sub_repo : option string;
  orig_version : option string;
  status : option string;
  summary : option string;
  family : option string;
  categories : option (list string);
  licenses : option (list string);
  maintainers : option (list string);
  www : option (list string);
  downloads : option (list string);
}.

(** [reqwest::blocking::get(url)?.json::<Vec<Package>>()]: the packages the
    service lists, or why there is no such list. *)
Class Http `{UrlCrate} := http_get_json : Url → string + list Package.

Section repology.
Context `{Semver, UrlCrate, !Http}.

(** [project] *)
Definition project (package : string) : outcome anyhow (list Package) :=
  url ← map_err AnyUrl (of_sum (Url_parse (BASE_URL +:+ "/project/" +:+ package)));
  map_err AnyHttp (of_sum (http_get_json url)).

(** The closure that reads the version of a package. *)
Definition package_version (p : Package) : outcome anyhow Version :=
  match Version_parse (version p) with
  | inr v => Ok v
  | inl _ => Ok (Version_new 0 0 1)
  end.

(** [find_newest_version]; [sort] is a stable merge sort. *)
Definition find_newest_version (package : string) : outcome anyhow string :=
  pkgs ← project package;
  versions ← collect package_version pkgs;
  let versions := merge_sort Version_le versions in
  match last versions with
  | Some v => Ok (Version_to_string v)
  | None => Panic "called `Option::unwrap()` on a `None` value"
  end.

(** The version of a package; one that does not parse counts as 0.0.1. *)
Definition version_or_oldest (p : Package) : Version :=
  match Version_parse (version p) with inr v => v | inl _ => Version_new 0 0 1 end.

Lemma collect_versions pkgs : collect package_version pkgs = Ok (version_or_oldest <$> pkgs).
Proof.
  apply collect_pure. intros p _. unfold package_version, version_or_oldest.
  by destruct (Version_parse _).
Qed.

Lemma sorted_last_max (vs : list Version) v `{!SemverLaws} :
  Sorted Version_le vs → last vs = Some v → Forall (λ w, Version_le w v) vs.
Proof.
  intros Hs%Sorted_StronglySorted; [|apply _].
  induction Hs as [|x vs Hs IH Hx]; [done|]. destruct vs as [|y vs].
  - intros [= <-]. constructor; [|done]. destruct (Version_le_total x x); done.
  - rewrite last_cons_cons. intros Hl. constructor; [|by apply IH].
    rewrite Forall_forall in Hx. apply Hx. by apply last_Some_elem_of.
Qed.

(** C40. [find_newest_version] returns the text of a version that some package of
    the project has and that no version of the project exceeds; it fails when
    the service cannot be asked; and it panics exactly when the service lists no
    package. *)
Theorem find_newest_version_spec package `{!SemverLaws} :
  match find_newest_version package with
  | Ok s => ∃ pkgs p, project package = Ok pkgs ∧ p ∈ pkgs ∧
      s = Version_to_string (version_or_oldest p) ∧
      Forall (λ q, Version_le (version_or_oldest q) (version_or_oldest p)) pkgs
  | Err e => project package = Err e
  | Panic _ => project package = Ok []
  end.
Proof.
  unfold find_newest_version. destruct (project package) as [pkgs|e|w] eqn:Hp; simpl.
  - rewrite collect_versions. simpl.
    assert (merge_sort Version_le (version_or_oldest <$> pkgs) ≡ₚ version_or_oldest <$> pkgs) as Hperm
      by apply merge_sort_Permutation.
    destruct (last _) as [v|] eqn:Hl.
    + assert (v ∈ version_or_oldest <$> pkgs) as (p & -> & Hin)%list_elem_of_fmap.
      { rewrite <-Hperm. by apply last_Some_elem_of. }
      exists pkgs, p. split_and!; [done..|].
      apply sorted_last_max in Hl; [|done|by apply (Sorted_merge_sort _)].
      rewrite Hperm in Hl. by rewrite Forall_fmap in Hl.
    + apply last_None in Hl. rewrite Hl in Hperm.
      apply Permutation_nil in Hperm. by apply fmap_nil_inv in Hperm as ->.
  - done.
  - unfold project in Hp. destruct (Url_parse _); simpl in Hp; [done|]. by destruct (http_get_json _).
Qed.
End repology.
