(* ===== verification/MakefileRuns.v ===== *)
(** * MakefileRuns: makefiles and components on concrete inputs

    The properties of the [Makefile*] files, [Component] and [Repology] applied in
    a small world: a directory of makefiles, the interpreter of [PegEngine] as
    the generated parser, the regular expression as its documentation reads,
    numbers as versions. *)

From stdpp Require Import relations.
From S2P Require Import Prelude RustStr World Peg PegEngine MakefileGrammar Makefile MakefileText.
From S2P Require Import MakefileIncludes MakefileVars Component Repology.

#[local] Instance demo_regex : VarRegex := var_matches.
#[local] Instance demo_regex_laws : VarRegexLaws := λ s, eq_refl.

(** Versions are natural numbers, written in unary. *)
#[local] Instance demo_semver : Semver := {|
  Version := nat;
  Version_parse s := if String.eqb s "bad" then inl "unexpected character" else inr (String.length s);
  Version_new _ _ patch := patch;
  Version_to_string v := text (replicate v "");
  Version_cmp := Nat.compare;
|}.
#[local] Instance demo_semver_laws : SemverLaws.
Proof.
  split.
  - intros a b c. unfold Version_le, Version_cmp; simpl. rewrite !Nat.compare_le_iff. lia.
  - intros a b. unfold Version_le, Version_cmp; simpl. rewrite !Nat.compare_le_iff. lia.
Qed.
#[local] Instance demo_url : UrlCrate := {|
  Url := string;
  Url_parse s := if starts_with "http" s then inr s else inl "relative URL without a base";
  Url_path s := s;
  Url_as_str s := s;
|}.

Definition app_mk : string := text
  ["VER = 1.2"; "NAME = app"; "COMPONENT_SRC = $(NAME)-$(VER)"; "COMPONENT_VERSION = 1.2";
   "COMPONENT_REVISION = 7"; "COMPONENT_ARCHIVE_URL = http://x/$(NAME).tar"; "CONFIGURE_OPTIONS = --a";
   "CONFIGURE_OPTIONS += --b"; "BUILD_STYLE = cmake"; "include common.mk"; ""].

(** A makefile as its lines, and the text they make. *)
Definition written_mk : list item :=
  [Comment " Copyright"; Blank; Assign "VER" false "1.2"; Assign "OPTS" false "--a"; Assign "OPTS" true "--b c";
   Define "STEPS" (text ["$(MAKE) all"; "	install"]); Include "common.mk"].
Definition written_mk_makefile : Makefile := MkMakefile ""
  (list_to_map [("VER", MkVariable "" ["1.2"] Set_); ("OPTS", MkVariable "" ["--b c"] Set_);
     ("STEPS", MkVariable "" [text ["$(MAKE) all"; "	install"]] Set_)]) ["common.mk"].

Lemma parse_makefile_written_witness :
  write_items written_mk = text ["# Copyright"; ""; "VER = 1.2"; "OPTS = --a"; "OPTS += --b c";
    "define STEPS ="; "$(MAKE) all"; "	install"; "endef"; "include common.mk"; ""] ∧
  parse_string (write_items written_mk) = Ok written_mk_makefile.
Proof.
  assert (H : Forall item_ok written_mk).
  { unfold written_mk. repeat apply Forall_cons_2; [..|by apply Forall_nil_2]; cbn [item_ok];
      repeat match goal with |- _ ∧ _ => split end; first [exact I|vm_compute; reflexivity]. }
  split; [vm_compute; reflexivity|]. rewrite (parse_makefile_written written_mk H) by done.
  apply (bool_decide_unpack _). vm_compute. exact I.
Defined.

Lemma parse_print_makefile_witness : parse_string (print_makefile written_mk_makefile) = Ok written_mk_makefile.
Proof.
  apply parse_print_makefile; [|discriminate]. split_and!; [done| |repeat constructor].
  apply map_Forall_to_list. 
  let l := constr:(map_to_list (variables written_mk_makefile)) in let l' := eval vm_compute in l in
  replace l with l' by (vm_compute; reflexivity).
  repeat apply Forall_cons_2; [..|by apply Forall_nil_2]; cbn [uncurry];
    (split; [vm_compute; reflexivity|]; eexists; split; [reflexivity|]);
    first [left; vm_compute; reflexivity|right; vm_compute; reflexivity].
Defined.

(** The files: one that is included, one that includes itself, one whose include
    has an include of its own, and two that include each other. *)
#[local] Instance demo_world : FileSystem := {|
  fs_read cwd p :=
    if String.eqb p "/src/Makefile" then inr app_mk
    else if String.eqb p "/src/common.mk" then inr (text ["VER = 1.1"; "LICENSE = MIT"; ""])
    else if String.eqb p "/src/loop.mk" then inr (text ["include loop.mk"; ""])
    else if String.eqb p "/src/nested.mk" then inr (text ["include mid.mk"; "include common.mk"; ""])
    else if String.eqb p "/src/mid.mk" then inr (text ["include base.mk"; "VER = 1.0"; ""])
    else if String.eqb p "/src/base.mk" then inr (text ["BASE = yes"; ""])
    else if String.eqb p "/src/there.mk" then inr (text ["include common.mk"; "include back.mk"; ""])
    else if String.eqb p "/src/back.mk" then inr (text ["include base.mk"; "include there.mk"; ""])
    else inl (IoError "NotFound");
  fs_chdir cwd p := inr (path_join cwd p);
  fs_canonicalize cwd p := inr (path_join cwd p);
  fs_exists cwd p := false;
  fs_read_dir cwd p := inr [];
  fs_write cwd p content := inr tt;
|}.

Definition var (v : string) : MakefileVariable := MkVariable "" [v] Set_.

Definition app : Makefile := MkMakefile "/src/Makefile"
  (list_to_map [("VER", var "1.2"); ("NAME", var "app"); ("COMPONENT_SRC", var "$(NAME)-$(VER)");
     ("COMPONENT_VERSION", var "1.2"); ("COMPONENT_REVISION", var "7");
     ("COMPONENT_ARCHIVE_URL", var "http://x/$(NAME).tar");
     ("CONFIGURE_OPTIONS", var "--b"); ("BUILD_STYLE", var "cmake")])
  ["common.mk"].
Definition common : Makefile := MkMakefile "/src/common.mk"
  (list_to_map [("VER", var "1.1"); ("LICENSE", var "MIT")]) [].
Definition loop : Makefile := MkMakefile "/src/loop.mk" ∅ ["loop.mk"].

Lemma read_app : parse_single_file "/" "/src/Makefile" = Ok app.
Proof. vm_compute. reflexivity. Qed.

Lemma plain_app : plain app.
Proof. by apply (parse_single_file_plain "/" "/src/Makefile"), read_app. Qed.

(** A comment has no effect; an assignment with [+=] replaces. *)
Lemma makefile_cases_witness :
  parse_string (text ["# a comment"; ""]) = Ok Makefile_default ∧
  ∃ m, parse_string (text ["A = 1"; "A += 2"; ""]) = Ok m ∧ variables m !! "A" = Some (var "2").
Proof.
  split.
  - rewrite (makefile_cases (text ["# a comment"; ""])). vm_compute. reflexivity.
  - eexists. rewrite (makefile_cases (text ["A = 1"; "A += 2"; ""])).
    split; vm_compute; reflexivity.
Defined.

Lemma parse_string_last_assignment_witness :
  ∃ ps, pest_parse makefile_grammar MRule.makefile app_mk = inr ps ∧
    last_of "CONFIGURE_OPTIONS" (items_of ps ≫= assignment_of) = Some (var "--b").
Proof.
  assert (Hm : parse_string app_mk = Ok (set_path "" app)) by (vm_compute; reflexivity).
  destruct (parse_string_last_assignment app_mk _ Hm) as (ps & Hp & Hk & _).
  exists ps. split; [exact Hp|]. rewrite <-Hk. vm_compute. reflexivity.
Defined.

Lemma merge_spec_witness :
  variables (merge_entries common (reverse (map_to_list (variables app)))) !! "VER" = Some (var "1.2").
Proof.
  destruct (merge_spec common app (reverse (map_to_list (variables app)))) as (_ & _ & _ & H).
  - apply reverse_Permutation.
  - rewrite H. vm_compute. reflexivity.
Defined.

Lemma parse_single_file_cases_witness :
  parse_single_file "/" "/etc/none" =
    Err (AnyContext "cannot read /etc/none to string" (AnyIo (IoError "NotFound"))).
Proof.
  pose proof (parse_single_file_cases "/" "/etc/none") as H.
  destruct (parse_single_file "/" "/etc/none") as [m|e|w] eqn:E; vm_compute in E;
    [discriminate E| |discriminate E].
  injection E as <-. reflexivity.
Defined.

(** An include with an include of its own, in a directory where other makefiles
    do include each other in a circle. *)
Definition base : Makefile := MkMakefile "/src/base.mk" {[ "BASE" := var "yes" ]} [].
Definition mid : Makefile := MkMakefile "/src/mid.mk" {[ "VER" := var "1.0" ]} ["base.mk"].
Definition nested : Makefile := MkMakefile "/src/nested.mk" ∅ ["mid.mk"; "common.mk"].
Definition nested_all : Makefile := MkMakefile ""
  (list_to_map [("BASE", var "yes"); ("VER", var "1.1"); ("LICENSE", var "MIT")]) [].

Lemma nests_nested incl : nests nested incl → incl = mid.
Proof.
  intros (cwd & incls & cwd' & Hi & Hin & Hh).
  assert (H : parse_included_makefiles cwd nested = Ok ([mid; common], "/src")) by (vm_compute; reflexivity).
  rewrite H in Hi. injection Hi as <- _.
  apply list_elem_of_In in Hin as [<-|[<-|[]]]; [reflexivity|discriminate Hh].
Qed.

Lemma nests_mid incl : ¬ nests mid incl.
Proof.
  intros (cwd & incls & cwd' & Hi & Hin & Hh).
  assert (H : parse_included_makefiles cwd mid = Ok ([base], "/src")) by (vm_compute; reflexivity).
  rewrite H in Hi. injection Hi as <- _.
  apply list_elem_of_In in Hin as [<-|[]]. discriminate Hh.
Qed.

Lemma nested_reaches m : rtc nests nested m → m = nested ∨ m = mid.
Proof.
  intros [->|(m' & Hn & Hm)]%rtc_inv; [by left|right]. apply nests_nested in Hn as ->.
  apply rtc_inv in Hm as [->|(m' & Hn & _)]; [done|by apply nests_mid in Hn].
Qed.

Lemma parse_all_terminates_witness :
  parse_single_file "/" "/src/nested.mk" = Ok nested ∧ nests nested mid ∧
  ∀ n, 1 < n → parse_all n "/" nested = Some (Ok (nested_all, "/src")).
Proof.
  split; [vm_compute; reflexivity|]. split.
  { exists "/", [mid; common], "/src". split; [vm_compute; reflexivity|].
    split; [by left|reflexivity]. }
  destruct (parse_all_terminates (λ m, if String.eqb (path m) "/src/nested.mk" then 1 else 0) "/" nested)
    as [r Hr].
  - intros m incl Hm Hn. destruct (nested_reaches m Hm) as [->| ->].
    + apply nests_nested in Hn as ->. vm_compute. lia.
    + by apply nests_mid in Hn.
  - assert (H : parse_all 2 "/" nested = Some (Ok (nested_all, "/src"))) by (vm_compute; reflexivity).
    rewrite (Hr 2 ltac:(vm_compute; lia)) in H. rewrite <-H. exact Hr.
Defined.

(** The makefile that includes itself, and two makefiles that include each other
    in their second include lines. *)
Definition there : Makefile := MkMakefile "/src/there.mk" ∅ ["common.mk"; "back.mk"].
Definition back : Makefile := MkMakefile "/src/back.mk" ∅ ["base.mk"; "there.mk"].

Lemma calls_back cwd : calls (cwd, there) ("/src", back).
Proof.
  exists [common], [], "/src", 0, (MkMakefile "" (variables common) []).
  split_and!; vm_compute; reflexivity.
Qed.

Lemma calls_there cwd : calls (cwd, back) ("/src", there).
Proof.
  exists [base], [], "/src", 0, (MkMakefile "" (variables base) []).
  split_and!; vm_compute; reflexivity.
Qed.

Lemma calls_loop cwd : calls (cwd, loop) ("/src", loop).
Proof.
  exists [], [], "/src", 0, Makefile_default. split_and!; vm_compute; reflexivity.
Qed.

Lemma parse_all_diverges_witness :
  parse_single_file "/" "/src/there.mk" = Ok there ∧ (∀ fuel, parse_all fuel "/" there = None) ∧
  parse_single_file "/" "/src/loop.mk" = Ok loop ∧ (∀ fuel, parse_all fuel "/" loop = None).
Proof.
  split; [vm_compute; reflexivity|]. split; [|split; [vm_compute; reflexivity|]].
  - apply (parse_all_diverges "/" there ("/src", back)); [apply rtc_once, calls_back|].
    eapply tc_l; [apply calls_there|]. apply tc_once, calls_back.
  - apply (parse_all_diverges "/" loop ("/src", loop)); [apply rtc_once, calls_loop|].
    apply tc_once, calls_loop.
Defined.

Definition app_all : Makefile := MkMakefile "" (variables app ∪ variables common) [].

Lemma parse_all_precedence_witness :
  parse_all 1 "/" app = Some (Ok (app_all, "/src")) ∧
  variables app_all !! "VER" = Some (var "1.2") ∧ variables app_all !! "LICENSE" = Some (var "MIT").
Proof.
  assert (H : parse_all 1 "/" app = Some (Ok (app_all, "/src"))) by (vm_compute; reflexivity).
  split; [exact H|].
  destruct (parse_all_precedence _ _ _ _ _ plain_app H)
    as (_ & _ & _ & incls & cwd1 & parts & Hi & Hparts & Hk).
  assert (Hi' : parse_included_makefiles "/" app = Ok ([common], "/src")) by (vm_compute; reflexivity).
  rewrite Hi' in Hi. injection Hi as <- _.
  destruct (Forall2_cons_inv_l _ _ _ _ Hparts) as (part & rest & Hc & Hrest & ->).
  apply Forall2_nil_inv_l in Hrest as ->. unfold contributes in Hc. simpl in Hc. subst part.
  rewrite !Hk. split; vm_compute; reflexivity.
Defined.

(** ** Variables *)

Definition vars (kvs : list (string * string)) : Makefile :=
  MkMakefile "" (list_to_map ((λ kv, (kv.1, var kv.2)) <$> kvs)) [].

Definition chain : Makefile := vars [("A", "x$(B)y"); ("B", "z")].

Lemma get_terminates_witness : ∃ r, ∀ n, 1 < n → get n chain "A" = Some (Ok r).
Proof.
  apply (get_terminates (λ k, if String.eqb k "A" then 1 else 0) chain "A").
  intros k v k' Hk Hin.
  assert (Hc : (k = "A" ∧ v = var "x$(B)y") ∨ (k = "B" ∧ v = var "z")).
  { apply elem_of_list_to_map_2 in Hk. simpl in Hk. set_solver. }
  destruct Hc as [[-> ->]|[-> ->]]; vm_compute in Hin.
  - apply list_elem_of_singleton in Hin as ->. vm_compute. lia.
  - by apply not_elem_of_nil in Hin.
Defined.

Lemma get_diverges_witness : get 1000 (vars [("A", "$(A)")]) "A" = None.
Proof.
  apply (get_diverges (λ k, k = "A")); [|reflexivity].
  intros k ->. exists (var "$(A)"), "A". split; [vm_compute; reflexivity|].
  split; [vm_compute; by left|reflexivity].
Defined.

Lemma get_substitutes_witness : get 2 chain "A" = Some (Ok (Some "xzy")).
Proof.
  apply (get_substitutes 1 chain "A" (var "x$(B)y") (λ _, "z") [("x", "B")] "y");
    [vm_compute; reflexivity|vm_compute; reflexivity| |reflexivity].
  constructor; [|by constructor]. split_and!; vm_compute; reflexivity.
Defined.

Lemma first_value_is_get_witness :
  get_first_value_of_variable_by_name 1 app "COMPONENT_SRC" = Some (Ok (Some "app-1.2")).
Proof. rewrite (first_value_is_get 1 app "COMPONENT_SRC" plain_app). vm_compute. reflexivity. Defined.

(** ** Components *)

Definition app_values (k : string) : option string :=
  match get_first_value_of_variable_by_name 2 app k with Some (Ok v) => v | _ => None end.

Definition app_component : Component := MkComponent 3 (Some 7%Z)
  {[ "app-1.2" := ArchiveSource 3 None "http://x/app.tar" ]} [MkComponentOption All "--b"] Cmake.

Lemma new_from_makefile_refines_witness :
  new_from_makefile 2 app = Some (Ok app_component) ∧ describes app app_values app_component.
Proof.
  assert (H : new_from_makefile 2 app = Some (Ok app_component)) by (vm_compute; reflexivity).
  split; [exact H|].
  destruct (new_from_makefile_refines 2 app app_values) as (r & Hr & _ & Hc).
  - intros k Hk. unfold component_variables in Hk.
    repeat (apply elem_of_cons in Hk as [->|Hk]; [vm_compute; reflexivity|]).
    by apply not_elem_of_nil in Hk.
  - apply Hc. rewrite H in Hr. by injection Hr as <-.
Defined.

(** The least revision, one that overflows, and no number. *)
Definition revised (s : string) : Makefile :=
  MkMakefile (path app) (<["COMPONENT_REVISION" := var s]> (variables app)) (includes app).
Definition revised_component (r : Z) : Component := MkComponent 3 (Some r)
  {[ "app-1.2" := ArchiveSource 3 None "http://x/app.tar" ]} [MkComponentOption All "--b"] Cmake.

Lemma new_from_makefile_revision_witness :
  signed_number "-2147483648" (-2147483648) ∧
  new_from_makefile 2 (revised "2147483648") = Some (Ok (revised_component 0)) ∧
  ∀ z, signed_number "2147483648" z → (z < i32_min ∨ i32_max < z)%Z.
Proof.
  assert (Hmin : new_from_makefile 2 (revised "-2147483648") = Some (Ok (revised_component (-2147483648))))
    by (vm_compute; reflexivity).
  assert (Hmax : new_from_makefile 2 (revised "2147483648") = Some (Ok (revised_component 0)))
    by (vm_compute; reflexivity).
  split; [|split; [exact Hmax|]].
  - destruct (new_from_makefile_revision _ _ _ Hmin) as (t & Ht & Hr).
    assert (Hs : get_first_value_of_variable_by_name 2 (revised "-2147483648") "COMPONENT_REVISION" =
      Some (Ok (Some "-2147483648"))) by (vm_compute; reflexivity).
    rewrite Hs in Ht. injection Ht as <-. destruct Hr as [[Hr _]|[Hr _]]; [exact Hr|discriminate Hr].
  - destruct (new_from_makefile_revision _ _ _ Hmax) as (t & Ht & Hr).
    assert (Hs : get_first_value_of_variable_by_name 2 (revised "2147483648") "COMPONENT_REVISION" =
      Some (Ok (Some "2147483648"))) by (vm_compute; reflexivity).
    rewrite Hs in Ht. injection Ht as <-. destruct Hr as [[Hr _]|[_ Hr]]; [|exact Hr].
    apply number_of_spec in Hr. vm_compute in Hr. discriminate Hr.
Defined.

(** ** Repology *)

Definition package (v : string) : Package :=
  MkPackage "openindiana" None v None None None None None None None None None None.

Definition demo_http : Http := λ url,
  if String.eqb url (BASE_URL +:+ "/project/vim") then inr [package "1"; package "333"; package "bad"]
  else inr [].

Lemma find_newest_version_spec_witness :
  @find_newest_version _ _ demo_http "vim" = Ok (Version_to_string 3) ∧
  @find_newest_version _ _ demo_http "none" =
    Panic "called `Option::unwrap()` on a `None` value" ∧
  @project _ demo_http "none" = Ok [].
Proof.
  assert (H : @find_newest_version _ _ demo_http "none" =
    Panic "called `Option::unwrap()` on a `None` value") by (vm_compute; reflexivity).
  split; [vm_compute; reflexivity|]. split; [exact H|].
  pose proof (@find_newest_version_spec _ _ demo_http "none" _) as Hs. rewrite H in Hs. exact Hs.
Defined.
