(* ===== verification/SpecGrammar.v ===== *)
(** * SpecGrammar: the grammar of spec files ([specfile/src/specfile.pest])

    The rules of the grammar as data, the certificate that it is well-formed, and
    the shapes of the token trees it gives. *)

From S2P Require Import Prelude RustStr Peg.

Module SRule.
(** [enum Rule], as [pest_derive] generates it. *)
Inductive t : Set :=
| EOI
| alpha | digit | uppercase | char | WHITESPACE | text
| variable_name | variable_text | variable | empty_variable | multiline_variable
| section_text | comment_line | section_line | section_name | section
| file.

#[global] Instance t_eq_dec : EqDecision t.
Proof. solve_decision. Defined.
End SRule.

Import SRule.

Local Open Scope peg_scope.

Local Abbreviation lit := (λ s, Prim (R := SRule.t) (Lit s)).
Local Abbreviation NEWLINE := (Prim (R := SRule.t) Newline).

Definition spec_rule (r : SRule.t) : rule_type * pexp SRule.t :=
  match r with
  | EOI => (Normal, Prim End_)
  | alpha => (Normal, Prim (Range "a" "z") // Prim (Range "A" "Z"))
  | digit => (Normal, Prim (Range "0" "9"))
  | uppercase => (Normal, Prim (Range "A" "Z"))
  | char =>
      (Normal, Prim (Class_ ASCII_ALPHANUMERIC) // lit "," // lit "." // lit "_" // lit "/"
               // lit "-" // lit "=" // lit ">" // lit "<" // lit "!" // lit "'" // lit "#"
               // lit ":" // lit "{" // lit "}" // lit "%" // lit "*" // lit "@"
               // lit (chr DQUOTE))
  | WHITESPACE => (Silent, lit " " // lit (chr TAB))
  | text => (Atomic, Plus (Ref char) // Ref WHITESPACE)
  | variable_name => (Atomic, Ref uppercase ~~ Plus (Ref alpha) ~~ Star (Ref digit))
  | variable_text => (Atomic, Plus (Ref text))
  | variable => (Normal, Ref variable_name ~~ lit ":" ~~ Ref variable_text)
  | empty_variable => (Normal, Ref variable_name ~~ lit ":")
  | multiline_variable =>
      (Normal, Ref variable_name ~~ lit ":" ~~ Opt NEWLINE ~~ Plus (Ref text ~~ NEWLINE))
  | section_text => (Atomic, Plus (Ref text))
  | comment_line => (Atomic, lit "#" ~~ Ref section_text)
  | section_line => (Normal, Ref comment_line ~~ NEWLINE // Ref section_text ~~ NEWLINE)
  | section_name => (Atomic, Plus (Prim (Class_ ASCII_ALPHA_LOWER) // Prim (Class_ ASCII_DIGIT)))
  | section => (Normal, lit "%" ~~ Ref section_name ~~ NEWLINE ~~ Plus (Ref section_line))
  | file =>
      (Silent, Prim Soi
               ~~ Plus (Ref variable ~~ Plus NEWLINE // Ref multiline_variable ~~ Plus NEWLINE
                        // Ref empty_variable ~~ Plus NEWLINE // Ref section // NEWLINE)
               ~~ Ref EOI)
  end.

Definition spec_grammar : grammar SRule.t := {|
  g_rule := spec_rule;
  g_ws := Some WHITESPACE;
  g_comment := None;
|}.

Definition spec_nul (r : SRule.t) : bool := match r with EOI => true | _ => false end.

Definition spec_rank (r : SRule.t) : nat :=
  match r with
  | text | variable_name => 1
  | variable_text | section_text | variable | empty_variable | multiline_variable => 2
  | section_line => 3
  | file => 4
  | _ => 0
  end.

#[export] Instance spec_wf : WellFormed spec_grammar.
Proof.
  refine {| wf_nul := spec_nul; wf_rank := spec_rank; wf_ranks := 5; wf_size := 600 |}.
  - intros []; vm_compute; reflexivity.
  - reflexivity.
Defined.

Local Close Scope peg_scope.

(** ** The shapes of the token trees *)

Local Abbreviation yields := (yields spec_grammar).

Lemma newlines_shape (rs : list SRule.t) : yields (Plus (Prim Newline)) rs → rs = [].
Proof.
  intros H. unfold Plus in H. apply yields_seq_inv in H as (r1 & r2 & -> & H1 & H2).
  apply yields_prim_inv in H1 as ->. simpl.
  apply yields_star_inv in H2 as (rss & -> & H2).
  induction H2 as [|rs rss H2 _ IH]; [done|]. by apply yields_prim_inv in H2 as ->.
Qed.

(** The items of a spec file. *)
Definition spec_item (r : SRule.t) : bool :=
  match r with
  | variable | multiline_variable | empty_variable | section | EOI => true
  | _ => false
  end.

Lemma item_line_shape (r : SRule.t) rs :
  type_of spec_grammar r ≠ Silent → yields (Seq (Ref r) (Plus (Prim Newline))) rs → rs = [r].
Proof.
  intros Hr H. apply yields_seq_inv in H as (r1 & r2 & -> & H1 & H2).
  apply yields_emit_inv in H1 as ->; [|done]. by apply newlines_shape in H2 as ->.
Qed.

Lemma file_shape rs : yields (Ref file) rs → Forall spec_item rs.
Proof.
  intros H. apply yields_silent_inv in H; [|done..]. cbn in H. unfold Plus at 1 in H.
  apply yields_seq_inv in H as (r1 & r2 & -> & H1 & H2). apply yields_prim_inv in H1 as ->.
  apply yields_seq_inv in H2 as (r3 & r4 & -> & H3 & H4).
  apply yields_emit_inv in H4 as ->; [|done].
  assert (Hi : ∀ rs, yields (Alt (Seq (Ref variable) (Plus (Prim Newline)))
     (Alt (Seq (Ref multiline_variable) (Plus (Prim Newline)))
     (Alt (Seq (Ref empty_variable) (Plus (Prim Newline))) (Alt (Ref section) (Prim Newline))))) rs →
     Forall spec_item rs).
  { clear. intros rs H. do 3 (apply yields_alt_inv in H as [H|H];
      [apply item_line_shape in H as ->; [by repeat constructor|done]|]).
    inv_yields; by repeat constructor. }
  apply yields_seq_inv in H3 as (r5 & r6 & -> & H5 & H6). simpl. rewrite !Forall_app.
  split_and!; [by apply Hi| |by repeat constructor]. by eapply yields_star_Forall.
Qed.

Lemma spec_variable_shape rs :
  yields (body spec_grammar variable) rs → rs = [variable_name; variable_text].
Proof. intros H. cbn in H. by inv_yields. Qed.

(** [section]: a name, then lines. *)
Lemma section_shape rs :
  yields (body spec_grammar section) rs →
  ∃ lines, rs = section_name :: lines ∧ Forall (eq section_line) lines.
Proof.
  intros H. cbn in H.
  apply yields_seq_inv in H as (r1 & r2 & -> & H1 & H). apply yields_prim_inv in H1 as ->.
  apply yields_seq_inv in H as (r3 & r4 & -> & H3 & H). apply yields_emit_inv in H3 as ->; [|done].
  apply yields_seq_inv in H as (r5 & r6 & -> & H5 & H). apply yields_prim_inv in H5 as ->.
  exists r6. split; [done|]. unfold Plus in H. apply yields_seq_inv in H as (r7 & r8 & -> & H7 & H8).
  apply yields_emit_inv in H7 as ->; [|done]. constructor; [done|].
  eapply yields_star_Forall; [done|]. intros rs H. apply yields_emit_inv in H as ->; [|done].
  by constructor.
Qed.

(** [section_line]: a comment or a text. *)
Lemma section_line_shape rs :
  yields (body spec_grammar section_line) rs → rs = [comment_line] ∨ rs = [section_text].
Proof. intros H. cbn in H. inv_yields; auto. Qed.
