(* ===== verification/SpecFile.v ===== *)
(** * SpecFile: spec files and their parser ([specfile/src/lib.rs])

    A spec file describes a package: known and other variables, scripts and the
    list of its files.  [parse] runs the generated parser and walks its tokens. *)

From S2P Require Import Prelude RustStr World Peg SpecGrammar.

Record SpecFile := MkSpecFile {
  name : string;
  version : string;
  release : string;
  summary : string;
  license : string;
  sources : list string;
  variables : gmap string string;
  description : string;
  prep_script : string;
  build_script : string;
  install_script : string;
  files : list string;
  changelog : string;
}.
#[export] Instance SpecFile_eq_dec : EqDecision SpecFile.
Proof. solve_decision. Defined.

(** [SpecFile::default] *)
Definition SpecFile_default : SpecFile := MkSpecFile "" "" "" "" "" [] ∅ "" "" "" "" [] "".

Module KnownVariableControl.
(** [enum KnownVariableControl]; its [None] is [Other]. *)
Inductive t := Name | Version | Release | Summary | License | Other.
#[global] Instance t_eq_dec : EqDecision t.
Proof. solve_decision. Defined.
End KnownVariableControl.

(** [append_newline_string] *)
Definition append_newline_string (s : string) (section_line : Z) : string :=
  if Z.eqb section_line 0 then s else chr LF +:+ s.

(** ** The walk over the token tree *)

(** The assignment of a [variable_text] to the field it is for. *)
Definition set_variable (var_control : KnownVariableControl.t) (var_name_tmp v : string)
    (s : SpecFile) : SpecFile :=
  let '(MkSpecFile name version release summary license sources variables description prep_script
          build_script install_script files changelog) := s in
  match var_control with
  | KnownVariableControl.Name =>
      MkSpecFile v version release summary license sources variables description prep_script
        build_script install_script files changelog
  | KnownVariableControl.Version =>
      MkSpecFile name v release summary license sources variables description prep_script
        build_script install_script files changelog
  | KnownVariableControl.Release =>
      MkSpecFile name version v summary license sources variables description prep_script
        build_script install_script files changelog
  | KnownVariableControl.Summary =>
      MkSpecFile name version release v license sources variables description prep_script
        build_script install_script files changelog
  | KnownVariableControl.License =>
      MkSpecFile name version release summary v sources variables description prep_script
        build_script install_script files changelog
  | KnownVariableControl.Other =>
      MkSpecFile name version release summary license sources (<[var_name_tmp := v]> variables)
        description prep_script build_script install_script files changelog
  end.

(** The body of [for variable_rule in pair.clone().into_inner()], on the control,
    the name and the spec file. *)
Definition variable_step (st : KnownVariableControl.t * string * SpecFile) (p : token SRule.t) :
  outcome anyhow (KnownVariableControl.t * string * SpecFile) :=
  let '(var_control, var_name_tmp, spec) := st in
  match as_rule p with
  | SRule.variable_name =>
      Ok (if String.eqb (as_str p) "Name" then (KnownVariableControl.Name, var_name_tmp, spec)
          else if String.eqb (as_str p) "Version" then (KnownVariableControl.Version, var_name_tmp, spec)
          else if String.eqb (as_str p) "Release" then (KnownVariableControl.Release, var_name_tmp, spec)
          else if String.eqb (as_str p) "Summary" then (KnownVariableControl.Summary, var_name_tmp, spec)
          else if String.eqb (as_str p) "License" then (KnownVariableControl.License, var_name_tmp, spec)
          else (KnownVariableControl.Other, as_str p, spec))
  | SRule.variable_text => Ok (var_control, var_name_tmp, set_variable var_control var_name_tmp (as_str p) spec)
  | _ => Ok st
  end.

Definition unknown_section : string := "Unknown Section: section_text".

(** The [match] on the name of the section, for one line of its text: the spec
    file and the number of lines so far. *)
Definition push_section_text (section_name text : string) (section_line : Z) (s : SpecFile) :
  outcome anyhow (Z * SpecFile) :=
  let '(MkSpecFile name version release summary license sources variables description prep_script
          build_script install_script files changelog) := s in
  let line := append_newline_string text section_line in
  if String.eqb section_name "description" then
    Ok (section_line + 1, MkSpecFile name version release summary license sources variables
          (description +:+ line) prep_script build_script install_script files changelog)%Z
  else if String.eqb section_name "prep" then
    Ok (section_line + 1, MkSpecFile name version release summary license sources variables
          description (prep_script +:+ line) build_script install_script files changelog)%Z
  else if String.eqb section_name "build" then
    Ok (section_line + 1, MkSpecFile name version release summary license sources variables
          description prep_script (build_script +:+ line) install_script files changelog)%Z
  else if String.eqb section_name "files" then
    Ok (section_line, MkSpecFile name version release summary license sources variables
          description prep_script build_script install_script (files ++ [trim_end text]) changelog)
  else if String.eqb section_name "install" then
    Ok (section_line + 1, MkSpecFile name version release summary license sources variables
          description prep_script build_script (install_script +:+ line) files changelog)%Z
  else if String.eqb section_name "changelog" then
    Ok (section_line + 1, MkSpecFile name version release summary license sources variables
          description prep_script build_script install_script files (changelog +:+ line))%Z
  else Panic unknown_section.

(** The body of [for line_or_comment in section_rule.into_inner()]. *)
Definition section_line_step (section_name : string) (st : Z * SpecFile) (p : token SRule.t) :
  outcome anyhow (Z * SpecFile) :=
  match as_rule p with
  | SRule.section_text => push_section_text section_name (as_str p) st.1 st.2
  | _ => Ok st
  end.

Definition unknown_rule : string := "Rule not known please update the code".

(** The body of [for section_rule in pair.clone().into_inner()], on the name, the
    number of lines and the spec file. *)
Definition section_step (st : string * (Z * SpecFile)) (p : token SRule.t) :
  outcome anyhow (string * (Z * SpecFile)) :=
  match as_rule p with
  | SRule.section_name => Ok (as_str p, st.2)
  | SRule.section_line =>
      st' ← foldM (section_line_step st.1) st.2 (into_inner p);
      Ok (st.1, st')
  | _ => Panic unknown_rule
  end.

(** The body of [for pair in pairs]. *)
Definition spec_step (spec : SpecFile) (pair : token SRule.t) : outcome anyhow SpecFile :=
  match as_rule pair with
  | SRule.variable =>
      st ← foldM variable_step (KnownVariableControl.Other, "", spec) (into_inner pair);
      Ok st.2
  | SRule.section =>
      st ← foldM section_step ("", (0%Z, spec)) (into_inner pair);
      Ok st.2.2
  | SRule.EOI => Ok spec
  | _ => Panic unknown_rule
  end.

(** [parse] *)
Definition parse `{PestEngine} (file_contents : string) : outcome anyhow SpecFile :=
  pairs ← map_err AnyPest (of_sum (pest_parse spec_grammar SRule.file file_contents));
  foldM spec_step SpecFile_default pairs.

(** ** What the walk computes *)

(** The variables of the items: names and texts, in order. *)
Definition assignment_of (t : token SRule.t) : list (string * string) :=
  match as_rule t, into_inner t with
  | SRule.variable, [n; v] => [(as_str n, as_str v)]
  | _, _ => []
  end.

(** The name of a section, and the lines of its text, comments left out. *)
Definition section_name_of (t : token SRule.t) : string := default "" (as_str <$> head (into_inner t)).
Definition section_lines_of (t : token SRule.t) : list string :=
  as_str <$> filter (λ c, as_rule c = SRule.section_text) (tail (into_inner t) ≫= into_inner).

(** The lines of each section of the given name, in order. *)
Definition sections_named (n : string) (items : list (token SRule.t)) : list (list string) :=
  section_lines_of <$> filter (λ t, as_rule t = SRule.section ∧ section_name_of t = n) items.

Definition known_sections : list string :=
  ["description"; "prep"; "build"; "files"; "install"; "changelog"].
Definition known_variables : list string := ["Name"; "Version"; "Release"; "Summary"; "License"].

(** Why an item makes the walk panic, if it does. *)
Definition item_panic (t : token SRule.t) : option string :=
  match as_rule t with
  | SRule.multiline_variable | SRule.empty_variable => Some unknown_rule
  | SRule.section =>
      if bool_decide (section_name_of t ∈ known_sections) then None
      else match section_lines_of t with [] => None | _ => Some unknown_section end
  | _ => None
  end.

Definition concat_str : list string → string := foldr String.append EmptyString.

(** What a spec file says, item by item: the last value of a variable; the
    sections of a name one after the other, each with its lines joined. *)
Record denotes (items : list (token SRule.t)) (s : SpecFile) : Prop := {
  den_name : name s = default "" (last_of "Name" (items ≫= assignment_of));
  den_version : version s = default "" (last_of "Version" (items ≫= assignment_of));
  den_release : release s = default "" (last_of "Release" (items ≫= assignment_of));
  den_summary : summary s = default "" (last_of "Summary" (items ≫= assignment_of));
  den_license : license s = default "" (last_of "License" (items ≫= assignment_of));
  den_sources : sources s = [];
  den_variables : ∀ k, variables s !! k =
    if bool_decide (k ∈ known_variables) then None else last_of k (items ≫= assignment_of);
  den_description :
    description s = concat_str (join (chr LF) <$> sections_named "description" items);
  den_prep : prep_script s = concat_str (join (chr LF) <$> sections_named "prep" items);
  den_build : build_script s = concat_str (join (chr LF) <$> sections_named "build" items);
  den_install : install_script s = concat_str (join (chr LF) <$> sections_named "install" items);
  den_changelog : changelog s = concat_str (join (chr LF) <$> sections_named "changelog" items);
  den_files : files s = trim_end <$> concat (sections_named "files" items);
}.

(** ** The lines of a section *)

(** [x] at the end of the script of the section [n]. *)
Definition add_text (n x : string) (s : SpecFile) : SpecFile :=
  let '(MkSpecFile name version release summary license sources variables description prep_script
          build_script install_script files changelog) := s in
  let app n' y := if String.eqb n n' then y +:+ x else y in
  MkSpecFile name version release summary license sources variables (app "description" description)
    (app "prep" prep_script) (app "build" build_script) (app "install" install_script) files
    (app "changelog" changelog).
Definition add_files (l : list string) (s : SpecFile) : SpecFile :=
  let '(MkSpecFile name version release summary license sources variables description prep_script
          build_script install_script files changelog) := s in
  MkSpecFile name version release summary license sources variables description prep_script
    build_script install_script (files ++ l) changelog.

Definition script_sections : list string := ["description"; "prep"; "build"; "install"; "changelog"].

(** Case analysis on a name from a list of literals. *)
Ltac each_name H :=
  repeat (apply elem_of_cons in H as [->|H]); [..|by apply not_elem_of_nil in H].

Lemma push_section_text_script n t k s :
  n ∈ script_sections →
  push_section_text n t k s = Ok ((k + 1)%Z, add_text n (append_newline_string t k) s).
Proof. destruct s. intros Hn. each_name Hn; done. Qed.

Lemma push_section_text_files t k s :
  push_section_text "files" t k s = Ok (k, add_files [trim_end t] s).
Proof. by destruct s. Qed.

Lemma known_sections_cases n :
  n ∈ known_sections ↔ n = "files" ∨ n ∈ script_sections.
Proof. unfold known_sections, script_sections. rewrite !elem_of_cons. tauto. Qed.

Lemma push_section_text_unknown n t k s :
  n ∉ known_sections → push_section_text n t k s = Panic unknown_section.
Proof.
  destruct s. unfold known_sections. rewrite !not_elem_of_cons.
  intros (H1 & H2 & H3 & H4 & H5 & H6 & _). unfold push_section_text.
  repeat match goal with |- context [String.eqb ?a ?b] => destruct (String.eqb_spec a b); [done|] end.
  done.
Qed.

Lemma add_text_app n x y s : add_text n x (add_text n y s) = add_text n (y +:+ x) s.
Proof. destruct s; simpl. f_equal; case_match; by rewrite ?str_app_assoc. Qed.

Lemma add_text_nil n s : add_text n "" s = s.
Proof. destruct s; simpl. f_equal; case_match; by rewrite ?str_app_nil_r. Qed.

Lemma add_files_app l k s : add_files l (add_files k s) = add_files (k ++ l) s.
Proof. destruct s; simpl. by rewrite (assoc_L (++)). Qed.

(** The lines after the first [k]. *)
Fixpoint lines_from (k : Z) (l : list string) : string :=
  match l with
  | [] => EmptyString
  | t :: l => append_newline_string t k +:+ lines_from (k + 1) l
  end.

Lemma lines_from_pos k l : (0 < k)%Z → lines_from k l = foldr (λ t s, chr LF +:+ t +:+ s) "" l.
Proof.
  revert k; induction l as [|t l IH]; intros k Hk; [done|]. simpl. rewrite IH by lia.
  unfold append_newline_string. destruct (Z.eqb_spec k 0); [lia|]. by rewrite str_app_assoc.
Qed.

Lemma lines_from_0 l : lines_from 0 l = join (chr LF) l.
Proof.
  destruct l as [|t l]; [done|]. cbn [lines_from]. rewrite lines_from_pos by lia.
  unfold append_newline_string. simpl. revert t; induction l as [|u l IH]; intros t.
  { by rewrite str_app_nil_r. }
  cbn [foldr]. rewrite IH. cbn [join]. destruct l; by rewrite <-?str_app_assoc.
Qed.

(** The loop body over a line of text. *)
Definition push_line (n : string) (st : Z * SpecFile) (t : string) : outcome anyhow (Z * SpecFile) :=
  push_section_text n t st.1 st.2.

Lemma push_lines_script n k s l :
  n ∈ script_sections →
  ∃ k', foldM (push_line n) (k, s) l = Ok (k', add_text n (lines_from k l) s).
Proof.
  intros Hn. revert k s; induction l as [|t l IH]; intros k s; cbn [foldM lines_from].
  { rewrite add_text_nil. by eexists. }
  change (push_line n (k, s) t) with (push_section_text n t k s). rewrite push_section_text_script by done. cbn [mbind outcome_bind].
  destruct (IH (k + 1)%Z (add_text n (append_newline_string t k) s)) as [k' ->].
  rewrite add_text_app. by eexists.
Qed.

Lemma push_lines_files k s l :
  foldM (push_line "files") (k, s) l = Ok (k, add_files (trim_end <$> l) s).
Proof.
  revert s; induction l as [|t l IH]; intros s; cbn [foldM].
  { destruct s; simpl. by rewrite app_nil_r. }
  change (push_line "files" (k, s) t) with (push_section_text "files" t k s).
  rewrite push_section_text_files. cbn [mbind outcome_bind].
  rewrite IH. by rewrite add_files_app.
Qed.

Lemma section_line_texts n st ps :
  foldM (section_line_step n) st ps =
    foldM (push_line n) st (as_str <$> filter (λ c, as_rule c = SRule.section_text) ps).
Proof.
  revert st; induction ps as [|p ps IH]; intros st; [done|]. cbn [foldM]. rewrite filter_cons.
  assert (section_line_step n st p =
    if decide (as_rule p = SRule.section_text) then push_line n st (as_str p) else Ok st) as ->.
  { unfold section_line_step, push_line. by destruct (as_rule p). }
  case_decide; [|apply IH]. cbn [fmap list_fmap foldM].
  destruct (push_line n st (as_str p)); [apply IH|done..].
Qed.

Lemma section_lines n st lines :
  Forall (λ t, as_rule t = SRule.section_line) lines →
  foldM section_step (n, st) lines =
    (st' ← foldM (section_line_step n) st (lines ≫= into_inner); Ok (n, st')).
Proof.
  intros Hl. revert st; induction Hl as [|t lines Ht _ IH]; intros st; [done|].
  cbn [foldM]. rewrite bind_cons, foldM_app.
  assert (section_step (n, st) t =
    (st' ← foldM (section_line_step n) st (into_inner t); Ok (n, st'))) as ->.
  { unfold section_step. by rewrite Ht. }
  destruct (foldM (section_line_step n) st (into_inner t)); [|done..].
  cbn [mbind outcome_bind]. by rewrite IH.
Qed.

Section walk.
Context `{PE : PestEngine, !PestLaws}.
Context (full : string).
Local Abbreviation genuine := (genuine pest_uppercase spec_grammar full).

(** A section pushes the lines of its text. *)
Lemma spec_step_section s t :
  genuine t → as_rule t = SRule.section →
  spec_step s t =
    (st ← foldM (push_line (section_name_of t)) (0%Z, s) (section_lines_of t); Ok st.2).
Proof.
  destruct t as [r span ps]; simpl. intros Hg ->. unfold spec_step. cbn [as_rule into_inner].
  apply genuine_inner in Hg; [|done]. apply section_shape in Hg as (lines & Hps & Hl).
  destruct ps as [|[r n i] ps]; [done|]. injection Hps as -> <-.
  unfold section_lines_of, section_name_of. cbn [into_inner head tail fmap option_fmap option_map from_option].
  cbn [foldM as_str].
  change (section_step ("", (0%Z, s)) (Tok SRule.section_name n i)) with
    (Ok (E := anyhow) (n, (0%Z, s))). cbn [mbind outcome_bind].
  rewrite section_lines; [|rewrite Forall_fmap in Hl; by eapply Forall_impl; [exact Hl|]].
  rewrite section_line_texts. simpl. destruct (foldM (push_line n) _ _); done.
Qed.

Lemma spec_step_variable s t :
  genuine t → as_rule t = SRule.variable →
  ∃ n v, assignment_of t = [(n, v)] ∧ spec_step s t =
    Ok (if String.eqb n "Name" then set_variable KnownVariableControl.Name "" v s
        else if String.eqb n "Version" then set_variable KnownVariableControl.Version "" v s
        else if String.eqb n "Release" then set_variable KnownVariableControl.Release "" v s
        else if String.eqb n "Summary" then set_variable KnownVariableControl.Summary "" v s
        else if String.eqb n "License" then set_variable KnownVariableControl.License "" v s
        else set_variable KnownVariableControl.Other n v s).
Proof.
  destruct t as [r span ps]; simpl. intros Hg ->. apply genuine_inner, spec_variable_shape in Hg; [|done].
  destruct ps as [|[r1 n ?] [|[r2 v ?] [|]]]; simplify_eq/=. exists n, v. split; [done|].
  unfold spec_step. cbn [as_rule into_inner foldM]. unfold variable_step. cbn [as_rule as_str].
  repeat (destruct (String.eqb n _); [done|]). done.
Qed.
End walk.

(** ** The declarative reading, item by item *)

Lemma concat_str_app l k : concat_str (l ++ k) = concat_str l +:+ concat_str k.
Proof.
  induction l as [|s l IH]; [done|]. unfold concat_str in *. simpl. by rewrite IH, str_app_assoc.
Qed.

Lemma sections_named_snoc n items t :
  sections_named n (items ++ [t]) =
    sections_named n items ++
      if bool_decide (as_rule t = SRule.section ∧ section_name_of t = n) then [section_lines_of t] else [].
Proof.
  unfold sections_named. rewrite filter_app, fmap_app, filter_cons, filter_nil. f_equal.
  case_bool_decide; case_decide; done.
Qed.

(** The text of the sections of a name after one more item. *)
Lemma script_snoc n items t :
  concat_str (join (chr LF) <$> sections_named n (items ++ [t])) =
    concat_str (join (chr LF) <$> sections_named n items) +:+
      if bool_decide (as_rule t = SRule.section ∧ section_name_of t = n)
      then join (chr LF) (section_lines_of t) else "".
Proof.
  rewrite sections_named_snoc, fmap_app, concat_str_app. f_equal. case_bool_decide; [|done].
  simpl. by rewrite str_app_nil_r.
Qed.

Lemma files_snoc items t :
  trim_end <$> concat (sections_named "files" (items ++ [t])) =
    (trim_end <$> concat (sections_named "files" items)) ++
      if bool_decide (as_rule t = SRule.section ∧ section_name_of t = "files")
      then trim_end <$> section_lines_of t else [].
Proof.
  rewrite sections_named_snoc, concat_app, fmap_app. f_equal. case_bool_decide; [|done].
  simpl. by rewrite app_nil_r.
Qed.

Lemma assignments_snoc items t :
  (items ++ [t]) ≫= assignment_of = (items ≫= assignment_of) ++ assignment_of t.
Proof. rewrite bind_app. simpl. by rewrite app_nil_r. Qed.

Lemma denotes_default : denotes [] SpecFile_default.
Proof. split; try done. intros k. simpl. rewrite lookup_empty. by case_bool_decide. Qed.

(** An item that is neither a variable nor a section says nothing. *)
Lemma denotes_other items t s :
  assignment_of t = [] → as_rule t ≠ SRule.section → denotes items s → denotes (items ++ [t]) s.
Proof.
  intros Ha Hr []. split; rewrite ?assignments_snoc, ?Ha, ?app_nil_r; auto;
    rewrite ?script_snoc, ?files_snoc; case_bool_decide; try tauto;
    by rewrite ?str_app_nil_r, ?app_nil_r.
Qed.

(** A section of a script. *)
Lemma denotes_script items t s n :
  as_rule t = SRule.section → section_name_of t = n → n ∈ script_sections →
  denotes items s → denotes (items ++ [t]) (add_text n (join (chr LF) (section_lines_of t)) s).
Proof.
  intros Hr Hn Hs []. assert (assignment_of t = []) as Ha.
  { destruct t as [r ? ?]; simpl in Hr; subst r. done. }
  destruct s. simpl in *. split; simpl; rewrite ?assignments_snoc, ?Ha, ?app_nil_r; auto;
    rewrite ?script_snoc, ?files_snoc; unfold section_name_of in *; rewrite Hr, Hn;
    each_name Hs; simpl; rewrite ?str_app_nil_r, ?app_nil_r; congruence.
Qed.

(** The list of files. *)
Lemma denotes_files items t s :
  as_rule t = SRule.section → section_name_of t = "files" →
  denotes items s → denotes (items ++ [t]) (add_files (trim_end <$> section_lines_of t) s).
Proof.
  intros Hr Hn []. assert (assignment_of t = []) as Ha.
  { destruct t as [r ? ?]; simpl in Hr; subst r. done. }
  destruct s. simpl in *. split; simpl; rewrite ?assignments_snoc, ?Ha, ?app_nil_r; auto;
    rewrite ?script_snoc, ?files_snoc; unfold section_name_of in *; rewrite Hr, Hn;
    simpl; rewrite ?str_app_nil_r, ?app_nil_r; congruence.
Qed.

(** A section of no known name and with no text. *)
Lemma denotes_no_lines items t s :
  as_rule t = SRule.section → section_lines_of t = [] → denotes items s → denotes (items ++ [t]) s.
Proof.
  intros Hr Hl []. assert (assignment_of t = []) as Ha.
  { destruct t as [r ? ?]; simpl in Hr; subst r. done. }
  split; rewrite ?assignments_snoc, ?Ha, ?app_nil_r; auto;
    rewrite ?script_snoc, ?files_snoc, Hl; case_bool_decide;
    by rewrite ?str_app_nil_r, ?app_nil_r.
Qed.

Definition control_of (n : string) : KnownVariableControl.t :=
  if String.eqb n "Name" then KnownVariableControl.Name
  else if String.eqb n "Version" then KnownVariableControl.Version
  else if String.eqb n "Release" then KnownVariableControl.Release
  else if String.eqb n "Summary" then KnownVariableControl.Summary
  else if String.eqb n "License" then KnownVariableControl.License
  else KnownVariableControl.Other.

(** A variable. *)
Lemma denotes_variable items t s n v n' :
  as_rule t ≠ SRule.section → assignment_of t = [(n, v)] →
  (control_of n = KnownVariableControl.Other → n' = n) →
  denotes items s → denotes (items ++ [t]) (set_variable (control_of n) n' v s).
Proof.
  intros Hr Ha Hn' [].
  assert (Hk : bool_decide (n ∈ known_variables) = false ↔ control_of n = KnownVariableControl.Other).
  { rewrite bool_decide_eq_false. unfold known_variables, control_of. rewrite !not_elem_of_cons.
    split; [intros (H1&H2&H3&H4&H5&_)|];
      repeat match goal with |- context [String.eqb ?a ?b] => destruct (String.eqb_spec a b) end;
      try done. intros _. split_and!; try done. apply not_elem_of_nil. }
  assert (Hv : ∀ k, (if bool_decide (k ∈ known_variables) then None
      else last_of k ((items ++ [t]) ≫= assignment_of)) =
    if decide (control_of n = KnownVariableControl.Other)
    then <[n := v]> (variables s) !! k else variables s !! k).
  { intros k. rewrite assignments_snoc, Ha, last_of_snoc.
    destruct (decide (control_of n = KnownVariableControl.Other)) as [Hc|Hc].
    - apply Hk in Hc. destruct (String.eqb_spec n k) as [->|Hne].
      + by rewrite Hc, lookup_insert_eq.
      + by rewrite lookup_insert_ne.
    - destruct (String.eqb_spec n k) as [<-|Hne]; [|done].
      rewrite den_variables0. destruct (bool_decide (n ∈ known_variables)); [done|]. tauto. }
  assert (Hf : ∀ k, last_of k ((items ++ [t]) ≫= assignment_of) =
    if String.eqb n k then Some v else last_of k (items ≫= assignment_of)).
  { intros k. by rewrite assignments_snoc, Ha, last_of_snoc. }
  clear Hk. destruct s. simpl in *.
  assert (Hc : control_of n = KnownVariableControl.Other → n' = n) by done.
  unfold control_of in *.
  repeat match goal with |- context [String.eqb ?a ?b] =>
    destruct (String.eqb_spec a b); [subst; simpl in *|] end;
    try (rewrite Hc by done); split; simpl;
    first [by rewrite Hf; case_str | by intros k; rewrite Hv | done
          |by rewrite ?script_snoc, ?files_snoc; case_bool_decide; [tauto|];
              rewrite ?str_app_nil_r, ?app_nil_r].
Qed.

(** ** Parsing *)

Section parse.
Context `{PE : PestEngine, !PestLaws}.
Context (full : string).
Local Abbreviation genuine := (genuine pest_uppercase spec_grammar full).

(** One section: its text is added, or its name is not known. *)
Lemma denotes_section items t s :
  genuine t → as_rule t = SRule.section → denotes items s →
  match item_panic t with
  | Some w => spec_step s t = Panic w
  | None => ∃ s', spec_step s t = Ok s' ∧ denotes (items ++ [t]) s'
  end.
Proof.
  intros Hg Hr Hd. rewrite (spec_step_section full) by done. unfold item_panic. rewrite Hr.
  case_bool_decide as Hk.
  - apply known_sections_cases in Hk as [Hn|Hn].
    + rewrite Hn, push_lines_files. eexists. split; [done|]. by apply denotes_files.
    + destruct (push_lines_script _ 0 s (section_lines_of t) Hn) as [k' ->].
      eexists. split; [done|]. rewrite lines_from_0. by eapply denotes_script.
  - destruct (section_lines_of t) as [|l ls] eqn:Hl.
    + eexists. split; [done|]. by apply denotes_no_lines.
    + cbn [foldM]. change (push_line (section_name_of t) (0%Z, s) l)
        with (push_section_text (section_name_of t) l 0 s).
      by rewrite push_section_text_unknown.
Qed.

(** One item. *)
Lemma denotes_item items t s :
  genuine t → spec_item (as_rule t) → denotes items s →
  match item_panic t with
  | Some w => spec_step s t = Panic w
  | None => ∃ s', spec_step s t = Ok s' ∧ denotes (items ++ [t]) s'
  end.
Proof.
  intros Hg Hi Hd. destruct (as_rule t) eqn:Hr; try done.
  - unfold item_panic, spec_step. rewrite Hr. eexists. split; [done|].
    apply denotes_other; [|by rewrite Hr|done]. unfold assignment_of. by rewrite Hr.
  - unfold item_panic. rewrite Hr. destruct (spec_step_variable full s t Hg Hr) as (n & v & Ha & ->).
    eexists. split; [done|].
    assert (as_rule t ≠ SRule.section) as Hr' by (by rewrite Hr).
    pose proof (λ n', denotes_variable items t s n v n' Hr' Ha) as Hv. unfold control_of in Hv.
    repeat (case_match; [apply Hv; done|]). by apply Hv.
  - unfold item_panic, spec_step. by rewrite Hr.
  - unfold item_panic, spec_step. by rewrite Hr.
  - by apply denotes_section.
Qed.

Lemma denotes_items items ts s :
  Forall genuine ts → Forall spec_item (as_rule <$> ts) → denotes items s →
  match head (omap item_panic ts) with
  | Some w => foldM spec_step s ts = Panic w
  | None => ∃ s', foldM spec_step s ts = Ok s' ∧ denotes (items ++ ts) s'
  end.
Proof.
  revert items s; induction ts as [|t ts IH]; intros items s Hg Hi Hd.
  { exists s. by rewrite app_nil_r. }
  apply Forall_cons in Hg as [Hg Hgs]. rewrite fmap_cons, Forall_cons in Hi. destruct Hi as [Hi His].
  pose proof (denotes_item items t s Hg Hi Hd) as Ht. simpl.
  destruct (item_panic t) as [w|]; simpl; [by rewrite Ht|]. destruct Ht as (s' & -> & Hd'). simpl.
  specialize (IH _ _ Hgs His Hd'). by rewrite <-(assoc_L (++)) in IH.
Qed.
End parse.

Section parse_props.
Context `{PE : PestEngine, !PestLaws}.

Lemma spec_parse_items content ps :
  pest_parse spec_grammar SRule.file content = inr ps →
  match head (omap item_panic ps) with
  | Some w => parse content = Panic w
  | None => ∃ s, parse content = Ok s ∧ denotes ps s
  end.
Proof.
  intros Hp. unfold parse. rewrite Hp. cbn [of_sum map_err mbind outcome_bind].
  apply (denotes_items content [] ps SpecFile_default).
  - by eapply pest_parse_genuine.
  - apply pest_parse_yields in Hp. by apply file_shape.
  - apply denotes_default.
Qed.

(** C19. Parsing a spec file, on every text: the error of the generated parser on
    a text outside the grammar; a panic exactly when some variable has no value
    on its line or some section of an unknown name has text, although the
    grammar accepts both; otherwise the spec file that the items denote. *)
Theorem parse_cases content :
  match pest_parse spec_grammar SRule.file content with
  | inl e => parse content = Err (AnyPest e)
  | inr ps =>
      match head (omap item_panic ps) with
      | Some w => parse content = Panic w
      | None => ∃ s, parse content = Ok s ∧ denotes ps s
      end
  end.
Proof.
  destruct (pest_parse spec_grammar SRule.file content) as [e|ps] eqn:Hp.
  - unfold parse. by rewrite Hp.
  - by apply spec_parse_items.
Qed.

Lemma parse_ok content s :
  parse content = Ok s →
  ∃ ps, pest_parse spec_grammar SRule.file content = inr ps ∧ omap item_panic ps = [] ∧ denotes ps s.
Proof.
  intros Hs. destruct (pest_parse spec_grammar SRule.file content) as [e|ps] eqn:Hp.
  { unfold parse in Hs. by rewrite Hp in Hs. }
  exists ps. pose proof (spec_parse_items _ _ Hp) as Hitems.
  destruct (omap item_panic ps) as [|w ws]; simpl in Hitems; [|by rewrite Hitems in Hs].
  destruct Hitems as (s' & Hs' & Hd). rewrite Hs' in Hs. by simplify_eq.
Qed.

End parse_props.
