(* ===== verification/SpecText.v ===== *)
(** * SpecText: spec files as texts

    What the parser of spec files does with a whole text: variables, sections and
    blank lines, as they are written, and the spec file they give; and the other
    way round, every spec file that the grammar can write is what some text
    parses to ([print_spec]). *)

From S2P Require Import Prelude RustStr World Peg PegEngine PegText SpecGrammar SpecFile.

(** ** Items *)

(** A variable keeps the blanks between its colon and its value; a section its
    lines, indented or not. *)
Inductive item :=
| Blank
| Var (name gap value : string)
| Section_ (name : string) (lines : list string).

Definition write_lines (ls : list string) : string :=
  foldr (λ l s, l +:+ String LF s) EmptyString ls.
Definition write_item (i : item) : string :=
  match i with
  | Blank => chr LF
  | Var n gap v => n +:+ ":" +:+ gap +:+ v +:+ chr LF
  | Section_ n ls => "%" +:+ n +:+ chr LF +:+ write_lines ls
  end.
Fixpoint write_items (its : list item) : string :=
  match its with [] => EmptyString | i :: its => write_item i +:+ write_items its end.

(** The characters of the rule [char], and those of a text. *)
Definition char_byte (a : ascii) : bool :=
  is_digit a || is_lower a || is_upper a || contains_char a (",._/-=><!'#:{}%*@" +:+ chr DQUOTE).
Definition text_byte (a : ascii) : bool := char_byte a || is_blank a.
Definition alpha_byte (a : ascii) : bool := is_lower a || is_upper a.
Definition section_byte (a : ascii) : bool := is_lower a || is_digit a.

(** A line without its indentation, which the parser does not see. *)
Fixpoint drop_blanks (l : string) : string :=
  match l with
  | String a l' => if is_blank a then drop_blanks l' else l
  | EmptyString => EmptyString
  end.
Definition is_comment (x : string) : bool :=
  match x with String a (String _ _) => Ascii.eqb a "#" | _ => false end.
(** The lines of a section that are not comments. *)
Definition section_texts (ls : list string) : list string :=
  filter (λ x, is_comment x = false) (drop_blanks <$> ls).

Definition var_name (n : string) : Prop :=
  ∃ u w d, n = String u (w +:+ d) ∧ is_upper u = true ∧ w ≠ EmptyString ∧
    all_bytes alpha_byte w = true ∧ all_bytes is_digit d = true.
Definition value_ok (v : string) : bool :=
  first_byte (λ a, negb (is_blank a)) v && all_bytes text_byte v.
Definition section_line_ok (l : string) : bool :=
  negb (is_empty (drop_blanks l)) && all_bytes text_byte l.

Definition item_ok (i : item) : Prop :=
  match i with
  | Blank => True
  | Var n gap v => var_name n ∧ all_bytes is_blank gap = true ∧ value_ok v = true
  | Section_ n ls =>
      n ≠ EmptyString ∧ all_bytes section_byte n = true ∧ ls ≠ [] ∧
      Forall (λ l, section_line_ok l = true) ls
  end.

(** A section goes on to the next blank line, or to the end. *)
Fixpoint separated (its : list item) : bool :=
  match its with
  | [] => true
  | i :: rest =>
      match i, rest with
      | Section_ _ _, [] | Section_ _ _, Blank :: _ => true
      | Section_ _ _, _ => false
      | _, _ => true
      end && separated rest
  end.

(** What an item does to a spec file. *)
Definition apply_item (s : SpecFile) (i : item) : outcome anyhow SpecFile :=
  match i with
  | Blank => Ok s
  | Var n _ v => Ok (set_variable (control_of n) n v s)
  | Section_ n ls =>
      if bool_decide (n ∈ script_sections) then Ok (add_text n (join (chr LF) (section_texts ls)) s)
      else if String.eqb n "files" then Ok (add_files (trim_end <$> section_texts ls) s)
      else if bool_decide (section_texts ls = []) then Ok s
      else Panic unknown_section
  end.

Definition line_token (l : string) : token SRule.t :=
  Tok SRule.section_line (drop_blanks l +:+ chr LF)
    [Tok (if is_comment (drop_blanks l) then SRule.comment_line else SRule.section_text) (drop_blanks l) []].
Definition item_tokens (i : item) : list (token SRule.t) :=
  match i with
  | Blank => []
  | Var n gap v =>
      [Tok SRule.variable (n +:+ ":" +:+ gap +:+ v) [Tok SRule.variable_name n []; Tok SRule.variable_text v []]]
  | Section_ n ls =>
      [Tok SRule.section ("%" +:+ n +:+ chr LF +:+ write_lines ls)
         (Tok SRule.section_name n [] :: (line_token <$> ls))]
  end.

(** ** The pieces of a line *)

Lemma drop_blanks_split l :
  ∃ bl, l = bl +:+ drop_blanks l ∧ all_bytes is_blank bl = true ∧
    (drop_blanks l = EmptyString ∨ first_byte (λ a, negb (is_blank a)) (drop_blanks l) = true).
Proof.
  induction l as [|a l (bl & Hl & Hbl & Hd)]; [by exists EmptyString; auto|]. simpl.
  destruct (is_blank a) eqn:Ha.
  - exists (String a bl). rewrite str_app_cons, <-Hl. simpl. by rewrite Ha.
  - exists EmptyString. split_and!; [done..|]. right. simpl. by rewrite Ha.
Qed.

(** The first bytes of a text that are not blank, and the rest. *)
Lemma word_split x :
  ∃ w r, x = w +:+ r ∧ all_bytes (λ a, negb (is_blank a)) w = true ∧ starts is_blank r.
Proof.
  induction x as [|a x (w & r & -> & Hw & Hr)]; [by exists EmptyString, EmptyString; split_and!; [..|right]|].
  destruct (is_blank a) eqn:Ha.
  - exists EmptyString, (String a (w +:+ r)). split_and!; [done..|by left].
  - exists (String a w), r. rewrite str_app_cons. split_and!; [done| |done]. simpl. by rewrite Ha.
Qed.

Section pieces.
Context `{PE : PestEngine, !PestLaws} (full : string).
Local Abbreviation G := spec_grammar.
Local Abbreviation peg := (peg pest_uppercase G full).
Local Abbreviation eats := (eats pest_uppercase G full).

Lemma sp_skip_to bl s :
  all_bytes is_blank bl = true → starts (λ a, negb (is_blank a)) s →
  peg false GSkip (bl +:+ s) (Some ([], s)).
Proof. by apply (skip_blanks _ _ _ SRule.WHITESPACE). Qed.

Lemma sp_skip_none s : starts (λ a, negb (is_blank a)) s → peg false GSkip s (Some ([], s)).
Proof. apply (sp_skip_to EmptyString). done. Qed.

(** A word is one [text], a blank another. *)
Lemma text_word w s :
  w ≠ EmptyString → all_bytes char_byte w = true → starts (λ a, is_blank a || is_eol a) s →
  peg true (GMatch (Ref SRule.text)) (w +:+ s) (Some ([], s)).
Proof.
  intros Hne Hw Hs. apply peg_ref_inside. apply peg_alt_l. apply peg_plus_run; [done| |].
  - by apply (runs_bytes _ _ _ char_byte); [|by_bytes|].
  - apply byte_stop; [done|]. by_starts.
Qed.

Lemma text_blank a s : is_blank a = true → peg true (GMatch (Ref SRule.text)) (String a s) (Some ([], s)).
Proof.
  intros Ha. apply (peg_ref_inside _ _ _ _ (chr a)). apply peg_alt_r.
  - apply peg_seq_fail1, byte_stop; [done|]. left. revert a Ha. by_bytes.
  - by apply (blank_ok _ _ _ SRule.WHITESPACE).
Qed.

Lemma text_stop s : starts is_eol s → peg true (GMatch (Ref SRule.text)) s None.
Proof.
  intros Hs. apply peg_ref_inside_fail. apply peg_alt_none.
  - apply peg_seq_fail1, byte_stop; [done|]. by_starts.
  - apply (blank_none _ _ _ SRule.WHITESPACE); [done|]. by_starts.
Qed.

(** The first [text] of some characters, and the characters left. *)
Lemma text_step x s :
  x ≠ EmptyString → all_bytes text_byte x = true → starts is_eol s →
  ∃ w r, x = w +:+ r ∧ w ≠ EmptyString ∧ all_bytes text_byte r = true ∧
    peg true (GMatch (Ref SRule.text)) (w +:+ (r +:+ s)) (Some ([], r +:+ s)).
Proof.
  intros Hne Hx Hs. destruct (word_split x) as (w & r & -> & Hw & Hr).
  rewrite all_bytes_app in Hx. apply andb_true_iff in Hx as [Hwt Hrt].
  destruct (decide (w = EmptyString)) as [->|Hwne].
  - destruct Hr as [Hr| ->]; [|done]. destruct r as [|a r]; [done|]. simpl in Hr, Hrt.
    apply andb_true_iff in Hrt as [_ Hrt]. exists (chr a), r. split_and!; [done..|]. by apply text_blank.
  - exists w, r. split_and!; [done..|]. apply text_word; [done| |].
    + clear -Hw Hwt. induction w as [|a w IH]; [done|]. simpl in *.
      apply andb_true_iff in Hw as [Ha Hw], Hwt as [Hat Hwt]. rewrite IH by done. unfold text_byte in Hat.
      apply negb_true_iff in Ha. rewrite Ha, orb_false_r in Hat. by rewrite Hat.
    + destruct Hr as [Hr| ->]; [|by_starts]. left. destruct r as [|a r]; [done|]. simpl in *. by rewrite Hr.
Qed.

Lemma sp_texts_tail x s :
  all_bytes text_byte x = true → starts is_eol s →
  peg true (GTail (Ref SRule.text)) (x +:+ s) (Some ([], s)).
Proof.
  intros Hx Hs. remember (String.length x) as n eqn:Hn. revert x Hn Hx.
  induction (lt_wf n) as [n _ IH]. intros x -> Hx.
  destruct (decide (x = EmptyString)) as [->|Hne].
  - eapply (peg_tail_stop _ _ _ _ _ _ [] s); [apply peg_skip_atomic|by apply text_stop].
  - destruct (text_step x s Hne Hx Hs) as (w & r & -> & Hw & Hr & Hm). rewrite <-str_app_assoc.
    eapply (peg_tail_go _ _ _ _ _ _ [] _ [] _ []); [apply peg_skip_atomic|exact Hm|].
    eapply IH; [|done..]. rewrite str_app_length. destruct w; [done|]. simpl. lia.
Qed.

Lemma texts_match x s :
  x ≠ EmptyString → all_bytes text_byte x = true → starts is_eol s →
  peg true (GMatch (Plus (Ref SRule.text))) (x +:+ s) (Some ([], s)).
Proof.
  intros Hne Hx Hs. destruct (text_step x s Hne Hx Hs) as (w & r & -> & _ & Hr & Hm).
  rewrite <-str_app_assoc. eapply peg_seq_atomic; [exact Hm|].
  destruct (decide (r = EmptyString)) as [->|Hrne]; [by apply peg_star_stop, text_stop|].
  destruct (text_step r s Hrne Hr Hs) as (w' & r' & -> & _ & Hr' & Hm'). rewrite <-str_app_assoc.
  eapply (peg_star_go _ _ _ _ _ _ [] _ []); [exact Hm'|by apply sp_texts_tail].
Qed.

(** ** Variables *)

Lemma sp_name_token n s :
  var_name n →
  peg false (GMatch (Ref SRule.variable_name)) (n +:+ String ":" s)
    (Some ([Tok SRule.variable_name n []], String ":" s)).
Proof.
  intros (u & w & d & -> & Hu & Hw & Hwb & Hd). apply peg_ref_atomic; [done|].
  rewrite str_app_cons, <-str_app_assoc.
  eapply (peg_seq_atomic _ _ _ _ _ _ (w +:+ (d +:+ String ":" s))).
  { apply (eats_byte _ _ _ SRule.uppercase); [done|]. revert u Hu. by_bytes. }
  eapply peg_seq_atomic.
  - apply peg_plus_run; [done|by apply (runs_bytes _ _ _ alpha_byte); [|by_bytes|]|].
    apply byte_stop; [done|]. destruct d as [|b d]; [by left|]. left. simpl in *.
    apply andb_true_iff in Hd as [Hb _]. revert b Hb. by_bytes.
  - apply peg_star_run; [by apply (runs_bytes _ _ _ is_digit); [|by_bytes|]|].
    apply byte_stop; [done|by left].
Qed.

Lemma name_none s :
  starts (λ a, (nat_of_ascii a <? 128) && negb (is_upper a)) s →
  peg false (GMatch (Ref SRule.variable_name)) s None.
Proof.
  intros Hs. apply peg_ref_atomic_fail; [done|]. apply peg_seq_fail1, byte_stop; [done|]. by_starts.
Qed.

Lemma value_starts v s : value_ok v = true → starts (λ a, negb (is_blank a)) (v +:+ s).
Proof. intros [Hv _]%andb_true_iff. left. by destruct v. Qed.

Lemma variable_match n gap v t :
  item_ok (Var n gap v) →
  peg false (GMatch (Ref SRule.variable)) ((n +:+ ":" +:+ gap +:+ v) +:+ String LF t)
    (Some (item_tokens (Var n gap v), String LF t)).
Proof.
  intros (Hn & Hgap & Hv). apply peg_ref_normal; [done..|]. rewrite <-!str_app_assoc.
  pose proof (value_starts v (String LF t) Hv) as Hvs. apply andb_true_iff in Hv as [Hv1 Hv2].
  eapply (peg_seq_ok _ _ _ _ _ _ _ [Tok SRule.variable_name n []] (":" +:+ (gap +:+ (v +:+ String LF t)))
    [] (":" +:+ (gap +:+ (v +:+ String LF t))) [_]); [by apply sp_name_token|by apply sp_skip_none; left|].
  eapply (peg_seq_ok _ _ _ _ _ _ _ [] (gap +:+ (v +:+ String LF t)) [] (v +:+ String LF t) [_]);
    [apply (peg_lit_ok _ _ _ _ ":")|by apply sp_skip_to|].
  apply peg_ref_atomic; [done|]. apply texts_match; [by destruct v|done|by left].
Qed.

(** ** Sections *)

Lemma sp_line_starts x s : first_byte (λ a, negb (is_blank a)) x = true → starts (λ a, negb (is_blank a)) (x +:+ s).
Proof. intros Hx. left. by destruct x. Qed.

Lemma section_text_match x t :
  x ≠ EmptyString → all_bytes text_byte x = true →
  peg false (GMatch (Ref SRule.section_text)) (x +:+ String LF t) (Some ([Tok SRule.section_text x []], String LF t)).
Proof. intros Hne Hx. apply peg_ref_atomic; [done|]. apply texts_match; [done..|by left]. Qed.

(** A line after its indentation: a comment, or a text. *)
Lemma section_line_match l t :
  section_line_ok l = true →
  peg false (GMatch (Ref SRule.section_line)) (drop_blanks l +:+ String LF t) (Some ([line_token l], t)).
Proof.
  intros [Hne Hb]%andb_true_iff. unfold line_token. destruct (drop_blanks_split l) as (bl & Hl & _ & Hx).
  assert (Hxb : all_bytes text_byte (drop_blanks l) = true).
  { rewrite Hl, all_bytes_app in Hb. by apply andb_true_iff in Hb as [_ ?]. }
  apply negb_true_iff in Hne. destruct (drop_blanks l) as [|a x] eqn:Ed; [done|]. clear Hne Hl Hb Ed.
  change (String LF t) with (chr LF +:+ t). rewrite str_app_assoc.
  apply peg_ref_normal; [done..|]. rewrite <-str_app_assoc.
  assert (Hend : ∀ r ps, peg false (GMatch (Ref r)) (String a x +:+ String LF t) (Some (ps, String LF t)) →
    peg false (GMatch (Seq (Ref r) (Prim Newline))) (String a x +:+ String LF t) (Some (ps, t))).
  { intros r ps Hr. rewrite <-(app_nil_r ps).
    eapply (peg_seq_ok _ _ _ _ _ _ _ ps (String LF t) [] (String LF t) []);
      [exact Hr|apply sp_skip_none; by left|apply peg_newline_LF]. }
  pose proof Hxb as Hab. simpl in Hab. apply andb_true_iff in Hab as [_ Hxb'].
  destruct (Ascii.eqb_spec a "#") as [->|Ha].
  - destruct x as [|b x]; cbn [is_comment].
    + apply peg_alt_r; [|apply Hend, section_text_match; done].
      apply peg_seq_fail1, peg_ref_atomic_fail; [done|].
      eapply peg_seq_atomic_fail; [apply (peg_lit_ok _ _ _ _ "#")|].
      apply peg_ref_inside_fail, peg_seq_fail1, text_stop. by left.
    + rewrite Ascii.eqb_refl. apply peg_alt_l, Hend. apply peg_ref_atomic; [done|].
      eapply peg_seq_atomic; [apply (peg_lit_ok _ _ _ _ "#")|].
      apply (peg_ref_inside _ _ _ _ (String b x)). apply texts_match; [done..|by left].
  - assert (is_comment (String a x) = false) as ->.
    { destruct x; [done|]. simpl. by apply Ascii.eqb_neq. }
    apply peg_alt_r; [|by apply Hend, section_text_match].
    apply peg_seq_fail1, peg_ref_atomic_fail; [done|]. apply peg_seq_fail1, peg_lit_other. left. simpl.
    by apply negb_true_iff, Ascii.eqb_neq.
Qed.

Lemma section_line_none s : starts is_eol s → peg false (GMatch (Ref SRule.section_line)) s None.
Proof.
  intros Hs. apply peg_ref_normal_fail; [done..|]. apply peg_alt_none; apply peg_seq_fail1.
  - apply peg_ref_atomic_fail; [done|]. apply peg_seq_fail1, peg_lit_other. by_starts.
  - apply peg_ref_atomic_fail; [done|]. apply peg_seq_fail1. by apply text_stop.
Qed.

Lemma skip_line l s :
  section_line_ok l = true → peg false GSkip (l +:+ s) (Some ([], drop_blanks l +:+ s)).
Proof.
  intros [Hne _]%andb_true_iff. destruct (drop_blanks_split l) as (bl & Hl & Hbl & Hx).
  rewrite Hl at 1. rewrite <-str_app_assoc. apply sp_skip_to; [done|]. destruct Hx as [Hx|Hx].
  - by rewrite Hx in Hne.
  - by apply sp_line_starts.
Qed.

Lemma section_lines_tail ls s :
  Forall (λ l, section_line_ok l = true) ls → starts is_eol s →
  peg false (GTail (Ref SRule.section_line)) (write_lines ls +:+ s) (Some (line_token <$> ls, s)).
Proof.
  intros Hls Hs. induction Hls as [|l ls Hl _ IH].
  - eapply (peg_tail_stop _ _ _ _ _ _ [] s); [apply sp_skip_none; by_starts|by apply section_line_none].
  - cbn [write_lines foldr]. fold (write_lines ls). rewrite <-str_app_assoc, str_app_cons, fmap_cons.
    eapply (peg_tail_go _ _ _ _ _ _ [] _ [line_token l] _ (line_token <$> ls));
      [by apply skip_line|by apply section_line_match|exact IH].
Qed.

(** The lines of a section, after the indentation of the first one. *)
Lemma section_lines_match l ls s :
  Forall (λ l, section_line_ok l = true) (l :: ls) → starts is_eol s →
  peg false (GMatch (Plus (Ref SRule.section_line))) (drop_blanks l +:+ String LF (write_lines ls +:+ s))
    (Some (line_token <$> (l :: ls), s)).
Proof.
  intros [Hl Hls]%Forall_cons Hs. rewrite fmap_cons.
  destruct ls as [|l' ls].
  - eapply (peg_seq_ok _ _ _ _ _ _ _ [line_token l] s [] s []); [by apply section_line_match|..].
    + apply sp_skip_none. by_starts.
    + by apply peg_star_stop, section_line_none.
  - cbn [write_lines foldr]. fold (write_lines ls). rewrite <-str_app_assoc, str_app_cons.
    pose proof Hls as [Hl' Hls']%Forall_cons.
    eapply (peg_seq_ok _ _ _ _ _ _ _ [line_token l] _ [] _ (line_token <$> (l' :: ls)));
      [by apply section_line_match|by apply skip_line|]. rewrite fmap_cons.
    eapply (peg_star_go _ _ _ _ _ _ [line_token l']); [by apply section_line_match|by apply section_lines_tail].
Qed.

Lemma section_match n ls s :
  item_ok (Section_ n ls) → starts is_eol s →
  peg false (GMatch (Ref SRule.section)) (write_item (Section_ n ls) +:+ s)
    (Some (item_tokens (Section_ n ls), s)).
Proof.
  intros (Hne & Hn & Hls & Hok) Hs. apply peg_ref_normal; [done..|]. cbn [write_item]. rewrite <-!str_app_assoc.
  destruct ls as [|l ls]; [done|]. cbn [write_lines foldr]. fold (write_lines ls). rewrite <-str_app_assoc.
  set (r3 := l +:+ _). change (chr LF +:+ r3) with (String LF r3).
  apply (peg_seq_ok _ _ _ _ _ _ _ [] (n +:+ String LF r3) [] (n +:+ String LF r3) (_ :: (line_token <$> (l :: ls)))).
  { apply (peg_lit_ok _ _ _ _ "%"). }
  { apply sp_skip_none. eapply starts_imp; [by apply (starts_app section_byte)|by_bytes]. }
  apply (peg_seq_ok _ _ _ _ _ _ _ [Tok SRule.section_name n []] (String LF r3) [] (String LF r3) (line_token <$> (l :: ls))).
  { apply peg_ref_atomic; [done|]. apply peg_plus_run; [done| |].
    - eapply runs_impl; [|apply (runs_ascii section_byte); [|exact Hn]].
      + intros c (a & -> & Ha) t. change (chr a +:+ t) with (String a t).
        assert (Hb : (nat_of_ascii a <? 128) && in_set (Alt (Prim (Class_ ASCII_ALPHA_LOWER)) (Prim (Class_ ASCII_DIGIT)) : pexp SRule.t) a = true)
          by (clear - Ha; revert a Ha; by_bytes).
        apply andb_true_iff in Hb as [Hlt%Nat.ltb_lt Hin].
        pose proof (byte_set_match pest_uppercase G full
          (Alt (Prim (Class_ ASCII_ALPHA_LOWER)) (Prim (Class_ ASCII_DIGIT))) true a t eq_refl Hlt) as Hm.
        by rewrite Hin in Hm.
      + intros a Ha. apply Nat.ltb_lt. revert a Ha. by_bytes.
    - apply (byte_set_match pest_uppercase G full
        (Alt (Prim (Class_ ASCII_ALPHA_LOWER)) (Prim (Class_ ASCII_DIGIT))) true LF r3 eq_refl). by apply Nat.ltb_lt. }
  { apply sp_skip_none. by left. }
  pose proof Hok as [Hl _]%Forall_cons.
  apply (peg_seq_quiet _ _ _ _ _ _ _ r3 (drop_blanks l +:+ String LF (write_lines ls +:+ s))).
  - apply peg_newline_LF.
  - unfold r3. rewrite str_app_cons. by apply skip_line.
  - by apply section_lines_match.
Qed.

(** ** The items of a file *)

(** One item of the rule [file]. *)
Definition newlines : pexp SRule.t := Plus (Prim Newline).
Definition one_item : pexp SRule.t :=
  Alt (Seq (Ref SRule.variable) newlines) (Alt (Seq (Ref SRule.multiline_variable) newlines)
    (Alt (Seq (Ref SRule.empty_variable) newlines) (Alt (Ref SRule.section) (Prim Newline)))).

(** The items after some blank lines. *)
Fixpoint strip (its : list item) : list item :=
  match its with Blank :: its => strip its | _ => its end.

Lemma strip_ok its :
  Forall item_ok its → separated its = true →
  Forall item_ok (strip its) ∧ separated (strip its) = true ∧ length (strip its) <= length its ∧
  strip its ≫= item_tokens = its ≫= item_tokens.
Proof.
  induction its as [|i its IH]; [by intros; split_and!|]. intros Hok Hsep.
  destruct i; try by split_and!. apply Forall_cons in Hok as [_ Hok].
  destruct (IH Hok Hsep) as (H1 & H2 & H3 & H4). split_and!; [done..|simpl; lia|exact H4].
Qed.

Lemma sp_item_starts i t :
  item_ok i → starts (λ a, negb (is_blank a)) (write_item i +:+ t).
Proof.
  destruct i; cbn [item_ok write_item]; [by left| |by left].
  intros ((u & w & d & -> & Hu & _) & _). left. simpl. clear - Hu. revert u Hu. by_bytes.
Qed.

Lemma sp_items_start its : Forall item_ok its → starts (λ a, negb (is_blank a)) (write_items its).
Proof. intros [|i its' Hi _]; [by right|by apply sp_item_starts]. Qed.

Lemma stripped_start its :
  Forall item_ok its → starts (λ a, negb (is_blank a || is_eol a)) (write_items (strip its)).
Proof.
  induction 1 as [|i its Hi _ IH]; [by right|]. destruct i; [done| |by left].
  destruct Hi as ((u & w & d & -> & Hu & _) & _). left. simpl. clear - Hu. revert u Hu. by_bytes.
Qed.

Lemma newlines_stop s :
  starts (λ a, negb (is_blank a || is_eol a)) s →
  peg false (GTail (Prim Newline)) s (Some ([], s)).
Proof.
  intros Hs. eapply (peg_tail_stop _ _ _ _ _ _ [] s); [apply sp_skip_none; by_starts|].
  apply peg_newline_other. by_starts.
Qed.

Lemma newlines_tail its :
  Forall item_ok its →
  peg false (GTail (Prim Newline)) (write_items its) (Some ([], write_items (strip its))).
Proof.
  intros Hits. induction Hits as [|i its Hi Hits IH]; [by apply newlines_stop; right|].
  destruct i; [|apply newlines_stop, (stripped_start (_ :: its)); by constructor..].
  eapply (peg_tail_go _ _ _ _ _ _ [] _ [] _ []); [apply sp_skip_none; by left|apply peg_newline_LF|exact IH].
Qed.

Lemma newlines_match its :
  Forall item_ok its →
  peg false (GMatch newlines) (String LF (write_items its)) (Some ([], write_items (strip its))).
Proof.
  intros Hits. eapply peg_seq_quiet; [apply peg_newline_LF|apply sp_skip_none; by apply sp_items_start|].
  destruct Hits as [|i its Hi Hits].
  { apply peg_star_stop. apply peg_newline_other. by right. }
  destruct i.
  - eapply (peg_star_go _ _ _ _ _ _ [] _ []); [apply peg_newline_LF|by apply (newlines_tail its)].
  - apply peg_star_stop, peg_newline_other.
    assert (Hs : starts (λ a, negb (is_blank a || is_eol a)) (write_items (Var name gap value :: its)))
      by (apply (stripped_start (Var name gap value :: its)); by constructor).
    by_starts.
  - apply peg_star_stop, peg_newline_other. by left.
Qed.

(** A text that shows no name of a variable is no variable of any kind. *)
Lemma no_variable s x :
  starts (λ a, (nat_of_ascii a <? 128) && negb (is_upper a)) s →
  peg false (GMatch (Alt (Ref SRule.section) (Prim Newline))) s x →
  peg false (GMatch one_item) s x.
Proof.
  intros Hs Hx. pose proof (name_none s Hs) as Hn.
  do 3 (apply peg_alt_r; [apply peg_seq_fail1, peg_ref_normal_fail; [done..|by apply peg_seq_fail1]|]). done.
Qed.

Lemma section_none s : starts (λ a, negb (Ascii.eqb a "%")) s → peg false (GMatch (Ref SRule.section)) s None.
Proof.
  intros Hs. apply peg_ref_normal_fail; [done..|]. by apply peg_seq_fail1, peg_lit_other.
Qed.

Lemma item_newline t : peg false (GMatch one_item) (String LF t) (Some ([], t)).
Proof.
  apply no_variable; [by left|]. apply peg_alt_r; [apply section_none; by left|apply peg_newline_LF].
Qed.

Lemma sp_item_none_end : peg false (GMatch one_item) EmptyString None.
Proof.
  apply no_variable; [by right|].
  apply peg_alt_none; [apply section_none|apply peg_newline_other]; by right.
Qed.

(** An item takes its lines, and the blank lines after a variable. *)
Lemma sp_item_match i its :
  Forall item_ok (i :: its) → separated (i :: its) = true →
  ∃ its', Forall item_ok its' ∧ separated its' = true ∧ length its' <= length its ∧
    its' ≫= item_tokens = its ≫= item_tokens ∧
    peg false (GMatch one_item) (write_items (i :: its)) (Some (item_tokens i, write_items its')).
Proof.
  intros [Hi Hits]%Forall_cons Hsep. pose proof Hsep as [Hsi Hs]%andb_true_iff.
  destruct i as [|n gap v|n ls].
  - exists its. split_and!; [done..|]. apply item_newline.
  - destruct (strip_ok its Hits Hs) as (H1 & H2 & H3 & H4). exists (strip its). split_and!; [done..|].
    apply peg_alt_l. cbn [write_items write_item]. rewrite <-(app_nil_r (item_tokens _)).
    rewrite (str_app_assoc _ v), (str_app_assoc _ _ (chr LF)), (str_app_assoc n), <-(str_app_assoc _ (chr LF)).
    eapply (peg_seq_ok _ _ _ _ _ _ _ (item_tokens (Var n gap v)) _ [] _ []);
      [by apply variable_match|apply sp_skip_none; by left|by apply newlines_match].
  - exists its. split_and!; [done..|]. apply no_variable; [by left|]. apply peg_alt_l.
    apply section_match; [done|]. destruct its as [|[]]; [by right|by left|done..].
Qed.

Lemma sp_items_tail its :
  Forall item_ok its → separated its = true →
  peg false (GTail one_item) (write_items its) (Some (its ≫= item_tokens, EmptyString)).
Proof.
  remember (length its) as n eqn:Hn. revert its Hn.
  induction (lt_wf n) as [n _ IH]. intros [|i its] -> Hits Hsep.
  - eapply (peg_tail_stop _ _ _ _ _ _ [] EmptyString); [apply sp_skip_none; by right|apply sp_item_none_end].
  - destruct (sp_item_match i its Hits Hsep) as (its' & H1 & H2 & H3 & H4 & Hm). rewrite bind_cons, <-H4.
    eapply (peg_tail_go _ _ _ _ _ _ [] _ (item_tokens i) _ (its' ≫= item_tokens));
      [apply sp_skip_none; by apply sp_items_start|exact Hm|].
    eapply IH; [|done..]. simpl. lia.
Qed.

Lemma file_match i its :
  full = write_items (i :: its) → Forall item_ok (i :: its) → separated (i :: its) = true →
  peg false (GMatch (Ref SRule.file)) (write_items (i :: its))
    (Some (((i :: its) ≫= item_tokens) ++ [Tok SRule.EOI EmptyString []], EmptyString)).
Proof.
  intros Hfull Hits Hsep.
  pose proof (peg_ref_ok pest_uppercase G full false SRule.file (write_items (i :: its)) (write_items (i :: its))
    (((i :: its) ≫= item_tokens) ++ [Tok SRule.EOI EmptyString []]) EmptyString) as Hr.
  apply Hr; [|by rewrite str_app_nil_r]. clear Hr.
  eapply peg_seq_quiet.
  { apply peg_prim_ok. unfold match_prim. by rewrite Hfull, String.eqb_refl. }
  { apply sp_skip_none. by apply sp_items_start. }
  eapply (peg_seq_ok _ _ _ _ _ _ _ ((i :: its) ≫= item_tokens) EmptyString [] EmptyString [_]).
  - destruct (sp_item_match i its Hits Hsep) as (its' & H1 & H2 & _ & H4 & Hm). rewrite bind_cons, <-H4.
    eapply (peg_seq_ok _ _ _ _ _ _ _ (item_tokens i) _ [] (write_items its'));
      [exact Hm|apply sp_skip_none; by apply sp_items_start|].
    destruct its' as [|j its']; [apply peg_star_stop, sp_item_none_end|].
    destruct (sp_item_match j its' H1 H2) as (its2 & H5 & H6 & _ & H7 & Hm'). rewrite bind_cons, <-H7.
    eapply (peg_star_go _ _ _ _ _ _ (item_tokens j) _ (its2 ≫= item_tokens)); [exact Hm'|by apply sp_items_tail].
  - apply sp_skip_none. by right.
  - apply (peg_ref_normal _ _ _ _ EmptyString); [done..|]. by apply peg_prim_ok.
Qed.
End pieces.

(** ** The meaning of a text *)

Section text.
Context `{PE : PestEngine, !PestLaws}.

Lemma section_texts_of ls span n :
  section_lines_of (Tok SRule.section span (Tok SRule.section_name n [] :: (line_token <$> ls))) = section_texts ls.
Proof.
  unfold section_lines_of, section_texts. cbn [into_inner tail]. induction ls as [|l ls IH]; [done|].
  rewrite !fmap_cons, bind_cons, filter_app, fmap_app, IH, filter_cons. cbn [line_token into_inner].
  by destruct (is_comment (drop_blanks l)).
Qed.

(** The walk over the token of an item does what the item says. *)
Lemma item_tokens_step full s i :
  Forall (genuine pest_uppercase spec_grammar full) (item_tokens i) →
  foldM spec_step s (item_tokens i) = apply_item s i.
Proof.
  destruct i as [|n gap v|n ls]; [done|..]; intros [Hg _]%Forall_cons; cbn [item_tokens foldM].
  - destruct (spec_step_variable full s _ Hg eq_refl) as (n' & v' & Ha & ->). injection Ha as <- <-.
    cbn [apply_item]. unfold control_of. repeat case_match; done.
  - rewrite (spec_step_section full) by done. rewrite section_texts_of. change (section_name_of _) with n.
    cbn [apply_item]. case_bool_decide as Hn.
    { destruct (push_lines_script n 0 s (section_texts ls) Hn) as [k ->]. simpl. by rewrite lines_from_0. }
    destruct (String.eqb_spec n "files") as [->|Hf]; [by rewrite push_lines_files|].
    case_bool_decide as Ht; [by rewrite Ht|]. destruct (section_texts ls) as [|t ts]; [done|].
    cbn [foldM]. change (push_line n (0%Z, s) t) with (push_section_text n t 0 s).
    rewrite push_section_text_unknown; [done|]. rewrite known_sections_cases. naive_solver.
Qed.

Lemma items_step full s its :
  Forall (genuine pest_uppercase spec_grammar full) (its ≫= item_tokens) →
  foldM spec_step s (its ≫= item_tokens) = foldM apply_item s its.
Proof.
  revert s. induction its as [|i its IH]; intros s Hg; [done|].
  rewrite bind_cons in *. apply Forall_app in Hg as [Hi Hg]. cbn [foldM].
  rewrite foldM_app, (item_tokens_step full) by done.
  destruct (apply_item s i); [by apply IH|done..].
Qed.

Lemma sp_parse_items its :
  Forall item_ok its → separated its = true → its ≠ [] →
  parse (write_items its) = foldM apply_item SpecFile_default its.
Proof.
  intros Hits Hsep Hne. destruct its as [|i its]; [done|].
  pose proof (pest_parse_of_peg _ _ _ _ _ (file_match _ i its eq_refl Hits Hsep)) as Hp.
  pose proof (pest_parse_genuine _ _ _ _ Hp) as [Hg _]%Forall_app.
  unfold parse. rewrite Hp. cbn [of_sum map_err mbind outcome_bind].
  rewrite foldM_app, (items_step _ _ _ Hg). destruct (foldM apply_item _ _); done.
Qed.

(** C7. The text of a spec file means what its lines say: variables, sections and
    blank lines, as they are written, are applied in their order to the empty
    spec file.  A section goes on to the next blank line, even over a line that
    looks like the head of another section; its lines lose their indentation and
    its comments are left out; text in a section of an unknown name is a panic. *)
Theorem parse_spec_written its :
  Forall item_ok its → separated its = true → its ≠ [] →
  parse (write_items its) = foldM apply_item SpecFile_default its.
Proof. apply sp_parse_items. Qed.
End text.

(** ** Writing a spec file *)

Definition print_variable (n v : string) : list item := if is_empty v then [] else [Var n " " v].
Definition print_section (n : string) (ls : list string) : list item :=
  match ls with [] => [] | _ => [Section_ n ls; Blank] end.
Definition script_lines (x : string) : list string := if is_empty x then [] else split_char LF x.
Definition spec_items (s : SpecFile) : list item :=
  print_variable "Name" (name s) ++ print_variable "Version" (version s) ++
  print_variable "Release" (release s) ++ print_variable "Summary" (summary s) ++
  print_variable "License" (license s) ++
  (map_to_list (variables s) ≫= (λ v, [Var v.1 " " v.2])) ++
  print_section "description" (script_lines (description s)) ++ print_section "prep" (script_lines (prep_script s)) ++
  print_section "build" (script_lines (build_script s)) ++ print_section "install" (script_lines (install_script s)) ++
  print_section "files" (files s) ++ print_section "changelog" (script_lines (changelog s)).
Definition print_spec (s : SpecFile) : string := write_items (spec_items s).

(** The spec files that a text can say: values and lines of the characters of the
    grammar, lines that are neither blank nor indented nor comments, and no
    sources. *)
Definition plain_line (l : string) : Prop :=
  section_line_ok l = true ∧ drop_blanks l = l ∧ is_comment l = false.
Definition field_ok (v : string) : Prop := v = EmptyString ∨ value_ok v = true.
Definition script_ok (x : string) : Prop := Forall plain_line (script_lines x).
Record writable (s : SpecFile) : Prop := {
  wr_fields : Forall field_ok [name s; version s; release s; summary s; license s];
  wr_sources : sources s = [];
  wr_variables : map_Forall (λ n v, var_name n ∧ (n ∉ known_variables) ∧ value_ok v = true) (variables s);
  wr_scripts : Forall script_ok
    [description s; prep_script s; build_script s; install_script s; changelog s];
  wr_files : Forall (λ f, plain_line f ∧ trim_end f = f) (files s);
}.

Lemma plain_texts ls : Forall plain_line ls → section_texts ls = ls.
Proof.
  unfold section_texts. induction 1 as [|l ls (_ & Hl & Hc) _ IH]; [done|].
  rewrite fmap_cons, filter_cons, Hl, decide_True by done. by rewrite IH.
Qed.

Lemma known_names n : n ∈ known_variables → var_name n.
Proof.
  assert (Hd : ∀ u w, is_upper u = true → w ≠ EmptyString → all_bytes alpha_byte w = true → var_name (String u w)).
  { intros u w ???. exists u, w, EmptyString. by rewrite str_app_nil_r. }
  intros Hn. each_name Hn; by apply Hd.
Qed.

Lemma print_variable_ok n v : var_name n → field_ok v → Forall item_ok (print_variable n v).
Proof.
  intros Hn Hv. unfold print_variable. destruct (is_empty v) eqn:He; [done|]. apply Forall_singleton.
  destruct Hv as [->|Hv]; done.
Qed.

Lemma print_section_ok n ls :
  n ∈ known_sections → Forall plain_line ls → Forall item_ok (print_section n ls).
Proof.
  intros Hn Hls. destruct ls as [|l ls]; [done|]. constructor; [|by apply Forall_singleton].
  assert (n ≠ EmptyString ∧ all_bytes section_byte n = true) as [? ?] by by each_name Hn.
  split_and!; [done..|]. eapply Forall_impl; [exact Hls|]. by intros ? [].
Qed.

(** Printed pieces can stand one after the other. *)
Lemma separated_app_section n ls its : separated its = true → separated (print_section n ls ++ its) = true.
Proof. by destruct ls. Qed.
Lemma separated_app_variable n v its : separated its = true → separated (print_variable n v ++ its) = true.
Proof. unfold print_variable. by destruct (is_empty v). Qed.
Lemma separated_variables vs its :
  separated its = true → separated ((vs ≫= (λ v : string * string, [Var v.1 " " v.2])) ++ its) = true.
Proof. intros Hits. by induction vs as [|v vs IH]. Qed.

Lemma spec_items_ok s : writable s → Forall item_ok (spec_items s) ∧ separated (spec_items s) = true.
Proof.
  intros [Hf _ Hv Hs Hl]. split.
  - rewrite !Forall_cons in Hf, Hs. destruct Hf as (?&?&?&?&?&_), Hs as (?&?&?&?&?&_).
    unfold spec_items. rewrite !Forall_app. split_and!;
      try (apply print_variable_ok; [apply known_names; set_solver|done]);
      try (apply print_section_ok; [set_solver|first [done|eapply Forall_impl; [exact Hl|by intros ? []]]]).
    apply map_Forall_to_list in Hv. apply Forall_bind. eapply Forall_impl; [exact Hv|].
    intros [n v] (Hn & _ & Hval). by apply Forall_singleton.
  - unfold spec_items. do 5 apply separated_app_variable. apply separated_variables.
    do 5 apply separated_app_section. rewrite <-(app_nil_r (print_section _ _)). by apply separated_app_section.
Qed.

Lemma apply_section n ls s rest :
  n ∈ script_sections → Forall plain_line ls →
  foldM apply_item s (print_section n ls ++ rest) = foldM apply_item (add_text n (join (chr LF) ls) s) rest.
Proof.
  intros Hn Hls. destruct ls as [|l ls]; [by rewrite add_text_nil|].
  cbn [print_section app foldM apply_item]. by rewrite bool_decide_eq_true_2, plain_texts by done.
Qed.

Lemma apply_files ls s rest :
  Forall (λ f, plain_line f ∧ trim_end f = f) ls →
  foldM apply_item s (print_section "files" ls ++ rest) = foldM apply_item (add_files ls s) rest.
Proof.
  intros Hls. destruct ls as [|l ls]; [by destruct s; simpl; rewrite app_nil_r|].
  cbn [print_section app foldM apply_item]. rewrite plain_texts by (eapply Forall_impl; [exact Hls|by intros ? []]).
  assert (trim_end <$> (l :: ls) = l :: ls) as ->; [|done].
  induction Hls as [|f fs [_ Hf] _ IH]; [done|]. by rewrite fmap_cons, IH, Hf.
Qed.

Lemma apply_variables vs s rest :
  Forall (λ v, v.1 ∉ known_variables) vs →
  foldM apply_item s ((vs ≫= (λ v, [Var v.1 " " v.2])) ++ rest) =
    foldM apply_item (foldl (λ s v, set_variable KnownVariableControl.Other v.1 v.2 s) s vs) rest.
Proof.
  intros Hvs. revert s. induction Hvs as [|[n v] vs Hn _ IH]; intros s; [done|].
  rewrite bind_cons, <-(assoc_L (++)). cbn [fst snd app foldM foldl apply_item mbind outcome_bind]. rewrite IH.
  simpl in Hn. unfold known_variables in Hn. rewrite !not_elem_of_cons in Hn.
  assert (control_of n = KnownVariableControl.Other) as ->; [|done]. unfold control_of.
  repeat match goal with |- context [String.eqb n ?x] => destruct (String.eqb_spec n x) as [Hnn|]; [exfalso; tauto|] end. done.
Qed.

Lemma join_script_lines x : join (chr LF) (script_lines x) = x.
Proof. unfold script_lines. destruct x; [done|]. apply join_split_char. Qed.

Lemma foldl_set_other vs s :
  foldl (λ s v, set_variable KnownVariableControl.Other v.1 v.2 s) s vs =
    MkSpecFile (name s) (version s) (release s) (summary s) (license s) (sources s)
      (foldl (λ m kv, <[kv.1 := kv.2]> m) (variables s) vs) (description s) (prep_script s)
      (build_script s) (install_script s) (files s) (changelog s).
Proof. revert s. induction vs as [|v vs IH]; intros s; [by destruct s|]. cbn [foldl]. rewrite IH. by destruct s. Qed.

Lemma apply_known n v s rest :
  control_of n ≠ KnownVariableControl.Other → (v = EmptyString → set_variable (control_of n) n v s = s) →
  foldM apply_item s (print_variable n v ++ rest) = foldM apply_item (set_variable (control_of n) n v s) rest.
Proof. intros Hn Hv. unfold print_variable. destruct v; [by rewrite Hv|done]. Qed.

Lemma apply_spec_items s : writable s → foldM apply_item SpecFile_default (spec_items s) = Ok s.
Proof.
  intros [Hf Hsrc Hv Hs Hl]. rewrite !Forall_cons in Hs. destruct Hs as (?&?&?&?&?&_).
  unfold spec_items.
  do 5 (rewrite apply_known; [|done|intros Hv0; simpl; rewrite ?Hv0; done]).
  rewrite apply_variables; [|apply map_Forall_to_list in Hv; eapply Forall_impl; [exact Hv|]; by intros [] (_ & ? & _)].
  rewrite foldl_set_other, <-(app_nil_r (print_section "changelog" _)).
  rewrite !apply_section, apply_files, !apply_section by (done || set_solver).
  rewrite !join_script_lines. cbn [foldM]. f_equal. destruct s. simpl in *. rewrite foldl_insert_map_to_list. by subst.
Qed.

Lemma print_spec_parses `{PE : PestEngine, !PestLaws} s :
  writable s → s ≠ SpecFile_default → parse (print_spec s) = Ok s.
Proof.
  intros Hs Hne. destruct (spec_items_ok s Hs) as [Hok Hsep]. unfold print_spec.
  pose proof (apply_spec_items s Hs) as Ha.
  rewrite sp_parse_items by (done || by contradict Hne; rewrite Hne in Ha; injection Ha as <-). done.
Qed.

(** C5. Parsing what [print_spec] writes gives the spec file back: every spec file
    whose values and lines the grammar can write is what some text parses to, and
    the parser loses nothing of it. *)
Theorem parse_print_spec `{PE : PestEngine, !PestLaws} s :
  writable s → s ≠ SpecFile_default → parse (print_spec s) = Ok s.
Proof. apply print_spec_parses. Qed.
