(* ===== verification/MacroGrammar.v ===== *)
(** * MacroGrammar: the grammar of macro lines ([specfile/src/macro.pest])

    The rules of the grammar as data, the certificate that it is well-formed, and
    the shapes of the token trees it gives. *)

From S2P Require Import Prelude RustStr Peg.

Module XRule.
(** [enum Rule], as [pest_derive] generates it. *)
Inductive t : Set :=
| EOI
| WHITESPACE | char | text | env_variable_char
| macro_parameter | macro_name | macro_parameters
| spec_macro_without_parameters | spec_macro_with_parameters | spec_macro
| spec_optional_macro | function | text_with_macros
| file | env_variable.

#[global] Instance t_eq_dec : EqDecision t.
Proof. solve_decision. Defined.
End XRule.

Import XRule.

Local Open Scope peg_scope.

Local Abbreviation lit := (λ s, Prim (R := XRule.t) (Lit s)).
Local Abbreviation NEWLINE := (Prim (R := XRule.t) Newline).

Definition macro_rule (r : XRule.t) : rule_type * pexp XRule.t :=
  match r with
  | EOI => (Normal, Prim End_)
  | WHITESPACE => (Silent, lit " " // lit (chr TAB))
  | char =>
      (Normal, Prim (Class_ ASCII_ALPHANUMERIC) // lit "." // lit "_" // lit "/" // lit "-"
               // lit "=" // lit ">" // lit "<" // lit "!" // lit "'" // lit "#" // lit (chr DQUOTE))
  | text => (Atomic, Plus (Ref char) // Ref WHITESPACE // NEWLINE)
  | env_variable_char => (Normal, Prim (Range "A" "Z") // Prim (Range "0" "9"))
  | macro_parameter => (Atomic, Plus (Ref char))
  | macro_name => (Atomic, Plus (Ref char))
  | macro_parameters => (Silent, Star (lit "," // Ref macro_parameter))
  | spec_macro_without_parameters =>
      (Silent, lit "%{" ~~ Ref macro_name ~~ lit "}" // lit "%" ~~ Ref macro_name)
  | spec_macro_with_parameters =>
      (Silent, lit "%{" ~~ Ref macro_name ~~ lit "(" ~~ Ref macro_parameters ~~ lit ")" ~~ lit "}"
               // lit "%" ~~ Ref macro_name ~~ lit "(" ~~ Ref macro_parameters ~~ lit ")")
  | spec_macro => (Normal, Ref spec_macro_with_parameters // Ref spec_macro_without_parameters)
  | spec_optional_macro => (Atomic, lit "%{?" ~~ Plus (Ref char) ~~ lit "}")
  | function =>
      (Normal, lit "%(" ~~ Star (Ref spec_macro // Ref spec_optional_macro // Ref text) ~~ lit ")")
  | text_with_macros => (Normal, Ref function // Ref spec_macro // Ref spec_optional_macro)
  | file =>
      (Normal, Prim Soi ~~ Star (Ref text) ~~ Plus (Ref text // Ref text_with_macros)
               ~~ Star (Ref text) ~~ Ref EOI)
  | env_variable => (Atomic, lit "$" ~~ Plus (Ref env_variable_char // lit "_"))
  end.

Definition macro_grammar : grammar XRule.t := {|
  g_rule := macro_rule;
  g_ws := Some WHITESPACE;
  g_comment := None;
|}.

Definition macro_nul (r : XRule.t) : bool :=
  match r with EOI | macro_parameters => true | _ => false end.

Definition macro_rank (r : XRule.t) : nat :=
  match r with
  | text | macro_parameter | macro_name | spec_macro => 1
  | macro_parameters | text_with_macros => 2
  | file => 3
  | _ => 0
  end.

#[export] Instance macro_wf : WellFormed macro_grammar.
Proof.
  refine {| wf_nul := macro_nul; wf_rank := macro_rank; wf_ranks := 4; wf_size := 250 |}.
  - intros []; vm_compute; reflexivity.
  - reflexivity.
Defined.

Local Close Scope peg_scope.

(** ** The shapes of the token trees *)

Local Abbreviation yields := (yields macro_grammar).

(** The items of a line. *)
Definition line_item (r : XRule.t) : bool :=
  match r with
  | text | text_with_macros | EOI => true
  | _ => false
  end.

Lemma line_shape rs : yields (body macro_grammar file) rs → Forall line_item rs.
Proof.
  intros H. cbn in H.
  assert (Ht : ∀ rs, yields (Ref text) rs → Forall line_item rs).
  { clear. intros rs H. apply yields_emit_inv in H as ->; [by repeat constructor|done]. }
  assert (Hm : ∀ rs, yields (Alt (Ref text) (Ref text_with_macros)) rs → Forall line_item rs).
  { clear. intros rs H. inv_yields; by repeat constructor. }
  apply yields_seq_inv in H as (r1 & r2 & -> & H1 & H). apply yields_prim_inv in H1 as ->.
  apply yields_seq_inv in H as (r3 & r4 & -> & H3 & H).
  apply yields_seq_inv in H as (r5 & r6 & -> & H5 & H).
  apply yields_seq_inv in H as (r7 & r8 & -> & H7 & H8).
  unfold Plus in H5. apply yields_seq_inv in H5 as (r9 & r10 & -> & H9 & H10).
  apply yields_emit_inv in H8 as ->; [|done]. simpl. rewrite !Forall_app.
  split_and!; [by eapply yields_star_Forall|by apply Hm|by eapply yields_star_Forall
    |by eapply yields_star_Forall|by repeat constructor].
Qed.

(** [text_with_macros]: one macro, function or optional macro. *)
Lemma text_with_macros_shape rs :
  yields (body macro_grammar text_with_macros) rs →
  rs = [function] ∨ rs = [spec_macro] ∨ rs = [spec_optional_macro].
Proof. intros H. cbn in H. inv_yields; auto. Qed.

(** [spec_macro]: the name of the macro, and parameters. *)
Lemma spec_macro_shape rs :
  yields (body macro_grammar spec_macro) rs →
  ∃ params, rs = macro_name :: params ∧ Forall (eq macro_parameter) params.
Proof.
  intros H. cbn in H.
  assert (Hp : ∀ rs, yields (Ref macro_parameters) rs → Forall (eq macro_parameter) rs).
  { clear. intros rs H. apply yields_silent_inv in H; [|done..]. cbn in H.
    eapply yields_star_Forall; [done|]. clear. intros rs H. inv_yields; by repeat constructor. }
  apply yields_alt_inv in H as [H|H]; apply yields_silent_inv in H; try done; cbn in H;
    apply yields_alt_inv in H as [H|H];
    apply yields_seq_inv in H as (r1 & r2 & -> & H1 & H); apply yields_prim_inv in H1 as ->.
  - apply yields_seq_inv in H as (r3 & r4 & -> & H3 & H). apply yields_emit_inv in H3 as ->; [|done].
    apply yields_seq_inv in H as (r5 & r6 & -> & H5 & H). apply yields_prim_inv in H5 as ->.
    apply yields_seq_inv in H as (r7 & r8 & -> & H7 & H). apply Hp in H7.
    exists r7. inv_yields. by rewrite app_nil_r.
  - apply yields_seq_inv in H as (r3 & r4 & -> & H3 & H). apply yields_emit_inv in H3 as ->; [|done].
    apply yields_seq_inv in H as (r5 & r6 & -> & H5 & H). apply yields_prim_inv in H5 as ->.
    apply yields_seq_inv in H as (r7 & r8 & -> & H7 & H). apply Hp in H7.
    exists r7. inv_yields. by rewrite app_nil_r.
  - exists []. clear Hp. by inv_yields.
  - exists []. clear Hp. by inv_yields.
Qed.
