(* ===== verification/Macros.v ===== *)
(** * Macros: the macros of build scripts ([specfile/src/macros.rs])

    [MacroParser::parse] replaces the macros of a script line by line: each line is
    parsed by the generated parser, and its tokens are put together again with the
    value of each macro. *)

From S2P Require Import Prelude RustStr World Peg PegEngine MacroGrammar.

Record MacroParser := MkMacroParser { macros : gmap string string }.

(** [MacroParser::default] *)
Definition MacroParser_default : MacroParser := MkMacroParser ∅.

(** The struct [Macro], which the program does not use yet. *)
Record Macro := MkMacro { macro_name : string; parameters : list string }.

(** [MacroParser::get_variable]; the error is [MacroParserError::DoesNotExist]. *)
Definition get_variable (self : MacroParser) (macro_name : string) : outcome anyhow string :=
  match macros self !! macro_name with
  | Some v => Ok v
  | None => Err (AnyDoesNotExist macro_name)
  end.

Definition unexpected (what : string) : string :=
  "Unexpected " +:+ what +:+ "match please update the code together with the peg grammar".

(** The body of [for macro_pair in inner.clone().into_inner()]; a parameter is
    printed and otherwise ignored. *)
Definition macro_step (self : MacroParser) (replaced_line : string) (macro_pair : token XRule.t) :
  outcome anyhow string :=
  match as_rule macro_pair with
  | XRule.macro_name =>
      v ← get_variable self (as_str macro_pair);
      Ok (replaced_line +:+ v)
  | XRule.macro_parameter => Ok replaced_line
  | _ => Panic (unexpected "macro ")
  end.

(** The body of [for inner in test_pair.into_inner()]. *)
Definition inner_step (self : MacroParser) (replaced_line : string) (inner : token XRule.t) :
  outcome anyhow string :=
  match as_rule inner with
  | XRule.spec_macro => foldM (macro_step self) replaced_line (into_inner inner)
  | _ => Panic (unexpected "inner ")
  end.

(** The body of [for test_pair in pair.into_inner()]. *)
Definition item_step (self : MacroParser) (replaced_line : string) (test_pair : token XRule.t) :
  outcome anyhow string :=
  match as_rule test_pair with
  | XRule.text_with_macros => foldM (inner_step self) replaced_line (into_inner test_pair)
  | XRule.EOI => Ok replaced_line
  | XRule.text => Ok (replaced_line +:+ as_str test_pair +:+ " ")
  | _ => Panic (unexpected "")
  end.

(** The replacement of one line, up to its [trim_end]. *)
Definition parse_line `{PestEngine} (self : MacroParser) (line : string) : outcome anyhow string :=
  pairs ← map_err AnyPest (of_sum (pest_parse macro_grammar XRule.file line));
  replaced_line ←
    foldM (λ l pair, foldM (item_step self) l (into_inner pair)) EmptyString pairs;
  Ok (trim_end replaced_line).

(** [MacroParser::parse] *)
Definition parse `{PestEngine} (self : MacroParser) (raw_string : string) : outcome anyhow string :=
  foldM (λ return_string '(i, line),
    replaced_line ← parse_line self line;
    Ok (if Nat.eqb i 0 then return_string +:+ replaced_line
        else return_string +:+ chr LF +:+ replaced_line))
    EmptyString (imap pair (lines raw_string)).

(** ** What the walk computes *)

(** What an item of a line is replaced by: a text by itself and one blank, a macro
    by its value alone; functions and optional macros are not expected. *)
Definition item_value (self : MacroParser) (t : token XRule.t) : outcome anyhow string :=
  match as_rule t, into_inner t with
  | XRule.text, _ => Ok (as_str t +:+ " ")
  | XRule.text_with_macros, [Tok XRule.spec_macro _ (name :: _)] => get_variable self (as_str name)
  | XRule.text_with_macros, _ => Panic (unexpected "inner ")
  | _, _ => Ok EmptyString
  end.

Definition concat_str : list string → string := foldr String.append EmptyString.

Lemma foldl_append s l : foldl String.append s l = s +:+ concat_str l.
Proof.
  unfold concat_str. revert s; induction l as [|x l IH]; intros s; simpl.
  - by rewrite str_app_nil_r.
  - by rewrite IH, str_app_assoc.
Qed.

Section walk.
Context `{PE : PestEngine, !PestLaws}.
Context (self : MacroParser) (full : string).
Local Abbreviation genuine := (genuine pest_uppercase macro_grammar full).

Lemma macro_parameters_ignored l ps :
  Forall (λ t, as_rule t = XRule.macro_parameter) ps → foldM (macro_step self) l ps = Ok l.
Proof.
  induction 1 as [|p ps Hp _ IH]; [done|]. cbn [foldM].
  assert (macro_step self l p = Ok l) as -> by (unfold macro_step; by rewrite Hp). done.
Qed.

Lemma inner_step_macro l span ps :
  genuine (Tok XRule.spec_macro span ps) →
  ∃ name params, ps = name :: params ∧
    inner_step self l (Tok XRule.spec_macro span ps) =
      (v ← get_variable self (as_str name); Ok (l +:+ v)).
Proof.
  intros Hg. apply genuine_inner in Hg; [|done]. apply spec_macro_shape in Hg as (params & Hps & Hpar).
  destruct ps as [|[r n i] ps]; [done|]. injection Hps as -> <-. eexists _, _. split; [done|].
  unfold inner_step. cbn [as_rule into_inner foldM as_str].
  change (macro_step self l (Tok XRule.macro_name n i)) with
    (v ← get_variable self n; Ok (l +:+ v)).
  destruct (get_variable self n); [|done..]. cbn [mbind outcome_bind].
  apply macro_parameters_ignored. rewrite Forall_fmap in Hpar. by eapply Forall_impl; [exact Hpar|].
Qed.

Lemma item_step_value l t :
  genuine t → line_item (as_rule t) →
  item_step self l t = (v ← item_value self t; Ok (l +:+ v)).
Proof.
  destruct t as [r span ps]. simpl. intros Hg Hi. unfold item_step, item_value.
  destruct r; try done; cbn [as_rule into_inner as_str].
  - simpl. by rewrite str_app_nil_r.
  - pose proof (genuine_inner_genuine _ _ _ _ _ _ Hg) as Hgs. apply genuine_inner in Hg; [|done].
    apply text_with_macros_shape in Hg as [Hps|[Hps|Hps]];
      destruct ps as [|[r s i] [|]]; simplify_eq/=; try done.
    rewrite Forall_singleton in Hgs.
    destruct (inner_step_macro l _ _ Hgs) as (name & params & -> & ->).
    by destruct (get_variable self (as_str name)).
Qed.
End walk.

Section parse.
Context `{PE : PestEngine, !PestLaws}.

Lemma parse_line_values self line :
  parse_line self line =
    match pest_parse macro_grammar XRule.file line with
    | inl e => Err (AnyPest e)
    | inr ps =>
        values ← collect (item_value self) (ps ≫= into_inner);
        Ok (trim_end (concat_str values))
    end.
Proof.
  unfold parse_line. destruct (pest_parse macro_grammar XRule.file line) as [e|ps] eqn:Hp; [done|].
  cbn [of_sum map_err mbind outcome_bind].
  pose proof (pest_parse_genuine _ _ _ _ Hp) as Hg.
  apply pest_parse_yields, yields_emit_inv in Hp; [|done].
  destruct ps as [|[r span ps] [|]]; simplify_eq/=. rewrite Forall_singleton in Hg. rewrite app_nil_r.
  pose proof (genuine_inner_genuine _ _ _ _ _ _ Hg) as Hgs.
  apply genuine_inner in Hg; [|done]. apply line_shape in Hg.
  rewrite (foldM_collect _ (item_value self) String.append).
  - destruct (collect _ _) as [vs|e|w]; simpl; [|done..]. by rewrite foldl_append.
  - intros s t Ht. apply (item_step_value self line).
    + by eapply Forall_forall.
    + rewrite Forall_fmap, Forall_forall in Hg. by apply Hg.
Qed.

(** C20. The replacement of one line is the generated parser followed by the
    values of the items of the line, put together in order: every text is
    followed by exactly one blank and no macro is, whatever stood between them;
    the first undefined macro is the error; a function or an optional macro,
    which the grammar accepts, is a panic. *)
Theorem parse_line_refines self line :
  parse_line self line =
    match pest_parse macro_grammar XRule.file line with
    | inl e => Err (AnyPest e)
    | inr ps =>
        values ← collect (item_value self) (ps ≫= into_inner);
        Ok (trim_end (concat_str values))
    end.
Proof. apply parse_line_values. Qed.
End parse.

Lemma join_imap_go `{PestEngine} self acc k ls :
  foldM (λ return_string '(i, line),
    replaced_line ← parse_line self line;
    Ok (if Nat.eqb i 0 then return_string +:+ replaced_line
        else return_string +:+ chr LF +:+ replaced_line))
    acc (imap (λ i line, (S k + i, line)) ls) =
  (vs ← collect (parse_line self) ls; Ok (acc +:+ foldr (λ v s, chr LF +:+ v +:+ s) "" vs)).
Proof.
  revert acc k; induction ls as [|l ls IH]; intros acc k; simpl; [by rewrite str_app_nil_r|].
  destruct (parse_line self l) as [v|e|w]; [|done..]. cbn [mbind outcome_bind].
  erewrite imap_ext; [rewrite (IH _ (S k))|intros i x _; simpl; do 2 f_equal; lia].
  destruct (collect _ ls); [|done..]. simpl. by rewrite <-!str_app_assoc.
Qed.

Lemma parse_lines_go `{PestEngine} self raw_string :
  parse self raw_string =
    (ls ← collect (parse_line self) (lines raw_string); Ok (join (chr LF) ls)).
Proof.
  unfold parse. destruct (lines raw_string) as [|l ls]; [done|]. rewrite imap_cons.
  cbn [foldM collect]. destruct (parse_line self l) as [v|e|w]; [|done..].
  cbn [mbind outcome_bind Nat.eqb].
  erewrite imap_ext; [rewrite (join_imap_go self _ 0)|by intros].
  destruct (collect _ ls) as [vs|e|w]; [|done..]. cbn [mbind outcome_bind]. do 2 f_equal.
  rewrite str_app_nil_l. revert v; induction vs as [|u vs IH]; intros v; [by rewrite str_app_nil_r|].
  change (join (chr LF) (v :: u :: vs)) with (v +:+ chr LF +:+ join (chr LF) (u :: vs)).
  by rewrite <-IH.
Qed.

(** A script is replaced line by line, and fails as its first line that fails;
    the results are joined by line feeds. *)
Theorem parse_lines `{PestEngine} self raw_string :
  parse self raw_string =
    (ls ← collect (parse_line self) (lines raw_string); Ok (join (chr LF) ls)).
Proof. apply parse_lines_go. Qed.

(** ** Lines without a macro *)

Section no_macro.
Context (upper : string → bool) (full : string).
Local Abbreviation peg := (peg upper macro_grammar full).

Lemma macro_skip_total s : ¬ peg false GSkip s None.
Proof. by intros H%peg_skip_fail_inv%peg_star_ok. Qed.

(** Where no text starts, no blank does either. *)
Lemma no_text_no_skip s ps s' :
  peg false (GMatch (Ref XRule.text)) s None → peg false GSkip s (Some (ps, s')) → s' = s.
Proof.
  intros Ht Hs. apply peg_ref_fail_inv in Ht. cbn in Ht.
  apply peg_alt_fail_inv in Ht as [_ Ht]. apply peg_alt_fail_inv in Ht as [Hw _].
  apply peg_skip_inv in Hs as [ps' Hs]. cbn in Hs.
  apply peg_star_inv in Hs as [(_ & _ & ->)|(? & ? & ? & Hw' & _)]; [done|].
  by pose proof (peg_deterministic _ _ _ _ _ _ _ _ Hw Hw').
Qed.

(** After the texts of a line, no text follows. *)
Lemma texts_end s ps s1 ps' s2 :
  peg false (GMatch (Star (Ref XRule.text))) s (Some (ps, s1)) → peg false GSkip s1 (Some (ps', s2)) →
  peg false (GMatch (Ref XRule.text)) s2 None.
Proof.
  intros Hs Hk. apply peg_star_inv in Hs as [(Ht & _ & ->)|(? & ? & ? & _ & Ht & _)].
  - by rewrite (no_text_no_skip _ _ _ Ht Hk).
  - apply peg_tail_end in Ht as [Ht|(ps1 & s3 & Hk' & Ht)]; [by apply macro_skip_total in Ht|].
    by pose proof (peg_deterministic _ _ _ _ _ _ _ _ Hk Hk') as [= _ ->].
Qed.

Lemma lit_percent s ps s' t :
  peg false (GMatch (Prim (Lit (String "%" t)))) s (Some (ps, s')) → contains_char "%" s = true.
Proof. intros Hp. apply peg_lit_inv in Hp as ->. done. Qed.

(** Every macro starts with a percent sign. *)
Lemma macro_percent s ps s' :
  peg false (GMatch (Ref XRule.text_with_macros)) s (Some (ps, s')) → contains_char "%" s = true.
Proof.
  intros Hp. apply peg_ref_inv in Hp as [? Hp]. cbn in Hp.
  apply peg_alt_inv in Hp as [Hp|[_ Hp]]; [|apply peg_alt_inv in Hp as [Hp|[_ Hp]]];
    apply peg_ref_inv in Hp as [? Hp]; cbn in Hp.
  - apply peg_seq_inv in Hp as (? & ? & ? & ? & ? & Hp & _). by eapply lit_percent.
  - apply peg_alt_inv in Hp as [Hp|[_ Hp]]; apply peg_ref_inv in Hp as [? Hp]; cbn in Hp;
      apply peg_alt_inv in Hp as [Hp|[_ Hp]];
      apply peg_seq_inv in Hp as (? & ? & ? & ? & ? & Hp & _); by eapply lit_percent.
  - apply peg_seq_inv in Hp as (? & ? & ? & ? & ? & Hp & _). by apply peg_lit_inv in Hp as ->.
Qed.

Lemma contains_suffix s ps s' k c :
  peg false k s (Some (ps, s')) → contains_char c s' = true → contains_char c s = true.
Proof.
  intros [span ->]%peg_suffix Hc. by rewrite contains_char_app, Hc, orb_true_r.
Qed.

(** A line the grammar accepts has a macro. *)
Lemma file_percent s ps s' :
  peg false (GMatch (Ref XRule.file)) s (Some (ps, s')) → contains_char "%" s = true.
Proof.
  intros Hp. apply peg_ref_inv in Hp as [? Hp]. cbn in Hp.
  apply peg_seq_inv in Hp as (? & s1 & ? & s2 & ? & H1 & H2 & Hp & _).
  apply peg_seq_inv in Hp as (? & s3 & ? & s4 & ? & H3 & H4 & Hp & _).
  apply peg_seq_inv in Hp as (? & s5 & ? & s6 & ? & H5 & _ & _ & _).
  apply peg_seq_inv in H5 as (? & s7 & ? & s8 & ? & H5 & _ & _ & _).
  pose proof (texts_end _ _ _ _ _ H3 H4) as Hno.
  apply peg_alt_inv in H5 as [H5|[_ H5]].
  - by pose proof (peg_deterministic _ _ _ _ _ _ _ _ Hno H5).
  - apply macro_percent in H5. eauto using contains_suffix.
Qed.
End no_macro.

Lemma parse_line_macro `{PE : PestEngine, !PestLaws} self line l :
  parse_line self line = Ok l → contains_char "%" line = true.
Proof.
  unfold parse_line. destruct (pest_parse macro_grammar XRule.file line) as [e|ps] eqn:Hp; [done|].
  intros _. apply pest_parse_ok in Hp as [rest Hp]. by apply file_percent in Hp.
Qed.

(** A script whose replacement succeeds has a macro on each line. *)
Lemma parse_macro_lines `{PE : PestEngine, !PestLaws} self raw_string script :
  parse self raw_string = Ok script → Forall (λ l, contains_char "%" l = true) (lines raw_string).
Proof.
  rewrite parse_lines_go. intros (ls & Hls & _)%outcome_bind_Ok. apply collect_Ok in Hls.
  eapply Forall2_Forall_l; [exact Hls|]. apply Forall_true. intros l' l Hl. by eapply parse_line_macro.
Qed.

(** A line with no percent sign is refused, although it needs no replacement:
    the texts of a line are matched greedily before the grammar asks for one more
    item, so a script parses only if each of its lines has a macro. *)
Theorem plain_line_refused `{PE : PestEngine, !PestLaws} self line :
  contains_char "%" line = false → ∃ e, parse_line self line = Err (AnyPest e).
Proof.
  intros Hl. unfold parse_line. destruct (pest_parse macro_grammar XRule.file line) as [e|ps] eqn:Hp.
  - by exists e.
  - apply pest_parse_ok in Hp as [rest Hp]. apply file_percent in Hp. congruence.
Qed.
