(* ===== verification/MacroText.v ===== *)
(** * MacroText: lines of build scripts as texts

    What the macro parser does with a line made of words and macros, as it is
    written. *)

From S2P Require Import Prelude RustStr World Peg PegEngine PegText MacroGrammar Macros.

(** ** Pieces *)

(** A word or a macro, after some blanks. *)
Inductive piece :=
| Word (gap w : string)
| Mac (gap name : string).

Definition gap_of (p : piece) : string := match p with Word gap _ | Mac gap _ => gap end.
(** What a piece is without the blanks before it. *)
Definition core (p : piece) : string :=
  match p with Word _ w => w | Mac _ n => "%{" +:+ n +:+ "}" end.
Fixpoint write_pieces (ps : list piece) : string :=
  match ps with [] => EmptyString | p :: ps => gap_of p +:+ core p +:+ write_pieces ps end.

Definition char_byte (a : ascii) : bool :=
  is_digit a || is_lower a || is_upper a || contains_char a ("._/-=><!'#" +:+ chr DQUOTE).
Definition is_mac (p : piece) : bool := match p with Mac _ _ => true | _ => false end.

Definition piece_ok (p : piece) : bool :=
  all_bytes is_blank (gap_of p) &&
  match p with Word _ w | Mac _ w => negb (is_empty w) && all_bytes char_byte w end.
(** Two words have blanks between them. *)
Fixpoint apart (ps : list piece) : bool :=
  match ps with
  | Word _ _ :: (Word gap _ :: _) as rest => negb (is_empty gap) && apart rest
  | _ :: rest => apart rest
  | [] => true
  end.

Definition piece_token (p : piece) : token XRule.t :=
  match p with
  | Word _ w => Tok XRule.text w []
  | Mac _ n =>
      Tok XRule.text_with_macros (core p) [Tok XRule.spec_macro (core p) [Tok XRule.macro_name n []]]
  end.
(** What a piece is replaced by. *)
Definition piece_value (self : MacroParser) (p : piece) : outcome anyhow string :=
  match p with Word _ w => Ok (w +:+ " ") | Mac _ n => get_variable self n end.

(** ** Matching a line *)

Section pieces.
Context `{PE : PestEngine, !PestLaws} (full : string).
Local Abbreviation G := macro_grammar.
Local Abbreviation peg := (peg pest_uppercase G full).

Lemma mac_skip_to bl s :
  all_bytes is_blank bl = true → starts (λ a, negb (is_blank a)) s →
  peg false GSkip (bl +:+ s) (Some ([], s)).
Proof. by apply (skip_blanks _ _ _ XRule.WHITESPACE). Qed.

(** A byte that is none of a word. *)
Definition stop_byte (a : ascii) : bool := is_blank a || existsb (Ascii.eqb a) ["%"; "}"; "{"; "("]%char.

Lemma chars_run r w s :
  body G r = Plus (Ref XRule.char) → w ≠ EmptyString → all_bytes char_byte w = true → starts stop_byte s →
  peg true (GMatch (body G r)) (w +:+ s) (Some ([], s)).
Proof.
  intros -> Hne Hw Hs. apply peg_plus_run; [done|by apply (runs_bytes _ _ _ char_byte); [|by_bytes|]|].
  apply byte_stop; [done|]. by_starts.
Qed.

Lemma chars_none r s :
  type_of G r = Atomic → body G r = Plus (Ref XRule.char) → starts stop_byte s →
  peg false (GMatch (Ref r)) s None.
Proof.
  intros Ht Hb Hs. apply peg_ref_atomic_fail; [done|]. rewrite Hb. apply peg_seq_fail1, byte_stop; [done|]. by_starts.
Qed.

Lemma word_match w s :
  w ≠ EmptyString → all_bytes char_byte w = true → starts stop_byte s →
  peg false (GMatch (Ref XRule.text)) (w +:+ s) (Some ([Tok XRule.text w []], s)).
Proof.
  intros Hne Hw Hs. apply peg_ref_atomic; [done|]. apply peg_alt_l.
  by apply (chars_run XRule.macro_name).
Qed.

(** No text starts with a percent sign, nor at the end. *)
Lemma text_none s : starts (λ a, Ascii.eqb a "%") s → peg false (GMatch (Ref XRule.text)) s None.
Proof.
  intros Hs. apply peg_ref_atomic_fail; [done|]. apply peg_alt_none; [|apply peg_alt_none].
  - apply peg_seq_fail1, byte_stop; [done|]. by_starts.
  - apply (blank_none _ _ _ XRule.WHITESPACE); [done|]. by_starts.
  - apply peg_newline_other. by_starts.
Qed.

Lemma silent_ref_fail r s :
  type_of G r = Silent → is_special G r = false → peg false (GMatch (body G r)) s None →
  peg false (GMatch (Ref r)) s None.
Proof. intros Ht Hs Hf. apply peg_ref_fail. unfold body_atomic. by rewrite Ht, Hs. Qed.

Lemma macro_none s : starts (λ a, negb (Ascii.eqb a "%")) s → peg false (GMatch (Ref XRule.text_with_macros)) s None.
Proof.
  intros Hs. apply peg_ref_normal_fail; [done..|]. apply peg_alt_none; [|apply peg_alt_none].
  - apply peg_ref_normal_fail; [done..|]. by apply peg_seq_fail1, peg_lit_other.
  - apply peg_ref_normal_fail; [done..|].
    apply peg_alt_none; (apply silent_ref_fail; [done..|]);
      apply peg_alt_none; by apply peg_seq_fail1, peg_lit_other.
  - apply peg_ref_atomic_fail; [done|]. by apply peg_seq_fail1, peg_lit_other.
Qed.

Lemma mac_name_token n s :
  n ≠ EmptyString → all_bytes char_byte n = true → starts stop_byte s →
  peg false (GMatch (Ref XRule.macro_name)) (n +:+ s) (Some ([Tok XRule.macro_name n []], s)).
Proof. intros Hne Hn Hs. apply peg_ref_atomic; [done|]. by apply chars_run. Qed.

Lemma skip_here s : starts (λ a, negb (is_blank a)) s → peg false GSkip s (Some ([], s)).
Proof. by apply (mac_skip_to EmptyString). Qed.

Lemma mac_name_starts n s : n ≠ EmptyString → all_bytes char_byte n = true → starts (λ a, negb (is_blank a)) (n +:+ s).
Proof. intros Hne Hn. eapply starts_imp; [by apply (starts_app char_byte)|by_bytes]. Qed.

Lemma macro_match n s :
  n ≠ EmptyString → all_bytes char_byte n = true →
  peg false (GMatch (Ref XRule.text_with_macros)) (("%{" +:+ n +:+ "}") +:+ s)
    (Some ([piece_token (Mac EmptyString n)], s)).
Proof.
  intros Hne Hn. cbn [piece_token core]. apply peg_ref_normal; [done..|]. apply peg_alt_r.
  { apply peg_ref_normal_fail; [done..|]. by apply peg_seq_fail1, peg_lit_fail. }
  apply peg_alt_l, peg_ref_normal; [done..|].
  rewrite <-!str_app_assoc. change ("}" +:+ s) with (String "}" s).
  assert (Hpct : ∀ e, peg false (GMatch (Seq (Prim (Lit "%")) (Seq (Ref XRule.macro_name) e)))
      ("%{" +:+ (n +:+ String "}" s)) None).
  { intros e. change "%{" with ("%" +:+ "{"). rewrite <-str_app_assoc.
    eapply peg_seq_fail2; [apply peg_lit_ok|apply skip_here; by left|].
    apply peg_seq_fail1, chars_none; [done..|by left]. }
  apply peg_alt_r.
  - apply silent_ref_fail; [done..|]. apply peg_alt_none; [|apply Hpct].
    eapply peg_seq_fail2; [apply peg_lit_ok|apply skip_here; by apply mac_name_starts|].
    eapply peg_seq_fail2; [apply mac_name_token; [done..|by left]|apply skip_here; by left|].
    apply peg_seq_fail1, peg_lit_other. by left.
  - pose proof (peg_ref_ok pest_uppercase G full false XRule.spec_macro_without_parameters
      ("%{" +:+ (n +:+ String "}" s)) ("%{" +:+ n +:+ "}") [Tok XRule.macro_name n []] s) as Hr.
    apply Hr; [|by rewrite <-!str_app_assoc]. clear Hr. apply peg_alt_l.
    eapply peg_seq_quiet; [apply peg_lit_ok|apply skip_here; by apply mac_name_starts|].
    eapply (peg_seq_ok _ _ _ _ _ _ _ [_] _ [] (String "}" s) []);
      [apply mac_name_token; [done..|by left]|apply skip_here; by left|by apply (peg_lit_ok _ _ _ _ "}")].
Qed.

(** ** Lines *)

Definition line_part : pexp XRule.t := Alt (Ref XRule.text) (Ref XRule.text_with_macros).

Lemma core_starts p s : piece_ok p = true → starts (λ a, negb (is_blank a)) (core p +:+ s).
Proof.
  unfold piece_ok. rewrite andb_true_iff. intros [_ Hp].
  destruct p as [gap w|gap n]; cbn [core]; [|by left].
  apply andb_true_iff in Hp as [Hne Hw]. apply mac_name_starts; [by destruct w|done].
Qed.

Lemma pieces_start ps :
  forallb piece_ok ps = true → starts (λ a, is_blank a || char_byte a || Ascii.eqb a "%") (write_pieces ps).
Proof.
  destruct ps as [|p ps]; [by right|]. cbn [forallb]. intros [Hp _]%andb_true_iff. left. cbn [write_pieces].
  unfold piece_ok in Hp. apply andb_true_iff in Hp as [Hg Hp]. destruct (gap_of p) as [|a gap] eqn:Eg.
  - destruct p as [g w|g n]; cbn [core]; [|done]. apply andb_true_iff in Hp as [Hne Hw].
    destruct w as [|a w]; [done|]. simpl in *. apply andb_true_iff in Hw as [Ha _]. by rewrite Ha, orb_true_r.
  - simpl in *. apply andb_true_iff in Hg as [-> _]. done.
Qed.

(** What follows a word does not go on with it. *)
Lemma after_word g w ps :
  forallb piece_ok ps = true → apart (Word g w :: ps) = true → starts stop_byte (write_pieces ps).
Proof.
  destruct ps as [|[gap w'|gap n] ps]; [by right|..]; cbn [forallb write_pieces gap_of core];
    intros [Hp _]%andb_true_iff Ha; unfold piece_ok in Hp; apply andb_true_iff in Hp as [Hg _]; left; simpl in *.
  - apply andb_true_iff in Ha as [Hne _]. destruct gap as [|a gap]; [done|]. simpl in *.
    apply andb_true_iff in Hg as [Hb _]. unfold stop_byte. by rewrite Hb.
  - destruct gap as [|a gap]; [done|]. simpl in *. apply andb_true_iff in Hg as [Hb _]. unfold stop_byte. by rewrite Hb.
Qed.

Lemma apart_tail p ps : apart (p :: ps) = true → apart ps = true.
Proof. destruct p, ps as [|[] ?]; simpl; try done. by intros [_ ?]%andb_true_iff. Qed.

Lemma part_match p ps :
  piece_ok p = true → forallb piece_ok ps = true → apart (p :: ps) = true →
  peg false (GMatch line_part) (core p +:+ write_pieces ps) (Some ([piece_token p], write_pieces ps)).
Proof.
  unfold piece_ok at 1. rewrite andb_true_iff. intros [_ Hp] Hps Ha.
  destruct p as [gap w|gap n]; apply andb_true_iff in Hp as [Hne Hw]; cbn [core].
  - apply peg_alt_l, word_match; [by destruct w|done|]. by eapply after_word.
  - apply peg_alt_r; [apply text_none; by left|]. apply macro_match; [by destruct n|done].
Qed.

Lemma part_none_end : peg false (GMatch line_part) EmptyString None.
Proof. apply peg_alt_none; [apply text_none|apply macro_none]; by right. Qed.

Lemma skip_gap p ps s :
  piece_ok p = true → write_pieces (p :: ps) = s →
  peg false GSkip s (Some ([], core p +:+ write_pieces ps)).
Proof.
  intros Hp <-. cbn [write_pieces]. apply mac_skip_to; [by apply andb_true_iff in Hp as [? _]|by apply core_starts].
Qed.

Lemma parts_tail ps :
  forallb piece_ok ps = true → apart ps = true →
  peg false (GTail line_part) (write_pieces ps) (Some (piece_token <$> ps, EmptyString)).
Proof.
  induction ps as [|p ps IH]; intros Hps Ha.
  - eapply (peg_tail_stop _ _ _ _ _ _ [] EmptyString); [apply skip_here; by right|apply part_none_end].
  - pose proof Hps as [Hp Hps']%andb_true_iff. rewrite fmap_cons.
    eapply (peg_tail_go _ _ _ _ _ _ [] _ [piece_token p] _ (piece_token <$> ps));
      [by apply skip_gap|by apply part_match|]. apply IH; [done|by eapply apart_tail].
Qed.

Lemma parts_plus p ps :
  forallb piece_ok (p :: ps) = true → apart (p :: ps) = true →
  ∃ s, peg false (GMatch (Plus line_part)) (core p +:+ write_pieces ps) (Some (piece_token <$> (p :: ps), s)) ∧
    s = EmptyString.
Proof.
  intros [Hp Hps]%andb_true_iff Ha. exists EmptyString. split; [|done]. rewrite fmap_cons.
  destruct ps as [|q ps].
  - eapply (peg_seq_ok _ _ _ _ _ _ _ [piece_token p] EmptyString [] EmptyString []);
      [by apply part_match|apply skip_here; by right|apply peg_star_stop, part_none_end].
  - pose proof Hps as [Hq Hps']%andb_true_iff. pose proof (apart_tail _ _ Ha) as Ha'.
    eapply (peg_seq_ok _ _ _ _ _ _ _ [piece_token p] _ [] _ (piece_token <$> (q :: ps)));
      [by apply part_match|by apply skip_gap|]. rewrite fmap_cons.
    eapply (peg_star_go _ _ _ _ _ _ [piece_token q]); [by apply part_match|].
    apply parts_tail; [done|by eapply apart_tail].
Qed.

(** The words before the first macro. *)
Definition words (ws : list piece) : bool := forallb (λ p, negb (is_mac p)) ws.

Lemma text_match p ps :
  is_mac p = false → piece_ok p = true → forallb piece_ok ps = true → apart (p :: ps) = true →
  peg false (GMatch (Ref XRule.text)) (core p +:+ write_pieces ps) (Some ([piece_token p], write_pieces ps)).
Proof.
  destruct p as [gap w|]; [|done]. intros _ Hp Hps Ha. unfold piece_ok in Hp.
  rewrite !andb_true_iff in Hp. destruct Hp as (_ & Hne & Hw).
  apply word_match; [by destruct w|done|by eapply after_word].
Qed.

(** No text can start at the next piece. *)
Definition no_word (ps : list piece) : Prop := match ps with Word _ _ :: _ => False | _ => True end.

Lemma no_word_skip ps :
  forallb piece_ok ps = true → no_word ps →
  ∃ s, peg false GSkip (write_pieces ps) (Some ([], s)) ∧ starts (λ a, Ascii.eqb a "%") s ∧
    (ps = [] → s = EmptyString) ∧ (∀ p ps', ps = p :: ps' → s = core p +:+ write_pieces ps').
Proof.
  destruct ps as [|[|gap n] ps]; [|done|]; intros Hps _.
  - exists EmptyString. split_and!; [apply skip_here; by right|by right|done|done].
  - apply andb_true_iff in Hps as [Hp _]. eexists. split_and!; [by apply skip_gap|by left|done|].
    by intros ? ? [= <- <-].
Qed.

Lemma mac_texts_tail ws ps :
  words ws = true → forallb piece_ok (ws ++ ps) = true → apart (ws ++ ps) = true → no_word ps →
  peg false (GTail (Ref XRule.text)) (write_pieces (ws ++ ps)) (Some (piece_token <$> ws, write_pieces ps)).
Proof.
  induction ws as [|p ws IH]; intros Hws Hok Ha Hn.
  - destruct (no_word_skip ps Hok Hn) as (s & Hs & Hst & _).
    eapply (peg_tail_stop _ _ _ _ _ _ [] s); [exact Hs|by apply text_none].
  - cbn [app] in *. pose proof Hok as [Hp Hok']%andb_true_iff. apply andb_true_iff in Hws as [Hm Hws].
    rewrite fmap_cons. eapply (peg_tail_go _ _ _ _ _ _ [] _ [piece_token p] _ (piece_token <$> ws));
      [by apply skip_gap|apply text_match; [by apply negb_true_iff|done..]|].
    apply IH; try done. by eapply apart_tail.
Qed.

(** The leading words of a line, after the blanks before the first of them. *)
Lemma texts_star ws ps :
  words ws = true → forallb piece_ok (ws ++ ps) = true → apart (ws ++ ps) = true → no_word ps →
  ∃ s s', peg false GSkip (write_pieces (ws ++ ps)) (Some ([], s)) ∧
    peg false (GMatch (Star (Ref XRule.text))) s (Some (piece_token <$> ws, s')) ∧
    ∃ s'', peg false GSkip s' (Some ([], s'')) ∧
      (ps = [] → s'' = EmptyString) ∧ (∀ p ps', ps = p :: ps' → s'' = core p +:+ write_pieces ps').
Proof.
  intros Hws Hok Ha Hn. assert (Hps : forallb piece_ok ps = true).
  { rewrite forallb_app in Hok. by apply andb_true_iff in Hok as [_ ?]. }
  destruct (no_word_skip ps Hps Hn) as (s & Hs & Hst & He & Hc). destruct ws as [|p ws].
  - exists s, s. split_and!; [exact Hs|by apply peg_star_stop, text_none|]. exists s. split_and!; try done.
    apply skip_here. by_starts.
  - cbn [app] in *. pose proof Hok as [Hp Hok']%andb_true_iff. apply andb_true_iff in Hws as [Hm Hws].
    eexists _, (write_pieces ps). split_and!; [by apply skip_gap| |exists s; by split_and!].
    rewrite fmap_cons. eapply (peg_star_go _ _ _ _ _ _ [piece_token p]).
    + apply text_match; [by apply negb_true_iff|done..].
    + apply mac_texts_tail; try done. by eapply apart_tail.
Qed.

Lemma line_match ws p ps :
  full = write_pieces (ws ++ p :: ps) → words ws = true → is_mac p = true →
  forallb piece_ok (ws ++ p :: ps) = true → apart (ws ++ p :: ps) = true →
  peg false (GMatch (Ref XRule.file)) full
    (Some ([Tok XRule.file full ((piece_token <$> (ws ++ p :: ps)) ++ [Tok XRule.EOI EmptyString []])], EmptyString)).
Proof.
  intros Hfull Hws Hm Hok Ha.
  pose proof (peg_ref_normal pest_uppercase G full XRule.file full EmptyString
    ((piece_token <$> (ws ++ p :: ps)) ++ [Tok XRule.EOI EmptyString []]) eq_refl eq_refl) as Hr.
  rewrite str_app_nil_r in Hr. apply Hr. clear Hr.
  destruct (texts_star ws (p :: ps) Hws Hok Ha) as (s & s' & Hs & Hstar & s'' & Hs'' & _ & Hc).
  { by destruct p. }
  rewrite (Hc _ _ eq_refl) in Hs''. clear Hc.
  eapply peg_seq_quiet.
  { apply peg_prim_ok. unfold match_prim. by rewrite String.eqb_refl. }
  { rewrite <-Hfull in Hs. exact Hs. }
  rewrite fmap_app, <-(assoc_L (++)).
  eapply (peg_seq_ok _ _ _ _ _ _ _ (piece_token <$> ws) _ [] _ (_ ++ _)); [exact Hstar|exact Hs''|].
  rewrite forallb_app in Hok. apply andb_true_iff in Hok as [_ Hok].
  assert (Ha' : apart (p :: ps) = true).
  { clear -Ha. induction ws as [|q ws IH]; [done|]. apply IH. by eapply apart_tail. }
  destruct (parts_plus p ps Hok Ha') as (? & Hplus & ->).
  eapply (peg_seq_ok _ _ _ _ _ _ _ (piece_token <$> (p :: ps)) EmptyString [] EmptyString [_]);
    [exact Hplus|apply skip_here; by right|].
  eapply peg_seq_quiet; [apply peg_star_stop, text_none; by right|apply skip_here; by right|].
  apply (peg_ref_normal _ _ _ _ EmptyString); [done..|]. by apply peg_prim_ok.
Qed.

(** Words alone are no line: they are taken before the part that must follow. *)
Lemma words_no_line ws :
  full = write_pieces ws → words ws = true → forallb piece_ok ws = true → apart ws = true →
  peg false (GMatch (Ref XRule.file)) full None.
Proof.
  intros Hfull Hws Hok Ha. apply peg_ref_normal_fail; [done..|].
  destruct (texts_star ws [] Hws) as (s & s' & Hs & Hstar & s'' & Hs'' & He & _); [by rewrite app_nil_r..|done|].
  rewrite app_nil_r, <-Hfull in Hs. rewrite (He eq_refl) in Hs''.
  eapply peg_seq_fail2; [apply peg_prim_ok; unfold match_prim; by rewrite String.eqb_refl|exact Hs|].
  eapply peg_seq_fail2; [exact Hstar|exact Hs''|]. apply peg_seq_fail1, peg_seq_fail1, part_none_end.
Qed.
End pieces.

(** ** The replacement of a line *)

Lemma first_macro ps :
  words ps = true ∨ ∃ ws p ps', ps = ws ++ p :: ps' ∧ words ws = true ∧ is_mac p = true.
Proof.
  induction ps as [|q ps IH]; [by left|]. destruct (is_mac q) eqn:Hq.
  { right. by exists [], q, ps. }
  destruct IH as [IH|(ws & p & ps' & -> & Hws & Hp)]; [left|right].
  - unfold words in *. simpl. by rewrite Hq.
  - exists (q :: ws), p, ps'. split_and!; [done| |done]. unfold words in *. simpl. by rewrite Hq.
Qed.

Lemma concat_values_app l k : concat_str (l ++ k) = concat_str l +:+ concat_str k.
Proof. unfold concat_str. induction l as [|x l IH]; [done|]. simpl. by rewrite IH, str_app_assoc. Qed.

Section text.
Context `{PE : PestEngine, !PestLaws}.

Lemma parse_pieces self ps :
  forallb piece_ok ps = true → apart ps = true →
  if existsb is_mac ps then
    parse_line self (write_pieces ps) =
      (values ← collect (piece_value self) ps; Ok (trim_end (concat_str values)))
  else ∃ e, parse_line self (write_pieces ps) = Err (AnyPest e).
Proof.
  intros Hok Ha. destruct (first_macro ps) as [Hw|(ws & p & ps' & -> & Hws & Hp)].
  - assert (existsb is_mac ps = false) as ->.
    { clear -Hw. induction ps as [|q ps IH]; [done|]. apply andb_true_iff in Hw as [Hq Hw].
      apply negb_true_iff in Hq. simpl. rewrite Hq. by apply IH. }
    destruct (pest_parse_of_peg_none _ _ _ (words_no_line _ ps eq_refl Hw Hok Ha)) as [e He].
    exists e. by rewrite parse_line_values, He.
  - assert (existsb is_mac (ws ++ p :: ps') = true) as ->.
    { rewrite existsb_app. simpl. by rewrite Hp, orb_true_r. }
    pose proof (pest_parse_of_peg _ _ _ _ _ (line_match _ ws p ps' eq_refl Hws Hp Hok Ha)) as Hparse.
    rewrite parse_line_values, Hparse. rewrite bind_cons. cbn [into_inner].
    assert (Hc : ∀ l, collect (item_value self) ((piece_token <$> l) ++ [Tok XRule.EOI EmptyString []]) =
      (vs ← collect (piece_value self) l; Ok (vs ++ [EmptyString]))).
    { induction l as [|q l IH]; [done|]. rewrite fmap_cons. cbn [app collect]. rewrite IH.
      assert (item_value self (piece_token q) = piece_value self q) as -> by by destruct q.
      destruct (piece_value self q); [|done..]. cbn [mbind outcome_bind]. by destruct (collect _ l). }
    rewrite app_nil_r, Hc. destruct (collect _ _) as [vs|e|w]; [|done..].
    cbn [mbind outcome_bind]. rewrite concat_values_app. simpl. by rewrite str_app_nil_r.
Qed.

(** C14. A line of a script, as it is written: words and macros, with blanks before
    each.  With a macro in it, every word becomes itself and one blank, every macro
    its value with nothing after it, whatever blanks were written, and the end is
    trimmed; the first macro that is not defined is the error.  A line of words
    alone, and the empty line, are refused by the parser. *)
Theorem parse_line_written self ps :
  forallb piece_ok ps = true → apart ps = true →
  if existsb is_mac ps then
    parse_line self (write_pieces ps) =
      (values ← collect (piece_value self) ps; Ok (trim_end (concat_str values)))
  else ∃ e, parse_line self (write_pieces ps) = Err (AnyPest e).
Proof. apply parse_pieces. Qed.
End text.
