(* ===== verification/Pkg6dev.v ===== *)
(** * Pkg6dev: the developer tool ([pkg6dev/src/main.rs])

    [diff_component] compares the manifests of a component with its sample
    manifest; [show_component_info] shows what its makefile says.  What the tool
    prints is the list of its lines. *)

From S2P Require Import Prelude RustStr World Peg Digest Payload Actions ManifestGrammar Manifest.
From S2P Require Import MakefileGrammar Makefile MakefileIncludes MakefileVars Component Repology.

(** ** Replacements *)

(** [parse_tripplet_replacements] *)
Definition split_pair (str : string) : string * string :=
  match split_once ":" str with
  | Some s => (s.1, s.2)
  | None => (EmptyString, EmptyString)
  end.
Definition parse_tripplet_replacements (replacements : list string) : gmap string string :=
  foldl (λ map pair, <[pair.1 := pair.2]> map) ∅ (split_pair <$> replacements).

(** The loop of [replace_func] over the entries of the hash map, in the order in
    which it hands them out. *)
Definition replace_entry (orig replacement : string) (e : nat * (string * string)) : string :=
  let '(i, (from, to)) := e in
  let from := "$(" +:+ from +:+ ")" in
  if Nat.eqb i 0 then replace_str from to orig else replace_str from to replacement.
Definition replace_entries (orig : string) (entries : list (string * string)) : string :=
  foldl (replace_entry orig) orig (imap pair entries).

(** The order in which a hash map of replacements hands out its entries. *)
Class HashOrder := hash_entries : gmap string string → list (string * string).
Class HashOrderLaws `{HashOrder} : Prop := hash_entries_perm m : hash_entries m ≡ₚ map_to_list m.

(** [replace_func] *)
Definition replace_func `{HashOrder} (orig : string) (replacements : option (gmap string string)) : string :=
  match replacements with
  | Some replacements => replace_entries orig (hash_entries replacements)
  | None => orig
  end.

(** ** Comparing file lists *)

(** The key of a file: its original path, or else its path. *)
Definition file_entry (f : File) : string * File :=
  match get_original_path f with
  | None => (file_path f, f)
  | Some orig_path => (orig_path, f)
  end.
(** [make_file_map] *)
Definition make_file_map (files : list File) : gmap string File :=
  foldl (λ m e, <[e.1 := e.2]> m) ∅ (file_entry <$> files).

Definition contains_key {V} (m : gmap string V) (k : string) : bool :=
  match m !! k with Some _ => true | None => false end.

(** [find_files_missing_in_manifests] *)
Definition find_files_missing_in_manifests `{HashOrder} (sample_manifest : Manifest) (manifests : list Manifest)
    (replacements : option (gmap string string)) : list File :=
  let all_files := manifests ≫= files in
  let f_map := make_file_map all_files in
  foldl (λ missing_files f,
    match get_original_path f with
    | Some path =>
        if negb (contains_key f_map (replace_func path replacements))
        then missing_files ++ [f] else missing_files
    | None =>
        if negb (contains_key f_map (replace_func (file_path f) replacements))
        then missing_files ++ [f] else missing_files
    end) [] (files sample_manifest).

(** [find_removed_files] *)
Definition find_removed_files `{HashOrder, FileSystem} (cwd : string) (sample_manifest : Manifest)
    (manifests : list Manifest) (component_path : string)
    (replacements : option (gmap string string)) : list File :=
  let f_map := make_file_map (files sample_manifest) in
  let all_files := manifests ≫= files in
  foldl (λ removed_files f,
    match get_original_path f with
    | Some path =>
        if negb (contains_key f_map (replace_func path replacements))
           && negb (fs_exists cwd (path_join component_path path))
        then removed_files ++ [f] else removed_files
    | None =>
        if negb (contains_key f_map (replace_func (file_path f) replacements))
        then removed_files ++ [f] else removed_files
    end) [] all_files.

(** ** The commands *)

(** The errors the tool reports, with [?] into [anyhow::Error]. *)
Inductive ToolError :=
| ToolIo (e : IOError)
| ToolAction (e : ActionError)
| ToolAnyhow (e : anyhow).

(** The entries of a directory that are manifests: the unreadable ones are left
    out; a name that is not UTF-8 is a panic ([into_string().unwrap()]). *)
Definition manifest_paths (entries : list (IOError + string)) : outcome ToolError (list string) :=
  collect (λ p, if utf8_valid p then Ok p
                else Panic "called `Result::unwrap()` on an `Err` value")
    (filter (λ p, path_extension p = Some "p5m")
       (omap (λ d, match d with inr p => Some p | inl _ => None end) entries)).

(** What [diff_component] prints, and the text it writes to the output manifest. *)
Definition missing_line (f : File) : string := "file " +:+ file_path f +:+ " is missing in the manifests".
Definition removed_line (f : File) : string :=
  "file path=" +:+ file_path f +:+ " has been removed from the sample-manifest".
Definition output_text (fs : list File) : string :=
  foldr (λ f s, "file path=" +:+ file_path f +:+ chr LF +:+ s) EmptyString fs.

(** [diff_component] *)
Definition diff_component `{HashOrder, FileSystem, PestEngine} (cwd component_path : string)
    (replacements : option (list string)) (output_manifest : option string) :
  outcome ToolError (list string) :=
  let replacements := parse_tripplet_replacements <$> replacements in
  files ← map_err ToolIo (of_sum (fs_read_dir cwd component_path));
  manifest_files ← manifest_paths files;
  let sample_manifest_file := path_join component_path "manifests/sample-manifest.p5m" in
  (* the first error of the manifests is kept, a panic is not *)
  manifests_res ←
    match collect (parse_file cwd) manifest_files with
    | Ok ms => Ok (inr ms)
    | Err e => Ok (inl e)
    | Panic w => Panic w
    end;
  sample_manifest ← map_err ToolAction (parse_file cwd sample_manifest_file);
  manifests ←
    match manifests_res with
    | inr ms => Ok ms
    | inl e => Panic "called `Result::unwrap()` on an `Err` value"
    end;
  let missing_files := find_files_missing_in_manifests sample_manifest manifests replacements in
  let removed_files := find_removed_files cwd sample_manifest manifests component_path replacements in
  _ ←
    match output_manifest with
    | Some output_manifest =>
        map_err ToolIo (of_sum (fs_write cwd output_manifest (output_text missing_files)))
    | None => Ok tt
    end;
  Ok ((missing_line <$> missing_files) ++ (removed_line <$> removed_files)).

Section show.
Context `{HashOrder, FileSystem, PestEngine, VarRegex, Semver, UrlCrate, !Http}.

(** What [show_component_info] prints: lines, the error of the version lookup and
    the component, which are printed by their derived [Debug]. *)
Inductive shown :=
| Line (s : string)
| LatestVersionError (e : anyhow)
| ShownComponent (c : Component).

(** [if let Some(var) = makefile.get(name) { println!(..) }] *)
Definition show_variable (fuel : nat) (makefile : Makefile) (name label : string) :
  fuelled anyhow (list shown) :=
  var ←! get fuel makefile name;
  Some (Ok (match var with
            | Some var => [Line (label +:+ replace_str (chr LF) (chr LF +:+ chr TAB) var)]
            | None => []
            end)).

(** [show_component_info]; the fuel is that of the includes and of the variable
    references.  The lines are those of a run that ends: what was printed before a
    panic is not kept. *)
Definition show_component_info (fuel : nat) (cwd component_path : string) :
  fuelled anyhow (list shown) :=
  let makefile_path := path_join component_path "Makefile" in
  initial_makefile ←! Some (parse_single_file cwd makefile_path);
  all ←! parse_all fuel cwd initial_makefile;
  let makefile := all.1 in
  component ←! new_from_makefile fuel makefile;
  var ←! get fuel makefile "COMPONENT_NAME";
  first ←! get_first_value_of_variable_by_name fuel makefile "COMPONENT_NAME";
  let name := match var, first with Some _, Some component_name => component_name | _, _ => EmptyString end in
  let name_lines := match var with
    | Some var => [Line ("Name: " +:+ replace_str (chr LF) (chr LF +:+ chr TAB) var)]
    | None => []
    end in
  version ←! get fuel makefile "COMPONENT_VERSION";
  version_lines ←!
    match version with
    | Some var =>
        let line := Line ("Version: " +:+ replace_str (chr LF) (chr LF +:+ chr TAB) var) in
        match find_newest_version name with
        | Ok v => Some (Ok [line; Line ("Latest Version: " +:+ v)])
        | Err e => Some (Ok [line; LatestVersionError e])
        | Panic w => Some (Panic w)
        end
    | None => Some (Ok [])
    end;
  l1 ←! show_variable fuel makefile "BUILD_BITS" "Build bits: ";
  l2 ←! show_variable fuel makefile "COMPONENT_BUILD_ACTION" "Build action: ";
  l3 ←! show_variable fuel makefile "COMPONENT_PROJECT_URL" "Project URl: ";
  l4 ←! show_variable fuel makefile "COMPONENT_ARCHIVE_URL" "Source URl: ";
  l5 ←! show_variable fuel makefile "COMPONENT_ARCHIVE_HASH" "Source Archive File Hash: ";
  l6 ←! show_variable fuel makefile "REQUIRED_PACKAGES" ("Dependencies:" +:+ chr LF +:+ chr TAB);
  install ←! get fuel makefile "COMPONENT_INSTALL_ACTION";
  let l7 := match install with
    | Some var => [Line ("Install Action:" +:+ chr LF +:+ chr TAB +:+ var)]
    | None => []
    end in
  Some (Ok (name_lines ++ version_lines ++ l1 ++ l2 ++ l3 ++ l4 ++ l5 ++ l6 ++ l7
              ++ [ShownComponent component])).

(** [enum Commands] and the dispatch of [main]. *)
Inductive Commands :=
| DiffComponent (component : string) (replacements : option (list string)) (output_manifest : option string)
| ShowComponent (component : string).

Definition main (fuel : nat) (cwd : string) (command : Commands) : fuelled ToolError (list shown) :=
  match command with
  | ShowComponent component => option_map (map_err ToolAnyhow) (show_component_info fuel cwd component)
  | DiffComponent component replacements output_manifest =>
      lines ←! Some (diff_component cwd component replacements output_manifest);
      Some (Ok (Line <$> lines))
  end.
(** ** What is shown of a component *)

(** The variables that are shown, with their labels, in order. *)
Definition shown_table : list (string * string) :=
  [("BUILD_BITS", "Build bits: "); ("COMPONENT_BUILD_ACTION", "Build action: ");
   ("COMPONENT_PROJECT_URL", "Project URl: "); ("COMPONENT_ARCHIVE_URL", "Source URl: ");
   ("COMPONENT_ARCHIVE_HASH", "Source Archive File Hash: ");
   ("REQUIRED_PACKAGES", "Dependencies:" +:+ chr LF +:+ chr TAB)].
(** A value of several lines, its lines after the first indented. *)
Definition indented (x : string) : string := replace_str (chr LF) (chr LF +:+ chr TAB) x.
Definition labelled (v : string → option string) (row : string * string) : list shown :=
  match v row.1 with Some x => [Line (row.2 +:+ indented x)] | None => [] end.

(** The lines on the version, for the name the service is asked about. *)
Definition version_report (v : string → option string) : outcome anyhow (list shown) :=
  match v "COMPONENT_VERSION" with
  | None => Ok []
  | Some x =>
      match find_newest_version (default EmptyString (v "COMPONENT_NAME")) with
      | Ok latest => Ok [Line ("Version: " +:+ indented x); Line ("Latest Version: " +:+ latest)]
      | Err e => Ok [Line ("Version: " +:+ indented x); LatestVersionError e]
      | Panic w => Panic w
      end
  end.

(** The whole report of a component whose variables read [v]. *)
Definition report (v : string → option string) (c : Component) : outcome anyhow (list shown) :=
  version ← version_report v;
  Ok (labelled v ("COMPONENT_NAME", "Name: ") ++ version ++ (shown_table ≫= labelled v) ++
      match v "COMPONENT_INSTALL_ACTION" with
      | Some x => [Line ("Install Action:" +:+ chr LF +:+ chr TAB +:+ x)]
      | None => []
      end ++ [ShownComponent c]).

Lemma show_variable_spec fuel m v k label :
  get fuel m k = Some (Ok (v k)) → show_variable fuel m k label = Some (Ok (labelled v (k, label))).
Proof. intros Hk. unfold show_variable, labelled. by rewrite Hk. Qed.

(** C28. [show_component_info] on a component whose makefile can be read and whose
    variables can be resolved: the errors of the component are passed on;
    otherwise it reports the component, the variables it has, and the newest
    version, where an error of the service is part of the report and only a
    service that lists no package makes it panic.  Once the component is known,
    nothing but that can stop it. *)
Theorem show_component_info_spec `{!PestLaws} fuel cwd component_path initial m cwd' v :
  parse_single_file cwd (path_join component_path "Makefile") = Ok initial →
  parse_all fuel cwd initial = Some (Ok (m, cwd')) →
  (∀ k, get fuel m k = Some (Ok (v k))) →
  show_component_info fuel cwd component_path =
    (c ←! new_from_makefile fuel m; Some (report v c)).
Proof.
  intros Hi Ha Hv. unfold show_component_info. rewrite Hi. cbn [fbind].
  rewrite Ha. cbn [fbind fst].
  assert (Hname : get_first_value_of_variable_by_name fuel m "COMPONENT_NAME" = Some (Ok (v "COMPONENT_NAME"))).
  { rewrite first_value_is_get; [by apply (get_mono fuel); [apply Hv|lia]|].
    eapply parse_all_plain; [|exact Ha]. by eapply parse_single_file_plain. }
  destruct (new_from_makefile fuel m) as [[c|e|w]|]; [|done..]. cbn [fbind].
  rewrite Hname. rewrite !Hv, !(show_variable_spec _ _ v) by done. cbn [fbind].
  unfold report, version_report, shown_table. rewrite !bind_cons, <-!(assoc_L (++)).
  unfold labelled at 7. cbn [fst snd].
  destruct (v "COMPONENT_NAME"), (v "COMPONENT_VERSION"); cbn [default from_option id]; try done;
    by destruct (find_newest_version _).
Qed.
End show.

(** ** Replacements in texts made of pieces *)

(** A text or a reference. *)
Inductive piece := Text (s : string) | Reference (name : string).
Definition render_piece (p : piece) : string :=
  match p with Text s => s | Reference n => reference n end.
Definition render (ps : list piece) : string := foldr (λ p s, render_piece p +:+ s) EmptyString ps.
Definition piece_ok (p : piece) : Prop :=
  match p with Text s => contains_char "$" s = false | Reference n => proper_name n = true end.

(** The replacement of one reference, and of all that a map knows. *)
Definition subst_one (k v : string) (p : piece) : piece :=
  match p with
  | Reference n => if String.eqb n k then Text v else p
  | _ => p
  end.
Definition subst_all (m : gmap string string) (p : piece) : piece :=
  match p with
  | Reference n => match m !! n with Some v => Text v | None => p end
  | _ => p
  end.

Lemma reference_prefix k n t :
  contains_char ")" k = false → contains_char ")" n = false →
  starts_with (reference k) (reference n +:+ t) = true → k = n.
Proof.
  intros Hk Hn [u Hu]%starts_with_inv. unfold reference in Hu.
  rewrite <-!str_app_assoc in Hu. apply str_app_inj in Hu.
  revert n Hn Hu; induction k as [|a k IH]; intros [|b n] Hn Hu; simpl in *; try done;
    rewrite ?str_app_cons, ?str_app_nil_l in Hu; simpl in *.
  - injection Hu as -> Hu. by simpl in Hn.
  - injection Hu as <- Hu. by simpl in Hk.
  - injection Hu as -> Hu. apply orb_false_iff in Hk as [_ Hk], Hn as [_ Hn]. f_equal. by apply IH.
Qed.

(** The three cases of a replacement at the start of a text. *)
Lemma replace_text k v limit s t :
  contains_char "$" s = false →
  replace_go (reference k) v limit 0 (s +:+ t) = s +:+ replace_go (reference k) v limit 0 t.
Proof. apply (replace_go_none "$" ("(" +:+ k +:+ ")")). Qed.

Lemma replace_same k v t :
  replace_go (reference k) v None 0 (reference k +:+ t) = v +:+ replace_go (reference k) v None 0 t.
Proof. by apply (replace_go_match "$" ("(" +:+ k +:+ ")")). Qed.

Lemma replace_other k n v t :
  proper_name k = true → proper_name n = true → n ≠ k →
  replace_go (reference k) v None 0 (reference n +:+ t) =
    reference n +:+ replace_go (reference k) v None 0 t.
Proof.
  intros (_ & _ & Hk & _)%proper_name_spec (_ & Hd & Hn & _)%proper_name_spec Hne.
  assert (starts_with (reference k) (reference n +:+ t) = false) as Hno.
  { destruct (starts_with _ _) eqn:Hs; [|done]. by apply reference_prefix in Hs. }
  change (reference n +:+ t) with (String "$" (("(" +:+ n +:+ ")") +:+ t)) in *.
  cbn [replace_go]. rewrite Hno. cbn [andb]. rewrite replace_text; [done|].
  by rewrite !contains_char_app, Hd.
Qed.

(** A replacement goes through the pieces one by one. *)
Lemma replace_render k v ps :
  proper_name k = true → Forall piece_ok ps →
  replace_str (reference k) v (render ps) = render (subst_one k v <$> ps).
Proof.
  intros Hk. unfold replace_str.
  induction 1 as [|[s|n] ps Hp _ IH]; [done|..]; cbn [render foldr fmap list_fmap subst_one render_piece];
    fold (render ps); simpl in Hp.
  - rewrite replace_text by done. by rewrite IH.
  - destruct (String.eqb_spec n k) as [->|Hne]; cbn [render_piece].
    + rewrite replace_same. by rewrite IH.
    + rewrite replace_other by done. by rewrite IH.
Qed.

Lemma subst_one_ok k v p : contains_char "$" v = false → piece_ok p → piece_ok (subst_one k v p).
Proof. destruct p as [s|n]; simpl; [done|]. by destruct (String.eqb n k). Qed.

(** The loop replaces one entry after the other. *)
Lemma replace_entries_fold orig entries :
  replace_entries orig entries = foldl (λ s e, replace_str (reference e.1) e.2 s) orig entries.
Proof.
  unfold replace_entries. destruct entries as [|[k v] entries]; [done|]. rewrite imap_cons. cbn [foldl].
  change (replace_entry orig orig (0, (k, v))) with (replace_str (reference k) v orig).
  cbn [fst snd]. generalize (replace_str (reference k) v orig) as s.
  enough (∀ i s, foldl (replace_entry orig) s (imap (λ j e, (S i + j, e)) entries) =
    foldl (λ s e, replace_str (reference e.1) e.2 s) s entries) as Hgo.
  { intros s. by rewrite <-(Hgo 0). }
  induction entries as [|[k' v'] entries IH]; intros i s; [done|]. rewrite imap_cons. cbn [foldl].
  rewrite Nat.add_0_r. change (replace_entry orig s (S i, (k', v'))) with (replace_str (reference k') v' s).
  cbn [fst snd]. rewrite <-(IH (S i)). f_equal. apply imap_ext. intros j e _. simpl. f_equal. lia.
Qed.

Lemma subst_all_insert (m : gmap string string) k v p :
  m !! k = None → subst_all m (subst_one k v p) = subst_all (<[k := v]> m) p.
Proof.
  intros Hm. destruct p as [s|n]; simpl; [done|].
  destruct (String.eqb_spec n k) as [->|Hne]; simpl; by simplify_map_eq.
Qed.

Lemma replace_entries_render entries ps :
  Forall (λ e, proper_name e.1 = true ∧ contains_char "$" e.2 = false) entries →
  NoDup entries.*1 → Forall piece_ok ps →
  replace_entries (render ps) entries = render (subst_all (list_to_map entries) <$> ps).
Proof.
  intros He Hnd Hps. rewrite replace_entries_fold. revert ps Hps Hnd.
  induction He as [|[k v] entries [Hk Hv] He IH]; intros ps Hps Hnd; cbn [foldl fst snd].
  - f_equal. rewrite <-(list_fmap_id ps) at 1. apply list_fmap_ext. intros i [s|n] _; simpl; [done|].
    by rewrite lookup_empty.
  - simpl in Hk, Hv. rewrite fmap_cons in Hnd. apply NoDup_cons in Hnd as [Hin Hnd].
    rewrite replace_render by done. rewrite IH; [|by apply Forall_fmap, (Forall_impl _ _ _ Hps);
      intros; apply subst_one_ok|done].
    f_equal. rewrite <-list_fmap_compose. apply list_fmap_ext. intros i p _.
    rewrite list_to_map_cons. apply subst_all_insert. by apply not_elem_of_list_to_map_1.
Qed.

(** C31. [replace_func] on a text made of references and of texts without a dollar
    sign: each reference that the map knows is replaced by its value and nothing
    else changes, whatever the order in which the hash map hands out its entries,
    when the values have no dollar sign of their own. *)
Theorem replace_func_spec `{HashOrder, !HashOrderLaws} (m : gmap string string) ps :
  map_Forall (λ k v, proper_name k = true ∧ contains_char "$" v = false) m →
  Forall piece_ok ps →
  replace_func (render ps) (Some m) = render (subst_all m <$> ps).
Proof.
  intros Hm Hps. cbn [replace_func]. pose proof (hash_entries_perm m) as Hes.
  assert (NoDup (hash_entries m).*1) as Hnd by (rewrite Hes; apply NoDup_fst_map_to_list).
  rewrite replace_entries_render; [|rewrite Hes|done|done].
  - rewrite (list_to_map_proper _ (map_to_list m)) by done. by rewrite list_to_map_to_list.
  - apply Forall_forall. intros [k v] Hkv%elem_of_map_to_list. by apply (Hm k v).
Qed.

(** ** Comparing *)

Definition file_key (f : File) : string := (file_entry f).1.

Lemma file_map_contains fs k :
  contains_key (make_file_map fs) k = bool_decide (k ∈ file_key <$> fs).
Proof.
  unfold contains_key, make_file_map. rewrite foldl_insert_lookup, lookup_empty.
  unfold last_of. assert (values_of k (file_entry <$> fs) = [] ↔ k ∉ file_key <$> fs) as Hv.
  { induction fs as [|f fs IH]; [set_solver|]. rewrite !fmap_cons.
    destruct (file_entry f) as [k' f'] eqn:Hf. rewrite values_of_cons.
    unfold file_key at 1. rewrite Hf. simpl. case_decide; set_solver. }
  case_bool_decide as Hk.
  - destruct (last _) eqn:Hl; [done|]. apply last_None in Hl. tauto.
  - apply Hv in Hk. by rewrite Hk.
Qed.

Lemma file_entry_key f :
  file_key f = match get_original_path f with Some p => p | None => file_path f end.
Proof. unfold file_key, file_entry. by destruct (get_original_path f). Qed.

(** C29. The files reported missing are those of the sample manifest, in order,
    whose key (the original path, else the path), after the replacements, is the
    key of no file of the manifests. *)
Theorem missing_files_spec `{HashOrder} sample ms reps :
  find_files_missing_in_manifests sample ms reps =
    filter (λ f, replace_func (file_key f) reps ∉ file_key <$> (ms ≫= files)) (files sample).
Proof.
  unfold find_files_missing_in_manifests. apply foldl_filter. intros acc f.
  rewrite file_entry_key. rewrite !file_map_contains.
  destruct (get_original_path f) as [p|];
    rewrite ?file_map_contains; case_bool_decide; case_decide; done.
Qed.

(** The original path of a file, under the directory of the component, exists. *)
Definition original_exists `{FileSystem} (cwd component_path : string) (f : File) : bool :=
  match get_original_path f with
  | Some p => fs_exists cwd (path_join component_path p)
  | None => false
  end.

(** C30. The files reported removed are those of the manifests, in order, whose key
    after the replacements is the key of no file of the sample manifest, unless
    they have an original path that exists under the directory of the component;
    that path is looked up as it is written, without the replacements. *)
Theorem removed_files_spec `{HashOrder, FileSystem} cwd sample ms component_path reps :
  find_removed_files cwd sample ms component_path reps =
    filter (λ f, (replace_func (file_key f) reps ∉ file_key <$> files sample) ∧
      original_exists cwd component_path f = false) (ms ≫= files).
Proof.
  unfold find_removed_files. apply foldl_filter. intros acc f.
  rewrite file_entry_key. unfold original_exists.
  destruct (get_original_path f) as [p|]; rewrite !file_map_contains.
  - destruct (fs_exists _ _); case_bool_decide; case_decide; naive_solver.
  - case_bool_decide; case_decide; naive_solver.
Qed.

(** The replacements of the command line: the value of a name is what follows
    the first colon of the last argument that gives the name; all the arguments
    without a colon count as the empty name with an empty value. *)
Theorem tripplet_replacements_spec args k :
  parse_tripplet_replacements args !! k =
    last_of k ((λ a, match split_once ":" a with Some s => s | None => ("", "") end) <$> args).
Proof.
  unfold parse_tripplet_replacements. rewrite foldl_insert_lookup, lookup_empty.
  assert (split_pair <$> args =
    ((λ a, match split_once ":" a with Some s => s | None => ("", "") end) <$> args)) as ->.
  { apply list_fmap_ext. intros i a _. unfold split_pair. by destruct (split_once ":" a) as [[]|]. }
  by destruct (last_of k _).
Qed.

(** C27. The comparison of a component, when its directory and all its manifests
    can be read: it reports the missing files and the removed files, and writes
    the missing ones to the output manifest if there is one. A manifest that
    cannot be parsed is a panic, although a sample manifest that cannot be parsed
    is an error. *)
Theorem diff_component_spec `{HashOrder, FileSystem, PestEngine} cwd dir reps0 out entries paths :
  fs_read_dir cwd dir = inr entries → manifest_paths entries = Ok paths →
  let reps := parse_tripplet_replacements <$> reps0 in
  match collect (parse_file cwd) paths,
    parse_file cwd (path_join dir "manifests/sample-manifest.p5m") with
  | Ok ms, Ok sample =>
      let missing := find_files_missing_in_manifests sample ms reps in
      let removed := find_removed_files cwd sample ms dir reps in
      let lines := (missing_line <$> missing) ++ (removed_line <$> removed) in
      diff_component cwd dir reps0 out =
        match out with
        | Some o => match fs_write cwd o (output_text missing) with
                    | inr _ => Ok lines
                    | inl e => Err (ToolIo e)
                    end
        | None => Ok lines
        end
  | Err e, Ok _ => is_panic (diff_component cwd dir reps0 out) = true
  | Ok _, Err e | Err _, Err e => diff_component cwd dir reps0 out = Err (ToolAction e)
  | _, _ => is_panic (diff_component cwd dir reps0 out) = true
  end.
Proof.
  intros Hd Hp. simpl. unfold diff_component. rewrite Hd. cbn [of_sum map_err mbind outcome_bind].
  rewrite Hp. cbn [mbind outcome_bind].
  destruct (parse_file cwd (path_join dir _)) as [sample|e'|w'];
    destruct (collect (parse_file cwd) paths) as [ms|e|w]; simpl; try done.
  destruct out as [o|]; [|done]. by destruct (fs_write _ _ _).
Qed.
