(* ===== verification/Sources.v ===== *)
(** * Sources: the sources of a port ([ports/src/sources.rs])

    A source is a URL and the file it is downloaded to, named after the last part
    of the path of the URL. *)

From S2P Require Import Prelude RustStr World.

Section sources.
Context `{UrlCrate}.

Inductive SourceError :=
| CantCreateSource (url : string)
| UrlParseError (message : string).

Record Source := MkSource {
  url : Url;
  local_name : string;
}.

(** [Display for Source] *)
Definition Source_to_string (s : Source) : string := local_name s.

(** [Source::new] *)
Definition Source_new (url_string local_base : string) : outcome SourceError Source :=
  url ← map_err UrlParseError (of_sum (Url_parse url_string));
  let path_vec := split_char "/" (Url_path url) in
  match last path_vec with
  | Some local_name => Ok (MkSource url (path_join local_base local_name))
  | None => Err (CantCreateSource (Url_as_str url))
  end.

(** What follows the last slash. *)
Lemma last_piece (c : ascii) s :
  ∃ pre piece, last (split_char c s) = Some piece ∧ contains_char c piece = false ∧
    (s = piece ∨ s = pre +:+ String c piece).
Proof.
  induction s as [|a s IH]; simpl; [by exists "", ""; auto|].
  destruct IH as (pre & piece & Hl & Hc & Hs). pose proof (split_char_ne c s).
  destruct (Ascii.eqb_spec a c) as [->|Hne].
  - destruct (split_char c s) as [|p ps] eqn:Hp; [done|]. rewrite last_cons_cons.
    destruct Hs as [->|Hs]; [exists "", piece|exists (String c pre), piece]; split_and!; auto.
    right. by rewrite Hs, str_app_cons.
  - destruct (split_char c s) as [|p [|q ps]] eqn:Hp; [done|..].
    + injection Hl as ->. exists "", (String a piece). simpl. case_ascii. destruct Hs as [->|Hs]; [by auto|].
      exfalso. apply (f_equal (contains_char c)) in Hs. pose proof (join_split_char c s) as Hj.
      rewrite Hp in Hj. simpl in Hj. subst. rewrite contains_char_app in Hs. simpl in Hs.
      rewrite Ascii.eqb_refl, orb_true_r in Hs. congruence.
    + rewrite last_cons_cons in *. exists (String a pre), piece. split_and!; [done..|].
      destruct Hs as [->|Hs].
      * exfalso. pose proof (split_char_none c piece Hc) as Hn. by rewrite Hn in Hp.
      * right. by rewrite Hs, str_app_cons.
Qed.

(** A source is refused only for its URL: the file it is downloaded to is
    always found, and it lies in the directory of the workspace, under a name that
    holds no slash: what follows the last slash of the path of the URL. *)
Theorem Source_new_spec url_string local_base :
  match Source_new url_string local_base with
  | Ok s => Url_parse url_string = inr (url s) ∧
      ∃ pre name, contains_char "/" name = false ∧ local_name s = path_join local_base name ∧
        (Url_path (url s) = name ∨ Url_path (url s) = pre +:+ String "/" name)
  | Err e => ∃ m, Url_parse url_string = inl m ∧ e = UrlParseError m
  | Panic _ => False
  end.
Proof.
  unfold Source_new. destruct (Url_parse url_string) as [m|u]; simpl; [by exists m|].
  destruct (last_piece "/" (Url_path u)) as (pre & piece & -> & Hc & Hs). simpl. eauto 10.
Qed.
End sources.
