(* ===== verification/Workspace.v ===== *)
(** * Workspace: building ports ([ports/src/workspace.rs])

    A workspace is a tree of directories in which sources are unpacked and built.
    Its operations act on the machine: they make directories, download, write
    files and run commands.  They are written in a state monad whose state is the
    current directory of the process and the log of what was done; what the
    machine answers is the class [Machine]. *)

From S2P Require Import Prelude RustStr World Digest Payload Actions ManifestGrammar Manifest Sources.

Definition DEFAULTWORKSPACEROOT : string := "~/.ports/wks".
Definition DEFAULTARCH : string := "i386".
Definition DEFAULTTAR : string := "gtar".
Definition DEFAULTSHEBANG : string := "#!/usr/bin/env bash".

(** A command: the program, its arguments, and its environment when it does not
    inherit that of the process. *)
Record Command := MkCommand {
  program : string;
  args : list string;
  env : option (gmap string string);
}.

(** The answers of the machine, which may depend on all that was done before. *)
Inductive event :=
| CreateDirAll (p : string)
| Download (url : string)
| WriteFile (p content : string)
| Run (c : Command)
| SetCurrentDir (p : string)
| PrintManifest (m : Manifest)
| PrintLine (line : string).

Class Machine := {
  (** [shellexpand::full] *)
  shellexpand_full (s : string) : string + string;
  create_dir_all (log : list event) (p : string) : IOError + unit;
  (** [reqwest::blocking::get(url)?.bytes()] *)
  http_get_bytes (url : string) : string + string;
  (** creating a file and writing all of its content *)
  write_file (log : list event) (p content : string) : IOError + unit;
  (** [which::which("bash")] *)
  which_bash : string + string;
  (** [env::vars_os()]: the environment of the process, as bytes *)
  env_vars : list (string * string);
  (** [env::current_dir()], when the process is in a directory: it fails when
      that directory was removed or may not be read *)
  current_dir (log : list event) (cwd : string) : IOError + string;
  (** spawning a command and waiting: its exit code, none if it was killed *)
  run_command (log : list event) (c : Command) : IOError + option Z;
  (** the files, after what was done *)
  disk (log : list event) : FileSystem;
}.

Section workspace.
Context `{Machine, UrlCrate, Hashes, ObjectCrate}.

Inductive WorkspaceError :=
| NonZeroCommandExitCode (command : string) (code : Z)
| UnextractableSource (s : Source)
| InvalidStatusCode
| SourceHasNoExtension (s : Source)
| WsIOError (e : IOError)
| VariableLookupError (message : string)
| WsSourceError (e : SourceError)
| ReqwestError (message : string)
| UnrunableScript (message : string)
| PathLookupError (message : string)
| IpsActionError (e : ActionError).

(** ** The monad *)

Record state := MkState { cwd : string; log : list event }.
Definition M (E A : Type) : Type := state → outcome E A * state.

#[export] Instance M_ret {E} : MRet (M E) := λ A a s, (Ok a, s).
#[export] Instance M_bind {E} : MBind (M E) := λ A B f x s,
  match x s with
  | (Ok a, s') => f a s'
  | (Err e, s') => (Err e, s')
  | (Panic w, s') => (Panic w, s')
  end.
Definition lift {E A} (x : outcome E A) : M E A := λ s, (x, s).
(** The conversion of the errors of an action, which [?] applies. *)
Definition with_error {E F A} (f : E → F) (x : M E A) : M F A := λ s, ((map_err f (x s).1), (x s).2).
(** An action of the machine: it is logged, and may be refused. *)
Definition act {E A} (e : event) (ask : list event → outcome E A) : M E A := λ s,
  (ask (log s), MkState (cwd s) (log s ++ [e])).

(** A [for] loop. *)
Fixpoint for_each {E A B} (f : B → A → M E B) (b : B) (l : list A) : M E B :=
  match l with
  | [] => mret b
  | a :: l => b' ← f b a; for_each f b' l
  end.

Definition do_create_dir_all (p : string) : M WorkspaceError unit :=
  act (CreateDirAll p) (λ log, map_err WsIOError (of_sum (create_dir_all log p))).
Definition do_download (u : string) : M WorkspaceError string :=
  act (Download u) (λ _, map_err ReqwestError (of_sum (http_get_bytes u))).
Definition do_write_file (p content : string) : M WorkspaceError unit :=
  act (WriteFile p content) (λ log, map_err WsIOError (of_sum (write_file log p content))).
Definition do_run (c : Command) : M WorkspaceError (option Z) :=
  act (Run c) (λ log, map_err WsIOError (of_sum (run_command log c))).
Definition do_set_current_dir (p : string) : M WorkspaceError unit := λ s,
  match @fs_chdir (disk (log s)) (cwd s) p with
  | inr d => (Ok tt, MkState d (log s ++ [SetCurrentDir p]))
  | inl e => (Err (WsIOError e), MkState (cwd s) (log s ++ [SetCurrentDir p]))
  end.
Definition do_print_manifest (m : Manifest) : M WorkspaceError unit := act (PrintManifest m) (λ _, Ok tt).
Definition get_current_dir : M WorkspaceError string := λ s,
  (map_err WsIOError (of_sum (current_dir (log s) (cwd s))), s).

(** ** Workspaces *)

Record Workspace := MkWorkspace {
  root : string;
  source_dir : string;
  build_dir : string;
  proto_dir : string;
}.

(** [init_root] *)
Definition init_root (ws : Workspace) : M WorkspaceError unit :=
  _ ← do_create_dir_all (root ws);
  _ ← do_create_dir_all (build_dir ws);
  _ ← do_create_dir_all (source_dir ws);
  do_create_dir_all (proto_dir ws).

(** [Workspace::new] *)
Definition workspace_at (expanded_root_dir : string) : Workspace := {|
  root := expanded_root_dir;
  source_dir := path_join expanded_root_dir "sources";
  build_dir := path_join (path_join expanded_root_dir "build") DEFAULTARCH;
  proto_dir := path_join (path_join expanded_root_dir "build") "proto";
|}.
Definition Workspace_new (root : string) : M WorkspaceError Workspace :=
  let root_dir := if is_empty root then DEFAULTWORKSPACEROOT else root in
  expanded_root_dir ← lift (map_err VariableLookupError (of_sum (shellexpand_full root_dir)));
  let ws := workspace_at expanded_root_dir in
  _ ← init_root ws;
  mret ws.

(** [Workspace::expand_source_path], [get_proto_dir], [get_build_dir] *)
Definition expand_source_path (self : Workspace) (fname : string) : string :=
  path_join (source_dir self) fname.
Definition get_proto_dir (self : Workspace) : string := proto_dir self.
Definition get_build_dir (self : Workspace) : string := build_dir self.

(** [Workspace::get_macros] *)
Definition get_macros (self : Workspace) : gmap string string :=
  list_to_map [("proto_dir", proto_dir self); ("build_dir", build_dir self);
               ("source_dir", source_dir self)].

(** The body of the loop of [get_sources]. *)
Definition get_source (self : Workspace) (src_vec : list Source) (src : string) : M WorkspaceError (list Source) :=
  src_struct ← lift (map_err WsSourceError (Source_new src (source_dir self)));
  bytes ← do_download (Url_as_str (url src_struct));
  _ ← do_write_file (local_name src_struct) bytes;
  mret (src_vec ++ [src_struct]).
(** [Workspace::get_sources] *)
Definition get_sources (self : Workspace) (sources : list string) : M WorkspaceError (list Source) :=
  for_each (get_source self) [] sources.

(** What a finished command means: [status.success()], or its exit code. *)
Definition check_status (command : string) (status : option Z) : outcome WorkspaceError unit :=
  match status with
  | Some 0%Z => Ok tt
  | Some code => Err (NonZeroCommandExitCode command code)
  | None => Err InvalidStatusCode
  end.

(** [p.to_str().ok_or(e)] *)
Definition to_str (e : WorkspaceError) (p : string) : outcome WorkspaceError string :=
  if utf8_valid p then Ok p else Err e.

(** The command that unpacks a source. *)
Definition tar_command (build_dir local_name : string) : Command :=
  MkCommand DEFAULTTAR ["-C"; build_dir; "-xaf"; local_name; "--strip-components=1"] None.

(** [s.contains(p)] for a text that is not empty. *)
Fixpoint contains_str (p s : string) : bool :=
  match s with
  | EmptyString => is_empty p
  | String _ s' => starts_with p s || contains_str p s'
  end.

(** [Workspace::unpack_source] *)
Definition unpack_source (self : Workspace) (src : Source) : M WorkspaceError unit :=
  match path_extension (local_name src) with
  | Some ext =>
      ext ← lift (to_str (SourceHasNoExtension src) ext);
      if negb (contains_str "tar" ext) then lift (Err (UnextractableSource src))
      else
        dir ← lift (to_str (UnextractableSource src) (build_dir self));
        file ← lift (to_str (UnextractableSource src) (local_name src));
        status ← do_run (tar_command dir file);
        lift (check_status "tar" status)
  | None => lift (Err (UnextractableSource src))
  end.

(** [Workspace::unpack_all_sources] *)
Definition unpack_all_sources (self : Workspace) (sources : list Source) : M WorkspaceError unit :=
  for_each (λ _ src, unpack_source self src) tt sources.

(** [env::vars()], read to its end: a key or a value that is not UTF-8 is a
    panic, whatever variable it is. *)
Definition vars : outcome WorkspaceError (list (string * string)) :=
  if forallb (λ kv, utf8_valid kv.1 && utf8_valid kv.2) env_vars then Ok env_vars
  else Panic "called `Result::unwrap()` on an `Err` value".

(** The variables that the build script sees: those that pass the filter,
    collected in a hash map. *)
Definition filtered_env (vars : list (string * string)) : gmap string string :=
  foldl (λ m kv, <[kv.1 := kv.2]> m) ∅
    (filter (λ kv, kv.1 = "TERM" ∨ kv.1 = "TZ" ∨ kv.1 = "LANG" ∨ kv.1 = "PATH") vars).

(** The text of the build script. *)
Definition script_text (build_script : string) : string :=
  DEFAULTSHEBANG +:+ chr LF +:+ build_script +:+ chr LF.

(** [Workspace::build] *)
Definition build (self : Workspace) (build_script : string) : M WorkspaceError unit :=
  let build_script_path := path_join (build_dir self) "build_script.sh" in
  _ ← do_write_file build_script_path (script_text build_script);
  bash ← lift (map_err PathLookupError (of_sum which_bash));
  vars ← lift vars;
  path ← lift (to_str (UnrunableScript "build_script") build_script_path);
  status ← do_run (MkCommand bash ["-ex"; path] (Some (filtered_env vars)));
  lift (check_status "build_script" status).

(** The body of the loop of [package]. *)
Definition package_file (manifest : Manifest) (f : string) : M WorkspaceError Manifest := λ s,
  let f_mut := if starts_with "/" f then split_off 1 f else f in
  match @read_from_path _ (disk (log s)) _ (cwd s) f_mut with
  | Ok file => (Ok (add_file file manifest), s)
  | Err e => (Err (IpsActionError e), s)
  | Panic w => (Panic w, s)
  end.

(** [Workspace::package] *)
Definition package (self : Workspace) (file_list : list string) : M WorkspaceError unit :=
  cwd ← get_current_dir;
  _ ← do_set_current_dir (proto_dir self);
  manifest ← for_each package_file Manifest_new file_list;
  _ ← do_set_current_dir cwd;
  do_print_manifest manifest.

(** ** Facts about the monad *)

Lemma M_bind_ok {E A B} (x : M E A) (f : A → M E B) s a s' :
  x s = (Ok a, s') → (x ≫= f) s = f a s'.
Proof. intros Hx. unfold mbind, M_bind. by rewrite Hx. Qed.

Lemma M_bind_err {E A B} (x : M E A) (f : A → M E B) s e s' :
  x s = (Err e, s') → (x ≫= f) s = (Err e, s').
Proof. intros Hx. unfold mbind, M_bind. by rewrite Hx. Qed.

Lemma M_bind_inv {E A B} (x : M E A) (f : A → M E B) s b s' :
  (x ≫= f) s = (Ok b, s') → ∃ a s1, x s = (Ok a, s1) ∧ f a s1 = (Ok b, s').
Proof. unfold mbind, M_bind. destruct (x s) as [[a|e|w] s1]; [eauto|done..]. Qed.

(** Every event an action adds satisfies [P]. *)
Definition adds {E A} (P : event → Prop) (x : M E A) : Prop :=
  ∀ s, ∃ es, log (x s).2 = log s ++ es ∧ Forall P es.

Lemma adds_lift {E A} P (x : outcome E A) : adds P (lift x).
Proof. intros s. exists []. by rewrite app_nil_r. Qed.

Lemma adds_act {E A} P e (ask : list event → outcome E A) : P e → adds P (act e ask).
Proof. intros He s. exists [e]. split; [done|]. by constructor. Qed.

Lemma adds_bind {E A B} P (x : M E A) (f : A → M E B) :
  adds P x → (∀ a, adds P (f a)) → adds P (x ≫= f).
Proof.
  intros Hx Hf s. unfold mbind, M_bind. destruct (Hx s) as (es & Hes & HP).
  destruct (x s) as [[a|e|w] s1]; simpl in *; [|eauto..].
  destruct (Hf a s1) as (es' & Hes' & HP'). exists (es ++ es').
  rewrite Hes', Hes, (assoc_L (++)). split; [done|]. by apply Forall_app.
Qed.

Lemma adds_for_each {E A B} P (f : B → A → M E B) b l :
  (∀ b a, adds P (f b a)) → adds P (for_each f b l).
Proof.
  intros Hf. revert b; induction l as [|a l IH]; intros b; simpl.
  - intros s. exists []. by rewrite app_nil_r.
  - by apply adds_bind.
Qed.

Lemma adds_with_error {E F A} P (f : E → F) (x : M E A) : adds P x → adds P (with_error f x).
Proof. intros Hx s. apply Hx. Qed.

(** ** Directories *)

(** Creating a workspace expands its root, the default one if none is given,
    creates the root and the three directories inside it, in this order, and stops
    at the first that cannot be created; the current directory stays. *)
Theorem Workspace_new_spec root_arg s :
  let root_dir := if is_empty root_arg then DEFAULTWORKSPACEROOT else root_arg in
  match shellexpand_full root_dir with
  | inl m => Workspace_new root_arg s = (Err (VariableLookupError m), s)
  | inr r =>
      let ws := workspace_at r in
      ∃ es, (Workspace_new root_arg s).2 = MkState (cwd s) (log s ++ es) ∧
        es `prefix_of` [CreateDirAll r; CreateDirAll (build_dir ws); CreateDirAll (source_dir ws);
                        CreateDirAll (proto_dir ws)] ∧
        ((Workspace_new root_arg s).1 = Ok ws → length es = 4) ∧
        (∀ ws', (Workspace_new root_arg s).1 = Ok ws' → ws' = ws)
  end.
Proof.
  intros root_dir. unfold Workspace_new. fold root_dir.
  destruct (shellexpand_full root_dir) as [m|r]; [done|]. set (ws := workspace_at r). cbv zeta.
  cbv beta iota delta [mbind M_bind lift mret M_ret init_root do_create_dir_all act of_sum map_err].
  fold ws. change (root ws) with r. cbn [log cwd].
  destruct (create_dir_all (log s) r) as [e|[]]; cbn [log cwd fst snd].
  { exists [CreateDirAll r]. split_and!; try done. by eexists. }
  destruct (create_dir_all _ (build_dir ws)) as [e|[]]; cbn [log cwd fst snd].
  { rewrite <-(assoc_L (++)). eexists [_; _]. split_and!; try done. by eexists. }
  destruct (create_dir_all _ (source_dir ws)) as [e|[]]; cbn [log cwd fst snd].
  { rewrite <-!(assoc_L (++)). eexists [_; _; _]. split_and!; try done. by eexists. }
  destruct (create_dir_all _ (proto_dir ws)) as [e|[]]; cbn [log cwd fst snd];
    rewrite <-!(assoc_L (++)); eexists [_; _; _; _]; split_and!; try done; try (by exists []);
    intros; by simplify_eq/=.
Qed.

(** ** Unpacking *)

(** Unpacking a source runs the tar command of the source in the build
    directory exactly when the text after the last dot of its file name contains
    [tar], and then succeeds exactly when the command exits with 0; otherwise the
    source is refused and nothing is run. *)
Theorem unpack_source_spec self src s :
  utf8_valid (build_dir self) = true → utf8_valid (local_name src) = true →
  match path_extension (local_name src) with
  | Some ext =>
      utf8_valid ext = true →
      let c := tar_command (build_dir self) (local_name src) in
      unpack_source self src s =
        if contains_str "tar" ext then
          (match run_command (log s) c with
           | inl e => Err (WsIOError e)
           | inr status => check_status "tar" status
           end, MkState (cwd s) (log s ++ [Run c]))
        else (Err (UnextractableSource src), s)
  | None => unpack_source self src s = (Err (UnextractableSource src), s)
  end.
Proof.
  intros Hb Hl. unfold unpack_source. destruct (path_extension _) as [ext|]; [|done].
  intros He. cbv zeta. unfold to_str. rewrite He, Hb, Hl.
  cbv beta iota delta [mbind M_bind lift do_run act of_sum map_err].
  destruct (contains_str "tar" ext); cbn [negb]; [|done]. by destruct (run_command _ _).
Qed.

(** A compressed archive is refused: a source whose name ends in a dot and an
    extension that does not contain [tar] is not unpacked, even when another
    extension before it is [tar], as in [stem.tar.gz]. *)
Theorem compressed_tar_refused self u base stem ext s :
  base ≠ "" → is_absolute stem = false → contains_char "/" stem = false →
  contains_char "/" ext = false → contains_char "." ext = false → stem ≠ "" →
  utf8_valid ext = true → contains_str "tar" ext = false → stem +:+ "." +:+ ext ≠ ".." →
  let src := MkSource u (path_join base (stem +:+ "." +:+ ext)) in
  unpack_source self src s = (Err (UnextractableSource src), s).
Proof.
  intros Hb Ha Hs He Hd Hne Hu Ht Hdots src. unfold unpack_source. unfold src at 1. cbn [local_name].
  destruct (path_join_slash base (stem +:+ "." +:+ ext)) as [pre ->]; [done| |].
  { destruct stem as [|a stem]; [done|]. rewrite str_app_cons. unfold is_absolute in *.
    apply not_true_iff_false. intros [t E]%starts_with_inv. rewrite str_app_cons in E. injection E as -> _.
    change (String "/" stem) with ("/" +:+ stem) in Ha. by rewrite starts_with_app in Ha. }
  rewrite path_extension_slash by done. unfold mbind, M_bind, lift, to_str. by rewrite Hu, Ht.
Qed.

(** ** Building *)

(** The environment of a script is that of the process, at the four names. *)
Lemma filtered_env_lookup vs k :
  filtered_env vs !! k = if bool_decide (k ∈ ["TERM"; "TZ"; "LANG"; "PATH"]) then last_of k vs else None.
Proof.
  induction vs as [|[k' v] vs IH] using rev_ind; [by case_bool_decide|].
  unfold filtered_env in *. rewrite filter_app, foldl_app, filter_cons, filter_nil, last_of_snoc. simpl.
  destruct (decide (k' = "TERM" ∨ _)) as [Hk'|Hk'], (String.eqb_spec k' k) as [->|Hne]; simpl;
    rewrite ?lookup_insert_eq, ?IH; try (by rewrite lookup_insert_ne); try done;
    case_bool_decide as Hk; rewrite !elem_of_cons, elem_of_nil in Hk; first [done|tauto].
Qed.

(** C33. A build writes the script, between its shebang line and a line feed, and
    then runs it with bash.  The script sees [TERM], [TZ], [LANG] and [PATH], as
    far as they are set, and nothing else, and the build succeeds exactly when the
    script exits with 0.  A variable of the process that is not UTF-8, whichever
    it is, is a panic after the script was written and before it is run. *)
Theorem build_spec self script s :
  utf8_valid (path_join (build_dir self) "build_script.sh") = true →
  let p := path_join (build_dir self) "build_script.sh" in
  let written := log s ++ [WriteFile p (DEFAULTSHEBANG +:+ chr LF +:+ script +:+ chr LF)] in
  match write_file (log s) p (DEFAULTSHEBANG +:+ chr LF +:+ script +:+ chr LF), which_bash with
  | inl e, _ => build self script s = (Err (WsIOError e), MkState (cwd s) written)
  | inr _, inl m => build self script s = (Err (PathLookupError m), MkState (cwd s) written)
  | inr _, inr bash =>
      (Exists (λ kv, utf8_valid kv.1 = false ∨ utf8_valid kv.2 = false) env_vars ∧
       ∃ w, build self script s = (Panic w, MkState (cwd s) written)) ∨
      (Forall (λ kv, utf8_valid kv.1 = true ∧ utf8_valid kv.2 = true) env_vars ∧
       ∃ env, let c := MkCommand bash ["-ex"; p] (Some env) in
       (∀ k, env !! k =
          if bool_decide (k ∈ ["TERM"; "TZ"; "LANG"; "PATH"]) then last_of k env_vars else None) ∧
       build self script s =
         (match run_command written c with
          | inl e => Err (WsIOError e)
          | inr status => check_status "build_script" status
          end, MkState (cwd s) (written ++ [Run c])))
  end.
Proof.
  intros Hp p written. unfold build, script_text, vars. fold p.
  unfold mbind, M_bind, lift, do_write_file, do_run, act, to_str. fold p in Hp. rewrite Hp. simpl.
  destruct (write_file _ _ _) as [e|[]]; simpl; [done|].
  destruct which_bash as [m|bash]; simpl; [done|].
  destruct (forallb _ env_vars) eqn:Hu.
  - right. split.
    { rewrite Forall_forall. rewrite forallb_forall in Hu. intros kv Hkv.
      apply list_elem_of_In, Hu, andb_true_iff in Hkv. done. }
    exists (filtered_env env_vars). split; [apply filtered_env_lookup|].
    unfold written. by destruct (run_command _ _).
  - left. split; [|by eexists]. apply Exists_exists.
    clear Hp written. induction env_vars as [|[k v] vs IH]; [done|]. simpl in Hu.
    apply andb_false_iff in Hu as [Hu|Hu].
    + exists (k, v). split; [by left|]. by apply andb_false_iff in Hu.
    + destruct (IH Hu) as (kv & Hin & Hkv). exists kv. split; [by right|done].
Qed.

(** A command that was killed, and so has no exit code, is reported as such;
    an exit code other than 0 is reported with the code. *)
Theorem check_status_spec command status :
  (check_status command status = Ok tt ↔ status = Some 0%Z) ∧
  (check_status command status = Err InvalidStatusCode ↔ status = None) ∧
  (∀ code, check_status command status = Err (NonZeroCommandExitCode command code) ↔
     status = Some code ∧ code ≠ 0%Z).
Proof. destruct status as [[|z|z]|]; simpl; split_and!; try intros code; naive_solver. Qed.

(** ** Downloading *)

(** The events of a download. *)
Definition downloaded (src : Source) (bytes : string) : list event :=
  [Download (Url_as_str (url src)); WriteFile (local_name src) bytes].

(** C34. [get_sources], when it succeeds, has downloaded each source of the list, in
    order, and written what it got to the file of the source in the source
    directory; it returns the sources in the same order. *)
Theorem get_sources_spec self texts s srcs s' :
  get_sources self texts s = (Ok srcs, s') →
  cwd s' = cwd s ∧
  ∃ contents, Forall2 (λ t src, Source_new t (source_dir self) = Ok src) texts srcs ∧
    Forall2 (λ src bytes, http_get_bytes (Url_as_str (url src)) = inr bytes) srcs contents ∧
    log s' = log s ++ concat (zip_with downloaded srcs contents).
Proof.
  unfold get_sources. enough (∀ acc, for_each (get_source self) acc texts s = (Ok srcs, s') →
    cwd s' = cwd s ∧ ∃ new contents, srcs = acc ++ new ∧
      Forall2 (λ t src, Source_new t (source_dir self) = Ok src) texts new ∧
      Forall2 (λ src bytes, http_get_bytes (Url_as_str (url src)) = inr bytes) new contents ∧
      log s' = log s ++ concat (zip_with downloaded new contents)) as Hgo.
  { intros Hs. destruct (Hgo _ Hs) as (Hc & new & contents & -> & Hf1 & Hf2 & Hf3). eauto. }
  intros acc. revert acc s. induction texts as [|t texts IH]; intros acc s Hs; simpl in Hs.
  { injection Hs as <- <-. split; [done|]. exists [], []. rewrite !app_nil_r. split_and!; auto. }
  apply M_bind_inv in Hs as (acc' & s1 & Hg & Hs). apply IH in Hs as (Hc & new & contents & -> & Hf1 & Hf2 & Hf3).
  unfold get_source in Hg. apply M_bind_inv in Hg as (src & s2 & Hsrc & Hg). injection Hsrc as Hsrc <-.
  apply M_bind_inv in Hg as (bytes & s3 & Hb & Hg). injection Hb as Hb <-.
  apply M_bind_inv in Hg as ([] & s4 & Hw & Hg). injection Hw as Hw <-. injection Hg as <- <-.
  simpl in *. split; [done|]. exists (src :: new), (bytes :: contents).
  rewrite <-!(assoc_L (++)) in *. split_and!; [done| | |done].
  - constructor; [|done]. by destruct (Source_new t (source_dir self)); simplify_eq/=.
  - constructor; [|done]. by destruct (http_get_bytes _); simplify_eq/=.
Qed.

(** ** Packaging *)

(** The path of a file of the list below the prototype directory. *)
Definition proto_path (f : string) : string := if starts_with "/" f then split_off 1 f else f.

Lemma package_files_log m files s :
  for_each package_file m files s =
    (fs ← collect (λ f, map_err IpsActionError
             (@read_from_path _ (disk (log s)) _ (cwd s) (proto_path f))) files;
     Ok (MkManifest (attributes m) (directories m) (Manifest.files m ++ fs) (dependencies m)
           (licenses m) (links m)), s).
Proof.
  revert m; induction files as [|f files IH]; intros m; simpl.
  { rewrite app_nil_r. by destruct m. }
  unfold mbind at 1, M_bind at 1. unfold package_file at 1. fold (proto_path f).
  destruct (read_from_path _ _) as [file|e|w]; simpl; [|done..].
  rewrite IH. destruct (collect _ files); simpl; [|done..]. by rewrite <-(assoc_L (++)).
Qed.

(** C35. Packaging asks for the current directory, which may fail before anything
    is done; it then reads the files of the list, with the leading slash removed,
    in the prototype directory, builds a manifest of exactly these files, returns
    to the directory it was told, and prints the manifest.  When a file cannot be
    read it stops in the prototype directory. *)
Theorem package_spec self files s :
  match current_dir (log s) (cwd s) with
  | inl e => package self files s = (Err (WsIOError e), s)
  | inr start =>
      let log1 := log s ++ [SetCurrentDir (proto_dir self)] in
      let log2 := log1 ++ [SetCurrentDir start] in
      match @fs_chdir (disk (log s)) (cwd s) (proto_dir self) with
      | inl e => package self files s = (Err (WsIOError e), MkState (cwd s) log1)
      | inr d =>
          match collect (λ f, @read_from_path _ (disk log1) _ d (proto_path f)) files with
          | Ok fs =>
              match @fs_chdir (disk log1) d start with
              | inr back => package self files s =
                  (Ok tt, MkState back (log2 ++ [PrintManifest (MkManifest [] [] fs [] [] [])]))
              | inl e => package self files s = (Err (WsIOError e), MkState d log2)
              end
          | Err e => package self files s = (Err (IpsActionError e), MkState d log1)
          | Panic w => package self files s = (Panic w, MkState d log1)
          end
      end
  end.
Proof.
  unfold package. destruct (current_dir (log s) (cwd s)) as [e|start] eqn:Hcur.
  { apply M_bind_err. unfold get_current_dir. by rewrite Hcur. }
  rewrite (M_bind_ok get_current_dir _ s start s) by (unfold get_current_dir; by rewrite Hcur).
  cbv zeta. destruct (fs_chdir (cwd s) (proto_dir self)) as [e|d] eqn:Hd.
  { apply M_bind_err. unfold do_set_current_dir. by rewrite Hd. }
  set (log1 := log s ++ [SetCurrentDir (proto_dir self)]).
  rewrite (M_bind_ok (do_set_current_dir (proto_dir self)) _ s tt (MkState d log1)).
  2: { unfold do_set_current_dir. by rewrite Hd. }
  pose proof (package_files_log Manifest_new files (MkState d log1)) as Hf.
  rewrite collect_map_err in Hf. cbn [log cwd] in Hf.
  destruct (collect _ files) as [fs|e|w]; cbn [map_err mbind outcome_bind] in Hf.
  - rewrite (M_bind_ok _ _ _ _ _ Hf). unfold mbind, M_bind, do_set_current_dir. cbn [log cwd].
    destruct (fs_chdir d start); reflexivity.
  - by apply M_bind_err.
  - unfold mbind, M_bind. by rewrite Hf.
Qed.
End workspace.
