(* ===== verification/Ports.v ===== *)
(** * Ports: packaging a spec file ([ports/src/main.rs])

    The command line of [ports], and its one command: read a spec file, make a
    workspace, fetch and unpack the sources, replace the macros of the build
    script, build, and package the files. *)

From S2P Require Import Prelude RustStr World Peg SpecGrammar SpecFile MacroGrammar Macros.
From S2P Require Import Digest Payload Actions ManifestGrammar Manifest Sources Workspace.

(** [enum Verbose] and the [match] on the number of [-v] flags, an [i8]. *)
Inductive Verbose := Off | Some_ | On | Debug.
Definition verbosity (verbose : Z) : Verbose :=
  match verbose with
  | 0%Z => Off
  | 1%Z => Some_
  | 2%Z => On
  | 3%Z => Debug
  | _ => Debug
  end.

(** [enum Commands] and [struct Cli] *)
Inductive Commands := Package (target specfile : string).
Record Cli := MkCli {
  command : Commands;
  config : option string;
  verbose : Z;
}.

Section ports.
Context `{Machine, UrlCrate, Hashes, ObjectCrate, PestEngine}.

Inductive PortsError :=
| PortsIo (e : IOError)
| PortsParse (e : anyhow)
| PortsWorkspace (e : WorkspaceError)
| NotStringPath (p : string).

(** The loop that makes the macros of the workspace those of the parser. *)
Definition add_macro (macro_map : gmap string string) (ws_macro : string * string) :
  outcome PortsError (gmap string string) :=
  p ← (if utf8_valid ws_macro.2 then Ok ws_macro.2 else Err (NotStringPath ws_macro.2));
  Ok (<[ws_macro.1 := p]> macro_map).

(** [run_package_command] *)
Definition run_package_command (spec_file _target : string) : M PortsError unit := λ s,
  (content_string ← lift (map_err PortsIo (@read_to_string (disk (log s)) (cwd s) spec_file));
   spec ← lift (map_err PortsParse (SpecFile.parse content_string));
   ws ← with_error PortsWorkspace (Workspace_new "");
   downloaded ← with_error PortsWorkspace (get_sources ws (SpecFile.sources spec));
   _ ← with_error PortsWorkspace (unpack_all_sources ws downloaded);
   macro_map ← lift (foldM add_macro ∅ (map_to_list (get_macros ws)));
   let mp := Macros.MkMacroParser macro_map in
   build_script ← lift (map_err PortsParse (Macros.parse mp (SpecFile.build_script spec)));
   _ ← with_error PortsWorkspace (build ws build_script);
   with_error PortsWorkspace (package ws (SpecFile.files spec))) s.

(** [main], after the command line is parsed; the path of the configuration is
    shown as it is, when it is UTF-8. *)
Definition main (cli : Cli) : M PortsError unit :=
  _ ← match config cli with
      | Some c => act (PrintLine ("Value for config: " +:+ c)) (λ _, Ok tt)
      | None => mret tt
      end;
  let _verbose := verbosity (verbose cli) in
  match command cli with
  | Package target specfile => run_package_command specfile target
  end.

(** ** Facts *)

Lemma adds_bind_lift {E A B} P (x : outcome E A) (f : A → M E B) :
  (∀ a, x = Ok a → adds P (f a)) → adds P (lift x ≫= f).
Proof.
  intros Hf s. unfold mbind, M_bind, lift. destruct x as [a|e|w]; [by apply Hf|..];
    exists []; by rewrite app_nil_r.
Qed.

(** Neither a download nor the unpacking of an archive: the only command is the
    build script. *)
Definition no_source (e : event) : Prop :=
  match e with
  | Download _ => False
  | Run c => ∃ bash p vs, vars = Ok vs ∧ c = MkCommand bash ["-ex"; p] (Some (filtered_env vs))
  | _ => True
  end.

Lemma adds_create P p : P (CreateDirAll p) → adds P (do_create_dir_all p).
Proof. apply adds_act. Qed.

Lemma adds_chdir P p : P (SetCurrentDir p) → adds P (do_set_current_dir p).
Proof.
  intros Hp s. exists [SetCurrentDir p]. unfold do_set_current_dir.
  destruct (fs_chdir _ _); split; try done; by constructor.
Qed.

Lemma adds_new root : adds no_source (Workspace_new root).
Proof.
  unfold Workspace_new, init_root. apply adds_bind; [apply adds_lift|intros r].
  repeat (apply adds_bind; [|intros []]); try by apply adds_create. apply (adds_lift _ (Ok _)).
Qed.

Lemma adds_bind_vars {B} P (f : list (string * string) → M WorkspaceError B) :
  (∀ vs, vars = Ok vs → adds P (f vs)) → adds P (lift vars ≫= f).
Proof.
  intros Hf s. unfold mbind, M_bind, lift. destruct vars as [vs|e|w]; [by apply Hf|..];
    exists []; by rewrite app_nil_r.
Qed.

Lemma adds_build ws script : adds no_source (build ws script).
Proof.
  unfold build. apply adds_bind; [by apply adds_act|intros []].
  apply adds_bind; [apply adds_lift|intros bash]. apply adds_bind_vars. intros vs Hvs.
  apply adds_bind; [apply adds_lift|intros p].
  apply adds_bind; [|intros; apply adds_lift]. apply adds_act. by exists bash, p, vs.
Qed.

Lemma adds_package ws files : adds no_source (package ws files).
Proof.
  unfold package. apply adds_bind; [intros s; exists []; by rewrite app_nil_r|intros c].
  apply adds_bind; [by apply adds_chdir|intros []]. apply adds_bind.
  - apply adds_for_each. intros m f s. exists []. unfold package_file.
    rewrite app_nil_r. by destruct (read_from_path _ _).
  - intros m. apply adds_bind; [by apply adds_chdir|intros []]. by apply adds_act.
Qed.

(** C32. Packaging never fetches a source: whatever the spec file says, and whether
    it succeeds or not, the command downloads nothing and unpacks nothing; the
    only program it runs is the build script. *)
Theorem run_package_no_source `{!PestLaws} spec_file target s :
  ∃ es, log (run_package_command spec_file target s).2 = log s ++ es ∧ Forall no_source es.
Proof.
  unfold run_package_command. revert s.
  assert (Hgo : ∀ s0, adds no_source (
   content_string ← lift (map_err PortsIo (@read_to_string (disk (log s0)) (cwd s0) spec_file));
   spec ← lift (map_err PortsParse (SpecFile.parse content_string));
   ws ← with_error PortsWorkspace (Workspace_new "");
   downloaded ← with_error PortsWorkspace (get_sources ws (SpecFile.sources spec));
   _ ← with_error PortsWorkspace (unpack_all_sources ws downloaded);
   macro_map ← lift (foldM add_macro ∅ (map_to_list (get_macros ws)));
   build_script ← lift (map_err PortsParse
     (Macros.parse (Macros.MkMacroParser macro_map) (SpecFile.build_script spec)));
   _ ← with_error PortsWorkspace (build ws build_script);
   with_error PortsWorkspace (package ws (SpecFile.files spec)))).
  { intros s0. apply adds_bind; [apply adds_lift|intros content]. apply adds_bind_lift. intros spec Hspec.
    assert (SpecFile.parse content = Ok spec) as (ps & _ & _ & Hd)%SpecFile.parse_ok
      by (by destruct (SpecFile.parse content); simplify_eq/=).
    rewrite (SpecFile.den_sources _ _ Hd).
    apply adds_bind; [apply adds_with_error, adds_new|intros ws].
    (* no source to get, and none to unpack *)
    assert (∀ (f : list Source → M PortsError unit), adds no_source (f []) →
      adds no_source (with_error PortsWorkspace (get_sources ws []) ≫= f)) as Hnone by done.
    apply Hnone. apply adds_bind; [apply (adds_lift _ (Ok tt))|intros []].
    apply adds_bind; [apply adds_lift|intros macro_map].
    apply adds_bind; [apply adds_lift|intros script].
    apply adds_bind; [apply adds_with_error, adds_build|intros _].
    apply adds_with_error, adds_package. }
  intros s. apply Hgo.
Qed.

(** Packaging a spec file succeeds only if the file can be read and parsed and
    every line of its build script contains a macro, even a line that needs no
    replacement. *)
Theorem run_package_ok `{!PestLaws} spec_file target s s' :
  run_package_command spec_file target s = (Ok tt, s') →
  ∃ content spec, @read_to_string (disk (log s)) (cwd s) spec_file = Ok content ∧
    SpecFile.parse content = Ok spec ∧
    Forall (λ l, contains_char "%" l = true) (lines (SpecFile.build_script spec)).
Proof.
  unfold run_package_command. intros Hrun.
  apply M_bind_inv in Hrun as (content & s1 & Hc & Hrun). injection Hc as Hc _.
  apply M_bind_inv in Hrun as (spec & s2 & Hspec & Hrun). injection Hspec as Hspec _.
  apply M_bind_inv in Hrun as (ws & s3 & _ & Hrun).
  apply M_bind_inv in Hrun as (downloaded & s4 & _ & Hrun).
  apply M_bind_inv in Hrun as ([] & s5 & _ & Hrun).
  apply M_bind_inv in Hrun as (macro_map & s6 & _ & Hrun).
  apply M_bind_inv in Hrun as (script & s7 & Hscript & _). injection Hscript as Hscript _.
  exists content, spec. split_and!.
  - by destruct (read_to_string _ _); simplify_eq/=.
  - by destruct (SpecFile.parse content); simplify_eq/=.
  - destruct (Macros.parse _ _) as [scr|e|w] eqn:Hm; simplify_eq/=.
    by eapply Macros.parse_macro_lines.
Qed.
End ports.
