(* ===== verification/PortsRun.v ===== *)
(** * PortsRun: a spec file becomes a package ([ports/src/main.rs])

    The whole of [run_package_command], from the text of a spec file to the
    manifest that is printed: on a machine that does what it is asked, a spec file
    that [print_spec] writes is built and packaged, by exactly the actions listed
    here, in this order. *)

From S2P Require Import Prelude RustStr World Peg PegEngine SpecGrammar SpecFile SpecText MacroGrammar Macros.
From S2P Require Import Digest Payload Actions ManifestGrammar Manifest Sources Workspace Ports.

Section run.
Context `{Machine, UrlCrate, Hashes, ObjectCrate, PestEngine}.

(** A machine that does what it is asked: the root of the workspace expands to
    [r], directories can be made and files be written, there is a bash, commands
    exit with 0, the environment is UTF-8, and the process is in a directory that
    it can name. *)
Record obliging (r bash : string) : Prop := {
  ob_expand : shellexpand_full DEFAULTWORKSPACEROOT = inr r;
  ob_dirs log p : create_dir_all log p = inr tt;
  ob_write log p content : write_file log p content = inr tt;
  ob_bash : which_bash = inr bash;
  ob_run log c : run_command log c = inr (Some 0%Z);
  ob_env : Forall (λ kv, utf8_valid kv.1 = true ∧ utf8_valid kv.2 = true) env_vars;
  ob_cwd log d : current_dir log d = inr d;
}.

Definition made_dirs (ws : Workspace) : list event :=
  CreateDirAll <$> [root ws; build_dir ws; source_dir ws; proto_dir ws].
Definition script_path (ws : Workspace) : string := path_join (build_dir ws) "build_script.sh".
Definition built (ws : Workspace) (bash script : string) : list event :=
  [WriteFile (script_path ws) (script_text script); Run (MkCommand bash ["-ex"; script_path ws] (Some (filtered_env env_vars)))].

(** ** The steps *)

Lemma path_join_valid base p :
  utf8_valid base = true → is_absolute p = false → utf8_valid p = true → utf8_valid (path_join base p) = true.
Proof.
  intros Hb Ha Hp. unfold path_join. rewrite Ha, utf8_valid_app by done. by destruct (needs_separator base).
Qed.

Lemma workspace_valid r :
  utf8_valid r = true →
  utf8_valid (script_path (workspace_at r)) = true ∧
  map_Forall (λ _ p, utf8_valid p = true) (get_macros (workspace_at r)).
Proof.
  intros Hr. assert (utf8_valid (path_join r "build") = true) as Hb by by apply path_join_valid.
  split; [by repeat apply path_join_valid|].
  unfold get_macros, workspace_at. simpl.
  repeat (apply map_Forall_insert_2; [by apply path_join_valid|]). apply map_Forall_empty.
Qed.

Lemma Workspace_new_run r bash s :
  obliging r bash →
  Workspace_new "" s = (Ok (workspace_at r), MkState (cwd s) (log s ++ made_dirs (workspace_at r))).
Proof.
  intros [He Hd]. unfold Workspace_new. cbn [is_empty].
  rewrite (M_bind_ok _ _ s r s) by (unfold lift; by rewrite He). unfold init_root, do_create_dir_all, act.
  unfold mbind, M_bind. rewrite !Hd. simpl. by rewrite <-!(assoc_L (++)).
Qed.

(** The macros of a workspace are its three directories. *)
Lemma add_macros ms m :
  Forall (λ kv, utf8_valid kv.2 = true) ms →
  foldM add_macro m ms = Ok (foldl (λ m kv, <[kv.1 := kv.2]> m) m ms).
Proof.
  intros Hms. revert m. induction Hms as [|[k p] ms Hp _ IH]; intros m; [done|].
  cbn [foldM foldl].
  assert (add_macro m (k, p) = Ok (<[k := p]> m)) as -> by (unfold add_macro; simpl in *; by rewrite Hp).
  apply IH.
Qed.

Lemma all_macros r :
  utf8_valid r = true →
  foldM add_macro ∅ (map_to_list (get_macros (workspace_at r))) = Ok (get_macros (workspace_at r)).
Proof.
  intros [_ Hm]%workspace_valid. apply map_Forall_to_list in Hm.
  rewrite add_macros; [by rewrite foldl_insert_map_to_list|].
  eapply Forall_impl; [exact Hm|]. by intros [].
Qed.

Lemma build_run r bash script s :
  obliging r bash → utf8_valid r = true →
  build (workspace_at r) script s = (Ok tt, MkState (cwd s) (log s ++ built (workspace_at r) bash script)).
Proof.
  intros [_ _ Hw Hb Hr Henv _] [Hp _]%workspace_valid.
  assert (vars = Ok env_vars) as Hvars.
  { unfold vars. assert (forallb (λ kv, utf8_valid kv.1 && utf8_valid kv.2) env_vars = true) as ->; [|done].
    apply forallb_forall. intros kv Hkv%list_elem_of_In. rewrite Forall_forall in Henv.
    apply andb_true_iff. by apply Henv. }
  unfold build, to_str. fold (script_path (workspace_at r)).
  rewrite Hp, Hvars. unfold do_write_file, do_run, act, mbind, M_bind, lift.
  rewrite Hw, Hb. cbn [of_sum map_err log cwd]. rewrite Hr. cbn [of_sum map_err log cwd check_status].
  by rewrite <-(assoc_L (++)).
Qed.

Lemma package_run self files s d back fs :
  current_dir (log s) (cwd s) = inr (cwd s) →
  @fs_chdir (disk (log s)) (cwd s) (proto_dir self) = inr d →
  let log1 := log s ++ [SetCurrentDir (proto_dir self)] in
  collect (λ f, @read_from_path _ (disk log1) _ d (proto_path f)) files = Ok fs →
  @fs_chdir (disk log1) d (cwd s) = inr back →
  package self files s = (Ok tt, MkState back (log s ++
    [SetCurrentDir (proto_dir self); SetCurrentDir (cwd s); PrintManifest (MkManifest [] [] fs [] [] [])])).
Proof.
  intros Hcur Hd log1 Hfs Hback. unfold package.
  rewrite (M_bind_ok get_current_dir _ s (cwd s) s) by (unfold get_current_dir; by rewrite Hcur).
  rewrite (M_bind_ok (do_set_current_dir (proto_dir self)) _ s tt (MkState d log1)).
  2: { unfold do_set_current_dir. by rewrite Hd. }
  pose proof (package_files_log Manifest_new files (MkState d log1)) as Hf.
  rewrite collect_map_err in Hf. cbn [log cwd] in Hf. rewrite Hfs in Hf.
  rewrite (M_bind_ok _ _ _ _ _ Hf). unfold mbind, M_bind, do_set_current_dir. cbn [log cwd]. rewrite Hback.
  unfold log1, do_print_manifest, act. simpl. by rewrite <-!(assoc_L (++)).
Qed.

(** ** The command *)

(** C8. Packaging makes progress: on a machine that does what it is asked, the
    command finishes with success on every spec file that [print_spec] writes and
    whose build script the macro parser accepts with the macros of the workspace,
    if the listed files can be read in the prototype directory.  It makes
    the four directories, writes and runs the build script with the macros
    replaced, prints the manifest of the files, and is back in the directory it
    started in; it does nothing else. *)
Theorem run_package_succeeds `{!PestLaws} spec spec_file target s r bash script d back fs :
  obliging r bash → utf8_valid r = true → writable spec → spec ≠ SpecFile_default →
  @read_to_string (disk (log s)) (cwd s) spec_file = Ok (print_spec spec) →
  let ws := workspace_at r in
  Macros.parse (Macros.MkMacroParser (get_macros ws)) (SpecFile.build_script spec) = Ok script →
  let log1 := log s ++ made_dirs ws ++ built ws bash script in
  let log2 := log1 ++ [SetCurrentDir (proto_dir ws)] in
  @fs_chdir (disk log1) (cwd s) (proto_dir ws) = inr d →
  collect (λ f, @read_from_path _ (disk log2) _ d (proto_path f)) (SpecFile.files spec) = Ok fs →
  @fs_chdir (disk log2) d (cwd s) = inr back →
  run_package_command spec_file target s =
    (Ok tt, MkState back (log1 ++
      [SetCurrentDir (proto_dir ws); SetCurrentDir (cwd s); PrintManifest (MkManifest [] [] fs [] [] [])])).
Proof.
  intros Hob Hr Hw Hne Hread ws Hmac log1 log2 Hd Hfs Hback. unfold run_package_command.
  rewrite (M_bind_ok _ _ s (print_spec spec) s) by (unfold lift; by rewrite Hread).
  rewrite (M_bind_ok _ _ s spec s) by (unfold lift; by rewrite print_spec_parses).
  rewrite (M_bind_ok _ _ s ws (MkState (cwd s) (log s ++ made_dirs ws)))
    by (unfold with_error; by rewrite (Workspace_new_run r bash)).
  rewrite (wr_sources _ Hw). rewrite (M_bind_ok _ _ _ [] (MkState (cwd s) (log s ++ made_dirs ws))) by done.
  rewrite (M_bind_ok _ _ _ tt (MkState (cwd s) (log s ++ made_dirs ws))) by done.
  rewrite (M_bind_ok _ _ _ (get_macros ws) (MkState (cwd s) (log s ++ made_dirs ws)))
    by (unfold lift, ws; by rewrite all_macros).
  rewrite (M_bind_ok _ _ _ script (MkState (cwd s) (log s ++ made_dirs ws))) by (unfold lift; by rewrite Hmac).
  rewrite (M_bind_ok _ _ _ tt (MkState (cwd s) log1)).
  2: { unfold with_error. rewrite (build_run r bash) by done. cbn [log cwd fst snd map_err].
       unfold log1. by rewrite (assoc_L (++)). }
  unfold with_error. rewrite (package_run ws _ (MkState (cwd s) log1) d back fs); try done. by apply (ob_cwd r bash).
Qed.
End run.
