(* ===== verification/Image.v ===== *)
(** * Image: images ([libips/src/image])

    An image is a directory with its properties, kept in [pkg6.image.json].  The
    JSON reader is code that [serde] derives, a parameter here. *)

From S2P Require Import Prelude RustStr World.

(** [enum ImageProperty] *)
Inductive ImageProperty :=
| PString (s : string)
| PBoolean (b : bool)
| PNone
| PArray (l : list ImageProperty)
| PInteger (z : Z).
(** [ImageProperty::default] *)
Definition ImageProperty_default : ImageProperty := PNone.

Record Image := MkImage {
  path : string;
  props : list ImageProperty;
  version : Z;
  variants : gmap string string;
  mediators : gmap string string;
}.

Inductive ImageError :=
| IO (e : IOError)
| Json (message : string).

Class ImageReader := {
  (** [File::open(path)]: what reading the file will give *)
  file_open (cwd path : string) : IOError + string;
  (** [serde_json::from_reader] *)
  image_from_json : string → string + Image;
}.

Section image.
Context `{ImageReader}.

(** [Image::new] *)
Definition Image_new (path : string) : Image := MkImage path [] 5 ∅ ∅.

(** [Image::open] *)
Definition Image_open (cwd path : string) : outcome ImageError Image :=
  let props_path := path_join path "pkg6.image.json" in
  f ← map_err IO (of_sum (file_open cwd props_path));
  map_err Json (of_sum (image_from_json f)).

(** [Image::open_default] *)
Definition Image_open_default (cwd path : string) : Image :=
  match Image_open cwd path with
  | Ok img => img
  | _ => Image_new path
  end.

(** [open_default] always gives an image: the one stored under the directory if
    it can be read and decoded, and otherwise, whichever of the two failed, a new
    image of version 5 at that directory with no property, variant or mediator. *)
Theorem open_default_spec cwd dir :
  let img := Image_open_default cwd dir in
  (∃ json, file_open cwd (path_join dir "pkg6.image.json") = inr json ∧ image_from_json json = inr img)
  ∨ ((∃ e, Image_open cwd dir = Err e) ∧
     path img = dir ∧ version img = 5%Z ∧ props img = [] ∧ variants img = ∅ ∧ mediators img = ∅).
Proof.
  intros img. unfold img, Image_open_default, Image_open.
  destruct (file_open cwd _) as [e|json]; simpl; [right; eauto 10|].
  destruct (image_from_json json) as [m|i] eqn:Hj; simpl; [right; eauto 10|left; eauto].
Qed.
End image.
