(* ===== verification/PkgRuns.v ===== *)
(** * PkgRuns: the report of a component on concrete inputs

    [show_component_info] of [Pkg6dev] in a small world: the makefile of a
    component, its include, and a service that knows the packages of one project.
    The regular expression, the versions and the service are those of
    [MakefileRuns]. *)

From S2P Require Import Prelude RustStr World Peg PegEngine MakefileGrammar Makefile MakefileIncludes.
From S2P Require Import MakefileVars Component Repology MakefileRuns Pkg6dev.

#[local] Instance vim_world : FileSystem := {|
  fs_read cwd p :=
    if String.eqb p "/vim/Makefile" then inr (text
      ["include common.mk"; "COMPONENT_NAME = vim"; "COMPONENT_VERSION = 1.2"; "COMPONENT_REVISION = 7";
       "COMPONENT_SRC = $(COMPONENT_NAME)-$(COMPONENT_VERSION)";
       "COMPONENT_ARCHIVE_URL = http://x/$(COMPONENT_SRC).tar";
       "define COMPONENT_INSTALL_ACTION ="; "make install"; "make check"; "endef"; ""])
    else if String.eqb p "/vim/common.mk" then inr (text ["BUILD_BITS = 64"; "COMPONENT_REVISION = 1"; ""])
    else inl (IoError "NotFound");
  fs_chdir cwd p := inr (path_join cwd p);
  fs_canonicalize cwd p := inr (path_join cwd p);
  fs_exists cwd p := false;
  fs_read_dir cwd p := inr [];
  fs_write cwd p content := inr tt;
|}.
#[local] Existing Instance demo_regex.
#[local] Existing Instance demo_semver.
#[local] Existing Instance demo_url.
#[local] Existing Instance demo_http.

(** The makefile of the component with what it includes. *)
Definition vim_makefile : Makefile := MkMakefile ""
  (list_to_map [("BUILD_BITS", var "64"); ("COMPONENT_NAME", var "vim"); ("COMPONENT_VERSION", var "1.2");
     ("COMPONENT_REVISION", var "7"); ("COMPONENT_SRC", var "$(COMPONENT_NAME)-$(COMPONENT_VERSION)");
     ("COMPONENT_ARCHIVE_URL", var "http://x/$(COMPONENT_SRC).tar");
     ("COMPONENT_INSTALL_ACTION", var (text ["make install"; "make check"]))]) [].

Definition vim_value (k : string) : option string :=
  match get 4 vim_makefile k with Some (Ok v) => v | _ => None end.

Definition vim_component : Component := MkComponent 3 (Some 7%Z)
  {[ "vim-1.2" := ArchiveSource 3 None "http://x/vim-1.2.tar" ]} [] Configure.

(** Every variable can be read: those of the file in turn, and all others. *)
Lemma vim_values k : get 4 vim_makefile k = Some (Ok (vim_value k)).
Proof.
  unfold vim_value. destruct (decide (k ∈ (map_to_list (variables vim_makefile)).*1)) as [Hk|Hk].
  - vm_compute in Hk. repeat (apply elem_of_cons in Hk as [->|Hk]; [vm_compute; reflexivity|]).
    by apply not_elem_of_nil in Hk.
  - cbn [get]. destruct (variables vim_makefile !! k) eqn:E; [|done]. destruct Hk.
    apply list_elem_of_fmap. exists (k, m). split; [done|]. by apply elem_of_map_to_list.
Qed.

Lemma show_component_info_spec_witness :
  show_component_info 4 "/" "/vim" = Some (Ok
    [Line "Name: vim"; Line "Version: 1.2"; Line ("Latest Version: " +:+ Version_to_string 3);
     Line "Build bits: 64"; Line "Source URl: http://x/vim-1.2.tar";
     Line (text ["Install Action:"; String TAB "make install"; "make check"]);
     ShownComponent vim_component]).
Proof.
  destruct (parse_single_file "/" (path_join "/vim" "Makefile")) as [m|e|w] eqn:Hi;
    [|vm_compute in Hi; discriminate Hi..].
  assert (Ha : parse_all 4 "/" m = Some (Ok (vim_makefile, "/vim"))).
  { vm_compute in Hi. injection Hi as <-. apply (bool_decide_unpack _). vm_compute. exact I. }
  rewrite (show_component_info_spec 4 "/" "/vim" m vim_makefile "/vim" vim_value Hi Ha vim_values).
  vm_compute. reflexivity.
Defined.
