(* ===== verification/ToolRuns.v ===== *)
(** * ToolRuns: spec files, macros and the tools on concrete inputs

    The properties of [SpecFile], [Macros], [Pkg6dev], [Workspace] and [Ports]
    applied in a small world, with the interpreter of [PegEngine] as the generated
    parsers. *)

From S2P Require Import Prelude RustStr World Peg PegEngine SpecGrammar SpecFile MacroGrammar Macros.
From S2P Require Import Digest Payload Actions ManifestGrammar Manifest MakefileVars Pkg6dev.
From S2P Require Import Sources Workspace Ports.

(** ** Spec files *)

Definition demo_spec : string := text
  ["Name: demo"; "Version: 1.0"; "Source0: http://x/a.tar.gz"; "Name: port"; ""; "%description";
   "A demo"; "# a comment"; "of ports"; ""; "%build"; "make install root=%{proto_dir}"; "";
   "%files"; "/bin/demo  "; ""].

Definition demo_specfile : SpecFile.SpecFile := {|
  SpecFile.name := "port"; SpecFile.version := "1.0"; SpecFile.release := ""; SpecFile.summary := "";
  SpecFile.license := ""; SpecFile.sources := [];
  SpecFile.variables := {[ "Source0" := "http://x/a.tar.gz" ]};
  SpecFile.description := text ["A demo"; "of ports"]; SpecFile.prep_script := "";
  SpecFile.build_script := "make install root=%{proto_dir}"; SpecFile.install_script := "";
  SpecFile.files := ["/bin/demo"]; SpecFile.changelog := "";
|}.

Lemma demo_spec_parses : SpecFile.parse demo_spec = Ok demo_specfile.
Proof. vm_compute. reflexivity. Qed.

(** A variable without a value is accepted by the grammar and panics. *)
Definition empty_variable_spec : string := text ["Name:"; ""].

Lemma parse_cases_witness : SpecFile.parse empty_variable_spec = Panic SpecFile.unknown_rule.
Proof.
  pose proof (SpecFile.parse_cases empty_variable_spec) as H.
  destruct (pest_parse spec_grammar SRule.file empty_variable_spec) as [e|ps] eqn:Hp;
    vm_compute in Hp; [discriminate Hp|]. injection Hp as <-. vm_compute in H. exact H.
Defined.

(** ** Macros *)

Definition demo_macros : Macros.MacroParser := Macros.MkMacroParser {[ "prefix" := "/usr" ]}.

(** A blank appears before the value of a macro, and none after it. *)
Lemma parse_line_refines_witness :
  Macros.parse_line demo_macros "./configure --prefix=%{prefix} --enable-x" =
    Ok "./configure --prefix= /usr--enable-x".
Proof.
  rewrite (Macros.parse_line_refines demo_macros "./configure --prefix=%{prefix} --enable-x").
  vm_compute. reflexivity.
Defined.

Lemma plain_line_refused_witness : ∃ e, Macros.parse_line demo_macros "make install" = Err (AnyPest e).
Proof. exact (Macros.plain_line_refused demo_macros "make install" eq_refl). Defined.

(** ** The developer tool *)

(** A hash map that hands out its entries backwards. *)
#[local] Instance backwards : HashOrder := λ m, reverse (map_to_list m).
#[local] Instance backwards_laws : HashOrderLaws.
Proof. intros m. apply reverse_Permutation. Qed.

Lemma replace_func_spec_witness :
  replace_func "usr/$(MACH)/$(NAME)" (Some {[ "MACH" := "amd64" ]}) = "usr/amd64/$(NAME)".
Proof.
  refine (eq_trans (replace_func_spec {[ "MACH" := "amd64" ]}
    [Text "usr/"; Reference "MACH"; Text "/"; Reference "NAME"] _ _) _).
  - apply map_Forall_singleton. split; reflexivity.
  - repeat constructor.
  - vm_compute. reflexivity.
Defined.

(** A component with one manifest and its sample manifest. *)
Definition demo_component : FileSystem := {|
  fs_read cwd p :=
    if String.eqb p "c/demo.p5m" then inr (text ["file path=bin/a"; "file path=bin/old"; ""])
    else if String.eqb p "c/manifests/sample-manifest.p5m" then
      inr (text ["file path=bin/a"; "file path=bin/new"; ""])
    else inl (IoError "NotFound");
  fs_chdir cwd p := inr p;
  fs_canonicalize cwd p := inr p;
  fs_exists cwd p := false;
  fs_read_dir cwd p := inr [inr "c/Makefile"; inr "c/demo.p5m"; inl (IoError "PermissionDenied")];
  fs_write cwd p content := inr tt;
|}.

Lemma diff_component_spec_witness :
  @diff_component backwards demo_component _ "/" "c" None None =
    Ok ["file bin/new is missing in the manifests";
        "file path=bin/old has been removed from the sample-manifest"].
Proof.
  pose proof (@diff_component_spec backwards demo_component _ "/" "c" None None _ ["c/demo.p5m"] eq_refl eq_refl) as H.
  destruct (collect (@parse_file demo_component _ "/") ["c/demo.p5m"]) as [ms|e|w] eqn:Hms;
    vm_compute in Hms; [|discriminate Hms..].
  destruct (@parse_file demo_component _ "/" (path_join "c" "manifests/sample-manifest.p5m"))
    as [m|e|w] eqn:Hm; vm_compute in Hm; [|discriminate Hm..].
  injection Hms as <-. injection Hm as <-. etransitivity; [exact H|]. vm_compute. reflexivity.
Defined.

(** ** Ports *)

#[local] Instance demo_url : UrlCrate := {|
  Url := string;
  Url_parse s := if starts_with "http" s then inr s else inl "relative URL without a base";
  Url_path s := s;
  Url_as_str s := s;
|}.
#[local] Existing Instance dump_hashes.
#[local] Existing Instance demo_object.

Definition demo_disk : FileSystem := {|
  fs_read cwd p :=
    if String.eqb p "demo.spec" then inr demo_spec
    else if String.eqb cwd "/ws/build/proto" && String.eqb p "bin/demo" then inr "demo"
    else inl (IoError "NotFound");
  fs_chdir cwd p := inr p;
  fs_canonicalize cwd p := inr p;
  fs_exists cwd p := false;
  fs_read_dir cwd p := inr [];
  fs_write cwd p content := inr tt;
|}.

#[local] Instance demo_machine : Machine := {|
  shellexpand_full s := inr "/ws";
  create_dir_all log p := inr tt;
  http_get_bytes u := inr "archive";
  write_file log p content := inr tt;
  which_bash := inr "/bin/bash";
  env_vars := [("PATH", "/bin"); ("HOME", "/root")];
  current_dir log cwd := if String.eqb cwd "/gone" then inl (IoError "NotFound") else inr cwd;
  run_command log c := inr (Some 0%Z);
  disk log := demo_disk;
|}.

Definition demo_ws : Workspace := workspace_at "/ws".
Definition start : state := MkState "/home" [].

Lemma get_sources_spec_witness :
  log (get_sources demo_ws ["http://x/a.tar"] start).2 =
    [Download "http://x/a.tar"; WriteFile "/ws/sources/a.tar" "archive"].
Proof.
  assert (H : get_sources demo_ws ["http://x/a.tar"] start =
    (Ok [MkSource ("http://x/a.tar" : Url) "/ws/sources/a.tar"],
     (get_sources demo_ws ["http://x/a.tar"] start).2)) by (vm_compute; reflexivity).
  destruct (get_sources_spec demo_ws ["http://x/a.tar"] start _ _ H) as (_ & contents & _ & Hc & Hl).
  rewrite Hl. destruct (Forall2_cons_inv_l _ _ _ _ Hc) as (b & bs & Hb & Hbs & ->).
  apply Forall2_nil_inv_l in Hbs as ->. injection Hb as <-. reflexivity.
Defined.

(** A machine with a variable that is not UTF-8. *)
Definition latin1_machine : Machine := {|
  shellexpand_full s := inr "/ws";
  create_dir_all log p := inr tt;
  http_get_bytes u := inr "archive";
  write_file log p content := inr tt;
  which_bash := inr "/bin/bash";
  env_vars := [("PATH", "/bin"); ("NAME", String (ascii_of_nat 233) EmptyString)];
  current_dir log cwd := inr cwd;
  run_command log c := inr (Some 0%Z);
  disk log := demo_disk;
|}.

Lemma build_spec_witness :
  (∃ env, build demo_ws "make" start =
    (Ok tt, MkState "/home"
      [WriteFile "/ws/build/i386/build_script.sh" (text [DEFAULTSHEBANG; "make"; ""]);
       Run (MkCommand "/bin/bash" ["-ex"; "/ws/build/i386/build_script.sh"] (Some env))]) ∧
    env !! "PATH" = Some "/bin" ∧ env !! "HOME" = None) ∧
  ∃ w, @build latin1_machine _ demo_ws "make" start =
    (Panic w, MkState "/home" [WriteFile "/ws/build/i386/build_script.sh" (text [DEFAULTSHEBANG; "make"; ""])]).
Proof.
  split.
  - destruct (build_spec demo_ws "make" start eq_refl) as [[Hex _]|(_ & env & Henv & Hb)].
    + exfalso. apply Exists_exists in Hex as (kv & Hin & Hkv). vm_compute in Hin.
      repeat (apply elem_of_cons in Hin as [->|Hin]; [destruct Hkv as [Hkv|Hkv]; vm_compute in Hkv; discriminate Hkv|]).
      by apply not_elem_of_nil in Hin.
    + exists env. split; [exact Hb|]. rewrite !Henv. split; vm_compute; reflexivity.
  - destruct (@build_spec latin1_machine _ demo_ws "make" start eq_refl) as [[_ Hb]|(Hall & _)]; [exact Hb|].
    exfalso. apply Forall_inv_tail, Forall_inv in Hall as [_ Hall]. vm_compute in Hall. discriminate Hall.
Defined.

Lemma package_spec_witness :
  (∃ m, package demo_ws ["/bin/demo"] start =
    (Ok tt, MkState "/home"
       [SetCurrentDir "/ws/build/proto"; SetCurrentDir "/home"; PrintManifest m]) ∧
   length (files m) = 1) ∧
  package demo_ws ["/bin/demo"] (MkState "/gone" []) = (Err (WsIOError (IoError "NotFound")), MkState "/gone" []).
Proof.
  split.
  - pose proof (package_spec demo_ws ["/bin/demo"] start) as H. simpl in H.
    eexists. split; [exact H|reflexivity].
  - exact (package_spec demo_ws ["/bin/demo"] (MkState "/gone" [])).
Defined.

Lemma run_package_no_source_witness :
  Forall no_source (log (run_package_command "demo.spec" "out" start).2).
Proof.
  destruct (run_package_no_source "demo.spec" "out" start) as (es & -> & Hes). exact Hes.
Defined.

Lemma run_package_ok_witness :
  (run_package_command "demo.spec" "out" start).1 = Ok tt ∧
  contains_char "%" (SpecFile.build_script demo_specfile) = true.
Proof.
  assert (H : (run_package_command "demo.spec" "out" start).1 = Ok tt) by (vm_compute; reflexivity).
  split; [exact H|].
  assert (H' : run_package_command "demo.spec" "out" start =
    (Ok tt, (run_package_command "demo.spec" "out" start).2)).
  { rewrite <-H. apply surjective_pairing. }
  destruct (run_package_ok "demo.spec" "out" start _ H') as (content & spec & Hc & Hs & Hl).
  vm_compute in Hc. injection Hc as <-.
  assert (Hs' : Ok demo_specfile = Ok spec) by (rewrite <-Hs; symmetry; apply demo_spec_parses).
  injection Hs' as <-. exact (Forall_inv Hl).
Defined.

Lemma compressed_tar_refused_witness :
  unpack_source demo_ws (@MkSource demo_url "http://x/a.tar.gz" "/ws/sources/a.tar.gz") start =
    (Err (UnextractableSource (@MkSource demo_url "http://x/a.tar.gz" "/ws/sources/a.tar.gz")), start).
Proof.
  apply (@compressed_tar_refused _ demo_url demo_ws "http://x/a.tar.gz" "/ws/sources" "a.tar" "gz" start);
    try reflexivity; discriminate.
Defined.
