(* ===== verification/SpecRuns.v ===== *)
(** * SpecRuns: spec files as texts on concrete inputs

    The properties of [SpecText], [MacroText] and [PortsRun] applied to the spec file of the
    repository itself ([src/ports.spec]), and to a small package on a machine that
    does what it is asked. *)

From S2P Require Import Prelude RustStr World Peg PegEngine SpecGrammar SpecFile SpecText MacroGrammar Macros MacroText.
From S2P Require Import Digest Payload Actions ManifestGrammar Manifest Sources Workspace Ports PortsRun ToolRuns.

(** [src/ports.spec], line by line, and as items. *)
Definition ports_spec : string := text
  ["Name:       ports";
   "Version:    0.1.0";
   "Release:    0";
   "Summary:    Portable Software compilation System";
   "License:    MPL-2.0";
   "VCS:        https://github.com/OpenFlowLabs/ports.git";
   "";
   "%description";
   "The ports Postable Software compilation system is a parser and interpreter for";
   "build instructions made in the Specfile format. It is inspired but not exactly";
   "equal to RPM. Mainly because it implements additional features such as git support";
   "and add more convinience commands usefull for packaging. It is mainly based on knowledge";
   "gained working with oi-userland and designed to make the proces of that system more";
   "automated/better.";
   "";
   "%prep";
   "# Cargo or git will be automatially prepared";
   "";
   "%build";
   "cargo install --path . --target-dir %{source_dir}/cargo --root %{proto_dir}/usr --bins";
   "";
   "%files";
   "/usr/bin/ports";
   "";
   "%changelog";
   "* Sat Apr 03 2020 Till Wegmueller <toasterson@gmail.com> 0.1.0-0";
   "- Initial RPM release";
   ""].
Definition ports_items : list item :=
  [Var "Name" "       " "ports";
   Var "Version" "    " "0.1.0";
   Var "Release" "    " "0";
   Var "Summary" "    " "Portable Software compilation System";
   Var "License" "    " "MPL-2.0";
   Var "VCS" "        " "https://github.com/OpenFlowLabs/ports.git";
   Blank;
   Section_ "description"
     ["The ports Postable Software compilation system is a parser and interpreter for";
      "build instructions made in the Specfile format. It is inspired but not exactly";
      "equal to RPM. Mainly because it implements additional features such as git support";
      "and add more convinience commands usefull for packaging. It is mainly based on knowledge";
      "gained working with oi-userland and designed to make the proces of that system more";
      "automated/better."];
   Blank;
   Section_ "prep"
     ["# Cargo or git will be automatially prepared"];
   Blank;
   Section_ "build"
     ["cargo install --path . --target-dir %{source_dir}/cargo --root %{proto_dir}/usr --bins"];
   Blank;
   Section_ "files"
     ["/usr/bin/ports"];
   Blank;
   Section_ "changelog"
     ["* Sat Apr 03 2020 Till Wegmueller <toasterson@gmail.com> 0.1.0-0";
      "- Initial RPM release"]].

Definition ports_description : list string :=
  ["The ports Postable Software compilation system is a parser and interpreter for";
   "build instructions made in the Specfile format. It is inspired but not exactly";
   "equal to RPM. Mainly because it implements additional features such as git support";
   "and add more convinience commands usefull for packaging. It is mainly based on knowledge";
   "gained working with oi-userland and designed to make the proces of that system more";
   "automated/better."].
(** What the parser makes of it: the comment of [%prep] is left out. *)
Definition ports_specfile : SpecFile.SpecFile := {|
  SpecFile.name := "ports"; SpecFile.version := "0.1.0"; SpecFile.release := "0";
  SpecFile.summary := "Portable Software compilation System"; SpecFile.license := "MPL-2.0";
  SpecFile.sources := [];
  SpecFile.variables := {[ "VCS" := "https://github.com/OpenFlowLabs/ports.git" ]};
  SpecFile.description := text ports_description;
  SpecFile.prep_script := "";
  SpecFile.build_script :=
    "cargo install --path . --target-dir %{source_dir}/cargo --root %{proto_dir}/usr --bins";
  SpecFile.install_script := ""; SpecFile.files := ["/usr/bin/ports"];
  SpecFile.changelog := text ["* Sat Apr 03 2020 Till Wegmueller <toasterson@gmail.com> 0.1.0-0";
    "- Initial RPM release"];
|}.

(** The name of a variable, from its pieces. *)
Ltac is_var_name :=
  match goal with |- var_name (String ?u ?r) =>
    first [exists u, r, ""; split_and!; vm_compute; (reflexivity || discriminate)
          |exists u, "ource", "0"; split_and!; vm_compute; (reflexivity || discriminate)]
  end.

Ltac spec_items_ok :=
  repeat apply Forall_cons_2; [..|by apply Forall_nil_2]; cbn [item_ok];
  first [exact I
        |split; [is_var_name|split; vm_compute; reflexivity]
        |split_and!; [discriminate|vm_compute; reflexivity|discriminate|
           repeat apply Forall_cons_2; [vm_compute; reflexivity..|by apply Forall_nil_2]]].

Lemma parse_spec_written_witness :
  write_items ports_items = ports_spec ∧ SpecFile.parse ports_spec = Ok ports_specfile.
Proof.
  assert (H : Forall item_ok ports_items) by (unfold ports_items; spec_items_ok).
  assert (Hw : write_items ports_items = ports_spec) by (vm_compute; reflexivity).
  split; [exact Hw|]. rewrite <-Hw. rewrite (parse_spec_written ports_items H); [|reflexivity|discriminate].
  apply (bool_decide_unpack _). vm_compute. exact I.
Defined.

Ltac check_each t :=
  lazymatch goal with
  | |- Forall _ [] => apply Forall_nil_2
  | |- Forall _ (_ :: _) => apply Forall_cons_2; [t|check_each t]
  end.
Ltac check_line := split_and!; vm_compute; reflexivity.
Ltac check_lines :=
  lazymatch goal with |- Forall _ ?l => let l' := eval vm_compute in l in change l with l' end; check_each check_line.
Ltac check_field := first [left; vm_compute; reflexivity|right; vm_compute; reflexivity].
Ltac check_script := unfold script_ok; check_lines.
Ltac check_file := split; [check_line|vm_compute; reflexivity].
Ltac spec_writable :=
  split; cbn [SpecFile.name SpecFile.version SpecFile.release SpecFile.summary SpecFile.license
    SpecFile.sources SpecFile.variables SpecFile.description SpecFile.prep_script SpecFile.build_script
    SpecFile.install_script SpecFile.files SpecFile.changelog];
  [check_each check_field
  |reflexivity
  |apply map_Forall_singleton; split_and!;
     [is_var_name|apply (bool_decide_unpack _); vm_compute; exact I|vm_compute; reflexivity]
  |check_each check_script
  |check_each check_file].

Lemma parse_print_spec_witness : SpecFile.parse (print_spec ports_specfile) = Ok ports_specfile.
Proof. apply (parse_print_spec ports_specfile); [unfold ports_specfile; spec_writable|discriminate]. Defined.

(** ** A line of a script *)

(** The blanks of the line are not those of its replacement. *)
Lemma parse_line_written_witness :
  Macros.parse_line demo_macros "./configure   --prefix=%{prefix} --enable-x" =
    Ok "./configure --prefix= /usr--enable-x" ∧
  Macros.parse_line demo_macros "cd %{nowhere}" = Err (AnyDoesNotExist "nowhere") ∧
  ∃ e, Macros.parse_line demo_macros "make all" = Err (AnyPest e).
Proof.
  split_and!.
  - exact (parse_line_written demo_macros
      [Word "" "./configure"; Word "   " "--prefix="; Mac "" "prefix"; Word " " "--enable-x"] eq_refl eq_refl).
  - exact (parse_line_written demo_macros [Word "" "cd"; Mac " " "nowhere"] eq_refl eq_refl).
  - exact (parse_line_written demo_macros [Word "" "make"; Word " " "all"] eq_refl eq_refl).
Defined.

(** ** A package *)

Definition tool_specfile : SpecFile.SpecFile := {|
  SpecFile.name := "tool"; SpecFile.version := "1.0"; SpecFile.release := ""; SpecFile.summary := "";
  SpecFile.license := ""; SpecFile.sources := []; SpecFile.variables := {[ "Source0" := "http://x/a.tar.gz" ]};
  SpecFile.description := text ["A tool"; "that does things"]; SpecFile.prep_script := "";
  SpecFile.build_script := text ["make dir=%{build_dir}"; "make install root=%{proto_dir}"];
  SpecFile.install_script := ""; SpecFile.files := ["/bin/tool"; "/bin/more"]; SpecFile.changelog := "";
|}.

#[local] Existing Instance demo_url.
#[local] Existing Instance dump_hashes.
#[local] Existing Instance demo_object.

Definition tool_disk : FileSystem := {|
  fs_read cwd p :=
    if String.eqb p "tool.spec" then inr (print_spec tool_specfile)
    else if String.eqb cwd "/ws/build/proto" && (String.eqb p "bin/tool" || String.eqb p "bin/more") then inr p
    else inl (IoError "NotFound");
  fs_chdir cwd p := inr p;
  fs_canonicalize cwd p := inr p;
  fs_exists cwd p := false;
  fs_read_dir cwd p := inr [];
  fs_write cwd p content := inr tt;
|}.
#[local] Instance tool_machine : Machine := {|
  shellexpand_full s := inr "/ws";
  create_dir_all log p := inr tt;
  http_get_bytes u := inl "no network";
  write_file log p content := inr tt;
  which_bash := inr "/bin/bash";
  env_vars := [("PATH", "/bin"); ("HOME", "/root")];
  current_dir log cwd := inr cwd;
  run_command log c := inr (Some 0%Z);
  disk log := tool_disk;
|}.

Definition tool_script : string :=
  text ["make dir= /ws/build/i386"; "make install root= /ws/build/proto"].

Lemma run_package_succeeds_witness : ∃ fs,
  run_package_command "tool.spec" "out" (MkState "/home" []) =
    (Ok tt, MkState "/home"
      [CreateDirAll "/ws"; CreateDirAll "/ws/build/i386"; CreateDirAll "/ws/sources"; CreateDirAll "/ws/build/proto";
       WriteFile "/ws/build/i386/build_script.sh" (script_text tool_script);
       Run (MkCommand "/bin/bash" ["-ex"; "/ws/build/i386/build_script.sh"] (Some {[ "PATH" := "/bin" ]}));
       SetCurrentDir "/ws/build/proto"; SetCurrentDir "/home"; PrintManifest (MkManifest [] [] fs [] [] [])]) ∧
  Actions.file_path <$> fs = ["bin/tool"; "bin/more"].
Proof.
  assert (Hob : obliging "/ws" "/bin/bash") by (split; try reflexivity; repeat constructor).
  assert (Hw : writable tool_specfile) by (unfold tool_specfile; spec_writable).
  eexists. split.
  - exact (run_package_succeeds tool_specfile "tool.spec" "out" (MkState "/home" []) "/ws" "/bin/bash" tool_script
      "/ws/build/proto" "/home" _ Hob eq_refl Hw ltac:(discriminate) ltac:(vm_compute; reflexivity)
      ltac:(vm_compute; reflexivity) eq_refl ltac:(vm_compute; reflexivity) eq_refl).
  - vm_compute. reflexivity.
Defined.
